(** * DeepPavlov entity linking: a shallow embedding of the linker and its chunker

    Sources embedded here:
    - [deeppavlov/models/entity_linking/entity_linking_sep.py]
      ([EntityLinkerSep]: [__call__], [link_entities], [morph_parse],
      [sum_scores], [rank_by_description], [find_labels];
      [NerChunkModel.__call__]);
    - [deeppavlov/models/entity_linking/entity_linking.py]
      ([NerChunker.__call__], [NerChunker.sanitize], the acceptance
      rule of [EntityLinker.rank_by_description], and the words that
      [EntityLinker.link_entities] sends to the search, lines 485-528).

    Conventions.
    - A Python [str] is the Rocq [string] holding its UTF-8 encoding.
      Containment, equality, prefix tests and splitting on ASCII separators
      are the same on the encoding; [len], indexing and slicing count code
      points (see [PyStr]).
    - A Python [float] score is a rational of [Q]: the properties below are
      about the formulas, not about rounding.  [round(x, 2)] is a section
      variable.
    - Python [int]s are [Z]; sizes that are counts in the configuration are
      [nat].
    - A [dict] whose iteration order is observed is an association list in
      insertion order ([PyDict]); read-only tables are [gmap]s; a Python [set]
      is a [gset] when only membership is used, and a list in an unspecified
      iteration order when it is iterated.
    - A raised exception is the [Raise] result of the error monad [Py.res]. *)

From Stdlib Require Import QArith ZArith List String Ascii Bool Lia Lqa.
From Stdlib Require Import Permutation Sorted.
From stdpp Require Import gmap strings list.

Open Scope string_scope.

(** ** Python runtime notions *)

Module Py.

Inductive exn : Set :=
| KeyError
| IndexError
| NameError
| AttributeError
| ZeroDivisionError
| ValueError.

Inductive res (A : Type) : Type :=
| Ok (a : A)
| Raise (e : exn).

Arguments Ok {A} a.
Arguments Raise {A} e.

#[global] Instance res_ret : MRet res := fun A a => Ok a.

#[global] Instance res_bind : MBind res :=
  fun A B f m => match m with Ok a => f a | Raise e => Raise e end.

Definition of_option {A} (e : exn) (o : option A) : res A :=
  match o with Some a => Ok a | None => Raise e end.

Definition is_ok {A} (r : res A) : bool :=
  match r with Ok _ => true | Raise _ => false end.

(** [for x in l: body], with the loop state threaded through. *)
Fixpoint for_each {A S} (body : S -> A -> res S) (l : list A) (s : S) : res S :=
  match l with
  | [] => Ok s
  | x :: l' => s' ← body s x; for_each body l' s'
  end.

(** A comprehension [[f x for x in l]] whose body may raise. *)
Fixpoint map_res {A B} (f : A -> res B) (l : list A) : res (list B) :=
  match l with
  | [] => Ok []
  | x :: l' => y ← f x; ys ← map_res f l'; Ok (y :: ys)
  end.

(** [zip] of three and four sequences: as long as the shortest. *)
Fixpoint zip3 {A B C} (la : list A) (lb : list B) (lc : list C) : list (A * B * C) :=
  match la, lb, lc with
  | a :: la', b :: lb', c :: lc' => (a, b, c) :: zip3 la' lb' lc'
  | _, _, _ => []
  end.

Fixpoint zip4 {A B C D} (la : list A) (lb : list B) (lc : list C) (ld : list D)
  : list (A * B * C * D) :=
  match la, lb, lc, ld with
  | a :: la', b :: lb', c :: lc', d :: ld' => (a, b, c, d) :: zip4 la' lb' lc' ld'
  | _, _, _, _ => []
  end.

(** [enumerate(l)] counting from [i]. *)
Fixpoint enumerate_from {A} (i : nat) (l : list A) : list (nat * A) :=
  match l with
  | [] => []
  | x :: l' => (i, x) :: enumerate_from (S i) l'
  end.

(** [l[i]] for an [int] index: negative indices count from the end. *)
Definition getitem {A} (l : list A) (i : Z) : res A :=
  let n := Z.of_nat (length l) in
  if (0 <=? i)%Z then of_option IndexError (l !! Z.to_nat i)
  else if (0 <=? n + i)%Z then of_option IndexError (l !! Z.to_nat (n + i))
  else Raise IndexError.

(** [a // b] and [a % b] on [int]s (floor division, sign of the divisor). *)
Definition floordiv (a b : Z) : res Z :=
  if (b =? 0)%Z then Raise ZeroDivisionError else Ok (a / b)%Z.

Definition modulo (a b : Z) : res Z :=
  if (b =? 0)%Z then Raise ZeroDivisionError else Ok (a mod b)%Z.

End Py.

Import Py.

(** ** Insertion-ordered dictionaries *)

Module PyDict.
Section Dict.
Context {K V : Type} `{EqDecision K}.

(** [d.get(k)] *)
Fixpoint get (d : list (K * V)) (k : K) : option V :=
  match d with
  | [] => None
  | (k', v) :: d' => if decide (k = k') then Some v else get d' k
  end.

(** [d[k] = v]: an existing key keeps its place, a new key goes last. *)
Fixpoint set (d : list (K * V)) (k : K) (v : V) : list (K * V) :=
  match d with
  | [] => [(k, v)]
  | (k', v') :: d' =>
      if decide (k = k') then (k, v) :: d' else (k', v') :: set d' k v
  end.

(** [k in d] *)
Definition mem (d : list (K * V)) (k : K) : bool :=
  match get d k with Some _ => true | None => false end.

(** [d[k]] *)
Definition getitem (d : list (K * V)) (k : K) : res V :=
  of_option KeyError (get d k).

Definition keys (d : list (K * V)) : list K := map fst d.
Definition values (d : list (K * V)) : list V := map snd d.

(** [{k: v for k, v in l}]: later bindings of a key replace earlier ones. *)
Definition of_items (l : list (K * V)) : list (K * V) :=
  fold_left (fun d kv => set d (fst kv) (snd kv)) l [].
End Dict.
End PyDict.

(** ** Rational scores *)

Definition Qltb (x y : Q) : bool := (Qnum x * QDen y <? Qnum y * QDen x)%Z.

(** [min(a, b)] and [max(a, b)] return the first argument unless the second
    is strictly smaller (resp. larger). *)
Definition py_min (a b : Q) : Q := if Qltb b a then b else a.
Definition py_max (a b : Z) : Z := if (a <? b)%Z then b else a.

(** ** Stable sorting, as [sorted(l, key=..., reverse=True)] *)

Section SortedReverse.
Context {A : Type} (key_ltb : A -> A -> bool).

(** [x] comes from a position before every element of [l]: it passes the
    elements with a strictly larger key and stops in front of the first
    element whose key is not larger, so equal keys keep their order. *)
Fixpoint insert_desc (x : A) (l : list A) : list A :=
  match l with
  | [] => [x]
  | y :: l' => if key_ltb x y then y :: insert_desc x l' else x :: y :: l'
  end.

Definition sorted_reverse (l : list A) : list A := fold_right insert_desc [] l.
End SortedReverse.

(** ** Strings *)

Module PyStr.

(** A byte of the form [10xxxxxx] continues a code point. *)
Definition is_cont (c : ascii) : bool :=
  let n := nat_of_ascii c in (128 <=? n)%nat && (n <? 192)%nat.

(** The characters (code points) of a string, each with its bytes. *)
Fixpoint chars_aux (cur : string) (s : string) : list string :=
  match s with
  | EmptyString => match cur with EmptyString => [] | _ => [cur] end
  | String c s' =>
      if is_cont c then chars_aux (cur ++ String c EmptyString) s'
      else match cur with
           | EmptyString => chars_aux (String c EmptyString) s'
           | _ => cur :: chars_aux (String c EmptyString) s'
           end
  end.

Definition chars (s : string) : list string := chars_aux EmptyString s.

Definition of_chars (l : list string) : string := String.concat EmptyString l.

(** [len(s)] *)
Definition len (s : string) : nat := length (chars s).

(** A slice bound, as Python normalises it against the length [n]. *)
Definition clamp (n : nat) (i : Z) : nat :=
  if (i <? 0)%Z then Z.to_nat (Z.max (i + Z.of_nat n) 0)
  else Nat.min (Z.to_nat i) n.

(** [l[a:b]] on a list. *)
Definition slice_list {A} (a b : Z) (l : list A) : list A :=
  let n := length l in
  firstn (clamp n b - clamp n a) (skipn (clamp n a) l).

(** [s[a:b]], [s[a:]], [s[:b]] and [s[i]] *)
Definition slice (a b : Z) (s : string) : string :=
  of_chars (slice_list a b (chars s)).

Definition slice_from (a : Z) (s : string) : string :=
  of_chars (skipn (clamp (len s) a) (chars s)).

Definition slice_to (b : Z) (s : string) : string :=
  of_chars (firstn (clamp (len s) b) (chars s)).

Definition getitem (s : string) (i : Z) : res string :=
  Py.getitem (chars s) i.

(** [s.startswith(p)] *)
Definition startswith (p s : string) : bool := String.prefix p s.

(** [sub in s] *)
Fixpoint contains (sub s : string) : bool :=
  String.prefix sub s ||
  match s with
  | EmptyString => false
  | String _ s' => contains sub s'
  end.

(** [s.split(sep)] for a non-empty separator: [skip] bytes of a separator
    just recognised are still to be passed, [cur] is the piece read so
    far. *)
Fixpoint split_aux (sep : string) (skip : nat) (cur : string) (s : string)
  : list string :=
  match s with
  | EmptyString => [cur]
  | String c s' =>
      match skip with
      | S k => split_aux sep k cur s'
      | O =>
          if String.prefix sep s
          then cur :: split_aux sep (String.length sep - 1) EmptyString s'
          else split_aux sep 0 (cur ++ String c EmptyString) s'
      end
  end.

Definition split (sep s : string) : list string := split_aux sep 0 EmptyString s.

(** [sep.join(l)] *)
Definition join (sep : string) (l : list string) : string := String.concat sep l.

(** The number of a code point, from its bytes. *)
Definition code_point (c : string) : N :=
  match map N_of_ascii (list_ascii_of_string c) with
  | [b0] => b0
  | [b0; b1] => (b0 mod 32) * 64 + b1 mod 64
  | [b0; b1; b2] => ((b0 mod 16) * 64 + b1 mod 64) * 64 + b2 mod 64
  | [b0; b1; b2; b3] =>
      (((b0 mod 8) * 64 + b1 mod 64) * 64 + b2 mod 64) * 64 + b3 mod 64
  | _ => 0
  end%N.

(** The characters Python counts as whitespace ([str.isspace], [\s]). *)
Definition is_space (c : string) : bool :=
  let n := code_point c in
  (((9 <=? n) && (n <=? 13)) || ((28 <=? n) && (n <=? 32))
   || (n =? 133) || (n =? 160) || (n =? 5760)
   || ((8192 <=? n) && (n <=? 8202))
   || (n =? 8232) || (n =? 8233) || (n =? 8239) || (n =? 8287)
   || (n =? 12288))%N.

Fixpoint drop_while {A} (p : A -> bool) (l : list A) : list A :=
  match l with
  | [] => []
  | x :: l' => if p x then drop_while p l' else l
  end.

(** [s.strip()] and [s.strip(",")] *)
Definition strip_with (p : string -> bool) (s : string) : string :=
  of_chars (rev (drop_while p (rev (drop_while p (chars s))))).

Definition strip (s : string) : string := strip_with is_space s.

Definition strip_comma (s : string) : string :=
  strip_with (fun c => bool_decide (c = ",")) s.

(** [s.split()]: the maximal runs of characters that are not whitespace. *)
Fixpoint split_ws_aux (cur : string) (l : list string) : list string :=
  match l with
  | [] => match cur with EmptyString => [] | _ => [cur] end
  | c :: l' =>
      if is_space c
      then match cur with
           | EmptyString => split_ws_aux EmptyString l'
           | _ => cur :: split_ws_aux EmptyString l'
           end
      else split_ws_aux (cur ++ c) l'
  end.

Definition split_ws (s : string) : list string := split_ws_aux EmptyString (chars s).

(** [re.sub(r'\s+', ' ', s)]: every run of whitespace becomes one space. *)
Fixpoint squeeze_ws (in_run : bool) (l : list string) : list string :=
  match l with
  | [] => []
  | c :: l' =>
      if is_space c
      then if in_run then squeeze_ws true l' else " " :: squeeze_ws true l'
      else c :: squeeze_ws false l'
  end.

Definition sub_ws (s : string) : string := of_chars (squeeze_ws false (chars s)).

End PyStr.

(** ** The linker: data *)

(** Facts of the Python runtime that the results depend on: the order in
    which a [set] of index entries is iterated (any order), [round(x, 2)],
    and [str.lower] on one character. *)
Class PyRuntime := {
  set_iter : list (string * Z) -> list (string * Z);
  round2 : Q -> Q;
  lower : string -> string
}.

(** What [self.morph.parse(word)[0]] offers to [morph_parse]: the part of
    speech, the word of the nominative inflection (absent when pymorphy2
    cannot inflect) and the normal form. *)
Record MorphParse := {
  POS : option string;
  inflect_nomn : option string;
  normal_form : string
}.

(** The attributes of an [EntityLinkerSep] object.  [search] stands for
    [self.vectorizer.transform] followed by [self.faiss_index.search] with
    [num_faiss_candidate_entities] neighbours: a row of scores and a row of
    word numbers per queried word.  [entity_ranker] is
    [self.entity_ranker.batch_rank_rels], [re_tokenizer] is
    [re.findall(self.re_tokenizer, _)]. *)
Record EntityLinkerSep := {
  morph : string -> MorphParse;
  word_to_idlist : list (string * list (string * Z));
  entities_ranking_dict : gmap string Z;
  entities_types_sets : gmap string (gset string);
  q_to_label : gmap string string;
  search : list string -> list (list Q) * list (list Z);
  entity_ranker : list string -> list (list string) -> list (list (string * Q));
  num_entities_for_bert_ranking : nat;
  num_faiss_cells : Z;
  include_mention : bool;
  num_entities_to_return : nat;
  stopwords : gset string;
  not_found_tokens : list string;
  not_found_str : string;
  use_descriptions : bool;
  return_confidences : bool;
  max_text_len : Z;
  re_tokenizer : string -> list string;
  full_paragraph : bool;
  max_paragraph_len : Z
}.

(** [self.word_list = list(self.word_to_idlist.keys())] *)
Definition word_list (self : EntityLinkerSep) : list string :=
  PyDict.keys (word_to_idlist self).

(** A result for one mention is a single value in single-answer mode and a
    list otherwise. *)
Inductive shaped (A : Type) : Type :=
| One (a : A)
| Several (l : list A).

Arguments One {A} a.
Arguments Several {A} l.

(** A confidence: the tuple (substring score, popularity, rerank score), or
    the tail of an entity id ([candidate_entity[1:]] taken from the list of
    ids at lines 596-597). *)
Inductive conf : Type :=
| Scores (substr : Q) (pop : Z) (rerank : Q)
| IdTail (s : string).

(** A candidate of the reranking stage: the tuple
    [(entity, substr_score, pop_score, rerank_score)] of lines 726-728. *)
Record Scored := {
  ent : string;
  substr_score : Q;
  pop_score : Z;
  rerank_score : Q
}.

(** The per-document lists filled at lines 446-473. *)
Record WordScan := {
  indices : list nat;
  word_fnd_flags : list bool;
  word_counts : list nat;
  word_tags : list string;
  fnd_words : list string
}.

(** The variables of the loop over word items, lines 527-571.  [index] is the
    loop variable itself: it keeps its last value after the loop, and across
    documents. *)
Record ItemState := {
  candidate_entities_dict : list (nat * list (string * Z * Q));
  prev_word_count : nat;
  prev_index : nat;
  candidate_entities : list (string * Z * Q);
  words_i : nat;
  ind_i : nat;
  index : option nat
}.

(** The values returned by [__call__]; [out_conf] is present when
    [return_confidences] is set. *)
Record Output := {
  out_entity_substr : list (list string);
  out_conf : option (list (list (shaped conf)));
  out_entity_offsets : list (list (Z * Z));
  out_entity_ids : list (list (shaped string));
  out_tags : list (list string);
  out_entity_labels : list (list (shaped string))
}.

(** ** The linker: [sum_scores] (lines 630-645) *)

(** [entities_with_scores_sum[(entity[0], entity[1])] += entity[2]] on a
    [defaultdict(int)]. *)
Definition add_score (d : list (string * Z * Q)) (entity : string * Z * Q)
  : list (string * Z * Q) :=
  let k := entity.1 in
  PyDict.set d k (default 0%Q (PyDict.get d k) + entity.2)%Q.

(** [min(scores_sum, cand_entity_len) / max(substr_len, cand_entity_len)] *)
Definition normalized (substr_len : Z) (scores_sum : Q) (cand_entity_len : Z) : res Q :=
  let den := py_max substr_len cand_entity_len in
  if (den =? 0)%Z then Raise ZeroDivisionError
  else Ok (py_min scores_sum (inject_Z cand_entity_len) / inject_Z den)%Q.

(** Lines 638-642: keep, per entity, the largest score. *)
Definition keep_max (d : list (string * Q)) (entity : string) (score : Q)
  : list (string * Q) :=
  match PyDict.get d entity with
  | Some old => if Qltb old score then PyDict.set d entity score else d
  | None => PyDict.set d entity score
  end.

(** The body of the second loop, lines 636-642. *)
Definition normalize_step (substr_len : Z) (entities_with_scores : list (string * Q))
    (item : string * Z * Q) : res (list (string * Q)) :=
  let '(entity, cand_entity_len, scores_sum) := item in
  score ← normalized substr_len scores_sum cand_entity_len;
  Ok (keep_max entities_with_scores entity score).

Definition sum_scores (candidate_entities : list (string * Z * Q)) (substr_len : Z)
  : res (list (string * Q)) :=
  let entities_with_scores_sum := fold_left add_score candidate_entities [] in
  for_each (normalize_step substr_len) entities_with_scores_sum [].

(** ** The linker: [find_labels] (lines 759-770) *)

(** In the [else] branch the source reads the name [entity_id], which is
    bound only inside the comprehension of the other branch: the lookup of
    the name raises. *)
Definition find_labels_entry (self : EntityLinkerSep) (entity_ids : shaped string)
  : res (shaped string) :=
  match entity_ids with
  | Several l =>
      Ok (Several
            (map (fun entity_id => default entity_id (q_to_label self !! entity_id)) l))
  | One _ =>
      entity_id ← Raise NameError;
      Ok (One (default entity_id (q_to_label self !! entity_id)))
  end.

Definition find_labels (self : EntityLinkerSep)
    (entity_ids_batch : list (list (shaped string)))
  : res (list (list (shaped string))) :=
  map_res (fun entity_ids_list => map_res (find_labels_entry self) entity_ids_list)
    entity_ids_batch.

(** ** The linker: [morph_parse] (lines 622-628) *)

Definition morph_parse (self : EntityLinkerSep) (word : string) : res string :=
  let morph_parse_tok := morph self word in
  if bool_decide (POS morph_parse_tok ∈ [Some "NOUN"; Some "ADJ"; Some "ADJF"])
  then of_option AttributeError (inflect_nomn morph_parse_tok)
  else Ok (normal_form morph_parse_tok).

(** ** The linker: [rank_by_description] (lines 647-757) *)

(** Lines 666-677: the first sentence whose span contains the mention. *)
Fixpoint find_sentence (entity_start_offset entity_end_offset : Z) (num : nat)
    (sentences : list (string * (Z * Z))) : string * nat * Z * Z :=
  match sentences with
  | [] => (EmptyString, 0%nat, 0%Z, 0%Z)
  | (sent, (sent_start_offset, sent_end_offset)) :: rest =>
      if (sent_start_offset <=? entity_start_offset)%Z
         && (entity_end_offset <=? sent_end_offset)%Z
      then (sent, num, (entity_start_offset - sent_start_offset)%Z,
            (entity_end_offset - sent_start_offset)%Z)
      else find_sentence entity_start_offset entity_end_offset (S num) rest
  end.

(** Lines 698-715: one more sentence after and one more before, while the
    paragraph budget allows.  Every round that does not stop adds a
    sentence, so [length sentences_list] rounds are enough. *)
Fixpoint extend_paragraph (self : EntityLinkerSep) (sentences_list : list string)
    (fuel : nat) (context : list string) (cur_sent_len : Z)
    (first_sentence_num last_sentence_num : nat) : list string :=
  match fuel with
  | O => context
  | S fuel' =>
      let '(context, cur_sent_len, last_sentence_num, added) :=
        if (Z.of_nat last_sentence_num <? Z.of_nat (length sentences_list) - 1)%Z
        then
          let next := nth (S last_sentence_num) sentences_list EmptyString in
          let last_sentence_len := Z.of_nat (length (re_tokenizer self next)) in
          if (cur_sent_len + last_sentence_len <? max_paragraph_len self)%Z
          then ((context ++ [next])%list, (cur_sent_len + last_sentence_len)%Z,
                S last_sentence_num, true)
          else (context, cur_sent_len, last_sentence_num, false)
        else (context, cur_sent_len, last_sentence_num, false) in
      let '(context, cur_sent_len, first_sentence_num, added) :=
        if (0 <? first_sentence_num)%nat
        then
          let prev := nth (first_sentence_num - 1) sentences_list EmptyString in
          let first_sentence_len := Z.of_nat (length (re_tokenizer self prev)) in
          if (cur_sent_len + first_sentence_len <? max_paragraph_len self)%Z
          then (prev :: context, (cur_sent_len + first_sentence_len)%Z,
                (first_sentence_num - 1)%nat, true)
          else (context, cur_sent_len, first_sentence_num, added)
        else (context, cur_sent_len, first_sentence_num, added) in
      if added
      then extend_paragraph self sentences_list fuel' context cur_sent_len
             first_sentence_num last_sentence_num
      else context
  end.

(** Lines 662-719: the context handed to the reranker for one mention. *)
Definition make_context (self : EntityLinkerSep) (sentences_list : list string)
    (sentences_offsets_list : list (Z * Z)) (entity_offsets : Z * Z) : string :=
  let '(entity_start_offset, entity_end_offset) := entity_offsets in
  let '(sentence, found_sentence_num, rel_start_offset, rel_end_offset) :=
    find_sentence entity_start_offset entity_end_offset 0
      (combine sentences_list sentences_offsets_list) in
  if bool_decide (sentence = EmptyString) then EmptyString
  else
    let len_sentence := Z.of_nat (PyStr.len sentence) in
    let '(start_of_sentence, end_of_sentence) :=
      if (max_text_len self <? len_sentence)%Z
      then (Z.max (rel_start_offset - max_text_len self / 2) 0,
            Z.min (rel_end_offset + max_text_len self / 2) len_sentence)
      else (0%Z, len_sentence) in
    let context :=
      if include_mention self
      then PyStr.slice start_of_sentence rel_start_offset sentence ++ "[ENT]"
           ++ PyStr.slice rel_start_offset rel_end_offset sentence ++ "[ENT]"
           ++ PyStr.slice rel_end_offset end_of_sentence sentence
      else PyStr.slice start_of_sentence rel_start_offset sentence ++ "[ENT]"
           ++ PyStr.slice rel_end_offset end_of_sentence sentence in
    if full_paragraph self
    then
      let cur_sent_len := Z.of_nat (length (re_tokenizer self context)) in
      PyStr.join " "
        (extend_paragraph self sentences_list (S (length sentences_list))
           [context] cur_sent_len found_sentence_num found_sentence_num)
    else context.

(** The sort keys, compared as Python compares tuples: on the first
    component that differs. *)
Definition key_substr_rerank_pop_ltb (x y : Scored) : bool :=
  if negb (Qeq_bool (substr_score x) (substr_score y))
  then Qltb (substr_score x) (substr_score y)
  else if negb (Qeq_bool (rerank_score x) (rerank_score y))
       then Qltb (rerank_score x) (rerank_score y)
       else (pop_score x <? pop_score y)%Z.

Definition key_substr_pop_ltb (x y : string * Q * Z) : bool :=
  if negb (Qeq_bool x.1.2 y.1.2) then Qltb x.1.2 y.1.2 else (x.2 <? y.2)%Z.

(** The confidence tuple [score[1:]] of a reranked candidate. *)
Definition conf_of (x : Scored) : conf :=
  Scores (substr_score x) (pop_score x) (rerank_score x).

(** [(0.0, 0, 0.0)] *)
Definition zero_conf : conf := Scores 0 0 0.

(** [not l] *)
Definition is_empty {A} (l : list A) : bool :=
  match l with [] => true | _ => false end.

(** The last lines of both ranking loops (600-605 and 751-756): a single
    value in single-answer mode when there is one, a truncated list
    otherwise. *)
Definition answer {A B} (self : EntityLinkerSep) (ids : list A) (confs : list B)
  : res (shaped A * shaped B) :=
  if bool_decide (num_entities_to_return self = 1%nat) && negb (is_empty ids)
     then
       id0 ← Py.getitem ids 0;
       conf0 ← Py.getitem confs 0;
       Ok (One id0, One conf0)
     else Ok (Several (firstn (num_entities_to_return self) ids),
              Several (firstn (num_entities_to_return self) confs)).

Section Linker.
Context `{PyRuntime}.

(** Lines 726-728: substring score and popularity of each reranked
    candidate, [(0.0, 0)] when the pre-rerank table has no entry. *)
Definition merge_scores (entities_scores : list (string * (Q * Z)))
    (scores : list (string * Q)) : list Scored :=
  map (fun '(entity, score) =>
         let sp := default (0%Q, 0%Z) (PyDict.get entities_scores entity) in
         {| ent := entity;
            substr_score := round2 sp.1;
            pop_score := sp.2;
            rerank_score := round2 score |})
      scores.

(** Lines 730-731. *)
Definition keep_candidate (entity : Scored) : bool :=
  Qltb 0.001 (rerank_score entity) && PyStr.startswith "Q" (ent entity).

(** Lines 730-732. *)
Definition filter_and_sort (entities_with_scores : list Scored) : list Scored :=
  sorted_reverse key_substr_rerank_pop_ltb
    (List.filter keep_candidate entities_with_scores).

(** The condition of the second [elif], lines 741-744. *)
Definition low_confidence (top : Scored) : bool :=
  (Qltb (rerank_score top) 0.11 && (pop_score top <? 90)%Z)
  || Qltb (substr_score top) 0.3
  || (Qltb (rerank_score top) 0.13 && (pop_score top <? 20)%Z)
  || (Qltb (rerank_score top) 0.3 && (pop_score top <? 4)%Z)
  || Qeq_bool (substr_score top) 0.5.

(** Lines 735-749. *)
Definition accept (self : EntityLinkerSep) (substr_len : nat)
    (entities_with_scores : list Scored) : list string * list conf :=
  match entities_with_scores with
  | [] => ([not_found_str self], [zero_conf])
  | top :: _ =>
      if (substr_len =? 1)%nat && Qltb (substr_score top) 1
      then ([not_found_str self], [zero_conf])
      else if low_confidence top
           then ([not_found_str self], [zero_conf])
           else (map ent entities_with_scores, map conf_of entities_with_scores)
  end.

(** Lines 723-756 for one mention. *)
Definition rerank_mention (self : EntityLinkerSep) (substr_len : nat)
    (entities_scores : list (string * (Q * Z))) (scores : list (string * Q))
  : res (shaped string * shaped conf) :=
  let entities_with_scores := filter_and_sort (merge_scores entities_scores scores) in
  let '(top_entities, top_conf) := accept self substr_len entities_with_scores in
  answer self top_entities top_conf.

Definition rank_by_description (self : EntityLinkerSep)
    (entity_substr_list : list (list string))
    (entity_offsets_list : list (Z * Z))
    (candidate_entities_list : list (list string))
    (tags : list string)
    (entities_scores_list : list (list (string * (Q * Z))))
    (sentences_list : list string)
    (sentences_offsets_list : list (Z * Z))
    (substr_lens : list nat)
  : res (list (shaped string) * list (shaped conf)) :=
  let contexts :=
    map (fun '(entity_substr, entity_offsets, candidate_entities) =>
           make_context self sentences_list sentences_offsets_list entity_offsets)
        (combine (combine entity_substr_list entity_offsets_list)
           candidate_entities_list) in
  let scores_list := entity_ranker self contexts candidate_entities_list in
  results ←
    map_res
      (fun '(entity_substr, candidate_entities, tag, substr_len, entities_scores,
             scores) =>
         rerank_mention self substr_len entities_scores scores)
      (combine
         (combine
            (combine
               (combine (combine entity_substr_list candidate_entities_list) tags)
               substr_lens)
            entities_scores_list)
         scores_list);
  Ok (map fst results, map snd results).

(** *** [link_entities], lines 434-437: the words of a mention *)

Definition split_words (self : EntityLinkerSep) (entity_substr : string)
  : list string :=
  List.filter
    (fun word => negb (bool_decide (word ∈ stopwords self))
                 && (0 <? PyStr.len word)%nat)
    (PyStr.split " " entity_substr).

(** *** [link_entities], lines 438-478: exact lookup of every word *)

Definition empty_scan : WordScan :=
  {| indices := []; word_fnd_flags := []; word_counts := [];
     word_tags := []; fnd_words := [] |}.

(** Lines 453-458 (and 464-469 for the normal form). *)
Definition push_lookup (self : EntityLinkerSep) (doc_num : nat) (word : string)
    (st : list (string * nat) * WordScan) : list (string * nat) * WordScan :=
  let '(nf_words_doc_nums, d) := st in
  if PyDict.mem (word_to_idlist self) word
  then (nf_words_doc_nums,
        {| indices := indices d;
           word_fnd_flags := (word_fnd_flags d ++ [true])%list;
           word_counts := word_counts d;
           word_tags := word_tags d;
           fnd_words := (fnd_words d ++ [word])%list |})
  else ((nf_words_doc_nums ++ [(word, doc_num)])%list,
        {| indices := indices d;
           word_fnd_flags := (word_fnd_flags d ++ [false])%list;
           word_counts := word_counts d;
           word_tags := word_tags d;
           fnd_words := fnd_words d |}).

(** Lines 459-461 (and 470-472). *)
Definition push_item (i word_count : nat) (tag : string) (d : WordScan) : WordScan :=
  {| indices := (indices d ++ [i])%list;
     word_fnd_flags := word_fnd_flags d;
     word_counts := (word_counts d ++ [word_count])%list;
     word_tags := (word_tags d ++ [tag])%list;
     fnd_words := fnd_words d |}.

(** Lines 452-473, for one word. *)
Definition scan_word (self : EntityLinkerSep) (doc_num i : nat) (tag : string)
    (st : list (string * nat) * nat * WordScan) (word : string)
  : res (list (string * nat) * nat * WordScan) :=
  let '(nf_words_doc_nums, word_count, d) := st in
  let '(nf_words_doc_nums, d) := push_lookup self doc_num word (nf_words_doc_nums, d) in
  let d := push_item i word_count tag d in
  morph_parsed_word ← morph_parse self word;
  let '(nf_words_doc_nums, d) :=
    if bool_decide (word ≠ morph_parsed_word)
    then
      let '(nf_words_doc_nums, d) :=
        push_lookup self doc_num morph_parsed_word (nf_words_doc_nums, d) in
      (nf_words_doc_nums, push_item i word_count tag d)
    else (nf_words_doc_nums, d) in
  Ok (nf_words_doc_nums, S word_count, d).

(** Lines 445-478, for one document. *)
Definition scan_doc (self : EntityLinkerSep)
    (st : list (string * nat) * nat * list WordScan)
    (doc : nat * (list (list string) * list string))
  : res (list (string * nat) * nat * list WordScan) :=
  let '(nf_words_doc_nums, word_count, scans) := st in
  let '(doc_num, (entity_substr_list, tags_list)) := doc in
  '(nf_words_doc_nums, word_count, d) ←
    for_each
      (fun st '(i, (entity_substr, tag)) =>
         for_each (scan_word self doc_num i tag) entity_substr st)
      (enumerate_from 0 (combine entity_substr_list tags_list))
      (nf_words_doc_nums, word_count, empty_scan);
  Ok (nf_words_doc_nums, word_count, (scans ++ [d])%list).

(** *** [link_entities], lines 493-514: search results per document *)

Definition regroup_step
    (st : list (list (list Q)) * list (list (list Z)) * list (list Q) * list (list Z) * nat)
    (x : list Q * list Z * nat)
  : list (list (list Q)) * list (list (list Z)) * list (list Q) * list (list Z) * nat :=
  let '(D_batch, I_batch, D_list, I_list, prev_doc_num) := st in
  let '(D, I', doc_num) := x in
  let '(D_batch, I_batch, D_list, I_list) :=
    if bool_decide (doc_num ≠ prev_doc_num)
    then
      let skipped :=
        if (1 <? doc_num - prev_doc_num)%nat
        then (doc_num - prev_doc_num - 1)%nat else 0%nat in
      ((D_batch ++ [D_list] ++ repeat [] skipped)%list,
       (I_batch ++ [I_list] ++ repeat [] skipped)%list, [], [])
    else (D_batch, I_batch, D_list, I_list) in
  (D_batch, I_batch, (D_list ++ [D])%list, (I_list ++ [I'])%list, doc_num).

Definition regroup (n_docs : nat) (D_all : list (list Q)) (I_all : list (list Z))
    (nf_doc_nums : list nat) : list (list (list Q)) * list (list (list Z)) :=
  let '(D_batch, I_batch, D_list, I_list, _) :=
    fold_left regroup_step (combine (combine D_all I_all) nf_doc_nums)
      ([], [], [], [], 0%nat) in
  let '(D_batch, I_batch) :=
    if negb (is_empty D_list)
    then ((D_batch ++ [D_list])%list, (I_batch ++ [I_list])%list)
    else (D_batch, I_batch) in
  let missing := (n_docs - length D_batch)%nat in
  ((D_batch ++ repeat [] missing)%list, (I_batch ++ repeat [] missing)%list).

(** *** [link_entities], lines 533-577: candidate generation *)

(** Lines 535-544: the neighbour words of one word item and their
    similarities.  A word of the index is its own neighbour (by name) with
    similarity 1.0; otherwise the next row of the search results is used
    (neighbours by number). *)
Definition neighbours (self : EntityLinkerSep) (D : list (list Q))
    (I' : list (list Z)) (fnd_words : list string) (flag : bool)
    (words_i ind_i : nat)
  : res (list (string + Z) * list Q * nat * nat) :=
  if flag
  then
    word ← Py.getitem fnd_words (Z.of_nat words_i);
    Ok ([inl word], [1%Q], S words_i, ind_i)
  else
    scores_list ← Py.getitem D (Z.of_nat ind_i);
    ind_list ← Py.getitem I' (Z.of_nat ind_i);
    let scores_list :=
      if (1 <? num_faiss_cells self)%Z
      then map (fun score => (1 - score)%Q) scores_list
      else scores_list in
    Ok (map inr ind_list, scores_list, words_i, S ind_i).

(** Lines 546-550 and 573-577: append the candidates of the word just
    finished to the list of mention [k]. *)
Definition flush (d : list (nat * list (string * Z * Q))) (k : nat)
    (candidate_entities : list (string * Z * Q))
  : list (nat * list (string * Z * Q)) :=
  let d := if PyDict.mem d k then d else PyDict.set d k [] in
  PyDict.set d k (default [] (PyDict.get d k) ++ candidate_entities)%list.

(** Lines 554-557: the index entries of a neighbour. *)
Definition entities_of (self : EntityLinkerSep) (ind : string + Z)
  : res (list (string * Z)) :=
  match ind with
  | inl word => PyDict.getitem (word_to_idlist self) word
  | inr n =>
      word ← Py.getitem (word_list self) n;
      PyDict.getitem (word_to_idlist self) word
  end.

(** Lines 558-560: the condition of the set comprehension. *)
Definition type_ok (self : EntityLinkerSep) (tag : string) (entity : string * Z)
  : res bool :=
  tag_set ← of_option KeyError (entities_types_sets self !! tag);
  if bool_decide (entity.1 ∈ tag_set) then Ok true
  else
    amb_set ← of_option KeyError (entities_types_sets self !! "AMB");
    Ok (bool_decide (entity.1 ∈ amb_set)).

Fixpoint filter_res {A} (p : A -> res bool) (l : list A) : res (list A) :=
  match l with
  | [] => Ok []
  | x :: l' =>
      b ← p x;
      r ← filter_res p l';
      Ok (if (b : bool) then x :: r else r)
  end.

(** Lines 562-566. *)
Definition add_candidate (score : Q) (candidate_entities : list (string * Z * Q))
    (entity : string * Z) : list (string * Z * Q) :=
  match PyDict.get candidate_entities entity with
  | Some old =>
      if Qltb old score then PyDict.set candidate_entities entity score
      else candidate_entities
  | None => PyDict.set candidate_entities entity score
  end.

(** Lines 553-566, for one neighbour. *)
Definition add_neighbour (self : EntityLinkerSep) (tag : string)
    (candidate_entities : list (string * Z * Q)) (x : (string + Z) * Q)
  : res (list (string * Z * Q)) :=
  let '(ind, score) := x in
  entities_set ← entities_of self ind;
  entities_set ← filter_res (type_ok self tag) entities_set;
  Ok (fold_left (add_candidate score) (set_iter entities_set) candidate_entities).

(** Lines 533-571, for one word item.  (Lines 569-571 only log.) *)
Definition item_step (self : EntityLinkerSep) (D : list (list Q))
    (I' : list (list Z)) (fnd_words : list string) (st : ItemState)
    (item : nat * nat * string * bool) : res ItemState :=
  let '(index, word_count, tag, flag) := item in
  '(ind_list, scores_list, words_i, ind_i) ←
    neighbours self D I' fnd_words flag (words_i st) (ind_i st);
  let '(candidate_entities_dict, candidate_entities) :=
    if bool_decide (word_count ≠ prev_word_count st)
    then (flush (candidate_entities_dict st) (prev_index st) (candidate_entities st),
          [])
    else (candidate_entities_dict st, candidate_entities st) in
  candidate_entities ←
    for_each (add_neighbour self tag) (combine ind_list scores_list)
      candidate_entities;
  Ok {| candidate_entities_dict := candidate_entities_dict;
        prev_word_count := word_count;
        prev_index := index;
        candidate_entities := candidate_entities;
        words_i := words_i;
        ind_i := ind_i;
        index := Some index |}.

(** Lines 527-577: the candidates of every mention of a document, keyed by
    the number of the mention.  [index0] is the value the name [index] has
    on entry (unbound in the first document). *)
Definition collect_candidates (self : EntityLinkerSep) (index0 : option nat)
    (scan : WordScan) (D : list (list Q)) (I' : list (list Z))
  : res (nat * list (nat * list (string * Z * Q))) :=
  st ←
    for_each (item_step self D I' (fnd_words scan))
      (combine
         (combine (combine (indices scan) (word_counts scan)) (word_tags scan))
         (word_fnd_flags scan))
      {| candidate_entities_dict := [];
         prev_word_count := 0;
         prev_index := 0;
         candidate_entities := [];
         words_i := 0;
         ind_i := 0;
         index := index0 |};
  index ← of_option NameError (index st);
  Ok (index, flush (candidate_entities_dict st) index (candidate_entities st)).

(** *** [link_entities], lines 586-606: ranking before the reranker *)

(** Lines 588-590. *)
Definition with_popularity (self : EntityLinkerSep)
    (candidate_entities : list (string * Q)) : list (string * Q * Z) :=
  map (fun candidate_entity =>
         (candidate_entity.1, candidate_entity.2,
          default 0%Z (entities_ranking_dict self !! candidate_entity.1)))
      candidate_entities.

Definition rank_candidates (self : EntityLinkerSep)
    (candidate_entities : list (string * Q)) : list (string * Q * Z) :=
  sorted_reverse key_substr_pop_ltb (with_popularity self candidate_entities).

(** Lines 586-606, for one mention: the ids kept for the reranker, the
    result and its confidences, and the table of scores. *)
Definition pre_rank (self : EntityLinkerSep) (candidate_entities : list (string * Q))
  : res (list string * shaped string * shaped conf * list (string * (Q * Z))) :=
  let ranked := rank_candidates self candidate_entities in
  let entities_scores :=
    PyDict.of_items (map (fun x => (x.1.1, (x.1.2, x.2))) ranked) in
  let candidate_entities :=
    firstn (num_entities_for_bert_ranking self) (map (fun x => x.1.1) ranked) in
  let conf :=
    firstn (num_entities_for_bert_ranking self)
      (map (fun candidate_entity => IdTail (PyStr.slice_from 1 candidate_entity))
         candidate_entities) in
  '(ids, confs) ← answer self candidate_entities conf;
  Ok (candidate_entities, ids, confs, entities_scores).

(** *** [link_entities], lines 518-618: one document *)

Definition link_doc (self : EntityLinkerSep) (index0 : option nat)
    (entity_substr_list : list (list string)) (entity_offsets_list : list (Z * Z))
    (sentences_list : list string) (sentences_offsets_list : list (Z * Z))
    (scan : WordScan) (tags : list string) (D : list (list Q)) (I' : list (list Z))
  : res (option nat * list (shaped string) * list (shaped conf)) :=
  if is_empty entity_substr_list then Ok (index0, [], [])
  else
    let substr_lens := map (fun entity_substr => length entity_substr) entity_substr_list in
    '(index, candidate_entities_dict) ← collect_candidates self index0 scan D I';
    candidate_entities_total ←
      map_res
        (fun '(candidate_entities, substr_len) =>
           sum_scores candidate_entities (Z.of_nat substr_len))
        (combine (PyDict.values candidate_entities_dict) substr_lens);
    ranked ←
      map_res (fun '(entity_substr, candidate_entities) => pre_rank self candidate_entities)
        (combine entity_substr_list candidate_entities_total);
    let candidate_entities_list := map (fun r => r.1.1.1) ranked in
    let entity_ids_list := map (fun r => r.1.1.2) ranked in
    let conf_list := map (fun r => r.1.2) ranked in
    let entities_scores_list := map (fun r => r.2) ranked in
    if use_descriptions self
    then
      '(entity_ids_list, conf_list) ←
        rank_by_description self entity_substr_list entity_offsets_list
          candidate_entities_list tags entities_scores_list sentences_list
          sentences_offsets_list substr_lens;
      Ok (Some index, entity_ids_list, conf_list)
    else Ok (Some index, entity_ids_list, conf_list).

(** *** [link_entities] (lines 428-620) *)

Definition link_entities (self : EntityLinkerSep)
    (entity_substr_batch : list (list string)) (tags_batch : list (list string))
    (entity_offsets_batch : list (list (Z * Z)))
    (sentences_batch : list (list string))
    (sentences_offsets_batch : list (list (Z * Z)))
  : res (list (list (shaped string)) * list (list (shaped conf))) :=
  let entity_substr_batch := map (map (split_words self)) entity_substr_batch in
  '(nf_words_doc_nums, _, scans) ←
    for_each (scan_doc self)
      (enumerate_from 0 (combine entity_substr_batch tags_batch))
      ([], 0%nat, []);
  let nf_words := map fst nf_words_doc_nums in
  let nf_doc_nums := map snd nf_words_doc_nums in
  let '(D_all, I_all) :=
    if negb (is_empty nf_words) then search self nf_words else ([], []) in
  let '(D_batch, I_batch) :=
    regroup (length entity_substr_batch) D_all I_all nf_doc_nums in
  '(_, entity_ids_batch, conf_batch) ←
    for_each
      (fun '(index, entity_ids_batch, conf_batch)
           '(entity_substr_list, entity_offsets_list, sentences_list,
             sentences_offsets_list, scan, tags, D, I') =>
         '(index, entity_ids_list, conf_list) ←
           link_doc self index entity_substr_list entity_offsets_list sentences_list
             sentences_offsets_list scan tags D I';
         Ok (index, (entity_ids_batch ++ [entity_ids_list])%list,
             (conf_batch ++ [conf_list])%list))
      (combine
         (combine
            (combine
               (combine
                  (combine
                     (combine (combine entity_substr_batch entity_offsets_batch)
                        sentences_batch)
                     sentences_offsets_batch)
                  scans)
               tags_batch)
            D_batch)
         I_batch)
      (None, [], []);
  Ok (entity_ids_batch, conf_batch).

(** *** [__call__] (lines 321-426) *)

(** Lines 377-381. *)
Definition is_not_found (self : EntityLinkerSep) (entity_substr : string) : bool :=
  existsb (fun tok => PyStr.contains tok entity_substr) (not_found_tokens self).

(** Lines 386-391: the result recorded for a deny-listed mention. *)
Definition not_found_answer (self : EntityLinkerSep) : shaped string * shaped conf :=
  if bool_decide (num_entities_to_return self = 1%nat)
  then (One (not_found_str self), One zero_conf)
  else (Several [not_found_str self], Several [zero_conf]).

(** Lines 371-403: the mentions of a document, deny-listed ones apart. *)
Definition mentions (entity_substr_list : list string) (tags_list : list string)
    (entity_offsets_list : list (Z * Z)) : list (string * string * (Z * Z)) :=
  combine (combine entity_substr_list tags_list) entity_offsets_list.

Definition nf_mentions (self : EntityLinkerSep)
    (doc : list (string * string * (Z * Z))) : list (string * string * (Z * Z)) :=
  List.filter (fun m => is_not_found self m.1.1) doc.

Definition fnd_mentions (self : EntityLinkerSep)
    (doc : list (string * string * (Z * Z))) : list (string * string * (Z * Z)) :=
  List.filter (fun m => negb (is_not_found self m.1.1)) doc.

(** Lines 367-420: everything before the labels are looked up. *)
Definition link_batch (self : EntityLinkerSep)
    (entity_substr_batch : list (list string))
    (entity_offsets_batch : list (list (Z * Z)))
    (tags_batch : list (list string))
    (sentences_offsets_batch : list (list (Z * Z)))
    (sentences_batch : list (list string))
  : res (list (list string) * list (list string) * list (list (Z * Z))
         * list (list (shaped string)) * list (list (shaped conf))) :=
  let docs :=
    map (fun '(entity_substr_list, tags_list, entity_offsets_list) =>
           mentions entity_substr_list tags_list entity_offsets_list)
        (combine (combine entity_substr_batch tags_batch) entity_offsets_batch) in
  let nf_batch := map (nf_mentions self) docs in
  let fnd_batch := map (fnd_mentions self) docs in
  '(fnd_entity_ids_batch, fnd_conf_batch) ←
    link_entities self
      (map (map (fun m => m.1.1)) fnd_batch)
      (map (map (fun m => m.1.2)) fnd_batch)
      (map (map (fun m => m.2)) fnd_batch)
      sentences_batch sentences_offsets_batch;
  merged ←
    map_res
      (fun '(i, (nf, fnd)) =>
         fnd_entity_ids ← Py.getitem fnd_entity_ids_batch (Z.of_nat i);
         fnd_conf ← Py.getitem fnd_conf_batch (Z.of_nat i);
         Ok ((map (fun m => m.1.1) nf ++ map (fun m => m.1.1) fnd)%list,
             (map (fun m => m.1.2) nf ++ map (fun m => m.1.2) fnd)%list,
             (map (fun m => m.2) nf ++ map (fun m => m.2) fnd)%list,
             (map (fun _ => (not_found_answer self).1) nf ++ fnd_entity_ids)%list,
             (map (fun _ => (not_found_answer self).2) nf ++ fnd_conf)%list))
      (enumerate_from 0 (combine nf_batch fnd_batch));
  Ok (map (fun r => r.1.1.1.1) merged, map (fun r => r.1.1.1.2) merged,
      map (fun r => r.1.1.2) merged, map (fun r => r.1.2) merged,
      map (fun r => r.2) merged).

Definition EntityLinkerSep_call (self : EntityLinkerSep)
    (entity_substr_batch : list (list string))
    (entity_offsets_batch : list (list (Z * Z)))
    (tags_batch : list (list string))
    (sentences_offsets_batch : list (list (Z * Z)))
    (sentences_batch : list (list string)) : res Output :=
  '(entity_substr_batch, tags_batch, entity_offsets_batch, entity_ids_batch,
    conf_batch) ←
    link_batch self entity_substr_batch entity_offsets_batch tags_batch
      sentences_offsets_batch sentences_batch;
  entity_labels_batch ← find_labels self entity_ids_batch;
  Ok {| out_entity_substr := entity_substr_batch;
        out_conf := if return_confidences self then Some conf_batch else None;
        out_entity_offsets := entity_offsets_batch;
        out_entity_ids := entity_ids_batch;
        out_tags := tags_batch;
        out_entity_labels := entity_labels_batch |}.
End Linker.

(** ** The chunker: [NerChunker] (entity_linking.py, lines 42-198) *)

(** The attributes of a [NerChunker] object.  [tokenize] is
    [self.tokenizer.tokenize], [chunker_re_tokenizer] is
    [re.findall(self.re_tokenizer, _)] and [sent_tokenize] is nltk's
    function.  The class has no attribute [max_chunk]. *)
Record NerChunker := {
  max_seq_len : Z;
  max_chunk_len : Z;
  batch_size : Z;
  chunker_re_tokenizer : string -> list string;
  tokenize : string -> list string;
  sent_tokenize : string -> list string;
  punct_ext : string;
  russian_letters : string
}.

(** An entry of a chunk's sentence list: a sentence, or the list of tokens
    that line 165 stores in its place. *)
Inductive SentenceEntry : Type :=
| SentText (s : string)
| SentTokens (l : list string).

(** The four lists that [__call__] fills.  The lists of spans and of
    sentences are objects that stay shared with the batch lists after they
    are stored there, so the batch lists hold references into [offsets_objs]
    and [sentences_objs]. *)
Record Chunks := {
  text_batch : list string;
  nums_batch : list nat;
  sentences_offsets_batch : list nat;
  sentences_batch : list nat;
  offsets_objs : list (list (Z * Z));
  sentences_objs : list (list SentenceEntry)
}.

(** The other variables of the loop over sentences. *)
Record Cursor := {
  text : string;
  cur_len : Z;
  cur_chunk_len : Z;
  start : Z;
  sentences_offsets_list : nat;
  sentences_list : nat
}.

(** The value returned by [NerChunker.__call__]. *)
Record ChunkerOutput := {
  text_batch_list : list (list string);
  nums_batch_list : list (list nat);
  sentences_offsets_batch_list : list (list (list (Z * Z)));
  sentences_batch_list : list (list (list SentenceEntry))
}.

Section Chunker.
Context `{PyRuntime}.

(** [self.max_chunk]: no such attribute. *)
Definition max_chunk (self : NerChunker) : res Z := Raise AttributeError.

(** The one-character string holding a double quote. *)
Definition quote : string := String (ascii_of_nat 34) EmptyString.

Definition is_sentence_end (c : string) : bool :=
  bool_decide (c ∈ ["."; "!"; "?"]).

(** Lines 189-194: the [while] loop of [sanitize]; [i] only decreases. *)
Fixpoint sanitize_loop (self : NerChunker) (cs : list string) (i : nat) : res nat :=
  c ← Py.getitem cs (Z.of_nat i);
  if PyStr.contains c (punct_ext self) && (0 <? i)%nat
  then
    match i with
    | O => Ok i
    | S i' =>
        ci ← Py.getitem cs (Z.of_nat i');
        before ← Py.getitem cs (Z.of_nat i' - 1);
        before2 ← (if (1 <? i')%nat then Py.getitem cs (Z.of_nat i' - 2) else Ok EmptyString);
        if (is_sentence_end ci && PyStr.contains (lower before) (russian_letters self))
           || ((1 <? i')%nat && is_sentence_end ci && bool_decide (before = quote)
               && PyStr.contains (lower before2) (russian_letters self))
        then Ok i'
        else sanitize_loop self cs i'
    end
  else Ok i.

(** Lines 184-198. *)
Definition sanitize (self : NerChunker) (text : string) : res string :=
  let cs := PyStr.chars text in
  let text_len := length cs in
  text ←
    (if (0 <? text_len)%nat
        && negb (is_sentence_end (nth (text_len - 1) cs EmptyString))
     then
       i ← sanitize_loop self cs (text_len - 1);
       Ok (PyStr.slice_to (Z.of_nat i + 1) text)
     else Ok text);
  Ok (PyStr.sub_ws text).

(** Lines 104-105 and 133-134: the number of word pieces of a text. *)
Definition pieces_len (self : NerChunker) (s : string) : Z :=
  fold_left Z.add
    (map (fun token => Z.of_nat (length (tokenize self token)))
       (chunker_re_tokenizer self s))
    0%Z.

(** [l.append(x)] on the list object [r]. *)
Definition append_obj {A} (r : nat) (x : A) (objs : list (list A)) : list (list A) :=
  <[r := (default [] (objs !! r) ++ [x])%list]> objs.

(** Lines 116-119, 145-148 and 170-173: store the current chunk. *)
Definition emit (n : nat) (text : string) (c : Cursor) (b : Chunks) : Chunks :=
  {| text_batch := (text_batch b ++ [text])%list;
     nums_batch := (nums_batch b ++ [n])%list;
     sentences_offsets_batch :=
       (sentences_offsets_batch b ++ [sentences_offsets_list c])%list;
     sentences_batch := (sentences_batch b ++ [sentences_list c])%list;
     offsets_objs := offsets_objs b;
     sentences_objs := sentences_objs b |}.

Definition emit_if_text (n : nat) (text : string) (c : Cursor) (b : Chunks) : Chunks :=
  if bool_decide (text = EmptyString) then b else emit n text c b.

(** [sentences_offsets_list.append(span); sentences_list.append(entry)] *)
Definition append_sentence (span : Z * Z) (entry : SentenceEntry) (c : Cursor)
    (b : Chunks) : Chunks :=
  {| text_batch := text_batch b;
     nums_batch := nums_batch b;
     sentences_offsets_batch := sentences_offsets_batch b;
     sentences_batch := sentences_batch b;
     offsets_objs := append_obj (sentences_offsets_list c) span (offsets_objs b);
     sentences_objs := append_obj (sentences_list c) entry (sentences_objs b) |}.

(** New list objects holding [spans] and [entries]; their references. *)
Definition new_lists (spans : list (Z * Z)) (entries : list SentenceEntry)
    (b : Chunks) : Chunks * nat * nat :=
  ({| text_batch := text_batch b;
      nums_batch := nums_batch b;
      sentences_offsets_batch := sentences_offsets_batch b;
      sentences_batch := sentences_batch b;
      offsets_objs := (offsets_objs b ++ [spans])%list;
      sentences_objs := (sentences_objs b ++ [entries])%list |},
   length (offsets_objs b), length (sentences_objs b)).

(** Lines 133-157: one piece of a sentence that was split at commas. *)
Definition chunk_comma_piece (self : NerChunker) (n : nat) (sentence : string)
    (st : Chunks * Cursor) (chunk : string) : Chunks * Cursor :=
  let '(b, c) := st in
  let chunk_len := pieces_len self chunk in
  if (cur_chunk_len c + chunk_len <? max_seq_len self)%Z
  then
    let end_ := (start c + Z.of_nat (PyStr.len chunk) + 1)%Z in
    (append_sentence (start c, end_) (SentText chunk) c b,
     {| text := text c ++ chunk ++ ", ";
        cur_len := cur_len c;
        cur_chunk_len := (cur_chunk_len c + (chunk_len + 1))%Z;
        start := (end_ + 1)%Z;
        sentences_offsets_list := sentences_offsets_list c;
        sentences_list := sentences_list c |})
  else
    let text := PyStr.strip_comma (PyStr.strip (text c)) in
    let b := emit_if_text n text c b in
    let chunk :=
      PyStr.join " "
        (PyStr.slice_list 0 (max_chunk_len self) (PyStr.split_ws chunk)) in
    let end_ := Z.of_nat (PyStr.len chunk) in
    let '(b, offsets_ref, sentences_ref) :=
      new_lists [(0%Z, end_)] [SentText sentence] b in
    (b,
     {| text := chunk ++ ", ";
        cur_len := cur_len c;
        cur_chunk_len := chunk_len;
        start := (end_ + 1)%Z;
        sentences_offsets_list := offsets_ref;
        sentences_list := sentences_ref |}).

(** Lines 159-166: the split of a long sentence without commas into windows
    of [max_chunk_len] words. *)
Definition chunk_windows (self : NerChunker) (n : nat) (sentence : string)
    (b : Chunks) : res Chunks :=
  let chunk_tokens := PyStr.split_ws sentence in
  whole ← Py.floordiv (Z.of_nat (length chunk_tokens)) (max_chunk_len self);
  divisor ← max_chunk self;
  rest ← Py.modulo (Z.of_nat (length chunk_tokens)) divisor;
  let num_chunks := (whole + (if (0 <? rest)%Z then 1 else 0))%Z in
  Ok (fold_left
        (fun b ii =>
           let chunk_tokens_elem :=
             PyStr.slice_list (Z.of_nat ii * max_chunk_len self)
               ((Z.of_nat ii + 1) * max_chunk_len self) chunk_tokens in
           let '(b, offsets_ref, sentences_ref) :=
             new_lists [(0%Z, Z.of_nat (length chunk_tokens_elem))]
               [SentTokens chunk_tokens_elem] b in
           {| text_batch := (text_batch b ++ [PyStr.join " " chunk_tokens_elem])%list;
              nums_batch := (nums_batch b ++ [n])%list;
              sentences_offsets_batch := (sentences_offsets_batch b ++ [offsets_ref])%list;
              sentences_batch := (sentences_batch b ++ [sentences_ref])%list;
              offsets_objs := offsets_objs b;
              sentences_objs := sentences_objs b |})
        (seq 0 (Z.to_nat num_chunks)) b).

(** Lines 102-166: one sentence of document [n]. *)
Definition chunk_sentence (self : NerChunker) (n : nat) (st : Chunks * Cursor)
    (sentence : string) : res (Chunks * Cursor) :=
  let '(b, c) := st in
  let sentence_len := pieces_len self sentence in
  if (cur_len c + sentence_len <? max_seq_len self)%Z
  then
    let end_ := (start c + Z.of_nat (PyStr.len sentence))%Z in
    Ok (append_sentence (start c, end_) (SentText sentence) c b,
        {| text := text c ++ sentence ++ " ";
           cur_len := (cur_len c + sentence_len)%Z;
           cur_chunk_len := 0;
           start := (end_ + 1)%Z;
           sentences_offsets_list := sentences_offsets_list c;
           sentences_list := sentences_list c |})
  else
    let text := PyStr.strip (text c) in
    let b := emit_if_text n text c b in
    if (sentence_len <? max_seq_len self)%Z
    then
      let end_ := Z.of_nat (PyStr.len sentence) in
      let '(b, offsets_ref, sentences_ref) :=
        new_lists [(0%Z, end_)] [SentText sentence] b in
      Ok (b,
          {| text := sentence ++ " ";
             cur_len := sentence_len;
             cur_chunk_len := 0;
             start := (end_ + 1)%Z;
             sentences_offsets_list := offsets_ref;
             sentences_list := sentences_ref |})
    else
      let c := {| text := text;
                  cur_len := cur_len c;
                  cur_chunk_len := 0;
                  start := start c;
                  sentences_offsets_list := sentences_offsets_list c;
                  sentences_list := sentences_list c |} in
      if PyStr.contains "," sentence
      then Ok (fold_left (chunk_comma_piece self n sentence)
                 (PyStr.split ", " sentence) (b, c))
      else
        b ← chunk_windows self n sentence b;
        Ok (b, c).

(** Lines 90-173: one document. *)
Definition chunk_doc (self : NerChunker) (st : Chunks * Z) (doc : nat * string)
  : res (Chunks * Z) :=
  let '(b, last_chunk_len) := st in
  let '(n, doc) := doc in
  let '(b, offsets_ref, sentences_ref) := new_lists [] [] b in
  doc_pieces ← map_res (sanitize self) (PyStr.split (String "010"%char EmptyString) doc);
  let doc_pieces := List.filter (fun doc_piece => (1 <? PyStr.len doc_piece)%nat) doc_pieces in
  let sentences := concat (map (sent_tokenize self) doc_pieces) in
  '(b, c) ←
    for_each (chunk_sentence self n) sentences
      (b, {| text := EmptyString;
             cur_len := 0;
             cur_chunk_len := last_chunk_len;
             start := 0;
             sentences_offsets_list := offsets_ref;
             sentences_list := sentences_ref |});
  let text := PyStr.strip_comma (PyStr.strip (text c)) in
  Ok (emit_if_text n text c b, cur_chunk_len c).

(** Lines 175-180: groups of [batch_size] chunks. *)
Definition batches {A} (self : NerChunker) (num_batches : Z) (l : list A)
  : list (list A) :=
  map (fun jj =>
         PyStr.slice_list (Z.of_nat jj * batch_size self)
           ((Z.of_nat jj + 1) * batch_size self) l)
      (seq 0 (Z.to_nat num_batches)).

(** [NerChunker.__call__] (lines 66-182). *)
Definition NerChunker_call (self : NerChunker) (docs_batch : list string)
  : res ChunkerOutput :=
  '(b, _) ←
    for_each (chunk_doc self) (enumerate_from 0 docs_batch)
      ({| text_batch := []; nums_batch := [];
          sentences_offsets_batch := []; sentences_batch := [];
          offsets_objs := []; sentences_objs := [] |}, 0%Z);
  whole ← Py.floordiv (Z.of_nat (length (text_batch b))) (batch_size self);
  rest ← Py.modulo (Z.of_nat (length (text_batch b))) (batch_size self);
  let num_batches := (whole + (if (0 <? rest)%Z then 1 else 0))%Z in
  Ok {| text_batch_list := batches self num_batches (text_batch b);
        nums_batch_list := batches self num_batches (nums_batch b);
        sentences_offsets_batch_list :=
          batches self num_batches
            (map (fun r => default [] (offsets_objs b !! r))
               (sentences_offsets_batch b));
        sentences_batch_list :=
          batches self num_batches
            (map (fun r => default [] (sentences_objs b !! r))
               (sentences_batch b)) |}.
End Chunker.

(** ** [EntityLinker.rank_by_description], the acceptance rule
    (entity_linking.py, lines 708-713) *)

Definition accept_EntityLinker (not_found : string) (entities_with_scores : list Scored)
  : list string * list conf :=
  match entities_with_scores with
  | top :: _ =>
      if Qltb 1 (7.5 * rerank_score top)
      then (map ent entities_with_scores, map conf_of entities_with_scores)
      else ([not_found], [zero_conf])
  | [] => ([not_found], [zero_conf])
  end.

(** ** Notions used to state the properties *)

(** The similarity scores that a candidate list holds for the pair
    [k = (entity id, label length)], in order, and their sum. *)
Definition scores_of (k : string * Z) (candidate_entities : list (string * Z * Q))
  : list Q :=
  map snd (List.filter (fun c => bool_decide (c.1 = k)) candidate_entities).

Definition score_sum (k : string * Z) (candidate_entities : list (string * Z * Q)) : Q :=
  fold_left Qplus (scores_of k candidate_entities) 0%Q.

(** [min(score_sum, label_len) / max(substr_len, label_len)] *)
Definition normalized_score (substr_len : Z) (sum : Q) (label_len : Z) : Q :=
  (py_min sum (inject_Z label_len) / inject_Z (py_max substr_len label_len))%Q.

(** Descending order of the two sort keys. *)
Definition substr_pop_ge (x y : string * Q * Z) : Prop :=
  (y.1.2 < x.1.2)%Q \/ (x.1.2 == y.1.2 /\ y.2 <= x.2)%Z.

Definition substr_rerank_pop_ge (x y : Scored) : Prop :=
  (substr_score y < substr_score x)%Q
  \/ (substr_score x == substr_score y
      /\ ((rerank_score y < rerank_score x)%Q
          \/ (rerank_score x == rerank_score y /\ (pop_score y <= pop_score x)%Z))).

(** The tiers of the confidence floor, (rerank score, popularity). *)
Definition confidence_tiers : list (Q * Z) := [(0.11%Q, 90%Z); (0.13%Q, 20%Z); (0.3%Q, 4%Z)].

Definition below_tier (top : Scored) (tier : Q * Z) : bool :=
  Qltb (rerank_score top) tier.1 && (pop_score top <? tier.2)%Z.

(** The rejection condition in the words of the specification: no candidate,
    or a one-word mention whose top candidate has a substring score below 1,
    or a top candidate below every tier of the floor. *)
Definition rejection_as_specified (substr_len : nat) (entities_with_scores : list Scored)
  : bool :=
  match entities_with_scores with
  | [] => true
  | top :: _ =>
      ((substr_len =? 1)%nat && Qltb (substr_score top) 1)
      || forallb (below_tier top) confidence_tiers
  end.

(** The rejection condition of lines 735-746. *)
Definition rejection (substr_len : nat) (entities_with_scores : list Scored) : bool :=
  match entities_with_scores with
  | [] => true
  | top :: _ =>
      ((substr_len =? 1)%nat && Qltb (substr_score top) 1)
      || Qltb (substr_score top) 0.3
      || Qeq_bool (substr_score top) 0.5
      || existsb (below_tier top) confidence_tiers
  end.

(** An entity id is allowed for a tag when it is in the type set of the tag
    or in the "AMB" set. *)
Definition type_allowed (self : EntityLinkerSep) (tag : string) (entity_id : string)
  : Prop :=
  exists tag_set, entities_types_sets self !! tag = Some tag_set
    /\ (entity_id ∈ tag_set
        \/ exists amb_set, entities_types_sets self !! "AMB" = Some amb_set
                          /\ entity_id ∈ amb_set).

(** Iterating over a set yields elements of the set. *)
Definition set_iter_sound `{PyRuntime} : Prop :=
  forall (l : list (string * Z)) (x : string * Z), In x (set_iter l) -> In x l.

(** The word items of a scan: the tuples of the [zip] at lines 533-534. *)
Definition scan_items (d : WordScan) : list (nat * nat * string * bool) :=
  combine (combine (combine (indices d) (word_counts d)) (word_tags d))
    (word_fnd_flags d).

Definition item_index (it : nat * nat * string * bool) : nat := it.1.1.1.
Definition item_wc (it : nat * nat * string * bool) : nat := it.1.1.2.
Definition item_tag (it : nat * nat * string * bool) : string := it.1.2.
Definition item_flag (it : nat * nat * string * bool) : bool := it.2.

(** The four lists of a scan grow together. *)
Definition aligned (d : WordScan) : Prop :=
  length (word_counts d) = length (indices d)
  /\ length (word_tags d) = length (indices d)
  /\ length (word_fnd_flags d) = length (indices d).

(** [word in self.word_to_idlist] *)
Definition in_index (self : EntityLinkerSep) (word : string) : bool :=
  PyDict.mem (word_to_idlist self) word.

(** Lines 453-461 (and 464-472) together: one looked-up form of a word. *)
Definition push_form (self : EntityLinkerSep) (doc_num i word_count : nat)
    (tag : string) (st : list (string * nat) * WordScan) (form : string)
  : list (string * nat) * WordScan :=
  let '(nf_words_doc_nums, d) := push_lookup self doc_num form st in
  (nf_words_doc_nums, push_item i word_count tag d).

(** The forms under which a word is looked up: the word itself and, when it
    differs, its normal form. *)
Definition lookup_forms (word morph_parsed_word : string) : list string :=
  if bool_decide (word ≠ morph_parsed_word) then [word; morph_parsed_word]
  else [word].

(** A relation that holds between every element and the next one. *)
Definition adjacent {A} (R : A -> A -> Prop) (l : list A) : Prop :=
  forall k a b, l !! k = Some a -> l !! S k = Some b -> R a b.

(** Consecutive word items with one word count belong to one mention. *)
Definition same_word (a b : nat * nat * string * bool) : Prop :=
  item_wc b = item_wc a -> item_index b = item_index a.

(** Consecutive word items belong to one mention, or to a mention and the
    next one and then have different word counts. *)
Definition next_word (a b : nat * nat * string * bool) : Prop :=
  item_index b = item_index a
  \/ (item_index b = S (item_index a) /\ item_wc b ≠ item_wc a).

(** What the scan of a document guarantees: [tags] are the tags of its
    mentions, [wc0] and [wc] the word counter before and after, [new] the
    words sent to the search. *)
Definition scan_facts (self : EntityLinkerSep) (tags : list string) (doc_num : nat)
    (wc0 wc : nat) (new : list (string * nat)) (d : WordScan) : Prop :=
  aligned d
  /\ Forall (fun it => tags !! item_index it = Some (item_tag it)
                       /\ (wc0 <= item_wc it < wc)%nat)
       (scan_items d)
  /\ adjacent same_word (scan_items d)
  /\ Forall (fun w => in_index self w = true) (fnd_words d)
  /\ length (fnd_words d) = length (List.filter (fun b => b) (word_fnd_flags d))
  /\ Forall (fun x => x.2 = doc_num) new
  /\ length new = length (List.filter negb (word_fnd_flags d)).

(** What it guarantees in addition when [k] mentions have been scanned and
    each of them has a word. *)
Definition tight_facts (k : nat) (d : WordScan) : Prop :=
  adjacent next_word (scan_items d)
  /\ (forall it, head (scan_items d) = Some it -> item_index it = 0%nat)
  /\ match k with
     | O => scan_items d = []
     | S k' => exists it, last (scan_items d) = Some it /\ item_index it = k'
     end.

(** ** Notions used to state the properties of a batch *)

(** A candidate is allowed for mention [p] of a document with tags [tags]. *)
Definition candidate_allowed (self : EntityLinkerSep) (tags : list string) (p : nat)
    (c : string * Z * Q) : Prop :=
  exists tag, tags !! p = Some tag /\ type_allowed self tag c.1.1.

(** An index that [l[i]] accepts: negative indices count from the end. *)
Definition valid_index {A} (l : list A) (i : Z) : Prop :=
  (- Z.of_nat (length l) <= i < Z.of_nat (length l))%Z.

(** A neighbour whose entry the inverted index has: a word of the index, or
    the number of one. *)
Definition resolvable (self : EntityLinkerSep) (ind : string + Z) : Prop :=
  match ind with
  | inl word => in_index self word = true
  | inr n => valid_index (word_list self) n
  end.

(** A result in the shape of the list mode. *)
Definition is_several {A} (x : shaped A) : Prop :=
  match x with Several _ => True | One _ => False end.

(** The rows of the search results that belong to document [j]. *)
Definition rows_of {A} (j : nat) (rows : list (A * nat)) : list A :=
  map fst (List.filter (fun r => (r.2 =? j)%nat) rows).

(** The document numbers of the rows never decrease. *)
Definition docs_sorted {A} (rows : list (A * nat)) : Prop :=
  forall i1 i2 x1 x2, (i1 <= i2)%nat -> rows !! i1 = Some x1 -> rows !! i2 = Some x2 ->
                      (x1.2 <= x2.2)%nat.

(** The morphological analyser can put every word in its normal form. *)
Definition morph_total (self : EntityLinkerSep) : Prop :=
  forall word, exists normal, morph_parse self word = Ok normal.

(** What is known after the scan of [k] documents. *)
Definition batch_scanned (self : EntityLinkerSep) (words_batch : list (list (list string)))
    (tags_batch : list (list string)) (k : nat)
    (st : list (string * nat) * nat * list WordScan) : Prop :=
  let '(nf, wc, scans) := st in
  length scans = k
  /\ List.Forall (fun x => (x.2 < k)%nat) nf
  /\ docs_sorted nf
  /\ forall j d,
      scans !! j = Some d ->
      exists words_list tags_list wc0 wc1 new,
        words_batch !! j = Some words_list
        /\ tags_batch !! j = Some tags_list
        /\ scan_facts self tags_list j wc0 wc1 new d
        /\ (Forall (fun words => words ≠ []) words_list ->
            tight_facts (length (combine words_list tags_list)) d)
        /\ length (List.filter (fun x => (x.2 =? j)%nat) nf) = length new.

(** The search returns one row of distances and one row of word numbers
    for every query word, and the numbers are numbers of words of the
    index. *)
Definition search_ok (self : EntityLinkerSep) : Prop :=
  forall words,
    length (search self words).1 = length words
    /\ length (search self words).2 = length words
    /\ List.Forall (List.Forall (valid_index (word_list self))) (search self words).2.

(** The reranker returns one list of scores for every list of candidates. *)
Definition ranker_ok (self : EntityLinkerSep) : Prop :=
  forall contexts cands, length (entity_ranker self contexts cands) = length cands.

(** Every tag of the batch, and "AMB", has a type set. *)
Definition tags_known (self : EntityLinkerSep) (tags_batch : list (list string)) : Prop :=
  List.Forall (List.Forall (fun tag => is_Some (entities_types_sets self !! tag))) tags_batch
  /\ is_Some (entities_types_sets self !! "AMB").

(** The mentions of every document of a batch: the outer [zip] of lines
    371-372. *)
Definition batch_mentions (entity_substr_batch : list (list string))
    (tags_batch : list (list string)) (entity_offsets_batch : list (list (Z * Z)))
  : list (list (string * string * (Z * Z))) :=
  map (fun '(entity_substr_list, tags_list, entity_offsets_list) =>
         mentions entity_substr_list tags_list entity_offsets_list)
      (combine (combine entity_substr_batch tags_batch) entity_offsets_batch).

(** ** Sample objects *)

Definition sample_runtime : PyRuntime :=
  {| set_iter := fun l => l; round2 := fun x => x; lower := fun c => c |}.

Definition sample_linker : EntityLinkerSep := {|
  morph := fun w => {| POS := None; inflect_nomn := None; normal_form := w |};
  word_to_idlist :=
    [("paris", [("Q90", 1%Z); ("Q167646", 2%Z)]);
     ("hilton", [("Q167646", 2%Z); ("Q598884", 1%Z)]);
     ("moscow", [("Q649", 1%Z)])];
  entities_ranking_dict := <["Q90" := 100%Z]> (<["Q167646" := 40%Z]> ∅);
  entities_types_sets :=
    <["LOC" := ({["Q90"]} ∪ {["Q649"]} : gset string)]>
      (<["PER" := ({["Q167646"]} : gset string)]>
         (<["ORG" := (∅ : gset string)]> (<["AMB" := (∅ : gset string)]> ∅)));
  q_to_label := <["Q90" := "Paris"]> ∅;
  search := fun ws => (map (fun _ => [0.25%Q; 0.5%Q]) ws, map (fun _ => [0%Z; 2%Z]) ws);
  entity_ranker := fun contexts cands => map (map (fun e => (e, 0.9%Q))) cands;
  num_entities_for_bert_ranking := 50;
  num_faiss_cells := 50;
  include_mention := false;
  num_entities_to_return := 10;
  stopwords := {["the"]} ∪ {["of"]};
  not_found_tokens :=
    ["ооо"; "оао"; "фгуп"; "муп"; "акционерное общество"; "зао"; "мкп"];
  not_found_str := "not in wiki";
  use_descriptions := true;
  return_confidences := true;
  max_text_len := 300;
  re_tokenizer := PyStr.split_ws;
  full_paragraph := false;
  max_paragraph_len := 280
|}.

(** The same linker in single-answer mode. *)
Definition sample_linker_single : EntityLinkerSep := {|
  morph := morph sample_linker;
  word_to_idlist := word_to_idlist sample_linker;
  entities_ranking_dict := entities_ranking_dict sample_linker;
  entities_types_sets := entities_types_sets sample_linker;
  q_to_label := q_to_label sample_linker;
  search := search sample_linker;
  entity_ranker := entity_ranker sample_linker;
  num_entities_for_bert_ranking := 50;
  num_faiss_cells := 50;
  include_mention := false;
  num_entities_to_return := 1;
  stopwords := stopwords sample_linker;
  not_found_tokens := not_found_tokens sample_linker;
  not_found_str := "not in wiki";
  use_descriptions := true;
  return_confidences := true;
  max_text_len := 300;
  re_tokenizer := PyStr.split_ws;
  full_paragraph := false;
  max_paragraph_len := 280
|}.

Definition sample_chunker : NerChunker := {|
  max_seq_len := 400;
  max_chunk_len := 180;
  batch_size := 30;
  chunker_re_tokenizer := PyStr.split_ws;
  tokenize := fun token => [token];
  sent_tokenize := fun s => [s];
  punct_ext :=
    "!" ++ String (ascii_of_nat 34) EmptyString
    ++ "#$%&'()*+,-./:;<=>?@[\]^_`{|}~ "
    ++ "abcdefghijklmnopqrstuvwxyzABCDEFGHIJKLMNOPQRSTUVWXYZ0123456789";
  russian_letters := "абвгдеёжзийклмнопрстуфхцчшщъыьэюя"
|}.

(** A sentence of 500 words without a comma. *)
Definition long_sentence : string := PyStr.join " " (repeat "слово" 500) ++ ".".

(** ** Notions for the chunker *)

(** The numbers never decrease along the list. *)
Definition nondecreasing (l : list nat) : Prop :=
  forall i j a b, (i <= j)%nat -> l !! i = Some a -> l !! j = Some b -> (a <= b)%nat.

(** What [NerChunker.__call__] keeps true of the chunks stored so far, while
    document [n] is processed. *)
Definition chunks_inv (n : nat) (b : Chunks) : Prop :=
  length (nums_batch b) = length (text_batch b)
  /\ length (sentences_offsets_batch b) = length (text_batch b)
  /\ length (sentences_batch b) = length (text_batch b)
  /\ List.Forall (fun text => text ≠ EmptyString) (text_batch b)
  /\ List.Forall (fun k => (k <= n)%nat) (nums_batch b)
  /\ nondecreasing (nums_batch b).

(** ** Groups of [batch_size] chunks *)

(** The flat lists of chunks that lines 90-173 build, before they are cut
    into batches. *)
Definition chunk_docs `{PyRuntime} (self : NerChunker) (docs_batch : list string)
  : res (Chunks * Z) :=
  for_each (chunk_doc self) (enumerate_from 0 docs_batch)
    ({| text_batch := []; nums_batch := [];
        sentences_offsets_batch := []; sentences_batch := [];
        offsets_objs := []; sentences_objs := [] |}, 0%Z).

(** [len(l) // batch_size + int(len(l) % batch_size > 0)] *)
Definition num_batches_of (self : NerChunker) (n : nat) : Z :=
  (Z.of_nat n / batch_size self
   + (if (0 <? Z.of_nat n mod batch_size self)%Z then 1 else 0))%Z.

(** The list of spans and the list of sentences of a chunk are created and
    extended together. *)
Definition objs_inv (b : Chunks) (c : Cursor) : Prop :=
  Forall2 (fun (spans : list (Z * Z)) (entries : list SentenceEntry) =>
             length spans = length entries)
    (offsets_objs b) (sentences_objs b)
  /\ sentences_offsets_batch b = sentences_batch b
  /\ sentences_offsets_list c = sentences_list c.

(** Two short documents. *)
Definition sample_docs : list string :=
  ["Москва - столица России. Она стоит на реке."; "Париж, столица Франции."].

(** Lines 95-100: the sentences of a document. *)
Definition sentences_of_doc `{PyRuntime} (self : NerChunker) (doc : string)
  : res (list string) :=
  doc_pieces ← map_res (sanitize self) (PyStr.split (String "010"%char EmptyString) doc);
  let doc_pieces := List.filter (fun doc_piece => (1 <? PyStr.len doc_piece)%nat) doc_pieces in
  Ok (concat (map (sent_tokenize self) doc_pieces)).

(** A sentence that reaches line 159: it has [max_seq_len] word pieces or
    more and no comma. *)
Definition needs_hard_split (self : NerChunker) (sentence : string) : bool :=
  negb (pieces_len self sentence <? max_seq_len self)%Z
  && negb (PyStr.contains "," sentence).

(** ** Documents that fit in one chunk *)

(** Lines 108-112: the spans of sentences laid one after the other, one
    character apart, from [start]. *)
Fixpoint sentence_spans (start : Z) (sentences : list string) : list (Z * Z) :=
  match sentences with
  | [] => []
  | sentence :: rest =>
      let end_ := (start + Z.of_nat (PyStr.len sentence))%Z in
      (start, end_) :: sentence_spans (end_ + 1) rest
  end.

(** The number of word pieces of some sentences. *)
Definition total_pieces (self : NerChunker) (sentences : list string) : Z :=
  fold_right Z.add 0%Z (map (pieces_len self) sentences).

(** The text that lines 106-107 build from some sentences. *)
Definition spaced (sentences : list string) : string :=
  String.concat EmptyString (map (fun sentence => sentence ++ " ") sentences).

(** The chunks stored so far, each with its document number, its spans and
    its sentences. *)
Definition chunk_view (b : Chunks)
  : list (string * nat * list (Z * Z) * list SentenceEntry) :=
  combine
    (combine (combine (text_batch b) (nums_batch b))
       (map (fun r => default [] (offsets_objs b !! r)) (sentences_offsets_batch b)))
    (map (fun r => default [] (sentences_objs b !! r)) (sentences_batch b)).

(** The chunk of a document whose sentences all go through lines 106-112. *)
Definition whole_doc_chunk `{PyRuntime} (self : NerChunker) (n : nat) (doc : string)
  : list (string * nat * list (Z * Z) * list SentenceEntry) :=
  match sentences_of_doc self doc with
  | Ok sentences =>
      let text := PyStr.strip_comma (PyStr.strip (spaced sentences)) in
      if bool_decide (text = EmptyString) then []
      else [(text, n, sentence_spans 0 sentences, map SentText sentences)]
  | Raise _ => []
  end.

(** The sentences of the document have fewer than [max_seq_len] word pieces
    together. *)
Definition doc_fits `{PyRuntime} (self : NerChunker) (doc : string) : Prop :=
  exists sentences,
    sentences_of_doc self doc = Ok sentences
    /\ (total_pieces self sentences < max_seq_len self)%Z.

(** The references stored with the chunks point to existing list objects,
    and the four lists of chunks have one length. *)
Definition refs_inv (b : Chunks) : Prop :=
  length (nums_batch b) = length (text_batch b)
  /\ length (sentences_offsets_batch b) = length (text_batch b)
  /\ length (sentences_batch b) = length (text_batch b)
  /\ List.Forall (fun r => (r < length (offsets_objs b))%nat) (sentences_offsets_batch b)
  /\ List.Forall (fun r => (r < length (sentences_objs b))%nat) (sentences_batch b).

(** ** The context of a mention *)

(** The sentences numbered [i], ..., [j - 1]. *)
Definition segment (sentences_list : list string) (i j : nat) : list string :=
  take (j - i) (drop i sentences_list).

(** The context of a mention before the paragraph is added: characters
    [a], ..., [rs - 1] of the sentence, the marker, the mention when it is
    kept, and characters [re], ..., [b - 1]. *)
Definition marked_sentence (self : EntityLinkerSep) (sentence : string) (a rs re b : nat)
  : string :=
  let cs := PyStr.chars sentence in
  PyStr.of_chars (take (rs - a) (drop a cs)) ++ "[ENT]"
  ++ (if include_mention self
      then PyStr.of_chars (take (re - rs) (drop rs cs)) ++ "[ENT]"
      else EmptyString)
  ++ PyStr.of_chars (take (b - re) (drop re cs)).

(** ** The assembler: [NerChunkModel] (entity_linking_sep.py, lines 40-186) *)

(** The attributes of a [NerChunkModel] object.  [ner] is [self.ner]: for a
    batch of texts, the tokens of each text, the offsets of the tokens and
    the probabilities, of a type [P] of their own.  [ner_parser] is
    [self.ner_parser]: for each text, a dictionary from tags to mentions
    and a dictionary from tags to the token positions of these mentions. *)
Record NerChunkModel (P U : Type) := {
  ner : list string -> list (list string) * list (list (Z * Z)) * P;
  ner_parser :
    list (list string) -> P ->
    list (list (string * list string)) * U * list (list (string * list (list Z)))
}.
Arguments ner {P U} _ _.
Arguments ner_parser {P U} _ _ _.

(** What lines 136-183 keep while they go through the chunks.  The lists of
    sentences and of their spans are list objects of the caller: the
    assembler holds references into [spans_store] and [sents_store]. *)
Record Assembled := {
  doc_entity_substr_batch : list (list string);
  doc_tags_batch : list (list string);
  doc_entity_offsets_batch : list (list (Z * Z));
  doc_sentences_offsets_batch : list nat;
  doc_sentences_batch : list nat;
  doc_entity_substr : list string;
  doc_tags : list string;
  doc_entity_offsets : list (Z * Z);
  doc_sentences_offsets : nat;
  doc_sentences : nat;
  cur_doc_num : nat;
  text_len_sum : Z;
  spans_store : list (list (Z * Z));
  sents_store : list (list SentenceEntry)
}.

(** A chunk as the inner loop of lines 147-150 sees it: mentions, tags and
    offsets (lists made by lines 116-130), references to the spans and the
    sentences of the chunk, the length of its text and its document
    number. *)
Record ChunkItem := {
  chunk_entity_substr : list string;
  chunk_tag : list string;
  chunk_entity_offsets : list (Z * Z);
  chunk_sentences_offsets : nat;
  chunk_sentences : nat;
  chunk_text_len : Z;
  chunk_doc_num : nat
}.

(** The value returned by [NerChunkModel.__call__], with the list objects
    as the call leaves them. *)
Record AssemblerOutput := {
  out_doc_entity_substr_batch : list (list string);
  out_doc_entity_offsets_batch : list (list (Z * Z));
  out_doc_tags_batch : list (list string);
  out_doc_sentences_offsets_batch : list nat;
  out_doc_sentences_batch : list nat;
  out_spans_store : list (list (Z * Z));
  out_sents_store : list (list SentenceEntry)
}.

Section Assembler.
Context {P U : Type} `{PyRuntime}.

(** Lines 110-114, for one text: the mentions of every tag with their
    token positions and the tag. *)
Definition entity_substr_pos_tags
    (entity_substr_dict : list (string * list string))
    (entity_positions_dict : list (string * list (list Z)))
  : res (list (string * list Z * string)) :=
  per_tag ←
    map_res
      (fun '(tag, entity_substr_list) =>
         positions ← PyDict.getitem entity_positions_dict tag;
         Ok (map (fun '(entity_substr, entity_substr_positions) =>
                    (lower entity_substr, entity_substr_positions, tag))
               (combine entity_substr_list positions)))
      entity_substr_dict;
  Ok (concat per_tag).

(** Lines 124-126: from the first token of a mention to its last one. *)
Definition entity_offsets_of (ner_tokens_offsets_list : list (Z * Z))
    (entity_positions : list Z) : res (Z * Z) :=
  first ← Py.getitem entity_positions 0;
  start_offset ← Py.getitem ner_tokens_offsets_list first;
  last ← Py.getitem entity_positions (-1);
  end_offset ← Py.getitem ner_tokens_offsets_list last;
  Ok (start_offset.1, end_offset.2).

(** Lines 119-131, for one text. *)
Definition chunk_entities (entity_substr_pos_tags : list (string * list Z * string))
    (ner_tokens_offsets_list : list (Z * Z))
  : res (list string * list (Z * Z) * list string) :=
  if is_empty entity_substr_pos_tags then Ok ([], [], [])
  else
    entity_offsets_list ←
      map_res (fun t => entity_offsets_of ner_tokens_offsets_list t.1.2)
        entity_substr_pos_tags;
    Ok (map (fun t => t.1.1) entity_substr_pos_tags, entity_offsets_list,
        map (fun t => t.2) entity_substr_pos_tags).

(** Lines 103-134, for one batch of texts: the mentions, the tags and the
    offsets of every text, and the lengths of the texts. *)
Definition detect_batch (self : NerChunkModel P U) (text_batch : list string)
  : res (list (list string) * list (list string) * list (list (Z * Z)) * list Z) :=
  let '(ner_tokens_batch, ner_tokens_offsets_batch, ner_probas_batch) :=
    ner self text_batch in
  let '(entity_substr_batch, _, entity_positions_batch) :=
    ner_parser self ner_tokens_batch ner_probas_batch in
  entity_substr_pos_tags_batch ←
    map_res
      (fun '(entity_substr_dict, entity_positions_dict) =>
         entity_substr_pos_tags entity_substr_dict entity_positions_dict)
      (combine entity_substr_batch entity_positions_batch);
  chunks ←
    map_res
      (fun '(entity_substr_pos_tags, ner_tokens_offsets_list) =>
         chunk_entities entity_substr_pos_tags ner_tokens_offsets_list)
      (combine entity_substr_pos_tags_batch ner_tokens_offsets_batch);
  Ok (map (fun c => c.1.1) chunks, map (fun c => c.2) chunks, map (fun c => c.1.2) chunks,
      map (fun text => Z.of_nat (PyStr.len text)) text_batch).

(** [(start_offset + text_len_sum, end_offset + text_len_sum)] for every
    span. *)
Definition shift (text_len_sum : Z) (spans : list (Z * Z)) : list (Z * Z) :=
  map (fun '(start_offset, end_offset) =>
         ((start_offset + text_len_sum)%Z, (end_offset + text_len_sum)%Z))
    spans.

(** [l += more] on the list object [r]. *)
Definition extend_obj {A} (r : nat) (more : list A) (objs : list (list A))
  : list (list A) :=
  <[r := (default [] (objs !! r) ++ more)%list]> objs.

(** Lines 151-172: one chunk. *)
Definition assemble_chunk (st : Assembled) (chunk : ChunkItem) : Assembled :=
  if (chunk_doc_num chunk =? cur_doc_num st)%nat
  then
    {| doc_entity_substr_batch := doc_entity_substr_batch st;
       doc_tags_batch := doc_tags_batch st;
       doc_entity_offsets_batch := doc_entity_offsets_batch st;
       doc_sentences_offsets_batch := doc_sentences_offsets_batch st;
       doc_sentences_batch := doc_sentences_batch st;
       doc_entity_substr := (doc_entity_substr st ++ chunk_entity_substr chunk)%list;
       doc_tags := (doc_tags st ++ chunk_tag chunk)%list;
       doc_entity_offsets :=
         (doc_entity_offsets st
          ++ shift (text_len_sum st) (chunk_entity_offsets chunk))%list;
       doc_sentences_offsets := doc_sentences_offsets st;
       doc_sentences := doc_sentences st;
       cur_doc_num := cur_doc_num st;
       text_len_sum := (text_len_sum st + (chunk_text_len chunk + 1))%Z;
       spans_store :=
         extend_obj (doc_sentences_offsets st)
           (shift (text_len_sum st)
              (default [] (spans_store st !! chunk_sentences_offsets chunk)))
           (spans_store st);
       sents_store :=
         extend_obj (doc_sentences st)
           (default [] (sents_store st !! chunk_sentences chunk))
           (sents_store st) |}
  else
    {| doc_entity_substr_batch :=
         (doc_entity_substr_batch st ++ [doc_entity_substr st])%list;
       doc_tags_batch := (doc_tags_batch st ++ [doc_tags st])%list;
       doc_entity_offsets_batch :=
         (doc_entity_offsets_batch st ++ [doc_entity_offsets st])%list;
       doc_sentences_offsets_batch :=
         (doc_sentences_offsets_batch st ++ [doc_sentences_offsets st])%list;
       doc_sentences_batch := (doc_sentences_batch st ++ [doc_sentences st])%list;
       doc_entity_substr := chunk_entity_substr chunk;
       doc_tags := chunk_tag chunk;
       doc_entity_offsets := chunk_entity_offsets chunk;
       doc_sentences_offsets := chunk_sentences_offsets chunk;
       doc_sentences := chunk_sentences chunk;
       cur_doc_num := chunk_doc_num chunk;
       text_len_sum := 0;
       spans_store := spans_store st;
       sents_store := sents_store st |}.

(** Lines 136-183: the chunks of a document put together.  The two lists
    made at lines 138-139 for the sentences are new list objects. *)
Definition assemble (chunks : list ChunkItem) (spans_store0 : list (list (Z * Z)))
    (sents_store0 : list (list SentenceEntry)) : AssemblerOutput :=
  let st :=
    fold_left assemble_chunk chunks
      {| doc_entity_substr_batch := []; doc_tags_batch := [];
         doc_entity_offsets_batch := []; doc_sentences_offsets_batch := [];
         doc_sentences_batch := [];
         doc_entity_substr := []; doc_tags := []; doc_entity_offsets := [];
         doc_sentences_offsets := length spans_store0;
         doc_sentences := length sents_store0;
         cur_doc_num := 0; text_len_sum := 0;
         spans_store := (spans_store0 ++ [[]])%list;
         sents_store := (sents_store0 ++ [[]])%list |} in
  {| out_doc_entity_substr_batch :=
       (doc_entity_substr_batch st ++ [doc_entity_substr st])%list;
     out_doc_entity_offsets_batch :=
       (doc_entity_offsets_batch st ++ [doc_entity_offsets st])%list;
     out_doc_tags_batch := (doc_tags_batch st ++ [doc_tags st])%list;
     out_doc_sentences_offsets_batch :=
       (doc_sentences_offsets_batch st ++ [doc_sentences_offsets st])%list;
     out_doc_sentences_batch := (doc_sentences_batch st ++ [doc_sentences st])%list;
     out_spans_store := spans_store st;
     out_sents_store := sents_store st |}.

(** The chunks of one batch, as the [zip] of lines 147-150 pairs them. *)
Definition batch_items
    (batch : list (list string) * list (list string) * list (list (Z * Z))
             * list nat * list nat * list Z * list nat)
  : list ChunkItem :=
  let '(entity_substr_batch, tags_batch, entity_offsets_batch, sentences_offsets_batch,
        sentences_batch, text_len_batch, nums_batch) := batch in
  map (fun '(entity_substr, tag, entity_offsets, sentences_offsets, sentences, text_len,
             doc_num) =>
         {| chunk_entity_substr := entity_substr; chunk_tag := tag;
            chunk_entity_offsets := entity_offsets;
            chunk_sentences_offsets := sentences_offsets; chunk_sentences := sentences;
            chunk_text_len := text_len; chunk_doc_num := doc_num |})
    (combine
       (combine
          (combine
             (combine (combine (combine entity_substr_batch tags_batch)
                         entity_offsets_batch)
                sentences_offsets_batch)
             sentences_batch)
          text_len_batch)
       nums_batch).

(** [NerChunkModel.__call__] (lines 58-186).  The lists of spans and of
    sentences are given by reference. *)
Definition NerChunkModel_call (self : NerChunkModel P U)
    (text_batch_list : list (list string)) (nums_batch_list : list (list nat))
    (sentences_offsets_batch_list : list (list nat))
    (sentences_batch_list : list (list nat))
    (spans_store0 : list (list (Z * Z))) (sents_store0 : list (list SentenceEntry))
  : res AssemblerOutput :=
  detected ←
    map_res
      (fun '(text_batch, sentences_offsets_batch, sentences_batch) =>
         detect_batch self text_batch)
      (combine (combine text_batch_list sentences_offsets_batch_list)
         sentences_batch_list);
  let entity_substr_batch_list := map (fun d => d.1.1.1) detected in
  let tags_batch_list := map (fun d => d.1.1.2) detected in
  let entity_offsets_batch_list := map (fun d => d.1.2) detected in
  let text_len_batch_list := map (fun d => d.2) detected in
  let chunks :=
    concat
      (map batch_items
         (combine
            (combine
               (combine
                  (combine
                     (combine (combine entity_substr_batch_list tags_batch_list)
                        entity_offsets_batch_list)
                     sentences_offsets_batch_list)
                  sentences_batch_list)
               text_len_batch_list)
            nums_batch_list)) in
  Ok (assemble chunks spans_store0 sents_store0).
End Assembler.

(** ** Notions for the assembler *)

(** The number of times the document number changes along the chunks,
    from [cur]. *)
Fixpoint doc_changes (cur : nat) (nums : list nat) : nat :=
  match nums with
  | [] => 0
  | n :: rest => if (n =? cur)%nat then doc_changes cur rest else S (doc_changes n rest)
  end.

(** The offsets of the mentions of some chunks, each chunk moved by the
    lengths of the texts before it, one character apart, from
    [text_len_sum]. *)
Fixpoint shifted_offsets (text_len_sum : Z) (chunks : list ChunkItem) : list (Z * Z) :=
  match chunks with
  | [] => []
  | chunk :: rest =>
      (shift text_len_sum (chunk_entity_offsets chunk)
       ++ shifted_offsets (text_len_sum + (chunk_text_len chunk + 1)) rest)%list
  end.

(** The same for the spans of the sentences, read in the store [store]. *)
Fixpoint shifted_spans (store : list (list (Z * Z))) (text_len_sum : Z)
    (chunks : list ChunkItem) : list (Z * Z) :=
  match chunks with
  | [] => []
  | chunk :: rest =>
      (shift text_len_sum (default [] (store !! chunk_sentences_offsets chunk))
       ++ shifted_spans store (text_len_sum + (chunk_text_len chunk + 1)) rest)%list
  end.

(** The sentences of some chunks, read in the store [store]. *)
Definition all_sentences (store : list (list SentenceEntry)) (chunks : list ChunkItem)
  : list SentenceEntry :=
  concat (map (fun chunk => default [] (store !! chunk_sentences chunk)) chunks).

(** The lengths of the texts of some chunks, with one character after
    each. *)
Definition total_text_len (chunks : list ChunkItem) : Z :=
  fold_right (fun chunk acc => (chunk_text_len chunk + 1 + acc)%Z) 0%Z chunks.

(** Two chunks of document 0 and two chunks of document 1. *)
Definition sample_chunks : list ChunkItem :=
  [{| chunk_entity_substr := ["москва"]; chunk_tag := ["LOC"];
      chunk_entity_offsets := [(0, 6)%Z];
      chunk_sentences_offsets := 0; chunk_sentences := 0;
      chunk_text_len := 24; chunk_doc_num := 0 |};
   {| chunk_entity_substr := ["волга"]; chunk_tag := ["LOC"];
      chunk_entity_offsets := [(13, 18)%Z];
      chunk_sentences_offsets := 1; chunk_sentences := 1;
      chunk_text_len := 19; chunk_doc_num := 0 |}].

Definition sample_later_chunks : list ChunkItem :=
  [{| chunk_entity_substr := ["сена"]; chunk_tag := ["LOC"];
      chunk_entity_offsets := [(9, 13)%Z];
      chunk_sentences_offsets := 3; chunk_sentences := 3;
      chunk_text_len := 14; chunk_doc_num := 1 |}].

Definition sample_first_later_chunk : ChunkItem :=
  {| chunk_entity_substr := ["париж"]; chunk_tag := ["LOC"];
     chunk_entity_offsets := [(0, 5)%Z];
     chunk_sentences_offsets := 2; chunk_sentences := 2;
     chunk_text_len := 23; chunk_doc_num := 1 |}.

Definition sample_spans_store : list (list (Z * Z)) :=
  [[(0, 24)%Z]; [(0, 19)%Z]; [(0, 23)%Z]; [(0, 14)%Z]].

Definition sample_sents_store : list (list SentenceEntry) :=
  [[SentText "Москва - столица России."]; [SentText "Она стоит на Волге."];
   [SentText "Париж, столица Франции."]; [SentText "Он стоит на Сене."]].

(** A chunk with as many tags and offsets as mentions. *)
Definition chunk_parallel (chunk : ChunkItem) : Prop :=
  length (chunk_tag chunk) = length (chunk_entity_substr chunk)
  /\ length (chunk_entity_offsets chunk) = length (chunk_entity_substr chunk).

(** What the loop of lines 147-172 keeps true of the documents. *)
Definition assembled_parallel (st : Assembled) : Prop :=
  Forall2 (fun ms ts => length ts = length ms)
    (doc_entity_substr_batch st) (doc_tags_batch st)
  /\ Forall2 (fun (ms : list string) (os : list (Z * Z)) => length os = length ms)
       (doc_entity_substr_batch st) (doc_entity_offsets_batch st)
  /\ length (doc_sentences_offsets_batch st) = length (doc_entity_substr_batch st)
  /\ length (doc_sentences_batch st) = length (doc_entity_substr_batch st)
  /\ length (doc_tags st) = length (doc_entity_substr st)
  /\ length (doc_entity_offsets st) = length (doc_entity_substr st).

(** A model that finds one place in every text. *)
Definition sample_ner_model : NerChunkModel unit unit := {|
  ner := fun text_batch =>
    (map (fun _ => ["москва"; "-"; "столица"]) text_batch,
     map (fun _ => [(0, 6)%Z; (7, 8)%Z; (9, 16)%Z]) text_batch, tt);
  ner_parser := fun ner_tokens_batch _ =>
    (map (fun _ => [("LOC", ["москва"])]) ner_tokens_batch, tt,
     map (fun _ => [("LOC", [[0%Z]])]) ner_tokens_batch)
|}.

(** ** The lookup policy of [link_entities], in the words of the specification *)

(** The normal form that [morph_parse] gives for a word. *)
Definition normal_of (self : EntityLinkerSep) (word : string) : string :=
  match morph_parse self word with Ok w => w | Raise _ => word end.

(** The forms under which a word is looked up: the word and, when it
    differs, its normal form. *)
Definition forms_of (self : EntityLinkerSep) (word : string) : list string :=
  lookup_forms word (normal_of self word).

(** The forms of the words of a mention, of a document and of a batch, in
    reading order. *)
Definition mention_forms (self : EntityLinkerSep) (words : list string) : list string :=
  concat (map (forms_of self) words).

Definition doc_forms (self : EntityLinkerSep) (words_list : list (list string))
  : list string :=
  concat (map (mention_forms self) words_list).

Definition batch_forms (self : EntityLinkerSep) (words_batch : list (list (list string)))
  : list string :=
  concat (map (doc_forms self) words_batch).

(** The forms that the inverted index does not have. *)
Definition absent_forms (self : EntityLinkerSep) (forms : list string) : list string :=
  List.filter (fun form => negb (in_index self form)) forms.

(** The word items of the words of a mention, and of the mentions of a
    document, as lines 451-473 record them. *)
Fixpoint word_items (self : EntityLinkerSep) (i : nat) (tag : string) (wc : nat)
    (words : list string) : list (nat * nat * string * bool) :=
  match words with
  | [] => []
  | word :: rest =>
      (map (fun form => (i, wc, tag, in_index self form)) (forms_of self word)
       ++ word_items self i tag (S wc) rest)%list
  end.

Fixpoint mention_items (self : EntityLinkerSep) (i wc : nat)
    (doc : list (list string * string)) : list (nat * nat * string * bool) :=
  match doc with
  | [] => []
  | (words, tag) :: rest =>
      (word_items self i tag wc words
       ++ mention_items self (S i) (wc + length words) rest)%list
  end.

(** The words that the scan of some documents sends to the search, with the
    numbers of their documents. *)
Fixpoint batch_nf (self : EntityLinkerSep) (j : nat) (docs : list (list (list string)))
  : list (string * nat) :=
  match docs with
  | [] => []
  | doc :: rest =>
      (map (fun w => (w, j)) (absent_forms self (doc_forms self doc))
       ++ batch_nf self (S j) rest)%list
  end.

(** What the scan records for a document whose first word has number
    [wc]. *)
Definition scan_of (self : EntityLinkerSep) (wc : nat) (doc : list (list string * string))
    (d : WordScan) : Prop :=
  aligned d
  /\ scan_items d = mention_items self 0 wc doc
  /\ fnd_words d = List.filter (in_index self) (doc_forms self (map fst doc)).

(** Every element of a list with the forms read before it, [forms] giving
    the forms of an element. *)
Fixpoint with_before {A} (forms : A -> list string) (before : list string) (l : list A)
  : list (list string * A) :=
  match l with
  | [] => []
  | x :: l' => (before, x) :: with_before forms (before ++ forms x) l'
  end.

(** The neighbour words of a form and their similarities.  A form of the
    inverted index is its own neighbour, with similarity 1.0.  A form that
    the index does not have is a query word of the search: [before] being
    the forms read before it, it is the query word number
    [length (absent_forms self before)], and its neighbours are the words
    whose numbers are in the row of this number, with similarity [1 - d] for
    a returned [d] when the index has more than one cell and [d] itself
    otherwise. *)
Definition policy_neighbours (self : EntityLinkerSep) (D_all : list (list Q))
    (I_all : list (list Z)) (before : list string) (form : string)
  : list ((string + Z) * Q) :=
  if in_index self form then [(inl form, 1%Q)]
  else
    let row := length (absent_forms self before) in
    let scores_list := nth row D_all [] in
    combine (map inr (nth row I_all []))
      (if (1 <? num_faiss_cells self)%Z
       then map (fun score => (1 - score)%Q) scores_list
       else scores_list).

(** The neighbours of some forms, one after the other. *)
Definition forms_neighbours (self : EntityLinkerSep) (D_all : list (list Q))
    (I_all : list (list Z)) (before : list string) (forms : list string)
  : list ((string + Z) * Q) :=
  concat (map (fun '(b, form) => policy_neighbours self D_all I_all b form)
            (with_before (fun form => [form]) before forms)).

Section Policy.
Context `{PyRuntime}.

(** The candidates of a word: the entities of the neighbours of its forms
    that have an allowed type, each with its best similarity (lines
    552-566). *)
Definition word_candidates (self : EntityLinkerSep) (D_all : list (list Q))
    (I_all : list (list Z)) (tag : string) (before : list string) (word : string)
  : res (list (string * Z * Q)) :=
  for_each (add_neighbour self tag)
    (forms_neighbours self D_all I_all before (forms_of self word)) [].

(** The candidates of a mention: those of its words, in order. *)
Definition mention_candidates (self : EntityLinkerSep) (D_all : list (list Q))
    (I_all : list (list Z)) (tag : string) (before : list string) (words : list string)
  : res (list (string * Z * Q)) :=
  per_word ←
    map_res (fun '(b, word) => word_candidates self D_all I_all tag b word)
      (with_before (forms_of self) before words);
  Ok (concat per_word).

(** The ranking of a mention before the reranker: lines 578-605 on the
    candidates of the mention. *)
Definition mention_pre_rank (self : EntityLinkerSep) (D_all : list (list Q))
    (I_all : list (list Z)) (before : list string) (mention : list string * string)
  : res (list string * shaped string * shaped conf * list (string * (Q * Z))) :=
  candidate_entities ← mention_candidates self D_all I_all mention.2 before mention.1;
  candidate_entities ← sum_scores candidate_entities (Z.of_nat (length mention.1));
  pre_rank self candidate_entities.

(** The same for the mentions of a document, in order. *)
Definition doc_pre_ranked (self : EntityLinkerSep) (D_all : list (list Q))
    (I_all : list (list Z)) (before : list string)
    (entity_substr_list : list (list string)) (tags : list string)
  : res (list (list string * shaped string * shaped conf * list (string * (Q * Z)))) :=
  map_res (fun '(b, mention) => mention_pre_rank self D_all I_all b mention)
    (with_before (fun mention => mention_forms self mention.1) before
       (combine entity_substr_list tags)).

(** The results of a document by the policy. *)
Definition doc_by_policy (self : EntityLinkerSep) (D_all : list (list Q))
    (I_all : list (list Z)) (before : list string)
    (entity_substr_list : list (list string)) (tags : list string)
    (entity_offsets_list : list (Z * Z)) (sentences_list : list string)
    (sentences_offsets_list : list (Z * Z))
  : res (list (shaped string) * list (shaped conf)) :=
  ranked ← doc_pre_ranked self D_all I_all before entity_substr_list tags;
  if use_descriptions self
  then rank_by_description self entity_substr_list entity_offsets_list
         (map (fun r => r.1.1.1) ranked) tags (map (fun r => r.2) ranked)
         sentences_list sentences_offsets_list
         (map (fun entity_substr => length entity_substr) entity_substr_list)
  else Ok (map (fun r => r.1.1.2) ranked, map (fun r => r.1.2) ranked).
End Policy.

(** The counters of the loop over word items stand after the forms
    [before]. *)
Definition counters_at (self : EntityLinkerSep) (before : list string) (st : ItemState)
  : Prop :=
  words_i st = length (List.filter (in_index self) before)
  /\ ind_i st = length (absent_forms self before).

(** The state in which the loop over word items reaches the first item of
    a word of number [wc] in mention [i]: after the items of another word,
    or at the very start. *)
Definition loop_start (i wc : nat) (st : ItemState) : Prop :=
  (prev_word_count st < wc)%nat
  \/ (prev_word_count st = wc /\ candidate_entities_dict st = []
      /\ candidate_entities st = [] /\ prev_index st = 0%nat /\ i = 0%nat).

(** The dictionary of candidates once the candidates of the current word
    are appended. *)
Definition flushed (st : ItemState) : list (nat * list (string * Z * Q)) :=
  flush (candidate_entities_dict st) (prev_index st) (candidate_entities st).

(** The candidates of several mentions appended to a dictionary. *)
Definition flush_all (d : list (nat * list (string * Z * Q)))
    (l : list (nat * list (string * Z * Q))) : list (nat * list (string * Z * Q)) :=
  fold_left (fun d kc => flush d kc.1 kc.2) l d.

(** Lines 662-721: the scores that the reranker returns for the mentions of
    a document, one list of scores for each mention. *)
Definition description_scores (self : EntityLinkerSep)
    (entity_substr_list : list (list string)) (entity_offsets_list : list (Z * Z))
    (candidate_entities_list : list (list string))
    (sentences_list : list string) (sentences_offsets_list : list (Z * Z))
  : list (list (string * Q)) :=
  entity_ranker self
    (map (fun '(entity_substr, entity_offsets, candidate_entities) =>
            make_context self sentences_list sentences_offsets_list entity_offsets)
       (combine (combine entity_substr_list entity_offsets_list) candidate_entities_list))
    candidate_entities_list.

(** ** [EntityLinker.link_entities] (entity_linking.py), lines 485-528: the
    words sent to the search *)

Module EntityLinker.

(** The attributes of an [EntityLinker] object that these lines read, and
    the inverted index.  [search] stands for [self.vectorizer.transform]
    followed by [self.faiss_index.search] with
    [num_faiss_candidate_entities] neighbours. *)
Record t := {
  morph : string -> MorphParse;
  stopwords : gset string;
  word_to_idlist : list (string * list (string * Z));
  search : list string -> list (list Q) * list (list Z)
}.

(** [morph_parse] (lines 632-638), the same text as in [EntityLinkerSep]. *)
Definition morph_parse (self : t) (word : string) : res string :=
  let morph_parse_tok := morph self word in
  if bool_decide (POS morph_parse_tok ∈ [Some "NOUN"; Some "ADJ"; Some "ADJF"])
  then of_option AttributeError (inflect_nomn morph_parse_tok)
  else Ok (normal_form morph_parse_tok).

(** Lines 492-495: the words of a mention. *)
Definition split_words (self : t) (entity_substr : string) : list string :=
  List.filter
    (fun word => negb (bool_decide (word ∈ stopwords self))
                 && (0 <? PyStr.len word)%nat)
    (PyStr.split " " entity_substr).

(** The per-document lists of lines 502-504. *)
Record Scan := {
  indices : list nat;
  word_counts : list nat;
  word_tags : list string
}.

(** Lines 507-510 (and 513-516 for the normal form): the form is appended
    to the words of the search; the inverted index is not consulted. *)
Definition push_word (doc_num i word_count : nat) (tag : string) (word : string)
    (st : list (string * nat) * Scan) : list (string * nat) * Scan :=
  let '(words_doc_nums, d) := st in
  ((words_doc_nums ++ [(word, doc_num)])%list,
   {| indices := (indices d ++ [i])%list;
      word_counts := (word_counts d ++ [word_count])%list;
      word_tags := (word_tags d ++ [tag])%list |}).

(** Lines 506-517, for one word. *)
Definition scan_word (self : t) (doc_num i : nat) (tag : string)
    (st : list (string * nat) * nat * Scan) (word : string)
  : res (list (string * nat) * nat * Scan) :=
  let '(words_doc_nums, word_count, d) := st in
  let '(words_doc_nums, d) :=
    push_word doc_num i word_count tag word (words_doc_nums, d) in
  morph_parsed_word ← morph_parse self word;
  let '(words_doc_nums, d) :=
    if bool_decide (word ≠ morph_parsed_word)
    then push_word doc_num i word_count tag morph_parsed_word (words_doc_nums, d)
    else (words_doc_nums, d) in
  Ok (words_doc_nums, S word_count, d).

(** Lines 501-520, for one document. *)
Definition scan_doc (self : t)
    (st : list (string * nat) * nat * list Scan)
    (doc : nat * (list (list string) * list string))
  : res (list (string * nat) * nat * list Scan) :=
  let '(words_doc_nums, word_count, scans) := st in
  let '(doc_num, (entity_substr_list, tags_list)) := doc in
  '(words_doc_nums, word_count, d) ←
    for_each
      (fun st '(i, (entity_substr, tag)) =>
         for_each (scan_word self doc_num i tag) entity_substr st)
      (enumerate_from 0 (combine entity_substr_list tags_list))
      (words_doc_nums, word_count,
       {| indices := []; word_counts := []; word_tags := [] |});
  Ok (words_doc_nums, word_count, (scans ++ [d])%list).

(** Lines 492-528: the words sent to the search, the numbers of their
    documents, the rows that the search returns and the per-document lists.
    The [zip] of an empty [words_doc_nums] cannot be unpacked into the two
    names of line 522. *)
Definition search_words (self : t) (entity_substr_batch : list (list string))
    (tags_batch : list (list string))
  : res (list string * list nat * (list (list Q) * list (list Z)) * list Scan) :=
  let entity_substr_batch := map (map (split_words self)) entity_substr_batch in
  '(words_doc_nums, _, scans) ←
    for_each (scan_doc self)
      (enumerate_from 0 (combine entity_substr_batch tags_batch))
      ([], 0%nat, []);
  if is_empty words_doc_nums then Raise ValueError
  else
    let words := map fst words_doc_nums in
    let doc_nums := map snd words_doc_nums in
    Ok (words, doc_nums, search self words, scans).

(** The forms of a word, of the words of a mention, of a document and of a
    batch. *)
Definition forms_of (self : t) (word : string) : list string :=
  lookup_forms word
    (match morph_parse self word with Ok w => w | Raise _ => word end).

Definition batch_forms (self : t) (words_batch : list (list (list string))) : list string :=
  concat (map (fun words_list =>
                 concat (map (fun words => concat (map (forms_of self) words)) words_list))
            words_batch).
End EntityLinker.

(** A linker whose index has the inflected form "москвы" and not the normal
    form "москва"; the search returns the word number 1 ("мокша") for every
    query word. *)
Definition sample_linker_forms : EntityLinkerSep := {|
  morph := fun w =>
    if bool_decide (w = "москвы")
    then {| POS := Some "NOUN"; inflect_nomn := Some "москва"; normal_form := "москва" |}
    else {| POS := None; inflect_nomn := None; normal_form := w |};
  word_to_idlist := [("москвы", [("Q649", 1%Z)]); ("мокша", [("Q211870", 1%Z)])];
  entities_ranking_dict := ∅;
  entities_types_sets :=
    <["LOC" := ({["Q649"]} ∪ {["Q211870"]} : gset string)]>
      (<["AMB" := (∅ : gset string)]> ∅);
  q_to_label := ∅;
  search := fun ws => (map (fun _ => [0.5%Q]) ws, map (fun _ => [1%Z]) ws);
  entity_ranker := fun contexts cands => map (fun _ => []) cands;
  num_entities_for_bert_ranking := 50;
  num_faiss_cells := 1;
  include_mention := false;
  num_entities_to_return := 5;
  stopwords := ∅;
  not_found_tokens := ["ооо"];
  not_found_str := "not in wiki";
  use_descriptions := false;
  return_confidences := false;
  max_text_len := 300;
  re_tokenizer := PyStr.split_ws;
  full_paragraph := false;
  max_paragraph_len := 250
|}.

(** An [EntityLinker] whose index has the word "moscow". *)
Definition sample_entity_linker : EntityLinker.t := {|
  EntityLinker.morph :=
    fun w => {| POS := None; inflect_nomn := None; normal_form := w |};
  EntityLinker.stopwords := ∅;
  EntityLinker.word_to_idlist := [("moscow", [("Q649", 1%Z)])];
  EntityLinker.search := fun ws => (map (fun _ => [0.25%Q]) ws, map (fun _ => [0%Z]) ws)
|}.

(** * Properties *)

(** ** Results of the error monad *)

Lemma bind_ok {A B} (m : res A) (f : A -> res B) (b : B) :
  m ≫= f = Ok b -> exists a, m = Ok a /\ f a = Ok b.
Proof. destruct m as [a|e]; simpl; [eauto | discriminate]. Qed.

Lemma map_res_length {A B} (f : A -> res B) (l : list A) (r : list B) :
  map_res f l = Ok r -> length r = length l.
Proof.
  revert r. induction l as [|x l IH]; simpl; intros r Hr.
  - now inversion Hr.
  - apply bind_ok in Hr as (y & _ & Hr).
    apply bind_ok in Hr as (ys & Hys & Hr).
    inversion Hr; subst. simpl. f_equal. now apply IH.
Qed.

Lemma map_res_total {A B} (f : A -> res B) (g : A -> B) (l : list A) :
  (forall x, In x l -> f x = Ok (g x)) -> map_res f l = Ok (map g l).
Proof.
  induction l as [|x l IH]; simpl; intros Hf; [reflexivity|].
  rewrite Hf by now left. simpl. rewrite IH by (intros; apply Hf; now right).
  reflexivity.
Qed.

Lemma map_res_map {A B C} (f : B -> res C) (h : A -> B) (l : list A) :
  map_res f (map h l) = map_res (fun x => f (h x)) l.
Proof.
  induction l as [|x l IH]; simpl; [reflexivity|]. now rewrite IH.
Qed.

(** ** [find_labels] *)

Lemma find_labels_lists (self : EntityLinkerSep) (entity_ids_batch : list (list (list string))) :
  find_labels self (map (map Several) entity_ids_batch)
  = Ok (map (map (fun entity_ids =>
                    Several (map (fun entity_id =>
                                    default entity_id (q_to_label self !! entity_id))
                               entity_ids)))
          entity_ids_batch).
Proof.
  unfold find_labels.
  rewrite map_res_map.
  apply map_res_total. intros l _.
  rewrite map_res_map.
  apply map_res_total. intros x _. reflexivity.
Qed.

(** C10.  In single-answer mode every result is a single id, and
    [find_labels] raises [NameError] on the first of them instead of
    returning its label: the [else] branch reads [entity_id], a name that is
    only bound inside the comprehension of the other branch. *)
Theorem find_labels_single_id_raises (self : EntityLinkerSep) (entity_id : string)
    (entity_ids_list : list (shaped string))
    (entity_ids_batch : list (list (shaped string))) :
  find_labels self ((One entity_id :: entity_ids_list) :: entity_ids_batch)
  = Raise NameError.
Proof. reflexivity. Qed.

(** The whole call fails in the same way on the documented example mode. *)
Example call_single_answer_raises :
  @EntityLinkerSep_call sample_runtime sample_linker_single
    [["paris"]] [[(0, 5)%Z]] [["LOC"]] [[(0, 15)%Z]] [["paris is a city"]]
  = Raise NameError.
Proof. vm_compute. reflexivity. Qed.

(** ** The chunker *)

Lemma chunk_windows_raises `{PyRuntime} (self : NerChunker) (n : nat) (sentence : string)
    (b : Chunks) :
  chunk_windows self n sentence b
  = if (max_chunk_len self =? 0)%Z then Raise ZeroDivisionError
    else Raise AttributeError.
Proof.
  unfold chunk_windows, Py.floordiv, max_chunk.
  destruct (max_chunk_len self =? 0)%Z; reflexivity.
Qed.

(** C7.  A sentence of 500 words without a comma, with [max_seq_len = 400]
    and [max_chunk_len = 180]: the call raises [AttributeError] (line 160
    reads [self.max_chunk], which the class does not have) and no chunk is
    returned. *)
Theorem chunker_long_sentence_raises :
  @NerChunker_call sample_runtime sample_chunker [long_sentence] = Raise AttributeError.
Proof. vm_compute. reflexivity. Qed.

(** ** Comparisons of scores *)

Lemma Qltb_lt (x y : Q) : Qltb x y = true <-> (x < y)%Q.
Proof. unfold Qltb, Qlt. apply Z.ltb_lt. Qed.

Lemma Qltb_ge (x y : Q) : Qltb x y = false <-> (y <= x)%Q.
Proof. unfold Qltb, Qle. rewrite Z.ltb_ge. reflexivity. Qed.

Lemma Qeq_bool_false (x y : Q) : Qeq_bool x y = false <-> ~ (x == y)%Q.
Proof.
  split.
  - intros Hb Heq. apply Qeq_bool_iff in Heq. congruence.
  - intros Hne. destruct (Qeq_bool x y) eqn:E; [|reflexivity].
    apply Qeq_bool_iff in E. contradiction.
Qed.

Lemma key_substr_pop_ge (x y : string * Q * Z) :
  key_substr_pop_ltb x y = false <-> substr_pop_ge x y.
Proof.
  unfold key_substr_pop_ltb, substr_pop_ge.
  destruct (Qeq_bool x.1.2 y.1.2) eqn:E; simpl.
  - apply Qeq_bool_iff in E. rewrite Z.ltb_ge. split.
    + intros Hp. right. split; assumption.
    + intros [Hlt | [_ Hp]]; [lra | assumption].
  - apply Qeq_bool_false in E. rewrite Qltb_ge. split.
    + intros Hle. left. lra.
    + intros [Hlt | [Heq _]]; [lra | contradiction].
Qed.

Lemma key_substr_rerank_pop_ge (x y : Scored) :
  key_substr_rerank_pop_ltb x y = false <-> substr_rerank_pop_ge x y.
Proof.
  unfold key_substr_rerank_pop_ltb, substr_rerank_pop_ge.
  destruct (Qeq_bool (substr_score x) (substr_score y)) eqn:E; simpl.
  - apply Qeq_bool_iff in E.
    destruct (Qeq_bool (rerank_score x) (rerank_score y)) eqn:E'; simpl.
    + apply Qeq_bool_iff in E'. rewrite Z.ltb_ge. split.
      * intros Hp. right. split; [assumption|]. right. split; assumption.
      * intros [Hlt | [_ [Hlt | [_ Hp]]]]; [lra | lra | assumption].
    + apply Qeq_bool_false in E'. rewrite Qltb_ge. split.
      * intros Hle. right. split; [assumption|]. left. lra.
      * intros [Hlt | [_ [Hlt | [Heq _]]]]; [lra | lra | contradiction].
  - apply Qeq_bool_false in E. rewrite Qltb_ge. split.
    + intros Hle. left. lra.
    + intros [Hlt | [Heq _]]; [lra | contradiction].
Qed.

Lemma substr_pop_ge_trans (x y z : string * Q * Z) :
  substr_pop_ge x y -> substr_pop_ge y z -> substr_pop_ge x z.
Proof.
  unfold substr_pop_ge.
  intros [Hxy | [Hxy Pxy]] [Hyz | [Hyz Pyz]].
  - left. lra.
  - left. lra.
  - left. lra.
  - right. split; [lra | lia].
Qed.

Lemma substr_rerank_pop_ge_trans (x y z : Scored) :
  substr_rerank_pop_ge x y -> substr_rerank_pop_ge y z -> substr_rerank_pop_ge x z.
Proof.
  unfold substr_rerank_pop_ge.
  intros [Hxy | [Hxy [Rxy | [Rxy Pxy]]]] [Hyz | [Hyz [Ryz | [Ryz Pyz]]]];
    try (left; lra);
    right; (split; [lra|]);
    try (left; lra).
  right. split; [lra | lia].
Qed.

(** ** Stable sorting *)

Section SortedReverseFacts.
Context {A : Type} (key_ltb : A -> A -> bool).

Lemma insert_desc_perm (x : A) (l : list A) :
  Permutation (insert_desc key_ltb x l) (x :: l).
Proof.
  induction l as [|y l IH]; simpl; [reflexivity|].
  destruct (key_ltb x y); [|reflexivity].
  rewrite IH. apply perm_swap.
Qed.

Lemma sorted_reverse_perm (l : list A) : Permutation (sorted_reverse key_ltb l) l.
Proof.
  induction l as [|x l IH]; simpl; [reflexivity|].
  rewrite insert_desc_perm. now constructor.
Qed.

(** Elements that are pairwise not smaller than each other (for instance
    elements with one and the same key) keep their order. *)
Lemma insert_desc_filter (p : A -> bool) (x : A) (l : list A) :
  (forall y, p x = true -> p y = true -> key_ltb x y = false) ->
  List.filter p (insert_desc key_ltb x l) = List.filter p (x :: l).
Proof.
  intros Hp. induction l as [|y l IH]; simpl; [reflexivity|].
  destruct (key_ltb x y) eqn:Hxy; [|reflexivity].
  simpl. rewrite IH. simpl.
  pose proof (Hp y) as Hy.
  destruct (p x); [|reflexivity].
  destruct (p y); [|reflexivity].
  rewrite Hy in Hxy by reflexivity. discriminate.
Qed.

Lemma sorted_reverse_stable (p : A -> bool) (l : list A) :
  (forall x y, p x = true -> p y = true -> key_ltb x y = false) ->
  List.filter p (sorted_reverse key_ltb l) = List.filter p l.
Proof.
  intros Hp. induction l as [|x l IH]; simpl; [reflexivity|].
  rewrite insert_desc_filter by (intros; now apply Hp).
  simpl. now rewrite IH.
Qed.

Context (ge : A -> A -> Prop).
Hypothesis key_ltb_ge : forall x y, key_ltb x y = false <-> ge x y.
Hypothesis key_ltb_asym : forall x y, key_ltb x y = true -> ge y x.
Hypothesis ge_trans : forall x y z, ge x y -> ge y z -> ge x z.

Lemma insert_desc_sorted (x : A) (l : list A) :
  StronglySorted ge l -> StronglySorted ge (insert_desc key_ltb x l).
Proof.
  induction 1 as [|y l Hl IH Hy]; simpl.
  - constructor; constructor.
  - destruct (key_ltb x y) eqn:Hxy.
    + constructor; [assumption|].
      eapply Permutation_Forall; [symmetry; apply insert_desc_perm|].
      constructor; [now apply key_ltb_asym | assumption].
    + apply key_ltb_ge in Hxy.
      constructor; [now constructor|].
      constructor; [assumption|].
      eapply List.Forall_impl; [|exact Hy]. intros z Hz. now apply ge_trans with y.
Qed.

Lemma sorted_reverse_sorted (l : list A) : StronglySorted ge (sorted_reverse key_ltb l).
Proof.
  induction l as [|x l IH]; simpl; [constructor|].
  now apply insert_desc_sorted.
Qed.
End SortedReverseFacts.

(** ** Ranking before the reranker *)

Lemma answer_lists {A B} (self : EntityLinkerSep) (ids : list A) (confs : list B) :
  length ids = length confs ->
  answer self ids confs
  = Ok (match ids, confs with
        | id0 :: _, conf0 :: _ =>
            if bool_decide (num_entities_to_return self = 1%nat)
            then (One id0, One conf0)
            else (Several (firstn (num_entities_to_return self) ids),
                  Several (firstn (num_entities_to_return self) confs))
        | _, _ => (Several (firstn (num_entities_to_return self) ids),
                   Several (firstn (num_entities_to_return self) confs))
        end).
Proof.
  unfold answer. intros Hlen.
  destruct ids as [|id0 ids], confs as [|conf0 confs]; try discriminate; simpl.
  - now rewrite andb_false_r.
  - rewrite andb_true_r. now destruct (bool_decide _).
Qed.

(** C4.  Ranking of a mention's fused candidates before reranking: every
    candidate gets its popularity (0 when the table has none); the list is
    sorted descending by substring score, then popularity; candidates equal
    on both keys keep their order; the ids are cut to
    [num_entities_for_bert_ranking] and the result to
    [num_entities_to_return] (the first id alone when that is 1 and there is
    one). *)
Theorem pre_rank_spec (self : EntityLinkerSep) (candidate_entities : list (string * Q)) :
  let ranked := rank_candidates self candidate_entities in
  let kept :=
    firstn (num_entities_for_bert_ranking self) (map (fun x => x.1.1) ranked) in
  Permutation ranked
    (map (fun c => (c.1, c.2, default 0%Z (entities_ranking_dict self !! c.1)))
       candidate_entities)
  /\ StronglySorted substr_pop_ge ranked
  /\ (forall (s : Q) (p : Z),
        List.filter (fun x => Qeq_bool x.1.2 s && (x.2 =? p)%Z) ranked
        = List.filter (fun x => Qeq_bool x.1.2 s && (x.2 =? p)%Z)
            (with_popularity self candidate_entities))
  /\ exists confs entities_scores,
      pre_rank self candidate_entities
      = Ok (kept,
            match kept with
            | first :: _ =>
                if bool_decide (num_entities_to_return self = 1%nat)
                then One first
                else Several (firstn (num_entities_to_return self) kept)
            | [] => Several []
            end,
            confs, entities_scores).
Proof.
  intros ranked kept. repeat split.
  - apply sorted_reverse_perm.
  - apply sorted_reverse_sorted with (key_ltb := key_substr_pop_ltb).
    + apply key_substr_pop_ge.
    + intros x y Hxy. unfold key_substr_pop_ltb in Hxy. unfold substr_pop_ge.
      destruct (Qeq_bool x.1.2 y.1.2) eqn:E; simpl in Hxy.
      * apply Qeq_bool_iff in E. apply Z.ltb_lt in Hxy. right. split; [lra | lia].
      * apply Qltb_lt in Hxy. now left.
    + apply substr_pop_ge_trans.
  - intros s p. apply sorted_reverse_stable.
    intros x y Hx Hy.
    apply andb_prop in Hx as [Hxs Hxp]. apply andb_prop in Hy as [Hys Hyp].
    apply Qeq_bool_iff in Hxs, Hys. apply Z.eqb_eq in Hxp, Hyp.
    apply key_substr_pop_ge. right. split; [lra | lia].
  - unfold pre_rank. fold ranked. fold kept.
    rewrite answer_lists.
    2:{ rewrite List.firstn_all2; [now rewrite length_map|].
        rewrite length_map. unfold kept. rewrite length_firstn. lia. }
    destruct kept as [|first kept'] eqn:Hkept.
    + simpl. rewrite firstn_nil. eauto.
    + destruct (num_entities_for_bert_ranking self) as [|b]; [discriminate|].
      simpl. destruct (bool_decide _); eauto.
Qed.

(** ** Reranking *)

(** C6.  In the reranking stage the candidates whose (rounded) rerank score
    is not above 0.001 or whose id does not start with "Q" are dropped, and
    the others are sorted descending by (substring score, rerank score,
    popularity), equal keys keeping their order. *)
Theorem filter_and_sort_spec (entities_with_scores : list Scored) :
  let kept := filter_and_sort entities_with_scores in
  (forall x, In x kept <->
             In x entities_with_scores
             /\ (0.001 < rerank_score x)%Q
             /\ PyStr.startswith "Q" (ent x) = true)
  /\ StronglySorted substr_rerank_pop_ge kept
  /\ (forall (s r : Q) (p : Z),
        let same_key x :=
          Qeq_bool (substr_score x) s && Qeq_bool (rerank_score x) r
          && (pop_score x =? p)%Z in
        List.filter same_key kept
        = List.filter same_key (List.filter keep_candidate entities_with_scores)).
Proof.
  intros kept. split; [|split].
  - intros x. unfold kept, filter_and_sort. split.
    + intros Hx.
      eapply Permutation_in in Hx; [|apply sorted_reverse_perm].
      apply filter_In in Hx as [Hx Hk]. unfold keep_candidate in Hk.
      apply andb_prop in Hk as [Hr Hq]. apply Qltb_lt in Hr. auto.
    + intros (Hin & Hr & Hq).
      eapply Permutation_in; [symmetry; apply sorted_reverse_perm|].
      apply filter_In. split; [assumption|]. unfold keep_candidate.
      apply andb_true_intro. split; [now apply Qltb_lt | assumption].
  - apply sorted_reverse_sorted with (key_ltb := key_substr_rerank_pop_ltb).
    + apply key_substr_rerank_pop_ge.
    + intros x y Hxy. unfold key_substr_rerank_pop_ltb in Hxy.
      unfold substr_rerank_pop_ge.
      destruct (Qeq_bool (substr_score x) (substr_score y)) eqn:E; simpl in Hxy.
      * apply Qeq_bool_iff in E. right. split; [lra|].
        destruct (Qeq_bool (rerank_score x) (rerank_score y)) eqn:E'; simpl in Hxy.
        -- apply Qeq_bool_iff in E'. apply Z.ltb_lt in Hxy. right. split; [lra | lia].
        -- apply Qltb_lt in Hxy. now left.
      * apply Qltb_lt in Hxy. now left.
    + apply substr_rerank_pop_ge_trans.
  - intros s r p same_key. apply sorted_reverse_stable.
    intros x y Hx Hy. unfold same_key in Hx, Hy.
    apply andb_prop in Hx as [Hx Hxp]. apply andb_prop in Hx as [Hxs Hxr].
    apply andb_prop in Hy as [Hy Hyp]. apply andb_prop in Hy as [Hys Hyr].
    apply Qeq_bool_iff in Hxs, Hys, Hxr, Hyr. apply Z.eqb_eq in Hxp, Hyp.
    apply key_substr_rerank_pop_ge. right. split; [lra|].
    right. split; [lra | lia].
Qed.

Lemma rejection_low_confidence (substr_len : nat) (top : Scored) (rest : list Scored) :
  rejection substr_len (top :: rest)
  = ((substr_len =? 1)%nat && Qltb (substr_score top) 1) || low_confidence top.
Proof.
  unfold rejection, low_confidence, confidence_tiers, below_tier. simpl.
  destruct ((substr_len =? 1)%nat && Qltb (substr_score top) 1); simpl; [reflexivity|].
  destruct (Qltb (rerank_score top) 0.11 && (pop_score top <? 90)%Z),
    (Qltb (substr_score top) 0.3),
    (Qltb (rerank_score top) 0.13 && (pop_score top <? 20)%Z),
    (Qltb (rerank_score top) 0.3 && (pop_score top <? 4)%Z),
    (Qeq_bool (substr_score top) 0.5); reflexivity.
Qed.

(** The counterexample to C5 as stated: a two-word mention whose top
    candidate has substring score 0.5, popularity 1000 and rerank score 0.99
    is below no tier of the floor, yet the ranking is replaced by the
    sentinel (the test [entities_with_scores[0][1] == 0.5], line 744). *)
Lemma rejection_not_as_specified :
  let top := {| ent := "Q90"; substr_score := 0.5; pop_score := 1000;
                rerank_score := 0.99 |} in
  accept sample_linker 2 [top] = (["not in wiki"], [zero_conf])
  /\ @rerank_mention sample_runtime sample_linker 2
       [("Q90", (0.5%Q, 1000%Z))] [("Q90", 0.99%Q)]
     = Ok (Several ["not in wiki"], Several [zero_conf])
  /\ rejection_as_specified 2 [top] = false
  /\ existsb (below_tier top) confidence_tiers = false.
Proof. vm_compute. repeat split; reflexivity. Qed.

(** C5, amended.  After reranking the ranking of a mention is replaced by
    the sentinel with confidence (0.0, 0, 0.0) exactly when no candidate
    remains after filtering, or the mention has one word and the top
    candidate's substring score is below 1.0, or the top candidate's
    substring score is below 0.3 or equal to 0.5, or the top candidate is
    below some tier of the floor (rerank < 0.11 and popularity < 90, rerank <
    0.13 and popularity < 20, rerank < 0.3 and popularity < 4); otherwise
    the sorted candidates are emitted, cut to [num_entities_to_return] (the
    top one alone when that is 1).  In [EntityLinker] the ranking is kept
    exactly when a candidate remains and 7.5 times the top rerank score
    exceeds 1.0. *)
Theorem rerank_mention_decision `{PyRuntime} (self : EntityLinkerSep) (substr_len : nat)
    (entities_scores : list (string * (Q * Z))) (scores : list (string * Q)) :
  let kept := filter_and_sort (merge_scores entities_scores scores) in
  let n := num_entities_to_return self in
  let sentinel :=
    if bool_decide (n = 1%nat)
    then (One (not_found_str self), One zero_conf)
    else (Several (firstn n [not_found_str self]), Several (firstn n [zero_conf])) in
  rerank_mention self substr_len entities_scores scores
  = Ok (match kept with
        | top :: _ =>
            if rejection substr_len kept then sentinel
            else if bool_decide (n = 1%nat)
                 then (One (ent top), One (conf_of top))
                 else (Several (firstn n (map ent kept)),
                       Several (firstn n (map conf_of kept)))
        | [] => sentinel
        end)
  /\ accept_EntityLinker (not_found_str self) kept
     = match kept with
       | top :: _ =>
           if Qltb 1 (7.5 * rerank_score top)
           then (map ent kept, map conf_of kept)
           else ([not_found_str self], [zero_conf])
       | [] => ([not_found_str self], [zero_conf])
       end.
Proof.
  intros kept n sentinel. split; [|reflexivity].
  unfold rerank_mention. fold kept.
  destruct kept as [|top rest] eqn:Hkept.
  - simpl. rewrite answer_lists by reflexivity. reflexivity.
  - rewrite rejection_low_confidence. unfold accept.
    destruct ((substr_len =? 1)%nat && Qltb (substr_score top) 1); simpl.
    + rewrite answer_lists by reflexivity. reflexivity.
    + destruct (low_confidence top).
      * rewrite answer_lists by reflexivity. reflexivity.
      * rewrite answer_lists by (simpl; now rewrite !length_map). reflexivity.
Qed.

(** ** Insertion-ordered dictionaries: facts *)

Section PyDictFacts.
Context {K V : Type} `{EqDecision K}.
Implicit Types (d : list (K * V)) (k : K) (v : V).

Lemma get_set_eq d k v : PyDict.get (PyDict.set d k v) k = Some v.
Proof.
  induction d as [|[k' v'] d IH]; simpl.
  - now rewrite decide_True.
  - destruct (decide (k = k')) as [->|Hne]; simpl.
    + now rewrite decide_True.
    + now rewrite decide_False.
Qed.

Lemma get_set_ne d k k' v : k ≠ k' -> PyDict.get (PyDict.set d k v) k' = PyDict.get d k'.
Proof.
  intros Hne. induction d as [|[k0 v0] d IH]; simpl.
  - rewrite decide_False by congruence. reflexivity.
  - destruct (decide (k = k0)) as [->|Hk]; simpl.
    + rewrite !decide_False by congruence. reflexivity.
    + destruct (decide (k' = k0)); [reflexivity | apply IH].
Qed.

Lemma keys_set d k v :
  PyDict.keys (PyDict.set d k v)
  = if PyDict.mem d k then PyDict.keys d else (PyDict.keys d ++ [k])%list.
Proof.
  unfold PyDict.mem, PyDict.keys.
  induction d as [|[k' v'] d IH]; simpl; [reflexivity|].
  destruct (decide (k = k')) as [->|Hne]; simpl; [reflexivity|].
  rewrite IH. now destruct (PyDict.get d k).
Qed.

Lemma get_None d k : PyDict.get d k = None <-> ~ In k (PyDict.keys d).
Proof.
  unfold PyDict.keys. induction d as [|[k' v'] d IH]; simpl.
  - tauto.
  - destruct (decide (k = k')) as [->|Hne].
    + split; [discriminate | intros Hn; exfalso; apply Hn; now left].
    + rewrite IH. split; [intros Hn [Heq|Hin]; [congruence | tauto] | tauto].
Qed.

Lemma get_Some_In d k v : PyDict.get d k = Some v -> In (k, v) d.
Proof.
  induction d as [|[k' v'] d IH]; simpl; [discriminate|].
  destruct (decide (k = k')) as [->|Hne].
  - intros [= ->]. now left.
  - intros Hg. right. now apply IH.
Qed.

Lemma In_get_Some d k v : NoDup (PyDict.keys d) -> In (k, v) d -> PyDict.get d k = Some v.
Proof.
  unfold PyDict.keys. induction d as [|[k' v'] d IH]; simpl; [tauto|].
  intros Hnd [Heq|Hin].
  - injection Heq as -> ->. now rewrite decide_True.
  - apply NoDup_cons in Hnd as [Hk Hnd].
    destruct (decide (k = k')) as [->|Hne].
    + exfalso. apply Hk. apply list_elem_of_In.
      change k' with (fst (k', v)). now apply in_map.
    + now apply IH.
Qed.

Lemma NoDup_keys_set d k v : NoDup (PyDict.keys d) -> NoDup (PyDict.keys (PyDict.set d k v)).
Proof.
  intros Hnd. rewrite keys_set. unfold PyDict.mem.
  destruct (PyDict.get d k) eqn:Hg; [assumption|].
  apply get_None in Hg.
  apply NoDup_app. split; [assumption|]. split.
  - intros x Hx Hxk. apply list_elem_of_In in Hx.
    apply list_elem_of_In in Hxk. simpl in Hxk.
    destruct Hxk as [->|[]]. contradiction.
  - apply NoDup_singleton.
Qed.

Lemma In_keys_set d k k' v :
  In k' (PyDict.keys (PyDict.set d k v)) <-> k' = k \/ In k' (PyDict.keys d).
Proof.
  rewrite keys_set. unfold PyDict.mem.
  destruct (PyDict.get d k) eqn:Hg.
  - split; [tauto|]. intros [->|Hin]; [|assumption].
    apply get_Some_In in Hg. change k with (fst (k, v0)). now apply in_map.
  - rewrite in_app_iff. simpl. split; [intros [?|[?|[]]]; auto | intros [?|?]; auto].
Qed.
End PyDictFacts.

(** ** [sum_scores] *)

Lemma scores_of_cons (k : string * Z) (c : string * Z * Q) (l : list (string * Z * Q)) :
  scores_of k (c :: l) = if decide (c.1 = k) then c.2 :: scores_of k l else scores_of k l.
Proof.
  unfold scores_of. simpl. destruct (decide (c.1 = k)) as [Heq|Hne].
  - now rewrite bool_decide_eq_true_2.
  - now rewrite bool_decide_eq_false_2.
Qed.

Lemma scores_of_In (k : string * Z) (l : list (string * Z * Q)) (s : Q) :
  In s (scores_of k l) <-> In (k, s) l.
Proof.
  unfold scores_of. rewrite in_map_iff. split.
  - intros ([k' s'] & <- & Hin). apply filter_In in Hin as [Hin Hk].
    apply bool_decide_eq_true_1 in Hk. simpl in Hk. now subst.
  - intros Hin. exists (k, s). split; [reflexivity|].
    apply filter_In. split; [assumption|]. now apply bool_decide_eq_true_2.
Qed.

(** The first loop: every pair gets the sum of its scores, in order. *)
Lemma add_scores_get (l d : list (string * Z * Q)) (k : string * Z) :
  PyDict.get (fold_left add_score l d) k
  = match scores_of k l with
    | [] => PyDict.get d k
    | scores => Some (fold_left Qplus scores (default 0%Q (PyDict.get d k)))
    end.
Proof.
  revert d. induction l as [|c l IH]; intros d; [reflexivity|].
  simpl fold_left. rewrite IH, scores_of_cons. unfold add_score.
  destruct (decide (c.1 = k)) as [<-|Hne].
  - rewrite get_set_eq. simpl. now destruct (scores_of c.1 l).
  - now rewrite get_set_ne.
Qed.

Lemma add_scores_NoDup (l d : list (string * Z * Q)) :
  NoDup (PyDict.keys d) -> NoDup (PyDict.keys (fold_left add_score l d)).
Proof.
  revert d. induction l as [|c l IH]; intros d Hd; [assumption|].
  simpl. apply IH. unfold add_score. now apply NoDup_keys_set.
Qed.

Lemma add_scores_entries (l : list (string * Z * Q)) (k : string * Z) (sum : Q) :
  In (k, sum) (fold_left add_score l []) ->
  (exists s, In (k, s) l) /\ sum = score_sum k l.
Proof.
  intros Hin. apply In_get_Some in Hin; [|apply add_scores_NoDup; constructor].
  rewrite add_scores_get in Hin. simpl in Hin. unfold score_sum.
  destruct (scores_of k l) eqn:Hs; [discriminate|].
  injection Hin as <-. split; [|reflexivity].
  exists q. apply scores_of_In. rewrite Hs. now left.
Qed.

Lemma normalized_ok (substr_len : Z) (sum : Q) (label_len : Z) :
  py_max substr_len label_len ≠ 0%Z ->
  normalized substr_len sum label_len = Ok (normalized_score substr_len sum label_len).
Proof.
  intros Hne. unfold normalized, normalized_score.
  apply Z.eqb_neq in Hne. now rewrite Hne.
Qed.

Lemma keep_max_get (d : list (string * Q)) (e e' : string) (score : Q) :
  PyDict.get (keep_max d e score) e'
  = if decide (e = e')
    then match PyDict.get d e with
         | Some old => Some (if Qltb old score then score else old)
         | None => Some score
         end
    else PyDict.get d e'.
Proof.
  unfold keep_max. destruct (decide (e = e')) as [<-|Hne].
  - destruct (PyDict.get d e) as [old|] eqn:Hg.
    + destruct (Qltb old score); [apply get_set_eq | assumption].
    + apply get_set_eq.
  - destruct (PyDict.get d e) as [old|].
    + destruct (Qltb old score); [now apply get_set_ne | reflexivity].
    + now apply get_set_ne.
Qed.

Lemma keep_max_NoDup (d : list (string * Q)) (e : string) (score : Q) :
  NoDup (PyDict.keys d) -> NoDup (PyDict.keys (keep_max d e score)).
Proof.
  intros Hd. unfold keep_max.
  destruct (PyDict.get d e) as [old|]; [destruct (Qltb old score)|];
    auto using NoDup_keys_set.
Qed.

(** The second loop: per entity, the largest normalized score seen, the
    first one among equals. *)
Lemma normalize_loop (substr_len : Z) (l : list (string * Z * Q)) (d : list (string * Q)) :
  (forall e len sum, In (e, len, sum) l -> py_max substr_len len ≠ 0%Z) ->
  exists out,
    for_each (normalize_step substr_len) l d = Ok out
    /\ (NoDup (PyDict.keys d) -> NoDup (PyDict.keys out))
    /\ forall e,
        match PyDict.get out e with
        | Some sc =>
            (PyDict.get d e = Some sc
             \/ exists len sum, In (e, len, sum) l
                                /\ sc = normalized_score substr_len sum len)
            /\ (forall old, PyDict.get d e = Some old -> (old <= sc)%Q)
            /\ (forall len sum, In (e, len, sum) l ->
                                (normalized_score substr_len sum len <= sc)%Q)
        | None => PyDict.get d e = None /\ forall len sum, ~ In (e, len, sum) l
        end.
Proof.
  revert d. induction l as [|[[e0 len0] sum0] l IH]; intros d Hden.
  - exists d. split; [reflexivity|]. split; [auto|]. intros e.
    destruct (PyDict.get d e) as [sc|]; [|split; [reflexivity | intros ? ? []]].
    split; [now left|]. split; [|intros ? ? []].
    intros old [= ->]. apply Qle_refl.
  - simpl for_each. unfold normalize_step at 1.
    rewrite normalized_ok by (eapply Hden; now left). simpl.
    set (score0 := normalized_score substr_len sum0 len0).
    destruct (IH (keep_max d e0 score0)) as (out & Hout & Hnd & Hspec).
    { intros e len sum Hin. eapply Hden. right. exact Hin. }
    exists out. split; [exact Hout|]. split.
    { intros Hd. apply Hnd. now apply keep_max_NoDup. }
    intros e. specialize (Hspec e). rewrite keep_max_get in Hspec.
    destruct (PyDict.get out e) as [sc|].
    + destruct Hspec as (Hsrc & Hold & Hrest).
      destruct (decide (e0 = e)) as [->|Hne].
      * destruct (PyDict.get d e) as [old|] eqn:Hg.
        -- specialize (Hold _ eq_refl).
           destruct (Qltb old score0) eqn:Hlt.
           ++ apply Qltb_lt in Hlt. split; [|split].
              ** destruct Hsrc as [[= <-] | (len & sum & Hin & ->)].
                 --- right. exists len0, sum0. split; [now left | reflexivity].
                 --- right. exists len, sum. split; [now right | reflexivity].
              ** intros old' [= <-]. lra.
              ** intros len sum [[= <- <-] | Hin]; [exact Hold | now apply Hrest].
           ++ apply Qltb_ge in Hlt. split; [|split].
              ** destruct Hsrc as [[= <-] | (len & sum & Hin & ->)].
                 --- now left.
                 --- right. exists len, sum. split; [now right | reflexivity].
              ** intros old' [= <-]. exact Hold.
              ** intros len sum [[= <- <-] | Hin]; [fold score0; lra | now apply Hrest].
        -- specialize (Hold _ eq_refl). split; [|split].
           ++ destruct Hsrc as [[= <-] | (len & sum & Hin & ->)].
              ** right. exists len0, sum0. split; [now left | reflexivity].
              ** right. exists len, sum. split; [now right | reflexivity].
           ++ discriminate.
           ++ intros len sum [[= <- <-] | Hin]; [exact Hold | now apply Hrest].
      * split; [|split].
        -- destruct Hsrc as [Hd | (len & sum & Hin & ->)]; [now left|].
           right. exists len, sum. split; [now right | reflexivity].
        -- exact Hold.
        -- intros len sum [[= -> _ _] | Hin]; [contradiction | now apply Hrest].
    + destruct Hspec as (Hd & Hrest).
      destruct (decide (e0 = e)) as [->|Hne].
      * destruct (PyDict.get d e); [destruct (Qltb _ _)|]; discriminate.
      * split; [exact Hd|]. intros len sum [[= -> _ _] | Hin];
          [contradiction | now apply (Hrest len sum)].
Qed.

(** C3.  [sum_scores] sums the similarity scores per pair (entity id, label
    length), gives each pair the score
    [min(score_sum, label_len) / max(substr_len, label_len)], and returns
    every entity id once, with the largest score among its label lengths.
    The division is defined as soon as no [max(substr_len, label_len)] is
    zero, which holds for every mention with at least one word. *)
Theorem sum_scores_spec (candidate_entities : list (string * Z * Q)) (substr_len : Z) :
  (forall e len s, In (e, len, s) candidate_entities -> py_max substr_len len ≠ 0%Z) ->
  exists out,
    sum_scores candidate_entities substr_len = Ok out
    /\ List.NoDup (map fst out)
    /\ (forall e, In e (map fst out) <-> exists len s, In (e, len, s) candidate_entities)
    /\ forall e sc,
        In (e, sc) out ->
        (exists len,
            (exists s, In (e, len, s) candidate_entities)
            /\ sc = normalized_score substr_len
                      (score_sum (e, len) candidate_entities) len)
        /\ forall len,
            (exists s, In (e, len, s) candidate_entities) ->
            (normalized_score substr_len (score_sum (e, len) candidate_entities) len
             <= sc)%Q.
Proof.
  intros Hden. unfold sum_scores.
  set (sums := fold_left add_score candidate_entities []).
  assert (Hsums : forall e len sum, In (e, len, sum) sums ->
                    (exists s, In (e, len, s) candidate_entities)
                    /\ sum = score_sum (e, len) candidate_entities).
  { intros e len sum Hin. now apply add_scores_entries. }
  assert (Hback : forall e len s, In (e, len, s) candidate_entities ->
                    In (e, len, score_sum (e, len) candidate_entities) sums).
  { intros e len s Hin. apply get_Some_In. unfold sums.
    rewrite add_scores_get. simpl. unfold score_sum.
    destruct (scores_of (e, len) candidate_entities) eqn:Hs; [|reflexivity].
    apply scores_of_In in Hin. rewrite Hs in Hin. destruct Hin. }
  destruct (normalize_loop substr_len sums []) as (out & Hout & Hnd & Hspec).
  { intros e len sum Hin. apply Hsums in Hin as [[s Hin] _]. eapply Hden, Hin. }
  exists out. split; [exact Hout|]. split; [|split].
  - apply NoDup_ListNoDup. apply Hnd. constructor.
  - intros e. specialize (Hspec e). split.
    + intros Hin. destruct (PyDict.get out e) as [sc|] eqn:Hg.
      * destruct Hspec as ([Hd | (len & sum & Hin' & _)] & _); [discriminate|].
        apply Hsums in Hin' as [[s Hs] _]. now exists len, s.
      * apply get_None in Hg. contradiction.
    + intros (len & s & Hin). destruct (PyDict.get out e) as [sc|] eqn:Hg.
      * apply get_Some_In in Hg. change e with (fst (e, sc)). now apply in_map.
      * destruct Hspec as [_ Hno]. exfalso. eapply Hno, Hback, Hin.
  - intros e sc Hin. specialize (Hspec e).
    apply In_get_Some in Hin; [|apply Hnd; constructor]. rewrite Hin in Hspec.
    destruct Hspec as ([Hd | (len & sum & Hin' & ->)] & _ & Hmax); [discriminate|].
    split.
    + apply Hsums in Hin' as [Hex ->]. now exists len.
    + intros len' [s Hs]. eapply Hmax, Hback, Hs.
Qed.

Lemma sum_scores_spec_witness :
  exists out,
    sum_scores [("Q90", 1%Z, 1%Q); ("Q167646", 2%Z, 1%Q); ("Q90", 2%Z, 0.5%Q);
                ("Q90", 1%Z, 0.25%Q)] 2
    = Ok out
    /\ List.NoDup (map fst out).
Proof.
  destruct (sum_scores_spec
              [("Q90", 1%Z, 1%Q); ("Q167646", 2%Z, 1%Q); ("Q90", 2%Z, 0.5%Q);
               ("Q90", 1%Z, 0.25%Q)] 2) as (out & Hout & Hnd & _).
  - intros e len s Hin. unfold py_max. destruct (2 <? len)%Z eqn:E; [|discriminate].
    apply Z.ltb_lt in E. lia.
  - exists out. split; assumption.
Defined.

(** ** Loops *)

Lemma for_each_app {A St} (body : St -> A -> res St) (l1 l2 : list A) (s : St) :
  for_each body (l1 ++ l2)%list s = (s' ← for_each body l1 s; for_each body l2 s').
Proof.
  revert s. induction l1 as [|x l1 IH]; intros s; simpl; [reflexivity|].
  destruct (body s x) as [s'|e]; simpl; [apply IH | reflexivity].
Qed.

(** An invariant indexed by the number of elements consumed. *)
Lemma for_each_invariant {A St} (body : St -> A -> res St) (P : nat -> St -> Prop)
    (l : list A) (s s' : St) :
  (forall k x s1 s2, l !! k = Some x -> P k s1 -> body s1 x = Ok s2 -> P (S k) s2) ->
  P 0%nat s -> for_each body l s = Ok s' -> P (length l) s'.
Proof.
  revert P s. induction l as [|x l IH]; intros P s Hstep H0 Hrun; simpl in *.
  - now inversion Hrun; subst.
  - apply bind_ok in Hrun as (s1 & Hx & Hrun).
    apply (IH (fun k => P (S k)) s1); [|eapply (Hstep 0%nat); eauto|assumption].
    intros k y s2 s3 Hk. apply (Hstep (S k)). exact Hk.
Qed.

Lemma for_each_total {A St} (body : St -> A -> res St) (P : nat -> St -> Prop)
    (l : list A) (s : St) :
  (forall k x s1, l !! k = Some x -> P k s1 ->
                  exists s2, body s1 x = Ok s2 /\ P (S k) s2) ->
  P 0%nat s -> exists s', for_each body l s = Ok s' /\ P (length l) s'.
Proof.
  revert P s. induction l as [|x l IH]; intros P s Hstep H0; simpl.
  - eauto.
  - destruct (Hstep 0%nat x s eq_refl H0) as (s1 & Hx & H1). rewrite Hx. simpl.
    apply (IH (fun k => P (S k)) s1); [|assumption].
    intros k y s2 Hk. apply (Hstep (S k)). exact Hk.
Qed.

Lemma lookup_enumerate_from {A} (l : list A) (i k : nat) (x : nat * A) :
  enumerate_from i l !! k = Some x -> x.1 = (i + k)%nat /\ l !! k = Some x.2.
Proof.
  revert i k. induction l as [|y l IH]; intros i k; simpl.
  - destruct k; discriminate.
  - destruct k as [|k]; simpl.
    + intros [= <-]. simpl. split; [lia | reflexivity].
    + intros Hk. apply IH in Hk as [-> Hk]. split; [lia | assumption].
Qed.

Lemma length_enumerate_from {A} (l : list A) (i : nat) :
  length (enumerate_from i l) = length l.
Proof. revert i. induction l as [|y l IH]; intros i; simpl; [reflexivity|]. now rewrite IH. Qed.

(** ** The scan of the words *)

Lemma combine_snoc {A B} (l1 : list A) (l2 : list B) (x : A) (y : B) :
  length l1 = length l2 ->
  combine (l1 ++ [x]) (l2 ++ [y]) = (combine l1 l2 ++ [(x, y)])%list.
Proof.
  revert l2. induction l1 as [|a l1 IH]; intros [|b l2] Hlen; simpl in *;
    try discriminate; [reflexivity|].
  f_equal. apply IH. lia.
Qed.

Lemma push_form_spec (self : EntityLinkerSep) (doc_num i wc : nat) (tag : string)
    (nf : list (string * nat)) (d : WordScan) (form : string) :
  aligned d ->
  exists d',
    push_form self doc_num i wc tag (nf, d) form
    = ((nf ++ if in_index self form then [] else [(form, doc_num)])%list, d')
    /\ aligned d'
    /\ scan_items d' = (scan_items d ++ [(i, wc, tag, in_index self form)])%list
    /\ fnd_words d' = (fnd_words d ++ if in_index self form then [form] else [])%list.
Proof.
  intros (Hc & Ht & Hf). unfold push_form, push_lookup, in_index.
  destruct (PyDict.mem (word_to_idlist self) form).
  - rewrite app_nil_r. eexists. split; [reflexivity|].
    unfold aligned, scan_items, push_item; simpl. rewrite !length_app. simpl.
    split; [lia|]. split; [|reflexivity].
    rewrite !combine_snoc; try reflexivity; rewrite ?length_combine; lia.
  - eexists. split; [reflexivity|].
    unfold aligned, scan_items, push_item; simpl. rewrite !length_app. simpl.
    split; [lia|]. split; [|now rewrite app_nil_r].
    rewrite !combine_snoc; try reflexivity; rewrite ?length_combine; lia.
Qed.

Lemma scan_word_forms (self : EntityLinkerSep) (doc_num i : nat) (tag : string)
    (nf : list (string * nat)) (wc : nat) (d : WordScan) (word : string) :
  scan_word self doc_num i tag (nf, wc, d) word
  = (morph_parsed_word ← morph_parse self word;
     let '(nf', d') :=
       fold_left (push_form self doc_num i wc tag)
         (lookup_forms word morph_parsed_word) (nf, d) in
     Ok (nf', S wc, d')).
Proof.
  unfold scan_word, lookup_forms, push_form, push_lookup.
  destruct (morph_parse self word) as [mpw|e]; simpl.
  - destruct (bool_decide (word ≠ mpw)); simpl;
      destruct (PyDict.mem (word_to_idlist self) word); simpl; try reflexivity;
      now destruct (PyDict.mem (word_to_idlist self) mpw).
  - now destruct (PyDict.mem (word_to_idlist self) word).
Qed.

(** *** Adjacency *)

Lemma adjacent_nil {A} (R : A -> A -> Prop) : adjacent R [].
Proof. intros k a b Hk. destruct k; discriminate. Qed.

Lemma adjacent_snoc {A} (R : A -> A -> Prop) (l : list A) (x : A) :
  adjacent R l -> (forall a, last l = Some a -> R a x) -> adjacent R (l ++ [x]).
Proof.
  intros Hl Hlast k a b Ha Hb.
  destruct (Nat.lt_ge_cases (S k) (length l)) as [Hlt|Hge].
  - rewrite lookup_app_l in Ha by lia. rewrite lookup_app_l in Hb by lia.
    eapply Hl; eassumption.
  - assert (Hk : S k = length l).
    { apply lookup_lt_Some in Hb. rewrite length_app in Hb. simpl in Hb. lia. }
    rewrite lookup_app_l in Ha by lia.
    rewrite lookup_app_r in Hb by lia.
    replace (S k - length l)%nat with 0%nat in Hb by lia. injection Hb as <-.
    apply Hlast. rewrite last_lookup, <- Hk. exact Ha.
Qed.

Lemma adjacent_cons {A} (R : A -> A -> Prop) (x : A) (l : list A) :
  adjacent R (x :: l) -> adjacent R l /\ forall a, head l = Some a -> R x a.
Proof.
  intros Hl. split.
  - intros k a b Ha Hb. apply (Hl (S k) a b); assumption.
  - intros a Ha. destruct l as [|y l]; [discriminate|]. injection Ha as ->.
    apply (Hl 0%nat); reflexivity.
Qed.

(** *** What the scan guarantees *)

Lemma map_snd_combine {A B} (l1 : list A) (l2 : list B) :
  length l1 = length l2 -> map snd (combine l1 l2) = l2.
Proof.
  revert l2. induction l1 as [|a l1 IH]; intros [|b l2] Hlen; simpl in *;
    try discriminate; [reflexivity|].
  f_equal. apply IH. lia.
Qed.

Lemma scan_items_flags (d : WordScan) :
  aligned d -> map item_flag (scan_items d) = word_fnd_flags d.
Proof.
  intros (Hc & Ht & Hf). unfold scan_items.
  apply map_snd_combine. rewrite !length_combine. lia.
Qed.

Lemma scan_facts_weaken (self : EntityLinkerSep) (tags : list string) (doc_num : nat)
    (wc0 wc wc' : nat) (new : list (string * nat)) (d : WordScan) :
  (wc <= wc')%nat ->
  scan_facts self tags doc_num wc0 wc new d ->
  scan_facts self tags doc_num wc0 wc' new d.
Proof.
  intros Hle (Ha & Hi & Hrest). split; [assumption|]. split; [|assumption].
  eapply List.Forall_impl; [|exact Hi]. intros it [Ht Hw]. split; [assumption | lia].
Qed.

Lemma push_form_facts (self : EntityLinkerSep) (tags : list string)
    (doc_num wc0 wc i : nat) (tag : string) (nf0 new : list (string * nat))
    (d : WordScan) (form : string) :
  tags !! i = Some tag -> (wc0 <= wc)%nat ->
  scan_facts self tags doc_num wc0 (S wc) new d ->
  Forall (fun it => item_wc it = wc -> item_index it = i) (scan_items d) ->
  exists new' d',
    push_form self doc_num i wc tag ((nf0 ++ new)%list, d) form = ((nf0 ++ new')%list, d')
    /\ scan_facts self tags doc_num wc0 (S wc) new' d'
    /\ Forall (fun it => item_wc it = wc -> item_index it = i) (scan_items d')
    /\ scan_items d' = (scan_items d ++ [(i, wc, tag, in_index self form)])%list.
Proof.
  intros Htag Hwc (Ha & Hi & Hadj & Hfnd & Hnf & Hdoc & Hnew) Hsame.
  destruct (push_form_spec self doc_num i wc tag (nf0 ++ new)%list d form Ha)
    as (d' & Hpush & Ha' & Hitems & Hfw).
  exists (new ++ if in_index self form then [] else [(form, doc_num)])%list, d'.
  split; [now rewrite Hpush, app_assoc|].
  assert (Hflags : word_fnd_flags d' = (word_fnd_flags d ++ [in_index self form])%list).
  { rewrite <- (scan_items_flags d'), <- (scan_items_flags d) by assumption.
    now rewrite Hitems, map_app. }
  split; [|split; [|assumption]].
  - split; [assumption|]. rewrite Hitems, Hfw, Hflags, !List.filter_app.
    split; [|split; [|split; [|split; [|split]]]].
    + apply Forall_app. split; [assumption|]. constructor; [|constructor].
      split; [assumption|]. unfold item_wc. simpl. lia.
    + apply adjacent_snoc; [assumption|]. intros a Ha1 Hw.
      apply last_Some in Ha1 as (l' & Hl').
      rewrite Hl' in Hsame. apply Forall_app in Hsame as [_ Hsame].
      apply Forall_inv in Hsame. unfold item_wc, item_index in *. simpl in *.
      symmetry. apply Hsame. now symmetry.
    + apply Forall_app. split; [assumption|].
      destruct (in_index self form) eqn:E; constructor; [assumption | constructor].
    + rewrite !length_app, Hnf. now destruct (in_index self form).
    + apply Forall_app. split; [assumption|].
      destruct (in_index self form); constructor; [reflexivity | constructor].
    + rewrite !length_app, Hnew. now destruct (in_index self form).
  - rewrite Hitems. apply Forall_app. split; [assumption|].
    constructor; [|constructor]. reflexivity.
Qed.

Lemma scan_word_facts (self : EntityLinkerSep) (tags : list string)
    (doc_num wc0 wc i : nat) (tag : string) (nf0 new : list (string * nat))
    (d : WordScan) (word : string) (nf' : list (string * nat)) (wc' : nat)
    (d' : WordScan) :
  tags !! i = Some tag -> (wc0 <= wc)%nat ->
  scan_facts self tags doc_num wc0 wc new d ->
  scan_word self doc_num i tag ((nf0 ++ new)%list, wc, d) word = Ok (nf', wc', d') ->
  wc' = S wc
  /\ exists new' forms,
      nf' = (nf0 ++ new')%list
      /\ scan_facts self tags doc_num wc0 (S wc) new' d'
      /\ forms ≠ []
      /\ scan_items d'
         = (scan_items d ++ map (fun f => (i, wc, tag, in_index self f)) forms)%list.
Proof.
  intros Htag Hwc Hfacts Hrun. rewrite scan_word_forms in Hrun.
  apply bind_ok in Hrun as (mpw & Hmorph & Hrun).
  assert (Hsame : Forall (fun it => item_wc it = wc -> item_index it = i) (scan_items d)).
  { destruct Hfacts as (_ & Hi & _). eapply List.Forall_impl; [|exact Hi].
    intros it [_ Hlt] Heq. lia. }
  apply (scan_facts_weaken _ _ _ _ _ (S wc)) in Hfacts; [|lia].
  destruct (push_form_facts self tags doc_num wc0 wc i tag nf0 new d word
              Htag Hwc Hfacts Hsame) as (new1 & d1 & Hp1 & Hf1 & Hs1 & Hi1).
  unfold lookup_forms in Hrun. destruct (bool_decide (word ≠ mpw)); simpl in Hrun.
  - destruct (push_form_facts self tags doc_num wc0 wc i tag nf0 new1 d1 mpw
                Htag Hwc Hf1 Hs1) as (new2 & d2 & Hp2 & Hf2 & Hs2 & Hi2).
    rewrite Hp1, Hp2 in Hrun. injection Hrun as <- <- <-.
    split; [reflexivity|]. exists new2, [word; mpw].
    split; [reflexivity|]. split; [assumption|]. split; [discriminate|].
    rewrite Hi2, Hi1, <- app_assoc. reflexivity.
  - rewrite Hp1 in Hrun. injection Hrun as <- <- <-.
    split; [reflexivity|]. exists new1, [word].
    split; [reflexivity|]. split; [assumption|]. split; [discriminate|].
    exact Hi1.
Qed.

(** The words of one mention (the inner loop of lines 451-473). *)
Lemma scan_mention_facts (self : EntityLinkerSep) (tags : list string)
    (doc_num wc0 wc i : nat) (tag : string) (nf0 new : list (string * nat))
    (d : WordScan) (words : list string) (nf' : list (string * nat)) (wc' : nat)
    (d' : WordScan) :
  tags !! i = Some tag -> (wc0 <= wc)%nat ->
  scan_facts self tags doc_num wc0 wc new d ->
  for_each (scan_word self doc_num i tag) words ((nf0 ++ new)%list, wc, d)
  = Ok (nf', wc', d') ->
  (wc <= wc')%nat
  /\ exists new' added,
      nf' = (nf0 ++ new')%list
      /\ scan_facts self tags doc_num wc0 wc' new' d'
      /\ scan_items d' = (scan_items d ++ added)%list
      /\ Forall (fun it => item_index it = i /\ (wc <= item_wc it)%nat) added
      /\ (words ≠ [] -> added ≠ []).
Proof.
  intros Htag Hwc Hfacts Hrun.
  pose (P := fun (j : nat) (st : list (string * nat) * nat * WordScan) =>
               let '(nf1, wc1, d1) := st in
               wc1 = (wc + j)%nat
               /\ exists new1 added,
                   nf1 = (nf0 ++ new1)%list
                   /\ scan_facts self tags doc_num wc0 wc1 new1 d1
                   /\ scan_items d1 = (scan_items d ++ added)%list
                   /\ Forall (fun it => item_index it = i /\ (wc <= item_wc it)%nat) added
                   /\ ((0 < j)%nat -> added ≠ [])).
  assert (HP : P (length words) (nf', wc', d')).
  { apply (for_each_invariant (scan_word self doc_num i tag) P words
             ((nf0 ++ new)%list, wc, d)); [| |exact Hrun].
    - intros j word [[nf1 wc1] d1] [[nf2 wc2] d2] _ (Hw1 & new1 & added & -> & Hf1 & Hi1 & Ha1 & _) Hstep.
      apply (scan_word_facts self tags doc_num wc0 wc1 i tag nf0 new1 d1) in Hstep
        as (-> & new2 & forms & -> & Hf2 & Hne & Hi2); [|assumption|lia|assumption].
      split; [lia|]. exists new2, (added ++ map (fun f => (i, wc1, tag, in_index self f)) forms)%list.
      split; [reflexivity|]. split; [assumption|]. split; [|split].
      + now rewrite Hi2, Hi1, <- app_assoc.
      + apply Forall_app. split; [assumption|]. apply Forall_map.
        apply Forall_forall. intros f _. unfold item_index, item_wc. simpl.
        split; [reflexivity | lia].
      + intros _ Hnil. apply app_eq_nil in Hnil as [_ Hnil].
        apply map_eq_nil in Hnil. contradiction.
    - split; [lia|]. exists new, []. rewrite app_nil_r.
      split; [reflexivity|]. split; [exact Hfacts|]. split; [reflexivity|].
      split; [constructor | lia]. }
  destruct HP as (-> & new1 & added & -> & Hf1 & Hi1 & Ha1 & Hne).
  split; [lia|]. exists new1, added.
  split; [reflexivity|]. split; [exact Hf1|]. split; [exact Hi1|].
  split; [exact Ha1|].
  intros Hw. apply Hne. destruct words; [contradiction | simpl; lia].
Qed.

Lemma lookup_combine {A B} (l1 : list A) (l2 : list B) (k : nat) (x : A * B) :
  combine l1 l2 !! k = Some x <-> l1 !! k = Some x.1 /\ l2 !! k = Some x.2.
Proof.
  revert l2 k. induction l1 as [|a l1 IH]; intros [|b l2] [|k]; simpl;
    try (split; [discriminate | intros [? ?]; discriminate]).
  - destruct x as [x1 x2]. simpl. split; [intros [= -> ->]; auto | intros [[= ->] [= ->]]; auto].
  - apply IH.
Qed.

Lemma adjacent_app {A} (R : A -> A -> Prop) (l1 l2 : list A) :
  adjacent R l1 -> adjacent R l2 ->
  (forall a b, last l1 = Some a -> head l2 = Some b -> R a b) ->
  adjacent R (l1 ++ l2).
Proof.
  revert l1. induction l2 as [|x l2 IH]; intros l1 H1 H2 Hj.
  - now rewrite app_nil_r.
  - replace (l1 ++ x :: l2)%list with ((l1 ++ [x]) ++ l2)%list
      by now rewrite <- app_assoc.
    apply adjacent_cons in H2 as [H2 Hx].
    apply IH; [|assumption|].
    + apply adjacent_snoc; [assumption|]. intros a Ha. now apply Hj.
    + intros a b Ha Hb. rewrite last_snoc in Ha. injection Ha as <-. now apply Hx.
Qed.

Lemma adjacent_same_index (l : list (nat * nat * string * bool)) (i : nat) :
  Forall (fun it => item_index it = i) l -> adjacent next_word l.
Proof.
  intros Hl k a b Ha Hb. left.
  rewrite List.Forall_forall in Hl.
  rewrite (Hl a), (Hl b); [reflexivity | |];
    apply list_elem_of_In; eapply list_elem_of_lookup_2; eassumption.
Qed.

Lemma tight_facts_step (k wc1 : nat) (d d' : WordScan)
    (added : list (nat * nat * string * bool)) :
  tight_facts k d ->
  Forall (fun it => (item_wc it < wc1)%nat) (scan_items d) ->
  scan_items d' = (scan_items d ++ added)%list ->
  Forall (fun it => item_index it = k /\ (wc1 <= item_wc it)%nat) added ->
  added ≠ [] ->
  tight_facts (S k) d'.
Proof.
  intros (Hadj & Hhead & Hlast) Hlt Hitems Hadded Hne.
  unfold tight_facts. rewrite Hitems. split; [|split].
  - apply adjacent_app; [assumption| |].
    + apply adjacent_same_index with k.
      eapply List.Forall_impl; [|exact Hadded]. now intros it [? _].
    + intros a b Ha Hb.
      assert (Hb' : item_index b = k /\ (wc1 <= item_wc b)%nat).
      { rewrite List.Forall_forall in Hadded. apply Hadded.
        destruct added as [|b' ?]; [discriminate|]. injection Hb as <-. now left. }
      assert (Ha' : (item_wc a < wc1)%nat).
      { rewrite List.Forall_forall in Hlt. apply Hlt. apply last_Some in Ha as (l' & ->).
        apply in_or_app. right. now left. }
      destruct k as [|k'].
      * rewrite Hlast in Ha. discriminate.
      * destruct Hlast as (it & Hit & Hidx). rewrite Hit in Ha. injection Ha as <-.
        right. split; [lia | lia].
  - intros it Hit. destruct (scan_items d) as [|x l] eqn:Hd.
    + simpl in Hit. destruct k as [|k'].
      * rewrite List.Forall_forall in Hadded. apply Hadded.
        destruct added as [|b' ?]; [discriminate|]. injection Hit as <-. now left.
      * destruct Hlast as (x & Hx & _). discriminate.
    + simpl in Hit. apply Hhead. exact Hit.
  - destruct (last added) as [it|] eqn:Hl.
    + exists it. split.
      * rewrite last_app, Hl. reflexivity.
      * rewrite List.Forall_forall in Hadded. apply Hadded.
        apply last_Some in Hl as (l' & ->). apply in_or_app. right. now left.
    + apply last_None in Hl. contradiction.
Qed.

Lemma scan_facts_empty (self : EntityLinkerSep) (tags : list string) (doc_num wc0 : nat) :
  scan_facts self tags doc_num wc0 wc0 [] empty_scan.
Proof.
  unfold scan_facts, aligned, scan_items, empty_scan. simpl.
  repeat split; try constructor. apply adjacent_nil.
Qed.

(** The scan of one document (lines 445-478). *)
Lemma scan_doc_facts (self : EntityLinkerSep) (doc_num : nat)
    (words_list : list (list string)) (tags_list : list string)
    (nf0 : list (string * nat)) (wc0 : nat) (scans : list WordScan)
    (nf : list (string * nat)) (wc : nat) (scans' : list WordScan) :
  scan_doc self (nf0, wc0, scans) (doc_num, (words_list, tags_list)) = Ok (nf, wc, scans') ->
  (wc0 <= wc)%nat
  /\ exists new d,
      nf = (nf0 ++ new)%list
      /\ scans' = (scans ++ [d])%list
      /\ scan_facts self tags_list doc_num wc0 wc new d
      /\ (Forall (fun words => words ≠ []) words_list ->
          tight_facts (length (combine words_list tags_list)) d).
Proof.
  unfold scan_doc. intros Hrun.
  apply bind_ok in Hrun as ([[nf1 wc1] d1] & Hloop & Hret).
  injection Hret as <- <- <-.
  pose (P := fun (k : nat) (st : list (string * nat) * nat * WordScan) =>
               let '(nf2, wc2, d2) := st in
               (wc0 <= wc2)%nat
               /\ exists new2,
                   nf2 = (nf0 ++ new2)%list
                   /\ scan_facts self tags_list doc_num wc0 wc2 new2 d2
                   /\ (Forall (fun words => words ≠ []) words_list -> tight_facts k d2)).
  assert (HP : P (length (enumerate_from 0 (combine words_list tags_list))) (nf1, wc1, d1)).
  { eapply (for_each_invariant _ P); [| |exact Hloop].
    - intros k [i [words tag]] [[nf2 wc2] d2] [[nf3 wc3] d3] Hk
        (Hw2 & new2 & -> & Hf2 & Ht2) Hstep.
      apply lookup_enumerate_from in Hk as [Hi Hk]. simpl in Hi, Hk. subst i.
      apply lookup_combine in Hk as [Hwords Htag]. simpl in Hwords, Htag.
      apply (scan_mention_facts self tags_list doc_num wc0 wc2 k tag nf0 new2 d2)
        in Hstep as (Hw3 & new3 & added & -> & Hf3 & Hi3 & Ha3 & Hne3);
        [|assumption|assumption|assumption].
      split; [lia|]. exists new3. split; [reflexivity|]. split; [assumption|].
      intros Hall. apply (tight_facts_step k wc2 d2 d3 added); auto.
      + destruct Hf2 as (_ & Hi2 & _). eapply List.Forall_impl; [|exact Hi2].
        intros it [_ Hlt]. lia.
      + apply Hne3. rewrite List.Forall_forall in Hall. apply Hall.
        apply list_elem_of_In. eapply list_elem_of_lookup_2. exact Hwords.
    - split; [lia|]. exists []. rewrite app_nil_r. split; [reflexivity|].
      split; [apply scan_facts_empty|].
      intros _. unfold tight_facts, scan_items, empty_scan. simpl.
      split; [apply adjacent_nil|]. split; [discriminate | reflexivity]. }
  rewrite length_enumerate_from in HP. destruct HP as (Hw & new & -> & Hf & Ht).
  split; [assumption|]. exists new, d1. auto.
Qed.

(** ** Candidate generation *)

Lemma In_set {K V} `{EqDecision K} (d : list (K * V)) (k k' : K) (v v' : V) :
  In (k', v') (PyDict.set d k v) -> (k' = k /\ v' = v) \/ In (k', v') d.
Proof.
  induction d as [|[k0 v0] d IH]; simpl.
  - intros [[= <- <-]|[]]. now left.
  - destruct (decide (k = k0)) as [->|Hne]; simpl.
    + intros [[= <- <-]|Hin]; [now left | right; now right].
    + intros [Heq|Hin]; [right; now left|].
      apply IH in Hin as [?|?]; [now left | right; now right].
Qed.

(** Flushing the candidates of a word keeps a property of the entries that
    holds for the flushed candidates. *)
Lemma flush_Forall (P : nat -> string * Z * Q -> Prop)
    (d : list (nat * list (string * Z * Q))) (k : nat) (cands : list (string * Z * Q)) :
  (forall k' v', In (k', v') d -> List.Forall (P k') v') ->
  List.Forall (P k) cands ->
  forall k' v', In (k', v') (flush d k cands) -> List.Forall (P k') v'.
Proof.
  intros Hd Hc k' v'. unfold flush, PyDict.mem.
  destruct (PyDict.get d k) as [old|] eqn:Hg.
  - rewrite Hg. intros Hin. apply In_set in Hin as [[-> ->]|Hin]; [|now apply Hd].
    apply List.Forall_app. split; [|assumption]. apply Hd. now apply get_Some_In.
  - rewrite get_set_eq. intros Hin. apply In_set in Hin as [[-> ->]|Hin]; [assumption|].
    apply In_set in Hin as [[-> ->]|Hin]; [constructor | now apply Hd].
Qed.

Lemma flush_keys (d : list (nat * list (string * Z * Q))) (k : nat)
    (cands : list (string * Z * Q)) :
  PyDict.keys (flush d k cands)
  = if PyDict.mem d k then PyDict.keys d else (PyDict.keys d ++ [k])%list.
Proof.
  unfold flush. destruct (PyDict.mem d k) eqn:Hm.
  - now rewrite keys_set, Hm.
  - rewrite !keys_set, Hm. unfold PyDict.mem. now rewrite get_set_eq.
Qed.

Lemma filter_res_sound {A} (p : A -> res bool) (l r : list A) :
  filter_res p l = Ok r -> forall x, In x r -> In x l /\ p x = Ok true.
Proof.
  revert r. induction l as [|y l IH]; simpl; intros r Hr x Hx.
  - injection Hr as <-. destruct Hx.
  - apply bind_ok in Hr as (b & Hb & Hr). apply bind_ok in Hr as (r' & Hr' & Hr).
    injection Hr as <-. destruct b.
    + destruct Hx as [<-|Hx]; [split; [now left | assumption]|].
      destruct (IH r' Hr' x Hx). split; [now right | assumption].
    + destruct (IH r' Hr' x Hx). split; [now right | assumption].
Qed.

Lemma type_ok_allowed (self : EntityLinkerSep) (tag : string) (entity : string * Z) :
  type_ok self tag entity = Ok true -> type_allowed self tag entity.1.
Proof.
  unfold type_ok, type_allowed. intros Hok.
  destruct (entities_types_sets self !! tag) as [tag_set|]; [|discriminate].
  simpl in Hok. exists tag_set. split; [reflexivity|].
  destruct (decide (entity.1 ∈ tag_set)) as [Hin|Hnin]; [now left|].
  right. rewrite bool_decide_eq_false_2 in Hok by assumption.
  destruct (entities_types_sets self !! "AMB") as [amb_set|]; [|discriminate].
  simpl in Hok. injection Hok as Hamb. exists amb_set. split; [reflexivity|].
  now apply bool_decide_eq_true_1 in Hamb.
Qed.

Lemma add_candidate_keys (score : Q) (cands : list (string * Z * Q)) (entity k : string * Z) :
  In k (PyDict.keys (add_candidate score cands entity)) ->
  k = entity \/ In k (PyDict.keys cands).
Proof.
  unfold add_candidate.
  destruct (PyDict.get cands entity) as [old|]; [destruct (Qltb old score)|];
    rewrite ?In_keys_set; tauto.
Qed.

Lemma add_candidates_keys (score : Q) (l : list (string * Z)) (cands : list (string * Z * Q))
    (k : string * Z) :
  In k (PyDict.keys (fold_left (add_candidate score) l cands)) ->
  In k l \/ In k (PyDict.keys cands).
Proof.
  revert cands. induction l as [|e l IH]; simpl; intros cands Hin; [now right|].
  apply IH in Hin as [Hin|Hin]; [left; now right|].
  apply add_candidate_keys in Hin as [->|Hin]; [left; now left | now right].
Qed.

Lemma add_neighbour_keys `{PyRuntime} (self : EntityLinkerSep) (tag : string)
    (cands cands' : list (string * Z * Q)) (x : (string + Z) * Q) (k : string * Z) :
  set_iter_sound ->
  add_neighbour self tag cands x = Ok cands' ->
  In k (PyDict.keys cands') ->
  type_allowed self tag k.1 \/ In k (PyDict.keys cands).
Proof.
  intros Hsound Hrun Hin. unfold add_neighbour in Hrun. destruct x as [ind score].
  apply bind_ok in Hrun as (es & _ & Hrun).
  apply bind_ok in Hrun as (kept & Hkept & Hrun). injection Hrun as <-.
  apply add_candidates_keys in Hin as [Hin|Hin]; [left | now right].
  apply Hsound in Hin. eapply filter_res_sound in Hkept as [_ Hok]; [|exact Hin].
  now apply type_ok_allowed.
Qed.

Lemma add_neighbours_keys `{PyRuntime} (self : EntityLinkerSep) (tag : string)
    (l : list ((string + Z) * Q)) (cands cands' : list (string * Z * Q)) (k : string * Z) :
  set_iter_sound ->
  for_each (add_neighbour self tag) l cands = Ok cands' ->
  In k (PyDict.keys cands') ->
  type_allowed self tag k.1 \/ In k (PyDict.keys cands).
Proof.
  intros Hsound. revert cands. induction l as [|x l IH]; simpl; intros cands Hrun Hin.
  - injection Hrun as <-. now right.
  - apply bind_ok in Hrun as (c1 & Hx & Hrun).
    destruct (IH c1 Hrun Hin) as [?|Hin1]; [now left|].
    eapply add_neighbour_keys; eassumption.
Qed.

(** What one step of the loop over word items does. *)
Lemma item_step_inv `{PyRuntime} (self : EntityLinkerSep) (D : list (list Q))
    (I' : list (list Z)) (fnd : list string) (st st' : ItemState)
    (it : nat * nat * string * bool) :
  item_step self D I' fnd st it = Ok st' ->
  prev_index st' = item_index it
  /\ prev_word_count st' = item_wc it
  /\ index st' = Some (item_index it)
  /\ exists ind_list scores_list,
      neighbours self D I' fnd (item_flag it) (words_i st) (ind_i st)
      = Ok (ind_list, scores_list, words_i st', ind_i st')
      /\ candidate_entities_dict st'
         = (if bool_decide (item_wc it ≠ prev_word_count st)
            then flush (candidate_entities_dict st) (prev_index st) (candidate_entities st)
            else candidate_entities_dict st)
      /\ for_each (add_neighbour self (item_tag it)) (combine ind_list scores_list)
           (if bool_decide (item_wc it ≠ prev_word_count st) then []
            else candidate_entities st)
         = Ok (candidate_entities st').
Proof.
  destruct it as [[[idx wc] tag] flag]. unfold item_step, item_index, item_wc, item_tag, item_flag.
  simpl. intros Hrun.
  apply bind_ok in Hrun as ([[[ind_list scores_list] wi] ii] & Hn & Hrun).
  destruct (bool_decide (wc ≠ prev_word_count st));
    apply bind_ok in Hrun as (c & Hc & Hrun); injection Hrun as <-; simpl;
    repeat split; exists ind_list, scores_list; auto.
Qed.

Section CollectTypes.
Context `{PyRuntime} (self : EntityLinkerSep) (tags : list string).

Lemma collect_loop_types (D : list (list Q)) (I' : list (list Z)) (fnd : list string)
    (items : list (nat * nat * string * bool)) (st0 st : ItemState) :
  set_iter_sound ->
  Forall (fun it => tags !! item_index it = Some (item_tag it)) items ->
  adjacent same_word items ->
  candidate_entities_dict st0 = [] -> candidate_entities st0 = [] ->
  for_each (item_step self D I' fnd) items st0 = Ok st ->
  (forall k v, In (k, v) (candidate_entities_dict st) -> List.Forall (candidate_allowed self tags k) v)
  /\ List.Forall (candidate_allowed self tags (prev_index st)) (candidate_entities st)
  /\ (candidate_entities st = [] \/ index st = Some (prev_index st)).
Proof.
  intros Hsound Htags Hadj Hd0 Hc0 Hrun.
  pose (P := fun (k : nat) (s : ItemState) =>
               (forall k' v, In (k', v) (candidate_entities_dict s) -> List.Forall (candidate_allowed self tags k') v)
               /\ List.Forall (candidate_allowed self tags (prev_index s)) (candidate_entities s)
               /\ match k with
                  | O => candidate_entities s = []
                  | S k' => exists it, items !! k' = Some it
                                    /\ prev_index s = item_index it
                                    /\ prev_word_count s = item_wc it
                                    /\ index s = Some (item_index it)
                  end).
  assert (HP : P (length items) st).
  { apply (for_each_invariant (item_step self D I' fnd) P items st0); [| |exact Hrun].
    - intros k it s1 s2 Hk (Hdict & Hcands & Hprev) Hstep.
      apply item_step_inv in Hstep
        as (Hpi & Hpw & Hidx & ind_list & scores_list & _ & Hd2 & Hc2).
      assert (Htag : tags !! item_index it = Some (item_tag it)).
      { rewrite List.Forall_forall in Htags. apply Htags.
        apply list_elem_of_In. eapply list_elem_of_lookup_2. exact Hk. }
      split; [|split].
      + rewrite Hd2. destruct (bool_decide _); [|exact Hdict].
        now apply flush_Forall.
      + rewrite Hpi. apply List.Forall_forall. intros c Hc.
        assert (Hkey : In c.1 (PyDict.keys (candidate_entities s2))) by now apply in_map.
        eapply add_neighbours_keys in Hkey as [Hal|Hold]; [| | exact Hsound | exact Hc2].
        * exists (item_tag it). split; assumption.
        * destruct (bool_decide (item_wc it ≠ prev_word_count s1)) eqn:Hwc; [destruct Hold|].
          apply bool_decide_eq_false_1 in Hwc. apply dec_stable in Hwc.
          destruct k as [|k'].
          -- rewrite Hprev in Hold. destruct Hold.
          -- destruct Hprev as (it0 & Hit0 & Hp0 & Hw0 & _).
             assert (Hsame : item_index it = item_index it0).
             { apply (Hadj k' it0 it Hit0 Hk). congruence. }
             apply in_map_iff in Hold as (c0 & Heq & Hin0).
             rewrite List.Forall_forall in Hcands. destruct (Hcands c0 Hin0) as (tag & Ht & Hal).
             exists tag. rewrite Hsame, <- Hp0, <- Heq. split; assumption.
      + exists it. auto.
    - unfold P. rewrite Hd0, Hc0. split; [intros ? ? []|]. split; [constructor | reflexivity]. }
  destruct HP as (Hdict & Hcands & Hprev). split; [assumption|]. split; [assumption|].
  destruct (length items); [now left|].
  destruct Hprev as (it & _ & -> & _ & ->). now right.
Qed.
End CollectTypes.

(** C8.  Whenever the scan of a document and the candidate generation on
    its scan return, every candidate entity recorded for mention [i] of the
    document has an id that is in the type set of the tag of mention [i] or
    in the "AMB" set, whatever the search results [D] and [I'] are. *)
Theorem candidates_have_allowed_types `{PyRuntime} (self : EntityLinkerSep)
    (doc_num : nat) (entity_substr_list : list (list string)) (tags_list : list string)
    (nf0 : list (string * nat)) (wc0 : nat) (scans : list WordScan)
    (nf : list (string * nat)) (wc : nat) (scans' : list WordScan) (scan : WordScan)
    (index0 : option nat) (D : list (list Q)) (I' : list (list Z))
    (index : nat) (candidate_entities_dict : list (nat * list (string * Z * Q))) :
  set_iter_sound ->
  scan_doc self (nf0, wc0, scans) (doc_num, (entity_substr_list, tags_list))
  = Ok (nf, wc, scans') ->
  last scans' = Some scan ->
  collect_candidates self index0 scan D I' = Ok (index, candidate_entities_dict) ->
  forall i candidates entity cand_entity_len score,
    In (i, candidates) candidate_entities_dict ->
    In (entity, cand_entity_len, score) candidates ->
    exists tag, tags_list !! i = Some tag /\ type_allowed self tag entity.
Proof.
  intros Hsound Hscan Hlast Hrun i candidates entity len score Hi Hc.
  apply scan_doc_facts in Hscan as (_ & new & d & _ & -> & Hfacts & _).
  rewrite last_snoc in Hlast. injection Hlast as <-.
  destruct Hfacts as (_ & Hitems & Hadj & _).
  unfold collect_candidates in Hrun.
  apply bind_ok in Hrun as (st & Hloop & Hrun).
  apply bind_ok in Hrun as (idx & Hidx & Hrun). injection Hrun as <- <-.
  apply (collect_loop_types self tags_list) in Hloop as (Hdict & Hcands & Hlink);
    [|assumption| |assumption|reflexivity|reflexivity].
  2:{ eapply List.Forall_impl; [|exact Hitems]. now intros it [? _]. }
  assert (Hall : List.Forall
                   (fun c => exists tag, tags_list !! i = Some tag
                                         /\ type_allowed self tag c.1.1) candidates).
  { eapply (flush_Forall
              (fun k c => exists tag, tags_list !! k = Some tag
                                      /\ type_allowed self tag c.1.1));
      [exact Hdict | | exact Hi].
    destruct Hlink as [-> | Hlink]; [constructor|].
    destruct (index st) as [j|]; [|discriminate].
    injection Hidx as <-. injection Hlink as ->. exact Hcands. }
  rewrite List.Forall_forall in Hall. apply (Hall _ Hc).
Qed.

(** *** The keys of the candidate dictionary *)

Lemma mem_keys {K V} `{EqDecision K} (d : list (K * V)) (k : K) :
  PyDict.mem d k = true <-> In k (PyDict.keys d).
Proof.
  unfold PyDict.mem. destruct (PyDict.get d k) eqn:Hg.
  - split; [intros _ | reflexivity]. apply get_Some_In in Hg.
    change k with (fst (k, v)). now apply in_map.
  - apply get_None in Hg. split; [discriminate | contradiction].
Qed.

Lemma flush_keys_seq (d : list (nat * list (string * Z * Q))) (p : nat)
    (cands : list (string * Z * Q)) :
  PyDict.keys d = seq 0 p \/ PyDict.keys d = seq 0 (S p) ->
  PyDict.keys (flush d p cands) = seq 0 (S p).
Proof.
  intros Hk. rewrite flush_keys. destruct (PyDict.mem d p) eqn:Hm.
  - apply mem_keys in Hm. destruct Hk as [Hk|Hk]; [|assumption].
    rewrite Hk in Hm. apply in_seq in Hm. lia.
  - destruct Hk as [Hk|Hk].
    + rewrite Hk, seq_S. reflexivity.
    + assert (Hin : In p (PyDict.keys d)) by (rewrite Hk; apply in_seq; lia).
      apply mem_keys in Hin. congruence.
Qed.

Lemma collect_loop_keys `{PyRuntime} (self : EntityLinkerSep) (D : list (list Q))
    (I' : list (list Z)) (fnd : list string)
    (items : list (nat * nat * string * bool)) (st0 st : ItemState) :
  adjacent next_word items ->
  (forall it, head items = Some it -> item_index it = 0%nat) ->
  candidate_entities_dict st0 = [] -> prev_index st0 = 0%nat ->
  for_each (item_step self D I' fnd) items st0 = Ok st ->
  (PyDict.keys (candidate_entities_dict st) = seq 0 (prev_index st)
   \/ PyDict.keys (candidate_entities_dict st) = seq 0 (S (prev_index st)))
  /\ match last items with
     | Some it => prev_index st = item_index it /\ index st = Some (item_index it)
     | None => True
     end.
Proof.
  intros Hadj Hhead Hd0 Hp0 Hrun.
  pose (P := fun (k : nat) (s : ItemState) =>
               (PyDict.keys (candidate_entities_dict s) = seq 0 (prev_index s)
                \/ PyDict.keys (candidate_entities_dict s) = seq 0 (S (prev_index s)))
               /\ match k with
                  | O => prev_index s = 0%nat
                  | S k' => exists it, items !! k' = Some it
                                    /\ prev_index s = item_index it
                                    /\ prev_word_count s = item_wc it
                                    /\ index s = Some (item_index it)
                  end).
  assert (HP : P (length items) st).
  { apply (for_each_invariant (item_step self D I' fnd) P items st0); [| |exact Hrun].
    - intros k it s1 s2 Hk (Hkeys & Hprev) Hstep.
      apply item_step_inv in Hstep
        as (Hpi & Hpw & Hidx & ind_list & scores_list & _ & Hd2 & _).
      split; [|exists it; auto].
      rewrite Hd2, Hpi.
      assert (Hnext : item_index it = prev_index s1
                      \/ (item_index it = S (prev_index s1)
                          /\ item_wc it ≠ prev_word_count s1)).
      { destruct k as [|k'].
        - left. rewrite Hprev. apply Hhead. now rewrite head_lookup.
        - destruct Hprev as (it0 & Hit0 & -> & -> & _). apply (Hadj k' it0 it Hit0 Hk). }
      destruct (bool_decide (item_wc it ≠ prev_word_count s1)) eqn:Hwc.
      + rewrite (flush_keys_seq _ _ _ Hkeys).
        destruct Hnext as [-> | [-> _]]; [now right | now left].
      + apply bool_decide_eq_false_1 in Hwc. apply dec_stable in Hwc.
        destruct Hnext as [-> | [_ Hne]]; [exact Hkeys | contradiction].
    - unfold P. rewrite Hd0, Hp0. split; [now left | reflexivity]. }
  destruct HP as (Hkeys & Hprev). split; [assumption|].
  rewrite last_lookup. destruct (length items) as [|n] eqn:Hlen; simpl.
  - apply length_zero_iff_nil in Hlen. now rewrite Hlen.
  - destruct Hprev as (it & -> & -> & _ & ->). auto.
Qed.

(** *** Candidate generation does not fail on well-formed data *)

Lemma getitem_valid {A} (l : list A) (i : Z) :
  valid_index l i -> exists x, Py.getitem l i = Ok x /\ In x l.
Proof.
  unfold valid_index, Py.getitem. intros Hi.
  destruct (0 <=? i)%Z eqn:E.
  - apply Z.leb_le in E.
    destruct (l !! Z.to_nat i) as [x|] eqn:Hx.
    + exists x. split; [reflexivity|]. apply list_elem_of_In.
      eapply list_elem_of_lookup_2. exact Hx.
    + apply lookup_ge_None in Hx. lia.
  - apply Z.leb_gt in E.
    assert (E' : (0 <=? Z.of_nat (length l) + i)%Z = true) by (apply Z.leb_le; lia).
    rewrite E'.
    destruct (l !! Z.to_nat (Z.of_nat (length l) + i)) as [x|] eqn:Hx.
    + exists x. split; [reflexivity|]. apply list_elem_of_In.
      eapply list_elem_of_lookup_2. exact Hx.
    + apply lookup_ge_None in Hx. lia.
Qed.

Lemma getitem_nat {A} (l : list A) (k : nat) (x : A) :
  l !! k = Some x -> Py.getitem l (Z.of_nat k) = Ok x.
Proof.
  intros Hk. unfold Py.getitem.
  assert (E : (0 <=? Z.of_nat k)%Z = true) by (apply Z.leb_le; lia).
  now rewrite E, Nat2Z.id, Hk.
Qed.

Lemma filter_res_total {A} (p : A -> res bool) (l : list A) :
  (forall x, In x l -> exists b, p x = Ok b) -> exists r, filter_res p l = Ok r.
Proof.
  induction l as [|x l IH]; simpl; intros Hp; [eauto|].
  destruct (Hp x) as (b & ->); [now left|].
  destruct IH as (r & ->); [intros y Hy; apply Hp; now right|].
  simpl. eauto.
Qed.

Lemma type_ok_total (self : EntityLinkerSep) (tag : string) (entity : string * Z) :
  is_Some (entities_types_sets self !! tag) ->
  is_Some (entities_types_sets self !! "AMB") ->
  exists b, type_ok self tag entity = Ok b.
Proof.
  intros [ts Hts] [amb Hamb]. unfold type_ok. rewrite Hts. simpl.
  destruct (bool_decide (entity.1 ∈ ts)); [eauto|]. rewrite Hamb. simpl. eauto.
Qed.

Lemma entities_of_total (self : EntityLinkerSep) (ind : string + Z) :
  resolvable self ind -> exists es, entities_of self ind = Ok es.
Proof.
  destruct ind as [word|n]; simpl; intros Hr.
  - unfold in_index, PyDict.mem in Hr. unfold PyDict.getitem.
    destruct (PyDict.get (word_to_idlist self) word); [simpl; eauto | discriminate].
  - destruct (getitem_valid _ _ Hr) as (word & -> & Hin). simpl.
    unfold PyDict.getitem, word_list in *.
    destruct (PyDict.get (word_to_idlist self) word) eqn:Hg; [simpl; eauto|].
    apply get_None in Hg. contradiction.
Qed.

Lemma add_neighbours_total `{PyRuntime} (self : EntityLinkerSep) (tag : string)
    (l : list ((string + Z) * Q)) (cands : list (string * Z * Q)) :
  is_Some (entities_types_sets self !! tag) ->
  is_Some (entities_types_sets self !! "AMB") ->
  List.Forall (fun x => resolvable self x.1) l ->
  exists cands', for_each (add_neighbour self tag) l cands = Ok cands'.
Proof.
  intros Htag Hamb. revert cands. induction l as [|[ind score] l IH]; simpl; intros cands Hl.
  - eauto.
  - apply List.Forall_cons_iff in Hl as [Hx Hl]. simpl in Hx.
    destruct (entities_of_total self ind Hx) as (es & ->). simpl.
    destruct (filter_res_total (type_ok self tag) es) as (kept & ->).
    { intros x _. now apply type_ok_total. }
    simpl. now apply IH.
Qed.

Lemma filter_take_lt {A} (p : A -> bool) (l : list A) (k : nat) (x : A) :
  l !! k = Some x -> p x = true ->
  (length (List.filter p (take k l)) < length (List.filter p l))%nat.
Proof.
  intros Hk Hp. rewrite <- (take_drop k l) at 2.
  rewrite List.filter_app, length_app.
  rewrite (drop_S l x k Hk). simpl. rewrite Hp. simpl. lia.
Qed.

Lemma filter_take_S {A} (p : A -> bool) (l : list A) (k : nat) (x : A) :
  l !! k = Some x ->
  length (List.filter p (take (S k) l))
  = (length (List.filter p (take k l)) + if p x then 1 else 0)%nat.
Proof.
  intros Hk. rewrite (take_S_r l k x Hk), List.filter_app, length_app. simpl.
  now destruct (p x).
Qed.

Lemma Forall_combine_fst {A B} (P : A -> Prop) (l1 : list A) (l2 : list B) :
  List.Forall P l1 -> List.Forall (fun x => P x.1) (combine l1 l2).
Proof.
  intros Hl. apply List.Forall_forall. intros [a b] Hin.
  apply in_combine_l in Hin. rewrite List.Forall_forall in Hl. now apply Hl.
Qed.

Lemma collect_loop_total `{PyRuntime} (self : EntityLinkerSep) (D : list (list Q))
    (I' : list (list Z)) (fnd : list string)
    (items : list (nat * nat * string * bool)) (st0 : ItemState) :
  length fnd = length (List.filter (fun b => b) (map item_flag items)) ->
  List.Forall (fun w => in_index self w = true) fnd ->
  (length (List.filter negb (map item_flag items)) <= length D)%nat ->
  (length (List.filter negb (map item_flag items)) <= length I')%nat ->
  List.Forall (List.Forall (valid_index (word_list self))) I' ->
  List.Forall (fun it => is_Some (entities_types_sets self !! item_tag it)) items ->
  is_Some (entities_types_sets self !! "AMB") ->
  words_i st0 = 0%nat -> ind_i st0 = 0%nat ->
  exists st, for_each (item_step self D I' fnd) items st0 = Ok st.
Proof.
  intros Hfnd Hin HD HI Hvalid Htags Hamb Hw0 Hi0.
  set (flags := map item_flag items) in *.
  pose (P := fun (k : nat) (s : ItemState) =>
               words_i s = length (List.filter (fun b => b) (take k flags))
               /\ ind_i s = length (List.filter negb (take k flags))).
  destruct (for_each_total (item_step self D I' fnd) P items st0) as (st & Hst & _);
    [| |eauto].
  - intros k it s1 Hk (Hwi & Hii).
    assert (Hflag : flags !! k = Some (item_flag it)).
    { unfold flags. now rewrite list_lookup_fmap, Hk. }
    assert (Htag : is_Some (entities_types_sets self !! item_tag it)).
    { rewrite List.Forall_forall in Htags. apply Htags.
      apply list_elem_of_In. eapply list_elem_of_lookup_2. exact Hk. }
    destruct it as [[[idx wc] tag] flag]. unfold item_flag, item_tag in *. simpl in *.
    unfold item_step.
    assert (Hn : exists ind_list scores_list,
               neighbours self D I' fnd flag (words_i s1) (ind_i s1)
               = Ok (ind_list, scores_list,
                     (words_i s1 + if flag then 1 else 0)%nat,
                     (ind_i s1 + if flag then 0 else 1)%nat)
               /\ List.Forall (resolvable self) ind_list).
    { unfold neighbours. destruct flag.
      - assert (Hlt : (words_i s1 < length fnd)%nat).
        { rewrite Hwi, Hfnd. eapply filter_take_lt; [exact Hflag | reflexivity]. }
        apply lookup_lt_is_Some in Hlt as [w Hw].
        rewrite (getitem_nat _ _ _ Hw). simpl.
        exists [inl w], [1%Q]. rewrite Nat.add_1_r, Nat.add_0_r. split; [reflexivity|].
        constructor; [|constructor]. simpl.
        rewrite List.Forall_forall in Hin. apply Hin.
        apply list_elem_of_In. eapply list_elem_of_lookup_2. exact Hw.
      - assert (Hlt : (ind_i s1 < length (List.filter negb flags))%nat).
        { rewrite Hii. eapply filter_take_lt; [exact Hflag | reflexivity]. }
        assert (HltD : (ind_i s1 < length D)%nat) by lia.
        assert (HltI : (ind_i s1 < length I')%nat) by lia.
        apply lookup_lt_is_Some in HltD as [row Hrow].
        apply lookup_lt_is_Some in HltI as [irow Hirow].
        rewrite (getitem_nat _ _ _ Hrow). simpl.
        rewrite (getitem_nat _ _ _ Hirow). simpl.
        eexists _, _. rewrite Nat.add_1_r, Nat.add_0_r. split; [reflexivity|].
        apply List.Forall_map. simpl.
        rewrite List.Forall_forall in Hvalid. apply Hvalid.
        apply list_elem_of_In. eapply list_elem_of_lookup_2. exact Hirow. }
    destruct Hn as (ind_list & scores_list & -> & Hres). simpl.
    destruct (bool_decide (wc ≠ prev_word_count s1)); simpl;
      match goal with
      | |- context [for_each (add_neighbour self tag) ?l ?c] =>
          destruct (add_neighbours_total self tag l c Htag Hamb) as (c' & ->);
            [now apply Forall_combine_fst|]
      end; simpl;
      (eexists; split; [reflexivity|]); unfold P; simpl;
      rewrite !(filter_take_S _ _ _ _ Hflag), Hwi, Hii; destruct flag; simpl; split; lia.
  - unfold P. simpl. split; assumption.
Qed.

(** ** One document *)

Lemma answer_several {A B} (self : EntityLinkerSep) (ids : list A) (confs : list B)
    (r : shaped A * shaped B) :
  num_entities_to_return self ≠ 1%nat ->
  answer self ids confs = Ok r -> is_several r.1 /\ is_several r.2.
Proof.
  intros Hn. unfold answer. rewrite bool_decide_eq_false_2 by assumption. simpl.
  intros [= <-]. simpl. auto.
Qed.

Lemma map_res_ok {A B} (f : A -> res B) (l : list A) :
  (forall x, In x l -> exists y, f x = Ok y) ->
  exists r, map_res f l = Ok r /\ length r = length l.
Proof.
  induction l as [|x l IH]; simpl; intros Hf; [eauto|].
  destruct (Hf x) as (y & ->); [now left|].
  destruct IH as (r & -> & Hlen); [intros z Hz; apply Hf; now right|].
  simpl. exists (y :: r). split; [reflexivity | simpl; lia].
Qed.

Lemma map_res_In {A B} (f : A -> res B) (l : list A) (r : list B) (y : B) :
  map_res f l = Ok r -> In y r -> exists x, In x l /\ f x = Ok y.
Proof.
  revert r. induction l as [|x l IH]; simpl; intros r Hr Hy.
  - injection Hr as <-. destruct Hy.
  - apply bind_ok in Hr as (y0 & Hy0 & Hr). apply bind_ok in Hr as (ys & Hys & Hr).
    injection Hr as <-. destruct Hy as [<-|Hy]; [eauto|].
    destruct (IH ys Hys Hy) as (x' & ? & ?). eauto.
Qed.

Lemma rank_by_description_ok `{PyRuntime} (self : EntityLinkerSep)
    (entity_substr_list : list (list string)) (entity_offsets_list : list (Z * Z))
    (candidate_entities_list : list (list string)) (tags : list string)
    (entities_scores_list : list (list (string * (Q * Z))))
    (sentences_list : list string) (sentences_offsets_list : list (Z * Z))
    (substr_lens : list nat) (n : nat) :
  length entity_substr_list = n -> length candidate_entities_list = n ->
  length tags = n -> length substr_lens = n -> length entities_scores_list = n ->
  (forall contexts, length (entity_ranker self contexts candidate_entities_list) = n) ->
  exists ids confs,
    rank_by_description self entity_substr_list entity_offsets_list
      candidate_entities_list tags entities_scores_list sentences_list
      sentences_offsets_list substr_lens
    = Ok (ids, confs)
    /\ length ids = n /\ length confs = n
    /\ (num_entities_to_return self ≠ 1%nat -> List.Forall is_several ids).
Proof.
  intros H1 H2 H3 H4 H5 H6. unfold rank_by_description.
  match goal with
  | |- context [map_res ?f ?l] =>
      destruct (map_res_ok f l) as (r & Hr & Hlen); [|rewrite Hr]
  end.
  - intros [[[[[es ce] tag] sl] sc] scores] _. unfold rerank_mention.
    assert (Hacc : forall l, length (accept self sl l).1 = length (accept self sl l).2).
    { intros l. unfold accept. destruct l as [|top rest]; [reflexivity|].
      destruct ((sl =? 1)%nat && Qltb (substr_score top) 1); [reflexivity|].
      destruct (low_confidence top); [reflexivity|]. simpl. now rewrite !length_map. }
    specialize (Hacc (filter_and_sort (merge_scores sc scores))).
    destruct (accept self sl (filter_and_sort (merge_scores sc scores))) as [te tc].
    rewrite answer_lists by exact Hacc. eauto.
  - simpl. exists (map fst r), (map snd r). split; [reflexivity|].
    rewrite !length_map, Hlen, !length_combine, H1, H2, H3, H4, H5, H6.
    split; [lia|]. split; [lia|].
    intros Hmode. apply List.Forall_map. apply List.Forall_forall. intros x Hx.
    eapply map_res_In in Hr as (a & _ & Ha); [|exact Hx].
    destruct a as [[[[[es ce] tag] sl] sc] scores].
    unfold rerank_mention in Ha. destruct (accept self sl _) as [te tc].
    now apply answer_several in Ha as [? _].
Qed.

Lemma sum_scores_ok (candidate_entities : list (string * Z * Q)) (substr_len : nat) :
  (0 < substr_len)%nat ->
  exists out, sum_scores candidate_entities (Z.of_nat substr_len) = Ok out.
Proof.
  intros Hpos. unfold sum_scores.
  destruct (normalize_loop (Z.of_nat substr_len) (fold_left add_score candidate_entities [])
              []) as (out & -> & _); [|eauto].
  intros e len s _. unfold py_max.
  destruct (Z.of_nat substr_len <? len)%Z eqn:E; [apply Z.ltb_lt in E|]; lia.
Qed.

Lemma pre_rank_ok (self : EntityLinkerSep) (candidate_entities : list (string * Q)) :
  exists r, pre_rank self candidate_entities = Ok r.
Proof.
  unfold pre_rank.
  set (kept := firstn (num_entities_for_bert_ranking self)
                 (map (fun x => x.1.1) (rank_candidates self candidate_entities))).
  rewrite answer_lists.
  - destruct kept; simpl; [eauto|].
    match goal with |- context [match ?l with _ => _ end] => destruct l end;
      simpl; eauto.
  - rewrite List.firstn_all2; [now rewrite length_map|].
    rewrite length_map. unfold kept. rewrite length_firstn. lia.
Qed.

Lemma keys_values_length {K V} (d : list (K * V)) :
  length (PyDict.values d) = length (PyDict.keys d).
Proof. unfold PyDict.values, PyDict.keys. now rewrite !length_map. Qed.

(** A document whose mentions all have a word gets one result per mention. *)
Lemma link_doc_ok `{PyRuntime} (self : EntityLinkerSep) (index0 : option nat)
    (entity_substr_list : list (list string)) (entity_offsets_list : list (Z * Z))
    (sentences_list : list string) (sentences_offsets_list : list (Z * Z))
    (scan : WordScan) (tags : list string) (D : list (list Q)) (I' : list (list Z))
    (doc_num wc0 wc : nat) (new : list (string * nat)) :
  let n := length entity_substr_list in
  length tags = n -> length entity_offsets_list = n ->
  Forall (fun words => words ≠ []) entity_substr_list ->
  scan_facts self tags doc_num wc0 wc new scan ->
  tight_facts n scan ->
  (length new <= length D)%nat -> (length new <= length I')%nat ->
  List.Forall (List.Forall (valid_index (word_list self))) I' ->
  List.Forall (fun tag => is_Some (entities_types_sets self !! tag)) tags ->
  is_Some (entities_types_sets self !! "AMB") ->
  (forall contexts cands, length (entity_ranker self contexts cands) = length cands) ->
  exists index ids confs,
    link_doc self index0 entity_substr_list entity_offsets_list sentences_list
      sentences_offsets_list scan tags D I' = Ok (index, ids, confs)
    /\ length ids = n /\ length confs = n
    /\ (num_entities_to_return self ≠ 1%nat -> List.Forall is_several ids).
Proof.
  intros n Htags Hoffs Hwords Hfacts Htight HD HI Hvalid Hknown Hamb Hranker.
  unfold link_doc. destruct (is_empty entity_substr_list) eqn:Hemp.
  { exists index0, [], []. unfold n.
    destruct entity_substr_list; [repeat split; constructor | discriminate]. }
  destruct Hfacts as (Hal & Hitems & Hadj & Hfnd & Hfndlen & Hdoc & Hnewlen).
  destruct Htight as (Hnext & Hhead & Hlast).
  assert (Hn : exists m, n = S m).
  { unfold n. destruct entity_substr_list; [discriminate | simpl; eauto]. }
  destruct Hn as (m & Hn).
  rewrite Hn in Hlast. destruct Hlast as (itl & Hitl & Hidx).
  (* the loop over word items *)
  unfold collect_candidates. fold (scan_items scan).
  set (st0 := {| candidate_entities_dict := []; prev_word_count := 0; prev_index := 0;
                 candidate_entities := []; words_i := 0; ind_i := 0; index := index0 |}).
  destruct (collect_loop_total self D I' (fnd_words scan) (scan_items scan) st0)
    as (st & Hst); try reflexivity; try assumption.
  { now rewrite scan_items_flags. }
  { rewrite scan_items_flags by assumption. lia. }
  { rewrite scan_items_flags by assumption. lia. }
  { eapply List.Forall_impl; [|exact Hitems]. intros it [Hit _].
    rewrite List.Forall_forall in Hknown. apply Hknown.
    apply list_elem_of_In. eapply list_elem_of_lookup_2. exact Hit. }
  rewrite Hst. simpl.
  destruct (collect_loop_keys self D I' (fnd_words scan) (scan_items scan) st0 st)
    as (Hkeys & Hprev); try reflexivity; try assumption.
  rewrite Hitl in Hprev. destruct Hprev as (Hpi & Hist). rewrite Hist. simpl.
  set (dict := flush (candidate_entities_dict st) (item_index itl) (candidate_entities st)).
  assert (Hdict : PyDict.keys dict = seq 0 n).
  { unfold dict. rewrite <- Hpi, flush_keys_seq by assumption. now rewrite Hpi, Hidx, Hn. }
  (* score fusion *)
  match goal with
  | |- context [map_res ?f ?l] => destruct (map_res_ok f l) as (total & -> & Htotal)
  end.
  { intros [cands len] Hin. apply in_combine_r in Hin.
    apply in_map_iff in Hin as (words & <- & Hw).
    apply sum_scores_ok. rewrite List.Forall_forall in Hwords.
    specialize (Hwords words Hw). destruct words; [contradiction | simpl; lia]. }
  simpl.
  rewrite length_combine, keys_values_length, Hdict, length_seq, length_map in Htotal.
  fold n in Htotal. rewrite Nat.min_id in Htotal.
  (* ranking *)
  match goal with
  | |- context [map_res ?f ?l] =>
      destruct (map_res_ok f l) as (ranked & Hrk & Hranked); [|rewrite Hrk]
  end.
  { intros [words cands] _. apply pre_rank_ok. }
  simpl. rewrite length_combine, Htotal in Hranked. fold n in Hranked.
  rewrite Nat.min_id in Hranked.
  destruct (use_descriptions self).
  - destruct (rank_by_description_ok self entity_substr_list entity_offsets_list
                (map (fun r => r.1.1.1) ranked) tags (map (fun r => r.2) ranked)
                sentences_list sentences_offsets_list
                (map (fun entity_substr => length entity_substr) entity_substr_list) n)
      as (ids & confs & -> & Hids & Hconfs & Hsev);
      rewrite ?length_map; auto.
    { intros contexts. now rewrite Hranker, length_map. }
    simpl. exists (Some (item_index itl)), ids, confs. auto.
  - exists (Some (item_index itl)), (map (fun r => r.1.1.2) ranked),
      (map (fun r => r.1.2) ranked).
    rewrite !length_map. repeat (split; [auto|]).
    intros Hmode. apply List.Forall_map. apply List.Forall_forall. intros x Hx.
    eapply map_res_In in Hrk as ([words cands] & _ & Ha); [|exact Hx].
    unfold pre_rank in Ha. apply bind_ok in Ha as ([i c] & Hans & Ha).
    injection Ha as <-. simpl. now apply answer_several in Hans as [? _].
Qed.

(** ** Search results per document *)

Lemma rows_of_app {A} (j : nat) (l1 l2 : list (A * nat)) :
  rows_of j (l1 ++ l2) = (rows_of j l1 ++ rows_of j l2)%list.
Proof. unfold rows_of. now rewrite List.filter_app, map_app. Qed.

Lemma rows_of_none {A} (j : nat) (rows : list (A * nat)) :
  List.Forall (fun r => r.2 ≠ j) rows -> rows_of j rows = [].
Proof.
  unfold rows_of. induction 1 as [|r rows Hr _ IH]; simpl; [reflexivity|].
  apply Nat.eqb_neq in Hr. now rewrite Hr.
Qed.

Lemma docs_sorted_snoc {A} (pre : list (A * nat)) (r : A * nat) :
  docs_sorted (pre ++ [r]) ->
  docs_sorted pre /\ List.Forall (fun x => (x.2 <= r.2)%nat) pre.
Proof.
  intros Hs. split.
  - intros i1 i2 x1 x2 Hle H1 H2. apply (Hs i1 i2); [assumption| |];
      rewrite lookup_app_l; try assumption; eapply lookup_lt_Some; eassumption.
  - apply List.Forall_forall. intros x Hx. apply list_elem_of_In in Hx.
    apply list_elem_of_lookup_1 in Hx as (i & Hi).
    assert (Hlt := lookup_lt_Some _ _ _ Hi).
    apply (Hs i (length pre)); [lia | now rewrite lookup_app_l |].
    rewrite lookup_app_r by lia. now rewrite Nat.sub_diag.
Qed.

Lemma docs_sorted_last {A} (rows : list (A * nat)) :
  docs_sorted rows ->
  List.Forall (fun x => (x.2 <= default 0%nat (snd <$> last rows))%nat) rows.
Proof.
  intros Hs. destruct (last rows) as [r|] eqn:Hl.
  - apply last_Some in Hl as (pre & ->). simpl.
    apply docs_sorted_snoc in Hs as [_ Hpre].
    apply List.Forall_app. split; [assumption|]. constructor; [lia | constructor].
  - apply last_None in Hl. subst. constructor.
Qed.

Lemma map_rows_snoc_lt {A B} (f : list A -> B) (pre : list (A * nat)) (r : A * nat) (p : nat) :
  (p <= r.2)%nat ->
  map (fun j => f (rows_of j (pre ++ [r]))) (seq 0 p)
  = map (fun j => f (rows_of j pre)) (seq 0 p).
Proof.
  intros Hle. apply map_ext_in. intros j Hj. apply in_seq in Hj.
  rewrite rows_of_app, (rows_of_none j [r]), app_nil_r; [reflexivity|].
  constructor; [lia | constructor].
Qed.

Lemma map_rows_empty {A B} (f : list A -> B) (rows : list (A * nat)) (a len : nat) :
  List.Forall (fun x => (x.2 < a)%nat) rows ->
  map (fun j => f (rows_of j rows)) (seq a len) = repeat (f []) len.
Proof.
  intros Hlt. revert a Hlt. induction len as [|len IH]; intros a Hlt; simpl; [reflexivity|].
  rewrite rows_of_none, IH; [reflexivity | |].
  - eapply List.Forall_impl; [|exact Hlt]. simpl. intros; lia.
  - eapply List.Forall_impl; [|exact Hlt]. simpl. intros; lia.
Qed.

Lemma regroup_fold (rows : list (list Q * list Z * nat)) :
  docs_sorted rows ->
  fold_left regroup_step rows ([], [], [], [], 0%nat)
  = (map (fun j => map fst (rows_of j rows)) (seq 0 (default 0%nat (snd <$> last rows))),
     map (fun j => map snd (rows_of j rows)) (seq 0 (default 0%nat (snd <$> last rows))),
     map fst (rows_of (default 0%nat (snd <$> last rows)) rows),
     map snd (rows_of (default 0%nat (snd <$> last rows)) rows),
     default 0%nat (snd <$> last rows)).
Proof.
  induction rows as [|[[D I'] doc] pre IH] using rev_ind; intros Hs; [reflexivity|].
  apply docs_sorted_snoc in Hs as [Hpre Hle]. simpl in Hle.
  rewrite fold_left_app, IH by assumption. simpl fold_left.
  rewrite last_snoc. simpl default.
  set (p := default 0%nat (snd <$> last pre)).
  assert (Hp : List.Forall (fun x => (x.2 <= p)%nat) pre) by now apply docs_sorted_last.
  assert (Hpd : (p <= doc)%nat).
  { unfold p. destruct (last pre) as [r|] eqn:Hl; simpl; [|lia].
    apply last_Some in Hl as (l' & ->). apply List.Forall_app in Hle as [_ Hle].
    now apply List.Forall_inv in Hle. }
  unfold regroup_step.
  destruct (bool_decide (doc ≠ p)) eqn:Hne.
  - apply bool_decide_eq_true_1 in Hne.
    assert (Hskip : (if (1 <? doc - p)%nat then (doc - p - 1)%nat else 0%nat)
                    = (doc - p - 1)%nat).
    { destruct (1 <? doc - p)%nat eqn:E; [reflexivity|]. apply Nat.ltb_ge in E. lia. }
    rewrite Hskip.
    assert (Hseq : seq 0 doc = (seq 0 p ++ [p] ++ seq (S p) (doc - p - 1))%list).
    { replace doc with (p + (1 + (doc - p - 1)))%nat at 1 by lia.
      rewrite !seq_app. simpl. now rewrite Nat.add_1_r. }
    rewrite Hseq, !map_app, !map_rows_snoc_lt by (simpl; lia).
    assert (Hgap : forall B (f : list (list Q * list Z) -> B),
               map (fun j => f (rows_of j (pre ++ [(D, I', doc)])))
                 (seq (S p) (doc - p - 1))
               = repeat (f []) (doc - p - 1)).
    { intros B f. rewrite <- (map_rows_empty f pre (S p) (doc - p - 1)).
      - apply map_ext_in. intros j Hj. apply in_seq in Hj.
        rewrite rows_of_app, (rows_of_none j [_]), app_nil_r; [reflexivity|].
        constructor; [simpl; lia | constructor].
      - eapply List.Forall_impl; [|exact Hp]. simpl. intros; lia. }
    rewrite !Hgap. simpl.
    rewrite !rows_of_app, (rows_of_none doc pre).
    2:{ eapply List.Forall_impl; [|exact Hp]. simpl. intros; lia. }
    rewrite (rows_of_none p [(D, I', doc)]) by (constructor; [simpl; lia | constructor]).
    rewrite !app_nil_r. unfold rows_of. simpl. rewrite Nat.eqb_refl. reflexivity.
  - apply bool_decide_eq_false_1 in Hne. apply dec_stable in Hne. subst doc.
    rewrite !map_rows_snoc_lt by (simpl; lia).
    rewrite rows_of_app, !map_app.
    assert (Hr : rows_of p [(D, I', p)] = [(D, I')]).
    { unfold rows_of. simpl. now rewrite Nat.eqb_refl. }
    rewrite Hr. reflexivity.
Qed.

Lemma regroup_spec (n : nat) (D_all : list (list Q)) (I_all : list (list Z))
    (docs : list nat) :
  docs_sorted (combine (combine D_all I_all) docs) ->
  List.Forall (fun r => (r.2 < n)%nat) (combine (combine D_all I_all) docs) ->
  regroup n D_all I_all docs
  = (map (fun j => map fst (rows_of j (combine (combine D_all I_all) docs))) (seq 0 n),
     map (fun j => map snd (rows_of j (combine (combine D_all I_all) docs))) (seq 0 n)).
Proof.
  set (rows := combine (combine D_all I_all) docs). intros Hs Hn.
  unfold regroup. fold rows. rewrite regroup_fold by assumption.
  destruct (last rows) as [r|] eqn:Hl.
  - simpl default. pose proof (docs_sorted_last rows Hs) as Hp. rewrite Hl in Hp. simpl in Hp.
    apply last_Some in Hl as (pre & Hrows).
    assert (Hr : (r.2 < n)%nat).
    { rewrite Hrows in Hn. apply List.Forall_app in Hn as [_ Hn]. now apply List.Forall_inv in Hn. }
    assert (Hne : is_empty (map fst (rows_of r.2 rows)) = false).
    { rewrite Hrows, rows_of_app. unfold rows_of at 2. simpl. rewrite Nat.eqb_refl.
      simpl. rewrite map_app. simpl. now destruct (map fst (rows_of r.2 pre)). }
    rewrite Hne. simpl negb. cbv iota.
    rewrite length_app, length_map, length_seq. simpl length.
    assert (Hseq : seq 0 n = (seq 0 r.2 ++ [r.2] ++ seq (S r.2) (n - (r.2 + 1)))%list).
    { replace n with (r.2 + (1 + (n - (r.2 + 1))))%nat at 1 by lia.
      rewrite !seq_app. simpl. now rewrite Nat.add_1_r. }
    rewrite Hseq, !map_app.
    rewrite (map_rows_empty (map fst) rows (S r.2)),
      (map_rows_empty (map snd) rows (S r.2)).
    + simpl. rewrite <- !app_assoc. reflexivity.
    + eapply List.Forall_impl; [|exact Hp]. simpl. intros; lia.
    + eapply List.Forall_impl; [|exact Hp]. simpl. intros; lia.
  - apply last_None in Hl. rewrite Hl.
    rewrite (map_rows_empty (map fst) [] 0 n), (map_rows_empty (map snd) [] 0 n)
      by constructor.
    simpl. now rewrite Nat.sub_0_r.
Qed.

Lemma length_rows_of {A B} (j : nat) (l1 : list A) (l2 : list (B * nat)) :
  length l1 = length l2 ->
  length (rows_of j (combine l1 (map snd l2)))
  = length (List.filter (fun x => (x.2 =? j)%nat) l2).
Proof.
  unfold rows_of. rewrite length_map.
  revert l2. induction l1 as [|a l1 IH]; intros [|[b d] l2] Hlen; simpl in *;
    try discriminate; [reflexivity|].
  destruct (d =? j)%nat; simpl; rewrite IH by lia; reflexivity.
Qed.

Lemma rows_of_In {A} (j : nat) (rows : list (A * nat)) (x : A) :
  In x (rows_of j rows) -> exists d, In (x, d) rows.
Proof.
  unfold rows_of. intros Hin. apply in_map_iff in Hin as ([y d] & <- & Hin).
  apply filter_In in Hin as [Hin _]. eauto.
Qed.

(** ** The scan of a batch *)

Lemma for_each_ok {A St} (body : St -> A -> res St) (l : list A) (s : St) :
  (forall s1 x, exists s2, body s1 x = Ok s2) -> exists s', for_each body l s = Ok s'.
Proof.
  intros Hb. revert s. induction l as [|x l IH]; intros s; simpl; [eauto|].
  destruct (Hb s x) as (s1 & ->). simpl. apply IH.
Qed.

Lemma scan_doc_total (self : EntityLinkerSep)
    (st : list (string * nat) * nat * list WordScan)
    (doc : nat * (list (list string) * list string)) :
  morph_total self -> exists r, scan_doc self st doc = Ok r.
Proof.
  intros Hm. destruct st as [[nf wc] scans], doc as [doc_num [words_list tags_list]].
  unfold scan_doc.
  match goal with
  | |- context [for_each ?b ?l ?s] => destruct (for_each_ok b l s) as ([[nf1 wc1] d1] & ->)
  end.
  - intros s1 [i [words tag]]. apply for_each_ok.
    intros [[nf2 wc2] d2] word. rewrite scan_word_forms.
    destruct (Hm word) as (normal & ->). simpl.
    destruct (fold_left (push_form self doc_num i wc2 tag) (lookup_forms word normal)
                (nf2, d2)) as [nf3 d3].
    eexists. reflexivity.
  - simpl. eauto.
Qed.

Lemma docs_sorted_app {A} (l1 l2 : list (A * nat)) (k : nat) :
  docs_sorted l1 -> List.Forall (fun x => (x.2 < k)%nat) l1 ->
  List.Forall (fun x => x.2 = k) l2 -> docs_sorted (l1 ++ l2).
Proof.
  intros H1 Hlt Heq i1 i2 x1 x2 Hle Hx1 Hx2.
  rewrite List.Forall_forall in Hlt, Heq.
  destruct (Nat.lt_ge_cases i2 (length l1)) as [Hi2|Hi2].
  - rewrite lookup_app_l in Hx1 by lia. rewrite lookup_app_l in Hx2 by lia.
    apply (H1 i1 i2); assumption.
  - rewrite lookup_app_r in Hx2 by lia.
    assert (Hk2 : x2.2 = k).
    { apply Heq, list_elem_of_In. eapply list_elem_of_lookup_2. exact Hx2. }
    destruct (Nat.lt_ge_cases i1 (length l1)) as [Hi1|Hi1].
    + rewrite lookup_app_l in Hx1 by lia.
      assert (x1.2 < k)%nat; [|lia].
      apply Hlt, list_elem_of_In. eapply list_elem_of_lookup_2. exact Hx1.
    + rewrite lookup_app_r in Hx1 by lia.
      assert (Hk1 : x1.2 = k); [|lia].
      apply Heq, list_elem_of_In. eapply list_elem_of_lookup_2. exact Hx1.
Qed.

Lemma filter_doc_all {A} (k : nat) (l : list (A * nat)) :
  List.Forall (fun x => x.2 = k) l -> List.filter (fun x => (x.2 =? k)%nat) l = l.
Proof.
  induction 1 as [|x l Hx _ IH]; simpl; [reflexivity|].
  apply Nat.eqb_eq in Hx. now rewrite Hx, IH.
Qed.

Lemma filter_doc_none {A} (j : nat) (l : list (A * nat)) :
  List.Forall (fun x => x.2 ≠ j) l -> List.filter (fun x => (x.2 =? j)%nat) l = [].
Proof.
  induction 1 as [|x l Hx _ IH]; simpl; [reflexivity|].
  apply Nat.eqb_neq in Hx. now rewrite Hx, IH.
Qed.

Lemma scan_batch (self : EntityLinkerSep) (words_batch : list (list (list string)))
    (tags_batch : list (list string)) :
  morph_total self ->
  exists st,
    for_each (scan_doc self) (enumerate_from 0 (combine words_batch tags_batch))
      ([], 0%nat, [])
    = Ok st
    /\ batch_scanned self words_batch tags_batch
         (length (combine words_batch tags_batch)) st.
Proof.
  intros Hm.
  destruct (for_each_total (scan_doc self) (batch_scanned self words_batch tags_batch)
              (enumerate_from 0 (combine words_batch tags_batch)) ([], 0%nat, []))
    as (st & Hst & HP).
  - intros k [i [words_list tags_list]] [[nf wc] scans] Hk (Hlen & Hlt & Hsorted & Hscans).
    apply lookup_enumerate_from in Hk as [Hi Hk]. simpl in Hi, Hk. subst i.
    apply lookup_combine in Hk as [Hwords Htags]. simpl in Hwords, Htags.
    destruct (scan_doc_total self (nf, wc, scans) (k, (words_list, tags_list)) Hm)
      as ([[nf' wc'] scans'] & Hrun).
    exists (nf', wc', scans'). split; [exact Hrun|].
    apply scan_doc_facts in Hrun as (Hwc & new & d & -> & -> & Hfacts & Htight).
    assert (Hdoc : List.Forall (fun x : string * nat => x.2 = k) new).
    { now destruct Hfacts as (_ & _ & _ & _ & _ & Hdoc & _). }
    split; [rewrite length_app; simpl; lia|]. split; [|split].
    + apply List.Forall_app. split.
      * eapply List.Forall_impl; [|exact Hlt]. simpl. intros; lia.
      * eapply List.Forall_impl; [|exact Hdoc]. simpl. intros; lia.
    + now apply docs_sorted_app with k.
    + intros j d' Hj. rewrite List.filter_app, length_app.
      destruct (Nat.lt_ge_cases j (length scans)) as [Hjl|Hjl].
      * rewrite lookup_app_l in Hj by lia.
        destruct (Hscans j d' Hj) as (wl & tl & w0 & w1 & new' & ? & ? & ? & ? & Hcount).
        exists wl, tl, w0, w1, new'. repeat (split; [assumption|]).
        rewrite (filter_doc_none j new); [simpl; lia|].
        eapply List.Forall_impl; [|exact Hdoc]. simpl. intros; lia.
      * rewrite lookup_app_r in Hj by lia.
        destruct (j - length scans)%nat as [|?] eqn:Hd; [|destruct n; discriminate].
        injection Hj as <-. assert (j = k) by lia. subst j.
        exists words_list, tags_list, wc, wc', new. repeat (split; [assumption|]).
        rewrite (filter_doc_none k nf), (filter_doc_all k new); [reflexivity|assumption|].
        eapply List.Forall_impl; [|exact Hlt]. simpl. intros; lia.
  - unfold batch_scanned. split; [reflexivity|]. split; [constructor|].
    split; [intros i1 i2 x1 x2 _ Hx; destruct i1; discriminate|].
    intros j d Hj. destruct j; discriminate.
  - exists st. rewrite length_enumerate_from in HP. auto.
Qed.

(** ** [link_entities] on a well-formed batch *)

Lemma docs_sorted_combine {A B} (l1 : list A) (l2 : list (B * nat)) :
  docs_sorted l2 -> docs_sorted (combine l1 (map snd l2)).
Proof.
  intros Hs i1 i2 [a1 d1] [a2 d2] Hle H1 H2.
  apply lookup_combine in H1 as [_ H1]. apply lookup_combine in H2 as [_ H2].
  simpl in *. rewrite list_lookup_fmap in H1, H2.
  destruct (l2 !! i1) as [x1|] eqn:E1; [|discriminate].
  destruct (l2 !! i2) as [x2|] eqn:E2; [|discriminate].
  injection H1 as <-. injection H2 as <-. apply (Hs i1 i2); assumption.
Qed.

Lemma Forall_combine_snd {A B} (P : B -> Prop) (l1 : list A) (l2 : list B) :
  List.Forall P l2 -> List.Forall (fun x => P x.2) (combine l1 l2).
Proof.
  intros Hl. apply List.Forall_forall. intros [a b] Hin.
  apply in_combine_r in Hin. rewrite List.Forall_forall in Hl. now apply Hl.
Qed.

Lemma link_entities_ok `{PyRuntime} (self : EntityLinkerSep)
    (entity_substr_batch : list (list string)) (tags_batch : list (list string))
    (entity_offsets_batch : list (list (Z * Z))) (sentences_batch : list (list string))
    (sentences_offsets_batch : list (list (Z * Z))) :
  morph_total self -> search_ok self -> ranker_ok self -> tags_known self tags_batch ->
  length sentences_batch = length entity_substr_batch ->
  length sentences_offsets_batch = length entity_substr_batch ->
  Forall2 (fun ms ts => length ts = length ms) entity_substr_batch tags_batch ->
  Forall2 (fun ms os => length os = length ms) entity_substr_batch entity_offsets_batch ->
  List.Forall (List.Forall (fun m => split_words self m ≠ [])) entity_substr_batch ->
  exists ids confs,
    link_entities self entity_substr_batch tags_batch entity_offsets_batch
      sentences_batch sentences_offsets_batch = Ok (ids, confs)
    /\ Forall2 (fun (ms : list string) (r : list (shaped string)) => length r = length ms)
         entity_substr_batch ids
    /\ Forall2 (fun (ms : list string) (r : list (shaped conf)) => length r = length ms)
         entity_substr_batch confs
    /\ (num_entities_to_return self ≠ 1%nat -> List.Forall (List.Forall is_several) ids).
Proof.
  intros Hm Hsearch Hranker [Hknown Hamb] Hsent Hsoff Htags Hoffs Hwords.
  unfold link_entities.
  set (words_batch := map (map (split_words self)) entity_substr_batch).
  set (N := length entity_substr_batch).
  assert (HtagsN : length tags_batch = N) by (symmetry; eapply Forall2_length; exact Htags).
  assert (HoffsN : length entity_offsets_batch = N) by (symmetry; eapply Forall2_length; exact Hoffs).
  assert (HwordsN : length words_batch = N) by (unfold words_batch; now rewrite length_map).
  destruct (scan_batch self words_batch tags_batch Hm)
    as ([[nf wc] scans] & -> & Hlen & Hlt & Hsorted & Hscans).
  rewrite length_combine, HwordsN, HtagsN, Nat.min_id in Hlen, Hlt.
  simpl.
  set (found := if negb (is_empty (map fst nf)) then search self (map fst nf) else ([], [])).
  assert (Hfound : length found.1 = length nf /\ length found.2 = length nf
                   /\ List.Forall (List.Forall (valid_index (word_list self))) found.2).
  { unfold found. destruct nf as [|x nf]; simpl.
    - repeat split. constructor.
    - destruct (Hsearch (map fst (x :: nf))) as (H1 & H2 & H3).
      rewrite length_map in H1, H2. auto. }
  destruct found as [D_all I_all]. simpl in Hfound. destruct Hfound as (HD & HI & Hvalid).
  rewrite HwordsN.
  rewrite regroup_spec.
  2:{ apply docs_sorted_combine. exact Hsorted. }
  2:{ apply (Forall_combine_snd (fun d => (d < N)%nat)). apply List.Forall_map. exact Hlt. }
  set (rows := combine (combine D_all I_all) (map snd nf)).
  set (P := fun (k : nat)
                (st : option nat * list (list (shaped string)) * list (list (shaped conf))) =>
              Forall2 (fun (ms : list string) (r : list (shaped string)) => length r = length ms)
                (take k entity_substr_batch) st.1.2
              /\ Forall2 (fun (ms : list string) (r : list (shaped conf)) => length r = length ms)
                   (take k entity_substr_batch) st.2
              /\ (num_entities_to_return self ≠ 1%nat ->
                  List.Forall (List.Forall is_several) st.1.2)).
  match goal with
  | |- context [for_each ?b ?l ?s] =>
      destruct (for_each_total b P l s) as ([[idx ids] confs] & -> & HP)
  end.
  - intros k [[[[[[[esl offs] sents] soffs] scan] tags] D] I'] [[idx ids] confs] Hk
      (Hids & Hconfs & Hsev).
    simpl in Hids, Hconfs, Hsev.
    apply lookup_combine in Hk as [Hk HI']. apply lookup_combine in Hk as [Hk HD'].
    apply lookup_combine in Hk as [Hk Htg]. apply lookup_combine in Hk as [Hk Hsc].
    apply lookup_combine in Hk as [Hk Hso]. apply lookup_combine in Hk as [Hk Hse].
    apply lookup_combine in Hk as [Hesl Hof]. simpl in *.
    unfold words_batch in Hesl. rewrite list_lookup_fmap in Hesl.
    destruct (entity_substr_batch !! k) as [ms|] eqn:Hms; [|discriminate].
    injection Hesl as <-.
    destruct (Hscans k scan Hsc) as (wl & tl & w0 & w1 & new & Hwl & Htl & Hfacts & Htight & Hcount).
    unfold words_batch in Hwl. rewrite list_lookup_fmap, Hms in Hwl. injection Hwl as <-.
    rewrite Htg in Htl. injection Htl as <-.
    assert (Hlt_tags : length tags = length ms).
    { eapply Forall2_lookup_lr in Htags; eauto. }
    assert (Hlt_offs : length offs = length ms).
    { eapply Forall2_lookup_lr in Hoffs; eauto. }
    assert (Hnonempty : Forall (fun words : list string => words ≠ []) (map (split_words self) ms)).
    { apply List.Forall_map. rewrite List.Forall_forall in Hwords. apply Hwords.
      apply list_elem_of_In. eapply list_elem_of_lookup_2. exact Hms. }
    rewrite list_lookup_fmap in HD'. rewrite list_lookup_fmap in HI'.
    destruct (seq 0 N !! k) as [k'|] eqn:Hseq; [|discriminate].
    apply lookup_seq in Hseq as [-> HkN]. simpl in HD', HI'.
    injection HD' as <-. injection HI' as <-.
    assert (Hrows : length (rows_of k rows) = length new).
    { unfold rows. rewrite length_rows_of; [assumption|].
      rewrite length_combine. lia. }
    destruct (link_doc_ok self idx (map (split_words self) ms) offs sents soffs scan tags
                (map fst (rows_of k rows)) (map snd (rows_of k rows)) k w0 w1 new)
      as (idx' & ids' & confs' & -> & Hl1 & Hl2 & Hsev');
      rewrite ?length_map; try assumption; try lia.
    + apply Htight in Hnonempty.
      now rewrite length_combine, length_map, Hlt_tags, Nat.min_id in Hnonempty.
    + apply List.Forall_forall. intros row Hrow.
      apply in_map_iff in Hrow as ([drow irow] & <- & Hin).
      apply rows_of_In in Hin as (d & Hin). unfold rows in Hin.
      apply in_combine_l in Hin. apply in_combine_r in Hin.
      rewrite List.Forall_forall in Hvalid. now apply Hvalid.
    + rewrite List.Forall_forall in Hknown. apply Hknown.
      apply list_elem_of_In. eapply list_elem_of_lookup_2. exact Htg.
    + simpl. eexists. split; [reflexivity|]. unfold P. simpl.
      rewrite (take_S_r _ _ _ Hms). rewrite length_map in Hl1, Hl2.
      split; [|split]; [apply Forall2_app; auto | apply Forall2_app; auto |].
      intros Hmode. apply List.Forall_app. split; [auto|]. constructor; [auto | constructor].
  - unfold P. simpl. rewrite take_0. repeat split; constructor.
  - simpl. exists ids, confs. split; [reflexivity|].
    destruct HP as (Hids & Hconfs & Hsev). simpl in Hids, Hconfs, Hsev.
    rewrite !length_combine, !length_map, length_seq in Hids, Hconfs.
    rewrite HwordsN, HoffsN, Hsent, Hsoff, Hlen, HtagsN in Hids, Hconfs.
    fold N in Hids, Hconfs. rewrite !Nat.min_id in Hids, Hconfs.
    unfold N in Hids, Hconfs. rewrite firstn_all in Hids, Hconfs. auto.
Qed.

(** ** The merge of the two groups of mentions *)

Lemma merge_ok {X A B R} (h : X -> A -> B -> R) (l : list X) (fi : list A) (fc : list B)
    (pre_i : list A) (pre_c : list B) :
  length fi = length l -> length fc = length l -> length pre_c = length pre_i ->
  map_res
    (fun '(i, x) =>
       a ← Py.getitem (pre_i ++ fi)%list (Z.of_nat i);
       b ← Py.getitem (pre_c ++ fc)%list (Z.of_nat i);
       Ok (h x a b))
    (enumerate_from (length pre_i) l)
  = Ok (map (fun '(x, a, b) => h x a b) (combine (combine l fi) fc)).
Proof.
  revert fi fc pre_i pre_c.
  induction l as [|x l IH]; intros [|a fi] [|b fc] pre_i pre_c Hi Hc Hp; simpl in *;
    try discriminate; [reflexivity|].
  rewrite (getitem_nat _ _ a), (getitem_nat _ _ b).
  2:{ rewrite lookup_app_r by lia. now rewrite Hp, Nat.sub_diag. }
  2:{ rewrite lookup_app_r by lia. now rewrite Nat.sub_diag. }
  simpl.
  specialize (IH fi fc (pre_i ++ [a])%list (pre_c ++ [b])%list).
  replace (length (pre_i ++ [a])%list) with (S (length pre_i)) in IH
    by (rewrite length_app; simpl; lia).
  rewrite <- !app_assoc in IH. simpl in IH.
  rewrite IH; [reflexivity | lia | lia |].
  rewrite !length_app. simpl. lia.
Qed.

Lemma map_res_ext {A B} (f g : A -> res B) (l : list A) :
  (forall x, f x = g x) -> map_res f l = map_res g l.
Proof.
  intros Hfg. induction l as [|x l IH]; simpl; [reflexivity|]. now rewrite Hfg, IH.
Qed.

Lemma combine_map_l {A B C} (f : A -> B) (l : list A) (l' : list C) :
  combine (map f l) l' = map (fun '(x, y) => (f x, y)) (combine l l').
Proof.
  revert l'. induction l as [|x l IH]; intros [|y l']; simpl; try reflexivity. now rewrite IH.
Qed.

Lemma merge_ok_pair {X Y A B R} (h : X -> Y -> A -> B -> R) (l : list (X * Y))
    (fi : list A) (fc : list B) :
  length fi = length l -> length fc = length l ->
  map_res
    (fun '(i, (x, y)) =>
       a ← Py.getitem fi (Z.of_nat i);
       b ← Py.getitem fc (Z.of_nat i);
       Ok (h x y a b))
    (enumerate_from 0 l)
  = Ok (map (fun '(x, y, a, b) => h x y a b) (combine (combine l fi) fc)).
Proof.
  intros Hi Hc.
  rewrite (map_res_ext _ (fun '(i, xy) =>
                            a ← Py.getitem ([] ++ fi)%list (Z.of_nat i);
                            b ← Py.getitem ([] ++ fc)%list (Z.of_nat i);
                            Ok (h xy.1 xy.2 a b))).
  2:{ intros [i [x y]]. reflexivity. }
  pose proof (merge_ok (fun xy a b => h xy.1 xy.2 a b) l fi fc [] [] Hi Hc eq_refl) as Hmerge.
  simpl in Hmerge. simpl. rewrite Hmerge.
  f_equal. apply map_ext. intros [[[x y] a] b]. reflexivity.
Qed.

Lemma combine_map {A B C} (f : A -> B) (g : A -> C) (l : list A) :
  combine (map f l) (map g l) = map (fun x => (f x, g x)) l.
Proof. induction l as [|x l IH]; simpl; [reflexivity|]. now rewrite IH. Qed.

Lemma Forall2_map_same {A B C} (f : A -> list B) (g : A -> list C) (l : list A) :
  (forall x, length (g x) = length (f x)) ->
  Forall2 (fun a b => length b = length a) (map f l) (map g l).
Proof. intros Hfg. induction l as [|x l IH]; simpl; constructor; auto. Qed.

Lemma mentions_In (entity_substr_list tags_list : list string)
    (entity_offsets_list : list (Z * Z)) (m : string * string * (Z * Z)) :
  In m (mentions entity_substr_list tags_list entity_offsets_list) ->
  In m.1.1 entity_substr_list /\ In m.1.2 tags_list.
Proof.
  unfold mentions. destruct m as [[s t] o]. intros Hin.
  apply in_combine_l in Hin. split; [eapply in_combine_l | eapply in_combine_r]; exact Hin.
Qed.

Lemma lookup_batch_mentions (entity_substr_batch tags_batch : list (list string))
    (entity_offsets_batch : list (list (Z * Z))) (j : nat)
    (doc : list (string * string * (Z * Z))) :
  batch_mentions entity_substr_batch tags_batch entity_offsets_batch !! j = Some doc ->
  exists s t o, entity_substr_batch !! j = Some s /\ tags_batch !! j = Some t
                /\ entity_offsets_batch !! j = Some o /\ doc = mentions s t o.
Proof.
  unfold batch_mentions. rewrite list_lookup_fmap. intros Hj.
  destruct (combine _ _ !! j) as [[[s t] o]|] eqn:E; [|discriminate].
  injection Hj as <-. apply lookup_combine in E as [E Ho].
  apply lookup_combine in E as [Hs Ht]. simpl in *. eauto 8.
Qed.

(** Everything before the label lookup, on a well-formed batch. *)
Lemma link_batch_ok `{PyRuntime} (self : EntityLinkerSep)
    (entity_substr_batch : list (list string))
    (entity_offsets_batch : list (list (Z * Z))) (tags_batch : list (list string))
    (sentences_offsets_batch : list (list (Z * Z))) (sentences_batch : list (list string)) :
  morph_total self -> search_ok self -> ranker_ok self -> tags_known self tags_batch ->
  length sentences_batch = length entity_substr_batch ->
  length sentences_offsets_batch = length entity_substr_batch ->
  Forall2 (fun ms ts => length ts = length ms) entity_substr_batch tags_batch ->
  Forall2 (fun ms os => length os = length ms) entity_substr_batch entity_offsets_batch ->
  List.Forall (List.Forall (fun m => is_not_found self m = false -> split_words self m ≠ []))
    entity_substr_batch ->
  let docs := batch_mentions entity_substr_batch tags_batch entity_offsets_batch in
  exists fnd_ids fnd_confs,
    link_entities self
      (map (fun doc => map (fun m => m.1.1) (fnd_mentions self doc)) docs)
      (map (fun doc => map (fun m => m.1.2) (fnd_mentions self doc)) docs)
      (map (fun doc => map (fun m => m.2) (fnd_mentions self doc)) docs)
      sentences_batch sentences_offsets_batch
    = Ok (fnd_ids, fnd_confs)
    /\ Forall2 (fun doc (r : list (shaped string)) =>
                  length r = length (fnd_mentions self doc)) docs fnd_ids
    /\ Forall2 (fun doc (r : list (shaped conf)) =>
                  length r = length (fnd_mentions self doc)) docs fnd_confs
    /\ (num_entities_to_return self ≠ 1%nat -> List.Forall (List.Forall is_several) fnd_ids)
    /\ link_batch self entity_substr_batch entity_offsets_batch tags_batch
         sentences_offsets_batch sentences_batch
       = Ok (let merged :=
               map (fun '(doc, ids, confs) =>
                      (map (fun m => m.1.1) (nf_mentions self doc ++ fnd_mentions self doc),
                       map (fun m => m.1.2) (nf_mentions self doc ++ fnd_mentions self doc),
                       map (fun m => m.2) (nf_mentions self doc ++ fnd_mentions self doc),
                       (map (fun _ => (not_found_answer self).1) (nf_mentions self doc)
                        ++ ids)%list,
                       (map (fun _ => (not_found_answer self).2) (nf_mentions self doc)
                        ++ confs)%list))
                   (combine (combine docs fnd_ids) fnd_confs) in
             (map (fun r => r.1.1.1.1) merged, map (fun r => r.1.1.1.2) merged,
              map (fun r => r.1.1.2) merged, map (fun r => r.1.2) merged,
              map (fun r => r.2) merged)).
Proof.
  intros Hm Hsearch Hranker [Hknown Hamb] Hsent Hsoff Htags Hoffs Hwords docs.
  assert (HtagsN : length tags_batch = length entity_substr_batch)
    by (symmetry; eapply Forall2_length; exact Htags).
  assert (HoffsN : length entity_offsets_batch = length entity_substr_batch)
    by (symmetry; eapply Forall2_length; exact Hoffs).
  assert (Hdocs : length docs = length entity_substr_batch).
  { unfold docs, batch_mentions. rewrite length_map, !length_combine. lia. }
  assert (Hdoc_in : forall doc m, In doc docs -> In m doc ->
            exists s t, In s entity_substr_batch /\ In t tags_batch
                        /\ In m.1.1 s /\ In m.1.2 t).
  { intros doc m Hdoc Hin. apply list_elem_of_In in Hdoc.
    apply list_elem_of_lookup_1 in Hdoc as (j & Hj).
    apply lookup_batch_mentions in Hj as (s & t & o & Hs & Ht & _ & ->).
    apply mentions_In in Hin as [? ?]. exists s, t.
    repeat split; try assumption; apply list_elem_of_In; eapply list_elem_of_lookup_2; eassumption. }
  destruct (link_entities_ok self
              (map (fun doc => map (fun m => m.1.1) (fnd_mentions self doc)) docs)
              (map (fun doc => map (fun m => m.1.2) (fnd_mentions self doc)) docs)
              (map (fun doc => map (fun m => m.2) (fnd_mentions self doc)) docs)
              sentences_batch sentences_offsets_batch)
    as (fnd_ids & fnd_confs & Hlink & Hids & Hconfs & Hsev); try assumption.
  - split; [|assumption]. apply List.Forall_map. apply List.Forall_forall. intros doc Hdoc.
    apply List.Forall_map. apply List.Forall_forall. intros m Hin.
    apply filter_In in Hin as [Hin _].
    destruct (Hdoc_in doc m Hdoc Hin) as (s & t & _ & Ht & _ & Hmt).
    rewrite List.Forall_forall in Hknown. specialize (Hknown t Ht).
    rewrite List.Forall_forall in Hknown. now apply Hknown.
  - now rewrite length_map, Hdocs.
  - now rewrite length_map, Hdocs.
  - apply Forall2_map_same. intros doc. now rewrite !length_map.
  - apply Forall2_map_same. intros doc. now rewrite !length_map.
  - apply List.Forall_map. apply List.Forall_forall. intros doc Hdoc.
    apply List.Forall_map. apply List.Forall_forall. intros m Hin.
    apply filter_In in Hin as [Hin Hnf]. apply negb_true_iff in Hnf.
    destruct (Hdoc_in doc m Hdoc Hin) as (s & t & Hs & _ & Hms & _).
    rewrite List.Forall_forall in Hwords. specialize (Hwords s Hs).
    rewrite List.Forall_forall in Hwords. now apply Hwords.
  - exists fnd_ids, fnd_confs. split; [exact Hlink|].
    apply Forall2_fmap_l in Hids, Hconfs.
    assert (Hids' : Forall2 (fun doc (r : list (shaped string)) =>
                               length r = length (fnd_mentions self doc)) docs fnd_ids).
    { eapply Forall2_impl; [exact Hids|]. simpl. intros doc r ->. now rewrite length_map. }
    assert (Hconfs' : Forall2 (fun doc (r : list (shaped conf)) =>
                                 length r = length (fnd_mentions self doc)) docs fnd_confs).
    { eapply Forall2_impl; [exact Hconfs|]. simpl. intros doc r ->. now rewrite length_map. }
    split; [exact Hids'|]. split; [exact Hconfs'|]. split; [exact Hsev|].
    unfold link_batch. fold (batch_mentions entity_substr_batch tags_batch entity_offsets_batch).
    fold docs. rewrite !map_map. rewrite Hlink. simpl.
    rewrite combine_map.
    rewrite (merge_ok_pair
               (fun nf fnd (a : list (shaped string)) (b : list (shaped conf)) =>
                  ((map (fun m : string * string * (Z * Z) => m.1.1) nf
                    ++ map (fun m : string * string * (Z * Z) => m.1.1) fnd)%list,
                   (map (fun m : string * string * (Z * Z) => m.1.2) nf
                    ++ map (fun m : string * string * (Z * Z) => m.1.2) fnd)%list,
                   (map (fun m : string * string * (Z * Z) => m.2) nf
                    ++ map (fun m : string * string * (Z * Z) => m.2) fnd)%list,
                   (map (fun _ : string * string * (Z * Z) => (not_found_answer self).1) nf
                    ++ a)%list,
                   (map (fun _ : string * string * (Z * Z) => (not_found_answer self).2) nf
                    ++ b)%list))).
    2:{ rewrite length_map. symmetry. eapply Forall2_length. exact Hids'. }
    2:{ rewrite length_map. symmetry. eapply Forall2_length. exact Hconfs'. }
    simpl. rewrite !combine_map_l, !map_map.
    f_equal.
    repeat (apply (f_equal2 pair)); apply map_ext; intros [[doc a] b]; simpl;
      rewrite ?map_app; reflexivity.
Qed.

Lemma lookup_combine_Some {A B} (l1 : list A) (l2 : list B) (i : nat) (a : A) (b : B) :
  l1 !! i = Some a -> l2 !! i = Some b -> combine l1 l2 !! i = Some (a, b).
Proof.
  revert l2 i. induction l1 as [|x l1 IH]; intros [|y l2] [|i]; simpl; try discriminate.
  - now intros [= ->] [= ->].
  - apply IH.
Qed.

Lemma not_found_answer_several (self : EntityLinkerSep) :
  num_entities_to_return self ≠ 1%nat ->
  not_found_answer self = (Several [not_found_str self], Several [zero_conf]).
Proof. intros Hn. unfold not_found_answer. now rewrite bool_decide_eq_false_2. Qed.

(** What [link_batch] returns for each document of a well-formed batch. *)
Lemma link_batch_docs `{PyRuntime} (self : EntityLinkerSep)
    (entity_substr_batch : list (list string))
    (entity_offsets_batch : list (list (Z * Z))) (tags_batch : list (list string))
    (sentences_offsets_batch : list (list (Z * Z))) (sentences_batch : list (list string)) :
  morph_total self -> search_ok self -> ranker_ok self -> tags_known self tags_batch ->
  length sentences_batch = length entity_substr_batch ->
  length sentences_offsets_batch = length entity_substr_batch ->
  Forall2 (fun ms ts => length ts = length ms) entity_substr_batch tags_batch ->
  Forall2 (fun ms os => length os = length ms) entity_substr_batch entity_offsets_batch ->
  List.Forall (List.Forall (fun m => is_not_found self m = false -> split_words self m ≠ []))
    entity_substr_batch ->
  exists substr tags offsets ids confs,
    link_batch self entity_substr_batch entity_offsets_batch tags_batch
      sentences_offsets_batch sentences_batch
    = Ok (substr, tags, offsets, ids, confs)
    /\ length ids = length entity_substr_batch
    /\ forall j entity_substr_list tags_list entity_offsets_list,
         entity_substr_batch !! j = Some entity_substr_list ->
         tags_batch !! j = Some tags_list ->
         entity_offsets_batch !! j = Some entity_offsets_list ->
         let doc := mentions entity_substr_list tags_list entity_offsets_list in
         exists fnd_ids fnd_confs,
           length fnd_ids = length (fnd_mentions self doc)
           /\ length fnd_confs = length (fnd_mentions self doc)
           /\ (num_entities_to_return self ≠ 1%nat -> List.Forall is_several fnd_ids)
           /\ substr !! j
              = Some (map (fun m => m.1.1) (nf_mentions self doc ++ fnd_mentions self doc))
           /\ tags !! j
              = Some (map (fun m => m.1.2) (nf_mentions self doc ++ fnd_mentions self doc))
           /\ offsets !! j
              = Some (map (fun m => m.2) (nf_mentions self doc ++ fnd_mentions self doc))
           /\ ids !! j
              = Some (map (fun _ => (not_found_answer self).1) (nf_mentions self doc)
                      ++ fnd_ids)%list
           /\ confs !! j
              = Some (map (fun _ => (not_found_answer self).2) (nf_mentions self doc)
                      ++ fnd_confs)%list.
Proof.
  intros Hm Hsearch Hranker Hknown Hsent Hsoff Htags Hoffs Hwords.
  destruct (link_batch_ok self entity_substr_batch entity_offsets_batch tags_batch
              sentences_offsets_batch sentences_batch)
    as (fi & fc & _ & Hfi & Hfc & Hsev & Hbatch); try assumption.
  simpl in Hbatch.
  assert (HtagsN : length tags_batch = length entity_substr_batch)
    by (symmetry; eapply Forall2_length; exact Htags).
  assert (HoffsN : length entity_offsets_batch = length entity_substr_batch)
    by (symmetry; eapply Forall2_length; exact Hoffs).
  do 5 eexists. split; [exact Hbatch|]. split.
  - rewrite !length_map, !length_combine.
    apply Forall2_length in Hfi, Hfc. unfold batch_mentions in *.
    rewrite length_map, !length_combine in *. lia.
  - intros j ms ts os Hms Hts Hos doc.
    assert (Hdoc : batch_mentions entity_substr_batch tags_batch entity_offsets_batch !! j
                   = Some doc).
    { unfold batch_mentions. rewrite list_lookup_fmap.
      rewrite (lookup_combine_Some _ _ j (ms, ts) os); [reflexivity | | exact Hos].
      now apply lookup_combine_Some. }
    destruct (Forall2_lookup_l _ _ _ _ _ Hfi Hdoc) as (a & Ha & Hla).
    destruct (Forall2_lookup_l _ _ _ _ _ Hfc Hdoc) as (b & Hb & Hlb).
    exists a, b. split; [exact Hla|]. split; [exact Hlb|]. split.
    { intros Hn. specialize (Hsev Hn). rewrite List.Forall_forall in Hsev. apply Hsev.
      apply list_elem_of_In. eapply list_elem_of_lookup_2. exact Ha. }
    rewrite !list_lookup_fmap.
    rewrite (lookup_combine_Some _ _ j (doc, a) b); [| now apply lookup_combine_Some | exact Hb].
    simpl. repeat split; reflexivity.
Qed.

Lemma find_labels_several (self : EntityLinkerSep)
    (entity_ids_batch : list (list (shaped string))) :
  List.Forall (List.Forall is_several) entity_ids_batch ->
  exists labels,
    find_labels self entity_ids_batch = Ok labels
    /\ Forall2 (fun (ids labels : list (shaped string)) => length labels = length ids)
         entity_ids_batch labels.
Proof.
  unfold find_labels. induction 1 as [|l ls Hl _ IH]; simpl; [eauto|].
  destruct (map_res_ok (find_labels_entry self) l) as (r & -> & Hr).
  { intros x Hx. rewrite List.Forall_forall in Hl. specialize (Hl x Hx).
    destruct x; [destruct Hl | simpl; eauto]. }
  destruct IH as (rs & -> & Hrs). simpl. eauto.
Qed.

Lemma length_mentions (entity_substr_list tags_list : list string)
    (entity_offsets_list : list (Z * Z)) :
  length tags_list = length entity_substr_list ->
  length entity_offsets_list = length entity_substr_list ->
  length (mentions entity_substr_list tags_list entity_offsets_list)
  = length entity_substr_list.
Proof. intros Ht Ho. unfold mentions. rewrite !length_combine. lia. Qed.

Lemma length_nf_fnd (self : EntityLinkerSep) (doc : list (string * string * (Z * Z))) :
  (length (nf_mentions self doc) + length (fnd_mentions self doc) = length doc)%nat.
Proof. unfold nf_mentions, fnd_mentions. apply List.filter_length. Qed.


(** ** The sample linker satisfies the assumptions *)

Lemma sample_morph_total : morph_total sample_linker.
Proof. intros word. eexists. reflexivity. Qed.

Lemma sample_search_ok : search_ok sample_linker.
Proof.
  intros words. simpl. rewrite !length_map. split; [reflexivity|]. split; [reflexivity|].
  apply List.Forall_map. apply List.Forall_forall. intros w _.
  repeat constructor; vm_compute; intuition discriminate.
Qed.

Lemma sample_ranker_ok : ranker_ok sample_linker.
Proof. intros contexts cands. simpl. now rewrite length_map. Qed.

Lemma sample_tags_known : tags_known sample_linker [["LOC"; "ORG"]].
Proof. split; repeat constructor; eexists; reflexivity. Qed.


(** The deny-listed mention is returned first, with the sentinel, although
    it is the second mention of the document; the result of the first
    mention of the input comes second. *)
Lemma results_not_in_input_order :
  exists out,
    EntityLinkerSep_call (H := sample_runtime) sample_linker
      [["moscow"; "ооо ромашка"]] [[(0, 6)%Z; (10, 21)%Z]] [["LOC"; "ORG"]]
      [[(0, 30)%Z]] [["moscow and ooo romashka"]] = Ok out
    /\ out_entity_substr out = [["ооо ромашка"; "moscow"]]
    /\ out_entity_ids out = [[Several ["not in wiki"]; Several ["Q649"]]]
    /\ out_entity_substr out ≠ [["moscow"; "ооо ромашка"]]
    /\ is_not_found sample_linker "moscow" = false.
Proof.
  eexists. split; [vm_compute; reflexivity|].
  split; [reflexivity|]. split; [reflexivity|]. split; [discriminate | reflexivity].
Qed.

Lemma fold_push_form_spec (self : EntityLinkerSep) (doc_num i wc : nat) (tag : string)
    (forms : list string) (nf : list (string * nat)) (d : WordScan) :
  aligned d ->
  exists d',
    fold_left (push_form self doc_num i wc tag) forms (nf, d)
    = ((nf ++ map (fun w => (w, doc_num))
                (List.filter (fun w => negb (in_index self w)) forms))%list, d')
    /\ aligned d'
    /\ scan_items d'
       = (scan_items d ++ map (fun w => (i, wc, tag, in_index self w)) forms)%list
    /\ fnd_words d' = (fnd_words d ++ List.filter (in_index self) forms)%list.
Proof.
  revert nf d. induction forms as [|w forms IH]; intros nf d Hal; simpl.
  - exists d. rewrite !app_nil_r. auto.
  - destruct (push_form_spec self doc_num i wc tag nf d w Hal) as (d1 & -> & Hal1 & Hit1 & Hf1).
    destruct (IH (nf ++ if in_index self w then [] else [(w, doc_num)])%list d1 Hal1)
      as (d' & -> & Hal' & Hit' & Hf').
    exists d'. rewrite Hit', Hit1, Hf', Hf1, <- !app_assoc.
    destruct (in_index self w); simpl; auto.
Qed.


Lemma sample_set_iter_sound : set_iter_sound (H := sample_runtime).
Proof. intros l x Hx. exact Hx. Qed.

Lemma candidates_have_allowed_types_witness :
  exists tag, ["LOC"] !! 0%nat = Some tag /\ type_allowed sample_linker tag "Q90".
Proof.
  eapply (candidates_have_allowed_types (H := sample_runtime) sample_linker 0
            [["parys"]] ["LOC"] [] 0 [] _ _ _ _ None [[0.25%Q; 0.5%Q]] [[0%Z; 2%Z]]
            _ _ sample_set_iter_sound).
  - reflexivity.
  - reflexivity.
  - reflexivity.
  - left. reflexivity.
  - left. reflexivity.
Defined.

(** ** The chunker: what the loop keeps *)

Lemma nondecreasing_snoc (l : list nat) (n : nat) :
  nondecreasing l -> List.Forall (fun k => (k <= n)%nat) l -> nondecreasing (l ++ [n]).
Proof.
  intros Hl Hn i j a b Hij Hi Hj.
  destruct (decide (j < length l)%nat) as [Hlt|Hge].
  - rewrite lookup_app_l in Hi by lia. rewrite lookup_app_l in Hj by lia.
    apply (Hl i j); assumption.
  - rewrite lookup_app_r in Hj by lia.
    apply list_lookup_singleton_Some in Hj as [_ <-].
    destruct (decide (i < length l)%nat) as [Hlt|Hge'].
    + rewrite lookup_app_l in Hi by lia.
      rewrite List.Forall_forall in Hn. apply Hn.
      apply list_elem_of_In. eapply list_elem_of_lookup_2. exact Hi.
    + rewrite lookup_app_r in Hi by lia.
      apply list_lookup_singleton_Some in Hi as [_ <-]. lia.
Qed.

Lemma chunks_inv_emit (n : nat) (text : string) (c : Cursor) (b : Chunks) :
  chunks_inv n b -> text ≠ EmptyString -> chunks_inv n (emit n text c b).
Proof.
  intros (H1 & H2 & H3 & H4 & H5 & H6) Ht. unfold chunks_inv, emit. simpl.
  rewrite !length_app. simpl.
  split; [lia|]. split; [lia|]. split; [lia|].
  split; [apply List.Forall_app; split; [assumption | constructor; [assumption | constructor]]|].
  split; [apply List.Forall_app; split; [assumption | constructor; [lia | constructor]]|].
  now apply nondecreasing_snoc.
Qed.

Lemma chunks_inv_emit_if_text (n : nat) (text : string) (c : Cursor) (b : Chunks) :
  chunks_inv n b -> chunks_inv n (emit_if_text n text c b).
Proof.
  intros Hb. unfold emit_if_text. destruct (bool_decide (text = EmptyString)) eqn:E.
  - assumption.
  - apply chunks_inv_emit; [assumption|]. now apply bool_decide_eq_false in E.
Qed.

Lemma chunks_inv_append_sentence (n : nat) (span : Z * Z) (entry : SentenceEntry)
    (c : Cursor) (b : Chunks) :
  chunks_inv n b -> chunks_inv n (append_sentence span entry c b).
Proof. intros Hb. exact Hb. Qed.

Lemma chunks_inv_new_lists (n : nat) (spans : list (Z * Z)) (entries : list SentenceEntry)
    (b : Chunks) :
  chunks_inv n b -> chunks_inv n (new_lists spans entries b).1.1.
Proof. intros Hb. exact Hb. Qed.

Lemma chunks_inv_comma_piece `{PyRuntime} (self : NerChunker) (n : nat) (sentence : string)
    (st : Chunks * Cursor) (chunk : string) :
  chunks_inv n st.1 -> chunks_inv n (chunk_comma_piece self n sentence st chunk).1.
Proof.
  destruct st as [b c]. simpl. intros Hb. unfold chunk_comma_piece.
  destruct (cur_chunk_len c + pieces_len self chunk <? max_seq_len self)%Z; simpl.
  - exact Hb.
  - apply (chunks_inv_emit_if_text n (PyStr.strip_comma (PyStr.strip (text c))) c b Hb).
Qed.

Lemma chunks_inv_comma_pieces `{PyRuntime} (self : NerChunker) (n : nat) (sentence : string)
    (chunks : list string) (st : Chunks * Cursor) :
  chunks_inv n st.1 ->
  chunks_inv n (fold_left (chunk_comma_piece self n sentence) chunks st).1.
Proof.
  revert st. induction chunks as [|chunk chunks IH]; intros st Hst; simpl; [assumption|].
  apply IH. now apply chunks_inv_comma_piece.
Qed.

Lemma chunks_inv_sentence `{PyRuntime} (self : NerChunker) (n : nat) (st st' : Chunks * Cursor)
    (sentence : string) :
  chunks_inv n st.1 -> chunk_sentence self n st sentence = Ok st' -> chunks_inv n st'.1.
Proof.
  destruct st as [b c]. simpl. intros Hb. unfold chunk_sentence.
  destruct (cur_len c + pieces_len self sentence <? max_seq_len self)%Z.
  { intros [= <-]. exact Hb. }
  pose proof (chunks_inv_emit_if_text n (PyStr.strip (text c)) c b Hb) as Hb'.
  destruct (pieces_len self sentence <? max_seq_len self)%Z.
  { intros [= <-]. exact Hb'. }
  destruct (PyStr.contains "," sentence).
  - intros [= <-]. now apply chunks_inv_comma_pieces.
  - rewrite chunk_windows_raises. destruct (max_chunk_len self =? 0)%Z; discriminate.
Qed.

Lemma chunks_inv_weaken (n m : nat) (b : Chunks) :
  (n <= m)%nat -> chunks_inv n b -> chunks_inv m b.
Proof.
  intros Hnm (H1 & H2 & H3 & H4 & H5 & H6). repeat split; try assumption.
  eapply List.Forall_impl; [|exact H5]. simpl. intros k Hk. lia.
Qed.

Lemma chunks_inv_doc `{PyRuntime} (self : NerChunker) (n : nat) (doc : string)
    (b b' : Chunks) (l l' : Z) :
  chunks_inv n b -> chunk_doc self (b, l) (n, doc) = Ok (b', l') -> chunks_inv n b'.
Proof.
  intros Hb. unfold chunk_doc. simpl. intros Hrun.
  apply bind_ok in Hrun as (pieces & _ & Hrun).
  apply bind_ok in Hrun as ([b1 c1] & Hloop & Hrun). injection Hrun as <- <-.
  apply chunks_inv_emit_if_text.
  apply (for_each_invariant (chunk_sentence self n) (fun _ st => chunks_inv n st.1))
    in Hloop; [exact Hloop | | exact Hb].
  intros k x s1 s2 _ Hs1 Hstep. eapply chunks_inv_sentence; eassumption.
Qed.

Lemma chunks_inv_docs `{PyRuntime} (self : NerChunker) (docs_batch : list string)
    (b : Chunks) (l : Z) :
  for_each (chunk_doc self) (enumerate_from 0 docs_batch)
    ({| text_batch := []; nums_batch := [];
        sentences_offsets_batch := []; sentences_batch := [];
        offsets_objs := []; sentences_objs := [] |}, 0%Z) = Ok (b, l) ->
  chunks_inv (length docs_batch - 1) b
  /\ List.Forall (fun k => (k < length docs_batch)%nat) (nums_batch b).
Proof.
  intros Hrun.
  apply (for_each_invariant (chunk_doc self)
           (fun k st => chunks_inv (k - 1) st.1
                        /\ List.Forall (fun i => (i < k)%nat) (nums_batch st.1)))
    in Hrun.
  - rewrite length_enumerate_from in Hrun. exact Hrun.
  - intros k [n doc] [b1 l1] [b2 l2] Hk [Hinv _] Hstep. simpl in *.
    apply lookup_enumerate_from in Hk as [Hn _]. simpl in Hn. subst n.
    assert (Hinv2 : chunks_inv k b2).
    { eapply chunks_inv_doc; [|exact Hstep]. eapply chunks_inv_weaken; [|exact Hinv]. lia. }
    split.
    + eapply chunks_inv_weaken; [|exact Hinv2]. lia.
    + destruct Hinv2 as (_ & _ & _ & _ & H5 & _).
      eapply List.Forall_impl; [|exact H5]. simpl. intros i Hi. lia.
  - simpl. split; [|constructor].
    repeat split; try constructor. intros i j a0 b0 _ Hi. destruct i; discriminate.
Qed.

(** ** [sanitize] *)

Lemma sanitize_loop_total `{PyRuntime} (self : NerChunker) (cs : list string) (i : nat) :
  (i < length cs)%nat -> exists j, (j <= i)%nat /\ sanitize_loop self cs i = Ok j.
Proof.
  induction i as [|i IH]; intros Hi.
  - destruct (lookup_lt_is_Some_2 cs 0%nat Hi) as (c & Hc).
    simpl. rewrite (getitem_nat _ _ _ Hc). simpl.
    rewrite andb_false_r. eauto.
  - destruct (lookup_lt_is_Some_2 cs (S i) Hi) as (c & Hc).
    destruct (lookup_lt_is_Some_2 cs i) as (ci & Hci); [lia|].
    cbn [sanitize_loop]. rewrite (getitem_nat _ _ _ Hc). cbn [mbind res_bind].
    destruct (PyStr.contains c (punct_ext self) && (0 <? S i)%nat); [|eauto].
    rewrite (getitem_nat _ _ _ Hci). cbn [mbind res_bind].
    destruct (getitem_valid cs (Z.of_nat i - 1)) as (before & -> & _).
    { unfold valid_index. lia. }
    cbn [mbind res_bind].
    destruct (1 <? i)%nat eqn:E1.
    + apply Nat.ltb_lt in E1.
      destruct (getitem_valid cs (Z.of_nat i - 2)) as (before2 & -> & _).
      { unfold valid_index. lia. }
      cbn [mbind res_bind].
      match goal with |- context [if ?b then _ else _] => destruct b end.
      * exists i. split; [lia | reflexivity].
      * destruct IH as (j & Hj & ->); [lia|]. exists j. split; [lia | reflexivity].
    + cbn [mbind res_bind].
      match goal with |- context [if ?b then _ else _] => destruct b end.
      * exists i. split; [lia | reflexivity].
      * destruct IH as (j & Hj & ->); [lia|]. exists j. split; [lia | reflexivity].
Qed.

Lemma getitem_nat_inv {A} (l : list A) (k : nat) (x : A) :
  Py.getitem l (Z.of_nat k) = Ok x -> l !! k = Some x.
Proof.
  unfold Py.getitem. destruct (0 <=? Z.of_nat k)%Z eqn:E; [|apply Z.leb_gt in E; lia].
  rewrite Nat2Z.id. destruct (l !! k); [now intros [= ->] | discriminate].
Qed.

Lemma sanitize_loop_removed `{PyRuntime} (self : NerChunker) (cs : list string) (i j : nat) :
  sanitize_loop self cs i = Ok j ->
  (j <= i)%nat
  /\ forall p c, (j < p <= i)%nat -> cs !! p = Some c ->
                 PyStr.contains c (punct_ext self) = true.
Proof.
  revert j. induction i as [|i IH]; intros j Hrun.
  - simpl in Hrun. apply bind_ok in Hrun as (c & _ & Hrun).
    rewrite andb_false_r in Hrun. injection Hrun as <-. split; [lia|]. intros p c' Hp. lia.
  - cbn [sanitize_loop] in Hrun. apply bind_ok in Hrun as (c & Hc & Hrun).
    destruct (PyStr.contains c (punct_ext self)) eqn:Ec; simpl in Hrun.
    2:{ injection Hrun as <-. split; [lia|]. intros p c' Hp. lia. }
    assert (Hc' : cs !! S i = Some c).
    { now apply getitem_nat_inv. }
    assert (Hlast : forall p c0, (i < p <= S i)%nat -> cs !! p = Some c0 ->
                                 PyStr.contains c0 (punct_ext self) = true).
    { intros p c0 Hp Hc0. assert (p = S i) by lia. subst p. congruence. }
    apply bind_ok in Hrun as (ci & _ & Hrun).
    apply bind_ok in Hrun as (before & _ & Hrun).
    apply bind_ok in Hrun as (before2 & _ & Hrun).
    match type of Hrun with (if ?b then _ else _) = _ => destruct b end.
    + injection Hrun as <-. split; [lia|]. exact Hlast.
    + apply IH in Hrun as [Hj Hrem]. split; [lia|].
      intros p c0 Hp Hc0. destruct (decide (p = S i)) as [->|Hne].
      * apply (Hlast (S i)); [lia | assumption].
      * apply (Hrem p); [lia | assumption].
Qed.

Lemma string_app_nil_r (s : string) : s ++ EmptyString = s.
Proof.
  induction s as [|c s IH]; [reflexivity|].
  change (String c (s ++ EmptyString) = String c s). now rewrite IH.
Qed.

Lemma string_app_assoc (s1 s2 s3 : string) : (s1 ++ s2) ++ s3 = s1 ++ (s2 ++ s3).
Proof.
  induction s1 as [|c s1 IH]; [reflexivity|].
  change (String c ((s1 ++ s2) ++ s3) = String c (s1 ++ (s2 ++ s3))). now rewrite IH.
Qed.

Lemma concat_nil_cons (x : string) (l : list string) :
  String.concat EmptyString (x :: l) = x ++ String.concat EmptyString l.
Proof. destruct l; simpl; [symmetry; apply string_app_nil_r | reflexivity]. Qed.

Lemma chars_aux_concat (cur s : string) :
  PyStr.of_chars (PyStr.chars_aux cur s) = cur ++ s.
Proof.
  unfold PyStr.of_chars. revert cur. induction s as [|c s IH]; intros cur.
  - simpl. destruct cur; [reflexivity|]. rewrite concat_nil_cons. reflexivity.
  - cbn [PyStr.chars_aux]. destruct (PyStr.is_cont c).
    + rewrite IH. now rewrite string_app_assoc.
    + destruct cur as [|c0 cur].
      * rewrite IH. reflexivity.
      * rewrite concat_nil_cons, IH. reflexivity.
Qed.

Lemma of_chars_chars (s : string) : PyStr.of_chars (PyStr.chars s) = s.
Proof. unfold PyStr.chars. now rewrite chars_aux_concat. Qed.

(** X1.  [sanitize] never raises.  It keeps a prefix of the text, of at
    least one character when the text is not empty, removes only trailing
    characters of [punct_ext], removes nothing when the text ends with a
    full stop, an exclamation or a question mark, and then replaces every
    run of whitespace by one space. *)
Theorem sanitize_trims_trailing_punctuation `{PyRuntime} (self : NerChunker)
    (text : string) :
  exists k,
    (k <= PyStr.len text)%nat
    /\ ((0 < PyStr.len text)%nat -> (0 < k)%nat)
    /\ sanitize self text = Ok (PyStr.sub_ws (PyStr.of_chars (take k (PyStr.chars text))))
    /\ List.Forall (fun c => PyStr.contains c (punct_ext self) = true)
         (drop k (PyStr.chars text))
    /\ (forall c, last (PyStr.chars text) = Some c -> is_sentence_end c = true ->
                  k = PyStr.len text).
Proof.
  unfold sanitize, PyStr.len.
  set (cs := PyStr.chars text).
  destruct ((0 <? length cs)%nat
            && negb (is_sentence_end (nth (length cs - 1) cs EmptyString))) eqn:E.
  - apply andb_true_iff in E as [Hpos Hend]. apply Nat.ltb_lt in Hpos.
    apply negb_true_iff in Hend.
    destruct (sanitize_loop_total self cs (length cs - 1)) as (j & Hj & Hrun); [lia|].
    rewrite Hrun. cbn [mbind res_bind].
    pose proof (sanitize_loop_removed self cs _ _ Hrun) as [_ Hrem].
    exists (S j). split; [lia|]. split; [lia|]. split.
    + unfold PyStr.slice_to, PyStr.len. fold cs. unfold PyStr.clamp.
      destruct (Z.of_nat j + 1 <? 0)%Z eqn:E0; [apply Z.ltb_lt in E0; lia|].
      replace (Nat.min (Z.to_nat (Z.of_nat j + 1)) (length cs)) with (S j) by lia.
      reflexivity.
    + split.
      * apply List.Forall_forall. intros c Hc.
        apply list_elem_of_In, list_elem_of_lookup_1 in Hc as (p & Hp).
        rewrite lookup_drop in Hp.
        apply (Hrem (S j + p)%nat); [|exact Hp].
        apply lookup_lt_Some in Hp. lia.
      * intros c Hlast Hc. rewrite last_lookup in Hlast.
        rewrite nth_lookup in Hend.
        replace (length cs - 1)%nat with (pred (length cs)) in Hend by lia.
        rewrite Hlast in Hend. simpl in Hend. congruence.
  - cbn [mbind res_bind]. exists (length cs). split; [lia|]. split; [lia|].
    rewrite firstn_all, drop_all. unfold cs. rewrite of_chars_chars.
    split; [reflexivity|]. split; [constructor | reflexivity].
Qed.

(** ** The chunker: groups of [batch_size] chunks *)

Lemma slice_list_nat {A} (a b : nat) (l : list A) :
  (a <= b)%nat ->
  PyStr.slice_list (Z.of_nat a) (Z.of_nat b) l = take (b - a) (drop a l).
Proof.
  intros Hab. unfold PyStr.slice_list, PyStr.clamp.
  destruct (Z.of_nat a <? 0)%Z eqn:Ea; [apply Z.ltb_lt in Ea; lia|].
  destruct (Z.of_nat b <? 0)%Z eqn:Eb; [apply Z.ltb_lt in Eb; lia|].
  rewrite !Nat2Z.id.
  destruct (decide (a < length l)%nat) as [Hlt|Hge].
  - replace (Nat.min a (length l)) with a by lia.
    destruct (decide (b <= length l)%nat).
    + now replace (Nat.min b (length l)) with b by lia.
    + replace (Nat.min b (length l)) with (length l) by lia.
      rewrite !take_ge; try reflexivity; rewrite length_drop; lia.
  - replace (Nat.min a (length l)) with (length l) by lia.
    rewrite !drop_ge by lia. now rewrite !take_nil.
Qed.

Lemma batches_nat {A} (self : NerChunker) (bs k : nat) (l : list A) :
  batch_size self = Z.of_nat bs ->
  batches self (Z.of_nat k) l
  = map (fun jj => take bs (drop (jj * bs) l)) (seq 0 k).
Proof.
  intros Hbs. unfold batches. rewrite Nat2Z.id. apply map_ext. intros jj.
  rewrite Hbs.
  replace (Z.of_nat jj * Z.of_nat bs)%Z with (Z.of_nat (jj * bs)) by lia.
  replace ((Z.of_nat jj + 1) * Z.of_nat bs)%Z with (Z.of_nat (jj * bs + bs)) by lia.
  rewrite slice_list_nat by lia. f_equal. lia.
Qed.

Lemma concat_windows {A} (bs k : nat) (l : list A) :
  concat (map (fun jj => take bs (drop (jj * bs) l)) (seq 0 k)) = take (k * bs) l.
Proof.
  induction k as [|k IH]; [reflexivity|].
  rewrite seq_S, map_app, concat_app, IH. simpl. rewrite app_nil_r.
  replace (bs + k * bs)%nat with (k * bs + bs)%nat by lia.
  now rewrite take_add_app' || (rewrite <- take_take_drop; reflexivity).
Qed.

(** ** The chunker: the lists of spans and of sentences *)

Lemma objs_inv_cursor (b : Chunks) (c c' : Cursor) :
  sentences_offsets_list c' = sentences_offsets_list c ->
  sentences_list c' = sentences_list c ->
  objs_inv b c -> objs_inv b c'.
Proof. intros Ho Hs (H1 & H2 & H3). repeat split; try assumption. congruence. Qed.

Lemma objs_inv_append_sentence (span : Z * Z) (entry : SentenceEntry) (b : Chunks)
    (c : Cursor) :
  objs_inv b c -> objs_inv (append_sentence span entry c b) c.
Proof.
  intros (H1 & H2 & H3). unfold objs_inv, append_sentence, append_obj. simpl.
  split; [|split; assumption]. rewrite H3.
  apply Forall2_insert; [assumption|]. rewrite !length_app. simpl. f_equal.
  destruct (offsets_objs b !! sentences_list c) as [o|] eqn:Eo.
  - destruct (Forall2_lookup_l _ _ _ _ _ H1 Eo) as (s & -> & Hlen). exact Hlen.
  - apply Forall2_length in H1. apply lookup_ge_None in Eo.
    rewrite (proj2 (lookup_ge_None _ _)) by lia. reflexivity.
Qed.

Lemma objs_inv_emit (n : nat) (text : string) (b : Chunks) (c : Cursor) :
  objs_inv b c -> objs_inv (emit n text c b) c.
Proof.
  intros (H1 & H2 & H3). unfold objs_inv, emit. simpl.
  split; [assumption|]. split; [|assumption]. now rewrite H2, H3.
Qed.

Lemma objs_inv_emit_if_text (n : nat) (text : string) (b : Chunks) (c : Cursor) :
  objs_inv b c -> objs_inv (emit_if_text n text c b) c.
Proof.
  intros Hb. unfold emit_if_text. destruct (bool_decide (text = EmptyString)); [assumption|].
  now apply objs_inv_emit.
Qed.

Lemma objs_inv_new_lists (span : Z * Z) (entry : SentenceEntry) (b : Chunks) (c : Cursor)
    (text : string) (l1 l2 s : Z) :
  objs_inv b c ->
  objs_inv (new_lists [span] [entry] b).1.1
    {| text := text; cur_len := l1; cur_chunk_len := l2; start := s;
       sentences_offsets_list := (new_lists [span] [entry] b).1.2;
       sentences_list := (new_lists [span] [entry] b).2 |}.
Proof.
  intros (H1 & H2 & H3). unfold objs_inv, new_lists. simpl.
  split; [|split; [assumption|]].
  - apply Forall2_app; [assumption|]. constructor; [reflexivity | constructor].
  - now apply Forall2_length in H1.
Qed.

Lemma objs_inv_comma_piece `{PyRuntime} (self : NerChunker) (n : nat) (sentence : string)
    (st : Chunks * Cursor) (chunk : string) :
  objs_inv st.1 st.2 ->
  objs_inv (chunk_comma_piece self n sentence st chunk).1
    (chunk_comma_piece self n sentence st chunk).2.
Proof.
  destruct st as [b c]. simpl. intros Hb. unfold chunk_comma_piece.
  destruct (cur_chunk_len c + pieces_len self chunk <? max_seq_len self)%Z; simpl.
  - eapply objs_inv_cursor; [| |apply objs_inv_append_sentence; exact Hb]; reflexivity.
  - apply (objs_inv_new_lists _ _ _ c).
    now apply objs_inv_emit_if_text.
Qed.

Lemma objs_inv_comma_pieces `{PyRuntime} (self : NerChunker) (n : nat) (sentence : string)
    (chunks : list string) (st : Chunks * Cursor) :
  objs_inv st.1 st.2 ->
  objs_inv (fold_left (chunk_comma_piece self n sentence) chunks st).1
    (fold_left (chunk_comma_piece self n sentence) chunks st).2.
Proof.
  revert st. induction chunks as [|chunk chunks IH]; intros st Hst; simpl; [assumption|].
  apply IH. now apply objs_inv_comma_piece.
Qed.

Lemma objs_inv_sentence `{PyRuntime} (self : NerChunker) (n : nat) (st st' : Chunks * Cursor)
    (sentence : string) :
  objs_inv st.1 st.2 -> chunk_sentence self n st sentence = Ok st' -> objs_inv st'.1 st'.2.
Proof.
  destruct st as [b c]. simpl. intros Hb. unfold chunk_sentence.
  destruct (cur_len c + pieces_len self sentence <? max_seq_len self)%Z.
  { intros [= <-]. simpl.
    eapply objs_inv_cursor; [| |apply objs_inv_append_sentence; exact Hb]; reflexivity. }
  pose proof (objs_inv_emit_if_text n (PyStr.strip (text c)) b c Hb) as Hb'.
  destruct (pieces_len self sentence <? max_seq_len self)%Z.
  { intros [= <-]. simpl. apply (objs_inv_new_lists _ _ _ c). exact Hb'. }
  destruct (PyStr.contains "," sentence).
  - intros [= <-]. apply objs_inv_comma_pieces. simpl.
    eapply objs_inv_cursor; [| |exact Hb']; reflexivity.
  - rewrite chunk_windows_raises. destruct (max_chunk_len self =? 0)%Z; discriminate.
Qed.

Lemma objs_inv_doc `{PyRuntime} (self : NerChunker) (n : nat) (doc : string)
    (b b' : Chunks) (l l' : Z) :
  Forall2 (fun (spans : list (Z * Z)) (entries : list SentenceEntry) =>
             length spans = length entries) (offsets_objs b) (sentences_objs b) ->
  sentences_offsets_batch b = sentences_batch b ->
  chunk_doc self (b, l) (n, doc) = Ok (b', l') ->
  Forall2 (fun (spans : list (Z * Z)) (entries : list SentenceEntry) =>
             length spans = length entries) (offsets_objs b') (sentences_objs b')
  /\ sentences_offsets_batch b' = sentences_batch b'.
Proof.
  intros H1 H2. unfold chunk_doc. simpl. intros Hrun.
  apply bind_ok in Hrun as (pieces & _ & Hrun).
  apply bind_ok in Hrun as ([b1 c1] & Hloop & Hrun). injection Hrun as <- <-.
  apply (for_each_invariant (chunk_sentence self n) (fun _ st => objs_inv st.1 st.2))
    in Hloop.
  - apply (objs_inv_emit_if_text n (PyStr.strip_comma (PyStr.strip (text c1)))) in Hloop.
    destruct Hloop as (? & ? & _). split; assumption.
  - intros k x s1 s2 _ Hs1 Hstep. eapply objs_inv_sentence; eassumption.
  - simpl. split; [|split; [assumption|]].
    + apply Forall2_app; [assumption|]. constructor; [reflexivity | constructor].
    + simpl. now apply Forall2_length in H1.
Qed.

Lemma objs_inv_docs `{PyRuntime} (self : NerChunker) (docs_batch : list string)
    (b : Chunks) (l : Z) :
  chunk_docs self docs_batch = Ok (b, l) ->
  Forall2 (fun (spans : list (Z * Z)) (entries : list SentenceEntry) =>
             length spans = length entries) (offsets_objs b) (sentences_objs b)
  /\ sentences_offsets_batch b = sentences_batch b.
Proof.
  unfold chunk_docs. intros Hrun.
  apply (for_each_invariant (chunk_doc self)
           (fun _ st =>
              Forall2 (fun (spans : list (Z * Z)) (entries : list SentenceEntry) =>
                         length spans = length entries)
                (offsets_objs st.1) (sentences_objs st.1)
              /\ sentences_offsets_batch st.1 = sentences_batch st.1))
    in Hrun; [exact Hrun | | split; [constructor | reflexivity]].
  intros k [n doc] [b1 l1] [b2 l2] _ [H1 H2] Hstep. simpl in *.
  exact (objs_inv_doc self n doc b1 b2 l1 l2 H1 H2 Hstep).
Qed.

(** ** The chunker: the batches *)

Lemma call_ok_inv `{PyRuntime} (self : NerChunker) (docs_batch : list string)
    (out : ChunkerOutput) :
  NerChunker_call self docs_batch = Ok out ->
  exists b l,
    chunk_docs self docs_batch = Ok (b, l)
    /\ batch_size self ≠ 0%Z
    /\ out = {| text_batch_list :=
                  batches self (num_batches_of self (length (text_batch b))) (text_batch b);
                nums_batch_list :=
                  batches self (num_batches_of self (length (text_batch b))) (nums_batch b);
                sentences_offsets_batch_list :=
                  batches self (num_batches_of self (length (text_batch b)))
                    (map (fun r => default [] (offsets_objs b !! r))
                       (sentences_offsets_batch b));
                sentences_batch_list :=
                  batches self (num_batches_of self (length (text_batch b)))
                    (map (fun r => default [] (sentences_objs b !! r))
                       (sentences_batch b)) |}.
Proof.
  unfold NerChunker_call. fold (chunk_docs self docs_batch). intros Hrun.
  apply bind_ok in Hrun as ([b l] & Hdocs & Hrun).
  unfold Py.floordiv, Py.modulo in Hrun.
  destruct (batch_size self =? 0)%Z eqn:E; [discriminate|]. apply Z.eqb_neq in E.
  simpl in Hrun. injection Hrun as <-. exists b, l. auto.
Qed.

Lemma slice_list_sub {A} (a b : Z) (l : list A) :
  exists i k, PyStr.slice_list a b l = take k (drop i l).
Proof. unfold PyStr.slice_list. eauto. Qed.

Lemma batches_shape {A B} (self : NerChunker) (k : Z) (l1 : list A) (l2 : list B) :
  length l1 = length l2 ->
  map length (batches self k l1) = map length (batches self k l2).
Proof.
  intros Hlen. unfold batches. rewrite !map_map. apply map_ext. intros jj.
  unfold PyStr.slice_list. rewrite !length_take, !length_drop, Hlen. reflexivity.
Qed.

Lemma batches_Forall {A} (P : A -> Prop) (self : NerChunker) (k : Z) (l : list A) :
  List.Forall P l -> List.Forall (List.Forall P) (batches self k l).
Proof.
  intros Hl. unfold batches. apply List.Forall_map. apply List.Forall_forall. intros jj _.
  unfold PyStr.slice_list. apply Forall_take, Forall_drop. exact Hl.
Qed.

Lemma batches_Forall2 {A B} (R : A -> B -> Prop) (self : NerChunker) (k : Z)
    (l1 : list A) (l2 : list B) :
  Forall2 R l1 l2 -> Forall2 (Forall2 R) (batches self k l1) (batches self k l2).
Proof.
  intros Hl. unfold batches. apply Forall2_fmap. apply Forall_Forall2_diag.
  apply List.Forall_forall. intros jj _. unfold PyStr.slice_list.
  rewrite (Forall2_length _ _ _ Hl). apply Forall2_take, Forall2_drop. exact Hl.
Qed.

Lemma num_batches_ceil (self : NerChunker) (n : nat) :
  (0 < batch_size self)%Z ->
  exists bs k,
    batch_size self = Z.of_nat bs /\ (0 < bs)%nat
    /\ num_batches_of self n = Z.of_nat k
    /\ (n <= k * bs)%nat
    /\ forall jj, (jj < k)%nat -> (jj * bs < n)%nat.
Proof.
  intros Hpos. unfold num_batches_of.
  exists (Z.to_nat (batch_size self)).
  pose proof (Z.div_mod (Z.of_nat n) (batch_size self) ltac:(lia)) as Hdm.
  pose proof (Z.mod_pos_bound (Z.of_nat n) (batch_size self) Hpos) as Hm.
  assert (Hq : (0 <= Z.of_nat n / batch_size self)%Z) by (apply Z.div_pos; lia).
  set (q := (Z.of_nat n / batch_size self)%Z) in *.
  set (r := (Z.of_nat n mod batch_size self)%Z) in *.
  destruct (0 <? r)%Z eqn:E.
  - apply Z.ltb_lt in E. exists (Z.to_nat (q + 1)).
    split; [lia|]. split; [lia|]. split; [lia|]. split; [nia|]. intros jj Hjj. nia.
  - apply Z.ltb_ge in E. exists (Z.to_nat q).
    split; [lia|]. split; [lia|]. split; [lia|]. split; [nia|]. intros jj Hjj. nia.
Qed.

Lemma batches_partition {A} (self : NerChunker) (n : nat) (l : list A) :
  (0 < batch_size self)%Z -> length l = n ->
  concat (batches self (num_batches_of self n) l) = l
  /\ List.Forall (fun batch => (0 < Z.of_nat (length batch) <= batch_size self)%Z)
       (batches self (num_batches_of self n) l).
Proof.
  intros Hpos Hlen.
  destruct (num_batches_ceil self n Hpos) as (bs & k & Hbs & Hbs0 & -> & Hk & Hjj).
  rewrite (batches_nat self bs k l Hbs). split.
  - rewrite concat_windows. apply take_ge. lia.
  - apply List.Forall_map. apply List.Forall_forall. intros jj Hin.
    apply in_seq in Hin. specialize (Hjj jj ltac:(lia)).
    rewrite length_take, length_drop. lia.
Qed.

Lemma batches_negative {A} (self : NerChunker) (n : nat) (l : list A) :
  (batch_size self < 0)%Z -> batches self (num_batches_of self n) l = [].
Proof.
  intros Hneg. unfold batches, num_batches_of.
  pose proof (Z.mod_neg_bound (Z.of_nat n) (batch_size self) Hneg) as Hm.
  destruct (0 <? Z.of_nat n mod batch_size self)%Z eqn:E; [apply Z.ltb_lt in E; lia|].
  assert (Hq : (Z.of_nat n / batch_size self <= 0)%Z).
  { pose proof (Z.div_mod (Z.of_nat n) (batch_size self) ltac:(lia)) as Hdm. nia. }
  now replace (Z.to_nat (Z.of_nat n / batch_size self + 0)) with 0%nat by lia.
Qed.

(** X2.  With a positive [batch_size], the batches returned by the chunker
    are the chunks in the order they were made: joined end to end, the
    batches of texts, of document numbers, of span lists and of sentence
    lists give back the four flat lists, and every batch holds at least one
    and at most [batch_size] chunks. *)
Theorem chunker_batches_partition `{PyRuntime} (self : NerChunker)
    (docs_batch : list string) (out : ChunkerOutput) :
  (0 < batch_size self)%Z ->
  NerChunker_call self docs_batch = Ok out ->
  exists b l,
    chunk_docs self docs_batch = Ok (b, l)
    /\ concat (text_batch_list out) = text_batch b
    /\ concat (nums_batch_list out) = nums_batch b
    /\ concat (sentences_offsets_batch_list out)
       = map (fun r => default [] (offsets_objs b !! r)) (sentences_offsets_batch b)
    /\ concat (sentences_batch_list out)
       = map (fun r => default [] (sentences_objs b !! r)) (sentences_batch b)
    /\ List.Forall (fun batch => (0 < Z.of_nat (length batch) <= batch_size self)%Z)
         (text_batch_list out).
Proof.
  intros Hpos Hrun.
  destruct (call_ok_inv self docs_batch out Hrun) as (b & l & Hdocs & _ & ->).
  pose proof (chunks_inv_docs self docs_batch b l Hdocs) as [(H1 & H2 & H3 & _) _].
  exists b, l. cbn [text_batch_list nums_batch_list sentences_offsets_batch_list
                      sentences_batch_list].
  split; [exact Hdocs|].
  split; [apply batches_partition; [assumption | reflexivity]|].
  split; [apply batches_partition; assumption|].
  split; [apply batches_partition; [assumption | now rewrite length_map]|].
  split; [apply batches_partition; [assumption | now rewrite length_map]|].
  apply batches_partition; [assumption | reflexivity].
Qed.

Lemma chunker_batches_partition_witness :
  exists out b l,
    NerChunker_call (H := sample_runtime) sample_chunker sample_docs = Ok out
    /\ chunk_docs (H := sample_runtime) sample_chunker sample_docs = Ok (b, l)
    /\ concat (text_batch_list out) = text_batch b.
Proof.
  eexists.
  assert (Hrun : NerChunker_call (H := sample_runtime) sample_chunker sample_docs = Ok _)
    by (vm_compute; reflexivity).
  destruct (chunker_batches_partition (H := sample_runtime) sample_chunker sample_docs _
              ltac:(reflexivity) Hrun) as (b & l & Hdocs & Htext & _).
  exists b, l. split; [exact Hrun|]. split; assumption.
Defined.

(** X3.  Whenever the chunker returns, its four results are parallel: they
    have the same number of batches, corresponding batches have the same
    number of chunks, and every chunk has as many sentence spans as
    sentences. *)
Theorem chunker_results_parallel `{PyRuntime} (self : NerChunker)
    (docs_batch : list string) (out : ChunkerOutput) :
  NerChunker_call self docs_batch = Ok out ->
  map length (nums_batch_list out) = map length (text_batch_list out)
  /\ map length (sentences_offsets_batch_list out) = map length (text_batch_list out)
  /\ map length (sentences_batch_list out) = map length (text_batch_list out)
  /\ Forall2 (Forall2 (fun (spans : list (Z * Z)) (entries : list SentenceEntry) =>
                         length spans = length entries))
       (sentences_offsets_batch_list out) (sentences_batch_list out).
Proof.
  intros Hrun.
  destruct (call_ok_inv self docs_batch out Hrun) as (b & l & Hdocs & _ & ->).
  pose proof (chunks_inv_docs self docs_batch b l Hdocs) as [(H1 & H2 & H3 & _) _].
  pose proof (objs_inv_docs self docs_batch b l Hdocs) as [Hobjs Hrefs].
  cbn [text_batch_list nums_batch_list sentences_offsets_batch_list sentences_batch_list].
  split; [now apply batches_shape|].
  split; [apply batches_shape; now rewrite length_map|].
  split; [apply batches_shape; now rewrite length_map|].
  apply batches_Forall2. rewrite Hrefs. apply Forall2_fmap. apply Forall_Forall2_diag.
  apply List.Forall_forall. intros r _.
  destruct (offsets_objs b !! r) as [o|] eqn:Eo.
  - destruct (Forall2_lookup_l _ _ _ _ _ Hobjs Eo) as (s & -> & Hlen). exact Hlen.
  - apply Forall2_length in Hobjs. apply lookup_ge_None in Eo.
    rewrite (proj2 (lookup_ge_None _ _)) by lia. reflexivity.
Qed.

Lemma chunker_results_parallel_witness :
  exists out,
    NerChunker_call (H := sample_runtime) sample_chunker sample_docs = Ok out
    /\ map length (nums_batch_list out) = map length (text_batch_list out).
Proof.
  eexists.
  assert (Hrun : NerChunker_call (H := sample_runtime) sample_chunker sample_docs = Ok _)
    by (vm_compute; reflexivity).
  destruct (chunker_results_parallel (H := sample_runtime) sample_chunker sample_docs _ Hrun)
    as (Hnums & _).
  split; [exact Hrun | exact Hnums].
Defined.

(** X4.  Whenever the chunker returns, no chunk has an empty text, every
    chunk carries the number of a document of the input, and the document
    numbers never decrease along the chunks: the chunks of a document are
    next to each other, in the order of the documents. *)
Theorem chunker_chunks_in_document_order `{PyRuntime} (self : NerChunker)
    (docs_batch : list string) (out : ChunkerOutput) :
  NerChunker_call self docs_batch = Ok out ->
  List.Forall (List.Forall (fun text => text ≠ EmptyString)) (text_batch_list out)
  /\ List.Forall (List.Forall (fun n => (n < length docs_batch)%nat)) (nums_batch_list out)
  /\ nondecreasing (concat (nums_batch_list out)).
Proof.
  intros Hrun.
  destruct (call_ok_inv self docs_batch out Hrun) as (b & l & Hdocs & Hbs & ->).
  pose proof (chunks_inv_docs self docs_batch b l Hdocs)
    as [(H1 & _ & _ & H4 & _ & H6) H5].
  cbn [text_batch_list nums_batch_list].
  split; [now apply batches_Forall|]. split; [now apply batches_Forall|].
  destruct (Z.lt_trichotomy (batch_size self) 0) as [Hneg | [H0 | Hpos]].
  - rewrite batches_negative by assumption. intros i j x y _ Hi. destruct i; discriminate.
  - contradiction.
  - destruct (batches_partition self (length (text_batch b)) (nums_batch b) Hpos H1)
      as [-> _].
    exact H6.
Qed.

Lemma chunker_chunks_in_document_order_witness :
  exists out,
    NerChunker_call (H := sample_runtime) sample_chunker sample_docs = Ok out
    /\ nondecreasing (concat (nums_batch_list out)).
Proof.
  eexists.
  assert (Hrun : NerChunker_call (H := sample_runtime) sample_chunker sample_docs = Ok _)
    by (vm_compute; reflexivity).
  destruct (chunker_chunks_in_document_order (H := sample_runtime) sample_chunker
              sample_docs _ Hrun) as (_ & _ & Hsorted).
  split; [exact Hrun | exact Hsorted].
Defined.

(** ** The chunker: when it returns *)

Lemma for_each_steps {A St} (body : St -> A -> res St) (P : St -> Prop)
    (l : list A) (s s' : St) :
  (forall x s1 s2, P s1 -> body s1 x = Ok s2 -> P s2) ->
  P s -> for_each body l s = Ok s' ->
  List.Forall (fun x => exists s1 s2, P s1 /\ body s1 x = Ok s2) l.
Proof.
  intros Hstep. revert s. induction l as [|x l IH]; intros s Hs Hrun; simpl in *.
  - constructor.
  - apply bind_ok in Hrun as (s1 & Hx & Hrun). constructor; [eauto|].
    eapply IH; [|exact Hrun]. eapply Hstep; eassumption.
Qed.

Lemma for_each_all {A St} (body : St -> A -> res St) (P : St -> Prop)
    (l : list A) (s : St) :
  List.Forall (fun x => forall s1, P s1 -> exists s2, body s1 x = Ok s2 /\ P s2) l ->
  P s -> exists s', for_each body l s = Ok s' /\ P s'.
Proof.
  intros Hl. revert s. induction Hl as [|x l Hx _ IH]; intros s Hs; simpl; [eauto|].
  destruct (Hx s Hs) as (s1 & -> & Hs1). simpl. now apply IH.
Qed.

Lemma pieces_len_nonneg (self : NerChunker) (s : string) : (0 <= pieces_len self s)%Z.
Proof.
  unfold pieces_len.
  assert (Hgen : forall (l : list Z) (a : Z),
             List.Forall (fun x => (0 <= x)%Z) l -> (0 <= a)%Z ->
             (0 <= fold_left Z.add l a)%Z).
  { induction l as [|x l IH]; intros a Hl Ha; simpl; [assumption|].
    inversion Hl; subst. apply IH; [assumption | lia]. }
  apply Hgen; [|lia]. apply List.Forall_map. apply List.Forall_forall. intros x _. lia.
Qed.

Lemma comma_pieces_cur_len `{PyRuntime} (self : NerChunker) (n : nat) (sentence : string)
    (chunks : list string) (st : Chunks * Cursor) :
  cur_len (fold_left (chunk_comma_piece self n sentence) chunks st).2 = cur_len st.2.
Proof.
  revert st. induction chunks as [|chunk chunks IH]; intros [b c]; simpl; [reflexivity|].
  rewrite IH. unfold chunk_comma_piece.
  destruct (cur_chunk_len c + pieces_len self chunk <? max_seq_len self)%Z; reflexivity.
Qed.

Lemma chunk_sentence_returns `{PyRuntime} (self : NerChunker) (n : nat)
    (st : Chunks * Cursor) (sentence : string) :
  (0 <= cur_len st.2)%Z ->
  (needs_hard_split self sentence = false ->
   exists st', chunk_sentence self n st sentence = Ok st' /\ (0 <= cur_len st'.2)%Z)
  /\ (forall st', chunk_sentence self n st sentence = Ok st' ->
                  needs_hard_split self sentence = false /\ (0 <= cur_len st'.2)%Z).
Proof.
  destruct st as [b c]. simpl. intros Hc.
  pose proof (pieces_len_nonneg self sentence) as Hp.
  unfold chunk_sentence, needs_hard_split.
  destruct (cur_len c + pieces_len self sentence <? max_seq_len self)%Z eqn:E1.
  { apply Z.ltb_lt in E1.
    assert (E2 : (pieces_len self sentence <? max_seq_len self)%Z = true)
      by (apply Z.ltb_lt; lia).
    rewrite E2. simpl. split.
    - intros _. eexists. split; [reflexivity|]. simpl. lia.
    - intros st' [= <-]. simpl. split; [reflexivity | lia]. }
  destruct (pieces_len self sentence <? max_seq_len self)%Z eqn:E2; simpl.
  { split.
    - intros _. eexists. split; [reflexivity|]. simpl. lia.
    - intros st' [= <-]. simpl. split; [reflexivity | lia]. }
  destruct (PyStr.contains "," sentence); simpl.
  - split.
    + intros _. eexists. split; [reflexivity|]. now rewrite comma_pieces_cur_len.
    + intros st' [= <-]. split; [reflexivity|]. now rewrite comma_pieces_cur_len.
  - rewrite chunk_windows_raises. split; [discriminate|].
    intros st'. destruct (max_chunk_len self =? 0)%Z; discriminate.
Qed.

Lemma sanitize_total `{PyRuntime} (self : NerChunker) (text : string) :
  exists r, sanitize self text = Ok r.
Proof.
  unfold sanitize.
  destruct ((0 <? length (PyStr.chars text))%nat
            && negb (is_sentence_end
                       (nth (length (PyStr.chars text) - 1) (PyStr.chars text) EmptyString)))
    eqn:E; [|simpl; eauto].
  apply andb_true_iff in E as [Hpos _]. apply Nat.ltb_lt in Hpos.
  destruct (sanitize_loop_total self (PyStr.chars text) (length (PyStr.chars text) - 1))
    as (j & _ & ->); [lia|].
  simpl. eauto.
Qed.

Lemma sentences_of_doc_total `{PyRuntime} (self : NerChunker) (doc : string) :
  exists sentences, sentences_of_doc self doc = Ok sentences.
Proof.
  unfold sentences_of_doc.
  destruct (map_res_ok (sanitize self) (PyStr.split (String "010"%char EmptyString) doc))
    as (pieces & -> & _); [intros x _; apply sanitize_total|].
  simpl. eauto.
Qed.

Lemma chunk_doc_returns `{PyRuntime} (self : NerChunker) (n : nat) (doc : string)
    (b : Chunks) (l : Z) (sentences : list string) :
  sentences_of_doc self doc = Ok sentences ->
  (exists st', chunk_doc self (b, l) (n, doc) = Ok st')
  <-> List.Forall (fun s => needs_hard_split self s = false) sentences.
Proof.
  unfold sentences_of_doc, chunk_doc. intros Hs.
  apply bind_ok in Hs as (pieces & Hpieces & Hs). injection Hs as <-.
  cbn [new_lists]. rewrite Hpieces. cbn [mbind res_bind].
  set (sentences :=
         concat (map (sent_tokenize self)
                   (List.filter (fun doc_piece => (1 <? PyStr.len doc_piece)%nat) pieces))).
  match goal with
  | |- context [for_each _ _ ?s0] => set (st0 := s0)
  end.
  split.
  - intros (st' & Hrun). apply bind_ok in Hrun as ([b1 c1] & Hloop & _).
    apply (for_each_steps (chunk_sentence self n) (fun st => (0 <= cur_len st.2)%Z))
      in Hloop.
    + eapply List.Forall_impl; [|exact Hloop]. simpl.
      intros s (s1 & s2 & Hs1 & Hstep).
      now apply (chunk_sentence_returns self n s1 s Hs1) in Hstep.
    + intros x s1 s2 Hs1 Hstep.
      now apply (chunk_sentence_returns self n s1 x Hs1) in Hstep.
    + simpl. lia.
  - intros Hall.
    destruct (for_each_all (chunk_sentence self n) (fun st => (0 <= cur_len st.2)%Z)
                sentences st0) as ([b1 c1] & -> & _).
    + eapply List.Forall_impl; [|exact Hall]. simpl. intros s Hs s1 Hs1.
      now apply (chunk_sentence_returns self n s1 s Hs1).
    + simpl. lia.
    + simpl. eauto.
Qed.

Lemma enumerate_from_lookup {A} (l : list A) (i k : nat) (x : A) :
  l !! k = Some x -> enumerate_from i l !! k = Some ((i + k)%nat, x).
Proof.
  revert i k. induction l as [|y l IH]; intros i [|k]; simpl; try discriminate.
  - intros [= ->]. now rewrite Nat.add_0_r.
  - intros Hk. rewrite (IH (S i) k Hk). f_equal. f_equal. lia.
Qed.

(** X5.  The chunker returns exactly when [batch_size] is not zero and no
    sentence of any document needs the split into windows of words, that
    is, every sentence has fewer than [max_seq_len] word pieces or contains
    a comma. *)
Theorem chunker_returns_iff `{PyRuntime} (self : NerChunker) (docs_batch : list string) :
  (exists out, NerChunker_call self docs_batch = Ok out)
  <-> batch_size self ≠ 0%Z
      /\ List.Forall
           (fun doc => exists sentences,
                sentences_of_doc self doc = Ok sentences
                /\ List.Forall (fun s => needs_hard_split self s = false) sentences)
           docs_batch.
Proof.
  split.
  - intros (out & Hrun).
    destruct (call_ok_inv self docs_batch out Hrun) as (b & l & Hdocs & Hbs & _).
    split; [exact Hbs|]. unfold chunk_docs in Hdocs.
    apply (for_each_steps (chunk_doc self) (fun _ => True)) in Hdocs; [|auto|exact I].
    apply List.Forall_forall. intros doc Hdoc.
    apply list_elem_of_In, list_elem_of_lookup_1 in Hdoc as (k & Hk).
    rewrite List.Forall_forall in Hdocs.
    destruct (Hdocs ((0 + k)%nat, doc)) as ([b1 l1] & s2 & _ & Hstep).
    { apply list_elem_of_In. apply (list_elem_of_lookup_2 _ k).
      now apply enumerate_from_lookup. }
    destruct (sentences_of_doc_total self doc) as (sentences & Hs).
    exists sentences. split; [exact Hs|].
    apply (chunk_doc_returns self (0 + k) doc b1 l1 sentences Hs). eauto.
  - intros [Hbs Hall]. unfold NerChunker_call.
    match goal with
    | |- context [for_each _ _ ?s0] => set (st0 := s0)
    end.
    destruct (for_each_all (chunk_doc self) (fun _ => True)
                (enumerate_from 0 docs_batch) st0) as ([b l] & -> & _); [|exact I|].
    + apply List.Forall_forall. intros [n doc] Hin [b1 l1] _.
      apply list_elem_of_In, list_elem_of_lookup_1 in Hin as (k & Hk).
      apply lookup_enumerate_from in Hk as [_ Hk]. simpl in Hk.
      rewrite List.Forall_forall in Hall.
      destruct (Hall doc) as (sentences & Hs & Hfit).
      { apply list_elem_of_In. eapply list_elem_of_lookup_2. exact Hk. }
      destruct (proj2 (chunk_doc_returns self n doc b1 l1 sentences Hs) Hfit) as (st' & ->).
      eauto.
    + cbn [mbind res_bind]. unfold Py.floordiv, Py.modulo.
      apply Z.eqb_neq in Hbs. rewrite Hbs. cbn [mbind res_bind]. eauto.
Qed.

(** ** The chunker: documents that fit in one chunk *)

Lemma spaced_cons (sentence : string) (rest : list string) :
  spaced (sentence :: rest) = (sentence ++ " ") ++ spaced rest.
Proof. unfold spaced. simpl map. apply concat_nil_cons. Qed.

Lemma total_pieces_nonneg (self : NerChunker) (sentences : list string) :
  (0 <= total_pieces self sentences)%Z.
Proof.
  unfold total_pieces. induction sentences as [|s l IH]; simpl; [lia|].
  pose proof (pieces_len_nonneg self s). lia.
Qed.

Lemma chunk_sentence_fits `{PyRuntime} (self : NerChunker) (n : nat) (b : Chunks)
    (c : Cursor) (sentence : string) :
  (cur_len c + pieces_len self sentence < max_seq_len self)%Z ->
  chunk_sentence self n (b, c) sentence
  = Ok (append_sentence (start c, (start c + Z.of_nat (PyStr.len sentence))%Z)
          (SentText sentence) c b,
        {| text := text c ++ sentence ++ " ";
           cur_len := (cur_len c + pieces_len self sentence)%Z;
           cur_chunk_len := 0;
           start := (start c + Z.of_nat (PyStr.len sentence) + 1)%Z;
           sentences_offsets_list := sentences_offsets_list c;
           sentences_list := sentences_list c |}).
Proof.
  intros Hfit. unfold chunk_sentence. cbv zeta.
  apply Z.ltb_lt in Hfit. now rewrite Hfit.
Qed.

Lemma fitting_sentences `{PyRuntime} (self : NerChunker) (n : nat)
    (sentences : list string) (b : Chunks) (c : Cursor)
    (spans : list (Z * Z)) (entries : list SentenceEntry) :
  (cur_len c + total_pieces self sentences < max_seq_len self)%Z ->
  offsets_objs b !! sentences_offsets_list c = Some spans ->
  sentences_objs b !! sentences_list c = Some entries ->
  exists b' c',
    for_each (chunk_sentence self n) sentences (b, c) = Ok (b', c')
    /\ text_batch b' = text_batch b /\ nums_batch b' = nums_batch b
    /\ sentences_offsets_batch b' = sentences_offsets_batch b
    /\ sentences_batch b' = sentences_batch b
    /\ sentences_offsets_list c' = sentences_offsets_list c
    /\ sentences_list c' = sentences_list c
    /\ text c' = text c ++ spaced sentences
    /\ length (offsets_objs b') = length (offsets_objs b)
    /\ length (sentences_objs b') = length (sentences_objs b)
    /\ offsets_objs b' !! sentences_offsets_list c
       = Some (spans ++ sentence_spans (start c) sentences)%list
    /\ sentences_objs b' !! sentences_list c = Some (entries ++ map SentText sentences)%list
    /\ (forall q, q ≠ sentences_offsets_list c -> offsets_objs b' !! q = offsets_objs b !! q)
    /\ (forall q, q ≠ sentences_list c -> sentences_objs b' !! q = sentences_objs b !! q).
Proof.
  revert b c spans entries.
  induction sentences as [|s rest IH]; intros b c spans entries Hfit Ho Hs.
  - exists b, c. simpl. rewrite !app_nil_r. unfold spaced. simpl.
    rewrite string_app_nil_r. repeat split; auto.
  - pose proof (pieces_len_nonneg self s) as Hp.
    pose proof (total_pieces_nonneg self rest) as Hrest.
    unfold total_pieces in Hfit. simpl in Hfit. fold (total_pieces self rest) in Hfit.
    cbn [for_each]. rewrite chunk_sentence_fits by lia. cbn [mbind res_bind].
    set (b1 := append_sentence (start c, (start c + Z.of_nat (PyStr.len s))%Z)
                 (SentText s) c b).
    match goal with
    | |- context [for_each _ _ (b1, ?c0)] => set (c1 := c0)
    end.
    assert (Ho1 : offsets_objs b1 !! sentences_offsets_list c1
                  = Some (spans ++ [(start c, (start c + Z.of_nat (PyStr.len s))%Z)])%list).
    { unfold b1, c1, append_sentence, append_obj. simpl. rewrite Ho. simpl.
      apply list_lookup_insert_eq. eapply lookup_lt_Some. exact Ho. }
    assert (Hs1 : sentences_objs b1 !! sentences_list c1 = Some (entries ++ [SentText s])%list).
    { unfold b1, c1, append_sentence, append_obj. simpl. rewrite Hs. simpl.
      apply list_lookup_insert_eq. eapply lookup_lt_Some. exact Hs. }
    destruct (IH b1 c1 _ _ ltac:(unfold c1; simpl; lia) Ho1 Hs1)
      as (b' & c' & Hrun & H1 & H2 & H3 & H4 & H5 & H6 & H7 & H8 & H9 & H10 & H11
          & H12 & H13).
    exists b', c'. split; [exact Hrun|].
    unfold b1, c1, append_sentence, append_obj in *. simpl in *.
    rewrite length_insert in H8. rewrite length_insert in H9.
    repeat split; try assumption.
    + rewrite H7, spaced_cons, !string_app_assoc. reflexivity.
    + rewrite H10, <- app_assoc. reflexivity.
    + rewrite H11, <- app_assoc. reflexivity.
    + intros q Hq. rewrite H12 by assumption. apply list_lookup_insert_ne. congruence.
    + intros q Hq. rewrite H13 by assumption. apply list_lookup_insert_ne. congruence.
Qed.

Lemma map_deref_ext {A} (objs objs' : list (list A)) (refs : list nat) :
  List.Forall (fun r => objs' !! r = objs !! r) refs ->
  map (fun r => default [] (objs' !! r)) refs = map (fun r => default [] (objs !! r)) refs.
Proof.
  intros Hrefs. apply map_ext_in. intros r Hr.
  rewrite List.Forall_forall in Hrefs. now rewrite (Hrefs r Hr).
Qed.

Lemma chunk_doc_fits `{PyRuntime} (self : NerChunker) (n : nat) (doc : string)
    (b : Chunks) (l : Z) :
  doc_fits self doc -> refs_inv b ->
  exists b' l',
    chunk_doc self (b, l) (n, doc) = Ok (b', l')
    /\ refs_inv b'
    /\ chunk_view b' = (chunk_view b ++ whole_doc_chunk self n doc)%list.
Proof.
  intros (sentences & Hs & Hfit) (R1 & R2 & R3 & R4 & R5).
  unfold whole_doc_chunk. rewrite Hs. unfold sentences_of_doc in Hs.
  apply bind_ok in Hs as (pieces & Hpieces & Hs). injection Hs as Hs.
  unfold chunk_doc. cbn [new_lists]. rewrite Hpieces. cbn [mbind res_bind]. rewrite Hs.
  match goal with
  | |- context [for_each _ _ (?b1, ?c1)] => set (b0 := b1); set (c0 := c1)
  end.
  destruct (fitting_sentences self n sentences b0 c0 [] [])
    as (b' & c' & -> & H1 & H2 & H3 & H4 & H5 & H6 & H7 & H8 & H9 & H10 & H11 & H12 & H13).
  { unfold c0. simpl. lia. }
  { unfold b0, c0. simpl. rewrite lookup_app_r by lia. now rewrite Nat.sub_diag. }
  { unfold b0, c0. simpl. rewrite lookup_app_r by lia. now rewrite Nat.sub_diag. }
  cbn [mbind res_bind]. do 2 eexists. split; [reflexivity|].
  unfold b0, c0 in *. simpl in *. rewrite length_app in H8, H9. simpl in H8, H9.
  assert (Hold_o : List.Forall (fun r => offsets_objs b' !! r = offsets_objs b !! r)
                     (sentences_offsets_batch b)).
  { eapply List.Forall_impl; [|exact R4]. simpl. intros r Hr.
    rewrite H12 by lia. now rewrite lookup_app_l by lia. }
  assert (Hold_s : List.Forall (fun r => sentences_objs b' !! r = sentences_objs b !! r)
                     (sentences_batch b)).
  { eapply List.Forall_impl; [|exact R5]. simpl. intros r Hr.
    rewrite H13 by lia. now rewrite lookup_app_l by lia. }
  rewrite H7. change (EmptyString ++ spaced sentences) with (spaced sentences).
  unfold emit_if_text.
  destruct (bool_decide (PyStr.strip_comma (PyStr.strip (spaced sentences)) = EmptyString)).
  - split.
    + unfold refs_inv. rewrite H1, H2, H3, H4, H8, H9.
      repeat split; try assumption.
      * eapply List.Forall_impl; [|exact R4]. simpl. intros. lia.
      * eapply List.Forall_impl; [|exact R5]. simpl. intros. lia.
    + rewrite app_nil_r. unfold chunk_view. rewrite H1, H2, H3, H4.
      now rewrite (map_deref_ext _ _ _ Hold_o), (map_deref_ext _ _ _ Hold_s).
  - split.
    + unfold refs_inv, emit. simpl. rewrite H1, H2, H3, H4, H5, H6, H8, H9, !length_app.
      simpl. repeat split; try lia.
      * apply List.Forall_app. split; [|constructor; [lia | constructor]].
        eapply List.Forall_impl; [|exact R4]. simpl. intros. lia.
      * apply List.Forall_app. split; [|constructor; [lia | constructor]].
        eapply List.Forall_impl; [|exact R5]. simpl. intros. lia.
    + unfold chunk_view, emit. simpl. rewrite H1, H2, H3, H4, H5, H6, !map_app. simpl.
      rewrite H10, H11. simpl.
      rewrite (map_deref_ext _ _ _ Hold_o), (map_deref_ext _ _ _ Hold_s).
      rewrite !combine_snoc; rewrite ?length_combine, ?length_map; try lia.
      reflexivity.
Qed.

Lemma chunk_docs_fit `{PyRuntime} (self : NerChunker) (docs_batch : list string) :
  List.Forall (doc_fits self) docs_batch ->
  exists b l,
    chunk_docs self docs_batch = Ok (b, l)
    /\ refs_inv b
    /\ chunk_view b
       = concat (map (fun '(n, doc) => whole_doc_chunk self n doc)
                   (enumerate_from 0 docs_batch)).
Proof.
  intros Hfit. unfold chunk_docs.
  match goal with
  | |- context [for_each _ _ ?s0] => set (st0 := s0)
  end.
  destruct (for_each_total (chunk_doc self)
              (fun k st =>
                 refs_inv st.1
                 /\ chunk_view st.1
                    = concat (map (fun '(n, doc) => whole_doc_chunk self n doc)
                                (take k (enumerate_from 0 docs_batch))))
              (enumerate_from 0 docs_batch) st0) as ([b l] & Hrun & Hinv & Hview).
  - intros k [n doc] [b1 l1] Hk [Hinv Hview]. simpl in Hinv, Hview.
    pose proof Hk as Hk'. apply lookup_enumerate_from in Hk' as [_ Hdoc]. simpl in Hdoc.
    rewrite List.Forall_forall in Hfit.
    destruct (chunk_doc_fits self n doc b1 l1) as (b2 & l2 & -> & Hinv2 & Hview2);
      [apply Hfit; apply list_elem_of_In; eapply list_elem_of_lookup_2; exact Hdoc
      | exact Hinv |].
    exists (b2, l2). split; [reflexivity|]. split; [exact Hinv2|]. simpl.
    rewrite (take_S_r _ _ _ Hk), map_app, concat_app, Hview2, Hview. simpl.
    now rewrite app_nil_r.
  - unfold st0. simpl. split; [|reflexivity].
    repeat split; constructor.
  - exists b, l. split; [exact Hrun|]. split; [exact Hinv|].
    simpl in Hview. rewrite Hview. now rewrite firstn_all.
Qed.

(** X6.  With a positive [batch_size], when the sentences of every document
    have fewer than [max_seq_len] word pieces together, the chunker returns
    and makes one chunk for each document whose text is not blank, in the
    order of the documents: its text is the sentences of the document, each
    followed by a space, stripped of surrounding whitespace and commas; its
    spans put the first sentence at 0 and every sentence one character
    after the end of the one before; its sentence list is the sentences. *)
Theorem chunker_one_chunk_per_fitting_document `{PyRuntime} (self : NerChunker)
    (docs_batch : list string) :
  (0 < batch_size self)%Z ->
  List.Forall (doc_fits self) docs_batch ->
  exists out,
    NerChunker_call self docs_batch = Ok out
    /\ combine
         (combine (combine (concat (text_batch_list out)) (concat (nums_batch_list out)))
            (concat (sentences_offsets_batch_list out)))
         (concat (sentences_batch_list out))
       = concat (map (fun '(n, doc) => whole_doc_chunk self n doc)
                   (enumerate_from 0 docs_batch)).
Proof.
  intros Hpos Hfit.
  destruct (chunk_docs_fit self docs_batch Hfit) as (b & l & Hdocs & Hrefs & Hview).
  destruct Hrefs as (R1 & R2 & R3 & _ & _).
  unfold NerChunker_call. fold (chunk_docs self docs_batch). rewrite Hdocs.
  cbn [mbind res_bind]. unfold Py.floordiv, Py.modulo.
  destruct (batch_size self =? 0)%Z eqn:E; [apply Z.eqb_eq in E; lia|].
  cbn [mbind res_bind]. eexists. split; [reflexivity|].
  cbn [text_batch_list nums_batch_list sentences_offsets_batch_list sentences_batch_list].
  fold (num_batches_of self (length (text_batch b))).
  rewrite (proj1 (batches_partition self _ (text_batch b) Hpos eq_refl)).
  rewrite (proj1 (batches_partition self _ (nums_batch b) Hpos R1)).
  rewrite (proj1 (batches_partition self _ _ Hpos
                    ltac:(rewrite length_map; exact R2))).
  rewrite (proj1 (batches_partition self _ _ Hpos
                    ltac:(rewrite length_map; exact R3))).
  exact Hview.
Qed.

Lemma sample_docs_fit : List.Forall (doc_fits (H := sample_runtime) sample_chunker) sample_docs.
Proof.
  repeat constructor; eexists; (split; [vm_compute; reflexivity | vm_compute; reflexivity]).
Qed.

Lemma chunker_one_chunk_per_fitting_document_witness :
  exists out,
    NerChunker_call (H := sample_runtime) sample_chunker sample_docs = Ok out
    /\ length (concat (text_batch_list out)) = 2%nat.
Proof.
  destruct (chunker_one_chunk_per_fitting_document (H := sample_runtime) sample_chunker
              sample_docs ltac:(reflexivity) sample_docs_fit) as (out & Hrun & Hview).
  exists out. split; [exact Hrun|].
  apply (f_equal (@length _)) in Hview.
  rewrite !length_combine in Hview. vm_compute in Hrun. injection Hrun as <-. reflexivity.
Defined.

(** ** Bounds of the aggregate score *)

Lemma fold_Qplus_nonneg (l : list Q) (a : Q) :
  List.Forall (fun x => (0 <= x)%Q) l -> (0 <= a)%Q -> (0 <= fold_left Qplus l a)%Q.
Proof.
  revert a. induction l as [|x l IH]; intros a Hl Ha; simpl; [assumption|].
  inversion Hl; subst. apply IH; [assumption|]. lra.
Qed.

Lemma score_sum_nonneg (k : string * Z) (candidate_entities : list (string * Z * Q)) :
  (forall e len s, In (e, len, s) candidate_entities -> (0 <= s)%Q) ->
  (0 <= score_sum k candidate_entities)%Q.
Proof.
  intros Hpos. unfold score_sum, scores_of. apply fold_Qplus_nonneg; [|lra].
  apply List.Forall_map. apply List.Forall_forall. intros [[e len] s] Hin.
  apply filter_In in Hin as [Hin _]. simpl. eapply Hpos, Hin.
Qed.

Lemma normalized_score_bounds (substr_len : Z) (sum : Q) (label_len : Z) :
  (0 <= sum)%Q -> (1 <= label_len)%Z ->
  (0 <= normalized_score substr_len sum label_len <= 1)%Q.
Proof.
  intros Hsum Hlen. unfold normalized_score.
  assert (Hden : (0 < inject_Z (py_max substr_len label_len))%Q).
  { unfold py_max. destruct (substr_len <? label_len)%Z eqn:E.
    - change 0%Q with (inject_Z 0). rewrite <- Zlt_Qlt. lia.
    - apply Z.ltb_ge in E. change 0%Q with (inject_Z 0). rewrite <- Zlt_Qlt. lia. }
  assert (Hle : (inject_Z label_len <= inject_Z (py_max substr_len label_len))%Q).
  { rewrite <- Zle_Qle. unfold py_max. destruct (substr_len <? label_len)%Z eqn:E; [lia|].
    apply Z.ltb_ge in E. lia. }
  assert (Hl0 : (0 <= inject_Z label_len)%Q).
  { change 0%Q with (inject_Z 0). rewrite <- Zle_Qle. lia. }
  assert (Hmin : (0 <= py_min sum (inject_Z label_len) <= inject_Z label_len)%Q).
  { unfold py_min. destruct (Qltb (inject_Z label_len) sum) eqn:E.
    - split; [assumption | lra].
    - apply Qltb_ge in E. split; assumption. }
  split.
  - apply Qle_shift_div_l; [assumption|]. lra.
  - apply Qle_shift_div_r; [assumption|]. lra.
Qed.

(** X7.  When the similarity scores are not negative and every label has at
    least one word, [sum_scores] returns, and every aggregate score it
    returns lies between 0 and 1. *)
Theorem sum_scores_between_0_and_1 (candidate_entities : list (string * Z * Q))
    (substr_len : Z) :
  (forall e len s, In (e, len, s) candidate_entities -> (1 <= len)%Z /\ (0 <= s)%Q) ->
  exists out,
    sum_scores candidate_entities substr_len = Ok out
    /\ forall e sc, In (e, sc) out -> (0 <= sc <= 1)%Q.
Proof.
  intros Hin. unfold sum_scores.
  set (sums := fold_left add_score candidate_entities []).
  assert (Hsums : forall e len sum, In (e, len, sum) sums ->
                    (1 <= len)%Z /\ (0 <= sum)%Q).
  { intros e len sum Hs. apply add_scores_entries in Hs as [[s Hs] ->]. split.
    - eapply Hin, Hs.
    - apply score_sum_nonneg. intros e' len' s' Hs'. eapply Hin, Hs'. }
  destruct (normalize_loop substr_len sums []) as (out & Hout & Hnd & Hspec).
  { intros e len sum Hs. apply Hsums in Hs as [Hlen _]. unfold py_max.
    destruct (substr_len <? len)%Z eqn:E; [lia|]. apply Z.ltb_ge in E. lia. }
  exists out. split; [exact Hout|]. intros e sc Hsc.
  specialize (Hspec e). apply In_get_Some in Hsc; [|apply Hnd; constructor].
  rewrite Hsc in Hspec. destruct Hspec as ([Hd | (len & sum & Hs & ->)] & _); [discriminate|].
  apply Hsums in Hs as [Hlen Hsum]. now apply normalized_score_bounds.
Qed.

Lemma sum_scores_between_0_and_1_witness :
  exists out,
    sum_scores [("Q90", 1%Z, 1%Q); ("Q167646", 2%Z, 1%Q); ("Q90", 2%Z, 0.5%Q)] 2 = Ok out
    /\ forall e sc, In (e, sc) out -> (0 <= sc <= 1)%Q.
Proof.
  apply (sum_scores_between_0_and_1
           [("Q90", 1%Z, 1%Q); ("Q167646", 2%Z, 1%Q); ("Q90", 2%Z, 0.5%Q)] 2).
  intros e len s [Hin | [Hin | [Hin | []]]]; injection Hin as <- <- <-;
    (split; [lia | unfold Qle; simpl; lia]).
Defined.

(** ** Search results per document, by position *)

(** X8.  The rows of the search results are regrouped by document: when the
    document numbers of the words sent to the search never decrease and are
    below [n], [regroup] returns [n] groups of distances and [n] groups of
    neighbour numbers, and group [j] holds, in order, exactly the rows of
    the words of document [j] (no row for a document all of whose words
    are in the index). *)
Theorem search_rows_by_document (n : nat) (D_all : list (list Q)) (I_all : list (list Z))
    (nf_doc_nums : list nat) :
  docs_sorted (combine (combine D_all I_all) nf_doc_nums) ->
  List.Forall (fun r => (r.2 < n)%nat) (combine (combine D_all I_all) nf_doc_nums) ->
  length (regroup n D_all I_all nf_doc_nums).1 = n
  /\ length (regroup n D_all I_all nf_doc_nums).2 = n
  /\ forall j, (j < n)%nat ->
       (regroup n D_all I_all nf_doc_nums).1 !! j
       = Some (map fst (rows_of j (combine (combine D_all I_all) nf_doc_nums)))
       /\ (regroup n D_all I_all nf_doc_nums).2 !! j
          = Some (map snd (rows_of j (combine (combine D_all I_all) nf_doc_nums))).
Proof.
  intros Hs Hn. rewrite regroup_spec by assumption. simpl.
  rewrite !length_map, length_seq. split; [reflexivity|]. split; [reflexivity|].
  intros j Hj. rewrite !list_lookup_fmap, lookup_seq_lt by exact Hj. simpl. auto.
Qed.

Lemma search_rows_by_document_witness :
  length (regroup 3 [[0.1%Q]; [0.2%Q]; [0.3%Q]] [[1%Z]; [2%Z]; [3%Z]] [0; 2; 2]%nat).1
  = 3%nat
  /\ (regroup 3 [[0.1%Q]; [0.2%Q]; [0.3%Q]] [[1%Z]; [2%Z]; [3%Z]] [0; 2; 2]%nat).1 !! 1%nat
     = Some [].
Proof.
  destruct (search_rows_by_document 3 [[0.1%Q]; [0.2%Q]; [0.3%Q]] [[1%Z]; [2%Z]; [3%Z]]
              [0; 2; 2]%nat) as (Hlen & _ & Hrows).
  - intros i1 i2 x1 x2 Hle H1 H2.
    destruct i1 as [|[|[|i1]]], i2 as [|[|[|i2]]]; simpl in *;
      try discriminate; try lia; injection H1 as <-; injection H2 as <-; simpl; lia.
  - repeat constructor.
  - split; [exact Hlen|]. exact (proj1 (Hrows 1%nat ltac:(lia))).
Defined.

(** ** The keys of the candidates of a document *)

(** X9.  When every mention of a document keeps at least one word, the
    dictionary of candidates that the candidate generation returns has
    exactly one entry per mention, keyed by the number of the mention, in
    the order of the mentions (so [zip(entity_substr_list,
    candidate_entities_dict.values())] pairs every mention with its own
    candidates), and the name [index] ends as the number of the last
    mention. *)
Theorem candidates_keyed_by_mention `{PyRuntime} (self : EntityLinkerSep)
    (doc_num : nat) (entity_substr_list : list (list string)) (tags_list : list string)
    (nf0 : list (string * nat)) (wc0 : nat) (scans : list WordScan)
    (nf : list (string * nat)) (wc : nat) (scans' : list WordScan) (scan : WordScan)
    (index0 : option nat) (D : list (list Q)) (I' : list (list Z))
    (index : nat) (candidate_entities_dict : list (nat * list (string * Z * Q))) :
  List.Forall (fun words => words ≠ []) entity_substr_list ->
  length tags_list = length entity_substr_list ->
  entity_substr_list ≠ [] ->
  scan_doc self (nf0, wc0, scans) (doc_num, (entity_substr_list, tags_list))
  = Ok (nf, wc, scans') ->
  last scans' = Some scan ->
  collect_candidates self index0 scan D I' = Ok (index, candidate_entities_dict) ->
  PyDict.keys candidate_entities_dict = seq 0 (length entity_substr_list)
  /\ S index = length entity_substr_list.
Proof.
  intros Hwords Htags Hne Hscan Hlast Hrun.
  apply scan_doc_facts in Hscan as (_ & new & d & _ & -> & _ & Htight).
  rewrite last_snoc in Hlast. injection Hlast as <-.
  specialize (Htight ltac:(apply Forall_forall; intros x Hx; rewrite List.Forall_forall in Hwords;
                           apply Hwords; now apply list_elem_of_In)).
  rewrite length_combine, Htags, Nat.min_id in Htight.
  destruct Htight as (Hnext & Hhead & Hl).
  destruct entity_substr_list as [|w ws]; [contradiction|]. cbn [length] in *.
  destruct Hl as (itl & Hitl & Hidx).
  unfold collect_candidates in Hrun. fold (scan_items d) in Hrun.
  apply bind_ok in Hrun as (st & Hloop & Hrun).
  apply bind_ok in Hrun as (idx & Hidx' & Hrun). injection Hrun as <- <-.
  set (st0 := {| candidate_entities_dict := []; prev_word_count := 0; prev_index := 0;
                 candidate_entities := []; words_i := 0; ind_i := 0; index := index0 |})
    in Hloop.
  destruct (collect_loop_keys self D I' (fnd_words d) (scan_items d) st0 st)
    as (Hkeys & Hprev); try reflexivity; try assumption.
  rewrite Hitl in Hprev. destruct Hprev as (Hpi & Hist).
  rewrite Hist in Hidx'. injection Hidx' as <-.
  split; [|now rewrite Hidx].
  rewrite <- Hpi, flush_keys_seq by assumption. now rewrite Hpi, Hidx.
Qed.

Lemma candidates_keyed_by_mention_witness :
  exists index candidate_entities_dict,
    PyDict.keys (K := nat) (V := list (string * Z * Q)) candidate_entities_dict = seq 0 2
    /\ S index = 2%nat.
Proof.
  do 2 eexists.
  eapply (candidates_keyed_by_mention (H := sample_runtime) sample_linker 0
            [["parys"]; ["moscow"]] ["LOC"; "LOC"] [] 0 [] _ _ _ _ None
            [[0.25%Q; 0.5%Q]] [[0%Z; 2%Z]]).
  - repeat constructor; discriminate.
  - reflexivity.
  - discriminate.
  - reflexivity.
  - reflexivity.
  - reflexivity.
Defined.

(** ** [link_entities]: confidences, neighbours and results *)

Lemma get_fold_set_other {K V} `{EqDecision K} (l : list (K * V)) (d : list (K * V))
    (k : K) :
  ~ In k (map fst l) ->
  PyDict.get (fold_left (fun d kv => PyDict.set d (fst kv) (snd kv)) l d) k
  = PyDict.get d k.
Proof.
  revert d. induction l as [|[k' v'] l IH]; intros d Hk; simpl; [reflexivity|].
  rewrite IH by (intros Hin; apply Hk; now right).
  apply get_set_ne. intros ->. apply Hk. now left.
Qed.

(** In [{k: v for k, v in l}] a key has the value of its last binding. *)
Lemma get_of_items_last {K V} `{EqDecision K} (pre post : list (K * V)) (k : K) (v : V) :
  ~ In k (map fst post) ->
  PyDict.get (PyDict.of_items (pre ++ (k, v) :: post)) k = Some v.
Proof.
  intros Hk. unfold PyDict.of_items. rewrite fold_left_app. simpl.
  rewrite get_fold_set_other by exact Hk. apply get_set_eq.
Qed.

(** X10.  Without the reranker, the confidence that [link_entities] records
    for an entity is not its scores: line 596 takes [candidate_entity[1:]]
    from the list of ids, so the confidence of an id is the id without its
    first character.  The table of scores handed to the reranker holds, for
    each id, the substring score and the popularity of its last occurrence
    in the ranking. *)
Theorem pre_rank_confidences_are_id_tails (self : EntityLinkerSep)
    (candidate_entities : list (string * Q)) :
  let ranked := rank_candidates self candidate_entities in
  let kept :=
    firstn (num_entities_for_bert_ranking self) (map (fun x => x.1.1) ranked) in
  let tails := map (fun id => IdTail (PyStr.slice_from 1 id)) kept in
  exists ids entities_scores,
    pre_rank self candidate_entities
    = Ok (kept, ids,
          match tails with
          | first :: _ =>
              if bool_decide (num_entities_to_return self = 1%nat)
              then One first
              else Several (firstn (num_entities_to_return self) tails)
          | [] => Several []
          end,
          entities_scores)
    /\ forall before entity substr_score pop_score after,
         ranked = (before ++ (entity, substr_score, pop_score) :: after)%list ->
         ~ In entity (map (fun x => x.1.1) after) ->
         PyDict.get entities_scores entity = Some (substr_score, pop_score).
Proof.
  intros ranked kept tails. unfold pre_rank. fold ranked. fold kept. fold tails.
  assert (Htails : firstn (num_entities_for_bert_ranking self) tails = tails).
  { apply List.firstn_all2. unfold tails, kept. rewrite length_map, length_firstn. lia. }
  rewrite Htails. rewrite answer_lists by (unfold tails; now rewrite length_map).
  assert (Hscores : forall before entity substr_score pop_score after,
             ranked = (before ++ (entity, substr_score, pop_score) :: after)%list ->
             ~ In entity (map (fun x => x.1.1) after) ->
             PyDict.get (PyDict.of_items (map (fun x => (x.1.1, (x.1.2, x.2))) ranked))
               entity = Some (substr_score, pop_score)).
  { intros before entity s p after Hr Hlast. rewrite Hr, map_app. simpl.
    apply get_of_items_last. now rewrite map_map. }
  unfold tails. destruct kept as [|first rest]; simpl.
  - rewrite !firstn_nil. eauto.
  - destruct (bool_decide (num_entities_to_return self = 1%nat)); eauto.
Qed.

(** X11.  [word_list] is the list of the keys of the inverted index, so the
    number of a neighbour word that lies within the bounds of [word_list]
    (negative numbers count from the end) always has an entry in the
    inverted index: the lookup of lines 554-557 returns this entry and
    raises no [KeyError]; a number out of the bounds raises [IndexError]. *)
Theorem neighbour_numbers_resolve (self : EntityLinkerSep) (n : Z) :
  (valid_index (word_list self) n ->
   exists word entities,
     Py.getitem (word_list self) n = Ok word
     /\ PyDict.get (word_to_idlist self) word = Some entities
     /\ entities_of self (inr n) = Ok entities)
  /\ (~ valid_index (word_list self) n -> entities_of self (inr n) = Raise IndexError).
Proof.
  split.
  - intros Hv. destruct (getitem_valid _ _ Hv) as (word & Hword & Hin).
    unfold word_list in Hin.
    destruct (PyDict.get (word_to_idlist self) word) as [entities|] eqn:Hg.
    + exists word, entities. split; [exact Hword|]. split; [exact Hg|].
      simpl. rewrite Hword. simpl. unfold PyDict.getitem. now rewrite Hg.
    + apply get_None in Hg. contradiction.
  - intros Hv. simpl. unfold Py.getitem, valid_index in *.
    destruct (0 <=? n)%Z eqn:E.
    + apply Z.leb_le in E.
      destruct (word_list self !! Z.to_nat n) eqn:Hl; [|reflexivity].
      apply lookup_lt_Some in Hl. lia.
    + apply Z.leb_gt in E.
      destruct (0 <=? Z.of_nat (length (word_list self)) + n)%Z eqn:E'; [|reflexivity].
      apply Z.leb_le in E'. lia.
Qed.

(** X12.  In single-answer mode as in list mode, on a well-formed batch in
    which every mention keeps at least one word, [link_entities] returns,
    for every document, one result and one confidence for each of its
    mentions. *)
Theorem link_entities_one_result_per_mention `{PyRuntime} (self : EntityLinkerSep)
    (entity_substr_batch : list (list string)) (tags_batch : list (list string))
    (entity_offsets_batch : list (list (Z * Z))) (sentences_batch : list (list string))
    (sentences_offsets_batch : list (list (Z * Z))) :
  morph_total self -> search_ok self -> ranker_ok self -> tags_known self tags_batch ->
  length sentences_batch = length entity_substr_batch ->
  length sentences_offsets_batch = length entity_substr_batch ->
  Forall2 (fun ms ts => length ts = length ms) entity_substr_batch tags_batch ->
  Forall2 (fun ms os => length os = length ms) entity_substr_batch entity_offsets_batch ->
  List.Forall (List.Forall (fun m => split_words self m ≠ [])) entity_substr_batch ->
  exists ids confs,
    link_entities self entity_substr_batch tags_batch entity_offsets_batch
      sentences_batch sentences_offsets_batch = Ok (ids, confs)
    /\ length ids = length entity_substr_batch
    /\ length confs = length entity_substr_batch
    /\ forall j ms, entity_substr_batch !! j = Some ms ->
         exists ids_list conf_list,
           ids !! j = Some ids_list /\ confs !! j = Some conf_list
           /\ length ids_list = length ms /\ length conf_list = length ms.
Proof.
  intros Hm Hsearch Hranker Hknown Hsent Hsoff Htags Hoffs Hwords.
  destruct (link_entities_ok self entity_substr_batch tags_batch entity_offsets_batch
              sentences_batch sentences_offsets_batch)
    as (ids & confs & Hrun & Hids & Hconfs & _); try assumption.
  exists ids, confs. split; [exact Hrun|].
  split; [symmetry; eapply Forall2_length; exact Hids|].
  split; [symmetry; eapply Forall2_length; exact Hconfs|].
  intros j ms Hms.
  destruct (Forall2_lookup_l _ _ _ _ _ Hids Hms) as (a & Ha & Hla).
  destruct (Forall2_lookup_l _ _ _ _ _ Hconfs Hms) as (b & Hb & Hlb).
  exists a, b. auto.
Qed.

Lemma sample_single_morph_total : morph_total sample_linker_single.
Proof. intros word. eexists. reflexivity. Qed.

Lemma sample_single_search_ok : search_ok sample_linker_single.
Proof.
  intros words. simpl. rewrite !length_map. split; [reflexivity|]. split; [reflexivity|].
  apply List.Forall_map. apply List.Forall_forall. intros w _.
  repeat constructor; vm_compute; intuition discriminate.
Qed.

Lemma sample_single_ranker_ok : ranker_ok sample_linker_single.
Proof. intros contexts cands. simpl. now rewrite length_map. Qed.

Lemma sample_single_tags_known : tags_known sample_linker_single [["LOC"; "LOC"]].
Proof. split; repeat constructor; eexists; reflexivity. Qed.

Lemma link_entities_one_result_per_mention_witness :
  exists ids confs,
    link_entities (H := sample_runtime) sample_linker_single [["moscow"; "parys"]]
      [["LOC"; "LOC"]] [[(0, 6)%Z; (11, 16)%Z]] [["moscow and parys"]] [[(0, 16)%Z]]
    = Ok (ids, confs)
    /\ length ids = 1%nat.
Proof.
  destruct (link_entities_one_result_per_mention (H := sample_runtime) sample_linker_single
              [["moscow"; "parys"]] [["LOC"; "LOC"]] [[(0, 6)%Z; (11, 16)%Z]]
              [["moscow and parys"]] [[(0, 16)%Z]])
    as (ids & confs & Hrun & Hlen & _).
  - exact sample_single_morph_total.
  - exact sample_single_search_ok.
  - exact sample_single_ranker_ok.
  - exact sample_single_tags_known.
  - reflexivity.
  - reflexivity.
  - repeat constructor.
  - repeat constructor.
  - repeat constructor; vm_compute; discriminate.
  - exists ids, confs. split; assumption.
Defined.

(** ** [rank_by_description]: the context in paragraph mode *)

Lemma segment_snoc (l : list string) (i j : nat) :
  (i <= j)%nat -> (j < length l)%nat ->
  segment l i (S j) = (segment l i j ++ [nth j l EmptyString])%list.
Proof.
  intros Hij Hj. unfold segment.
  replace (S j - i)%nat with (S (j - i)) by lia.
  destruct (lookup_lt_is_Some_2 (drop i l) (j - i)) as (x & Hx); [rewrite length_drop; lia|].
  rewrite (take_S_r _ _ _ Hx). f_equal. f_equal.
  rewrite lookup_drop in Hx. replace (i + (j - i))%nat with j in Hx by lia.
  rewrite nth_lookup, Hx. reflexivity.
Qed.

Lemma segment_cons (l : list string) (i j : nat) :
  (0 < i)%nat -> (i <= j)%nat -> (i <= length l)%nat ->
  segment l (i - 1) j = nth (i - 1) l EmptyString :: segment l i j.
Proof.
  intros Hi Hij Hl. unfold segment.
  destruct (lookup_lt_is_Some_2 l (i - 1)) as (x & Hx); [lia|].
  rewrite (drop_S _ _ _ Hx). replace (S (i - 1)) with i by lia.
  replace (j - (i - 1))%nat with (S (j - i)) by lia. simpl.
  rewrite nth_lookup, Hx. reflexivity.
Qed.

Lemma extend_paragraph_spec (self : EntityLinkerSep) (sl : list string) (ctx : string)
    (found : nat) (fuel : nat) (cur : Z) (first last : nat) :
  (first <= found)%nat -> (found <= last)%nat -> (last < length sl)%nat ->
  (first + (length sl - 1 - last) < fuel)%nat ->
  exists first' last',
    (first' <= first)%nat /\ (last <= last')%nat /\ (last' < length sl)%nat
    /\ forall extra,
         extend_paragraph self sl (fuel + extra)
           (segment sl first found ++ [ctx] ++ segment sl (S found) (S last))%list
           cur first last
         = (segment sl first' found ++ [ctx] ++ segment sl (S found) (S last'))%list.
Proof.
  revert cur first last.
  induction fuel as [|fuel IH]; intros cur first last Hf Hl Hlen Hfuel; [lia|].
  destruct (Z.of_nat last <? Z.of_nat (length sl) - 1)%Z eqn:E1.
  - pose proof E1 as E1'. apply Z.ltb_lt in E1'.
    destruct (cur + Z.of_nat (length (re_tokenizer self (nth (S last) sl EmptyString)))
              <? max_paragraph_len self)%Z eqn:E2.
    + (* a sentence is added after *)
      set (cur1 := (cur + Z.of_nat (length (re_tokenizer self (nth (S last) sl EmptyString))))%Z).
      destruct ((0 <? first)%nat
                && (cur1 + Z.of_nat (length (re_tokenizer self
                                               (nth (first - 1) sl EmptyString)))
                    <? max_paragraph_len self)%Z) eqn:E3.
      * apply andb_true_iff in E3 as [E3 E4]. pose proof E3 as E3'. apply Nat.ltb_lt in E3'.
        destruct (IH (cur1 + Z.of_nat (length (re_tokenizer self
                                                 (nth (first - 1) sl EmptyString))))%Z
                    (first - 1)%nat (S last))
          as (f' & l' & Hf' & Hl' & Hlen' & Hrun); try lia.
        exists f', l'. split; [lia|]. split; [lia|]. split; [lia|].
        intros extra. cbn [Nat.add extend_paragraph]. rewrite E1, E2. fold cur1.
        rewrite E3, E4. rewrite <- (Hrun extra). f_equal.
        rewrite (segment_cons sl first found) by lia.
        rewrite (segment_snoc sl (S found) (S last)) by lia.
        rewrite <- !app_assoc. reflexivity.
      * destruct (IH cur1 first (S last))
          as (f' & l' & Hf' & Hl' & Hlen' & Hrun); try lia.
        exists f', l'. split; [lia|]. split; [lia|]. split; [lia|].
        intros extra. cbn [Nat.add extend_paragraph]. rewrite E1, E2. fold cur1.
        assert (Hkeep :
                  (if (0 <? first)%nat
                   then
                     if (cur1 + Z.of_nat (length (re_tokenizer self
                                                    (nth (first - 1) sl EmptyString)))
                         <? max_paragraph_len self)%Z
                     then true else false
                   else false) = false).
        { destruct (0 <? first)%nat; [|reflexivity]. simpl in E3. now rewrite E3. }
        destruct (0 <? first)%nat eqn:E5; simpl in E3.
        -- rewrite E3. rewrite <- (Hrun extra). f_equal.
           rewrite (segment_snoc sl (S found) (S last)) by lia.
           rewrite <- !app_assoc. reflexivity.
        -- rewrite <- (Hrun extra). f_equal.
           rewrite (segment_snoc sl (S found) (S last)) by lia.
           rewrite <- !app_assoc. reflexivity.
    + (* nothing is added after *)
      destruct ((0 <? first)%nat
                && (cur + Z.of_nat (length (re_tokenizer self
                                              (nth (first - 1) sl EmptyString)))
                    <? max_paragraph_len self)%Z) eqn:E3.
      * apply andb_true_iff in E3 as [E3 E4]. pose proof E3 as E3'. apply Nat.ltb_lt in E3'.
        destruct (IH (cur + Z.of_nat (length (re_tokenizer self
                                                (nth (first - 1) sl EmptyString))))%Z
                    (first - 1)%nat last)
          as (f' & l' & Hf' & Hl' & Hlen' & Hrun); try lia.
        exists f', l'. split; [lia|]. split; [lia|]. split; [lia|].
        intros extra. cbn [Nat.add extend_paragraph]. rewrite E1, E2, E3, E4.
        rewrite <- (Hrun extra). f_equal.
        rewrite (segment_cons sl first found) by lia. reflexivity.
      * exists first, last. split; [lia|]. split; [lia|]. split; [lia|].
        intros extra. cbn [Nat.add extend_paragraph]. rewrite E1, E2.
        destruct (0 <? first)%nat; simpl in E3; [rewrite E3|]; reflexivity.
  - pose proof E1 as E1'. apply Z.ltb_ge in E1'.
    destruct ((0 <? first)%nat
              && (cur + Z.of_nat (length (re_tokenizer self
                                            (nth (first - 1) sl EmptyString)))
                  <? max_paragraph_len self)%Z) eqn:E3.
    + apply andb_true_iff in E3 as [E3 E4]. pose proof E3 as E3'. apply Nat.ltb_lt in E3'.
      destruct (IH (cur + Z.of_nat (length (re_tokenizer self
                                              (nth (first - 1) sl EmptyString))))%Z
                  (first - 1)%nat last)
        as (f' & l' & Hf' & Hl' & Hlen' & Hrun); try lia.
      exists f', l'. split; [lia|]. split; [lia|]. split; [lia|].
      intros extra. cbn [Nat.add extend_paragraph]. rewrite E1, E3, E4.
      rewrite <- (Hrun extra). f_equal.
      rewrite (segment_cons sl first found) by lia. reflexivity.
    + exists first, last. split; [lia|]. split; [lia|]. split; [lia|].
      intros extra. cbn [Nat.add extend_paragraph]. rewrite E1.
      destruct (0 <? first)%nat; simpl in E3; [rewrite E3|]; reflexivity.
Qed.

(** X13.  The loop that extends the context in [full_paragraph] mode stops
    after at most [len(sentences_list)] rounds, and what it returns is the
    marked sentence between the sentences [first], ..., [found - 1] before
    it and [found + 1], ..., [last] after it, for some [first <= found <=
    last]: a run of neighbouring sentences, in their order, none skipped. *)
Theorem paragraph_context_window (self : EntityLinkerSep) (sentences_list : list string)
    (context : string) (cur_sent_len : Z) (found fuel : nat) :
  (found < length sentences_list)%nat -> (length sentences_list <= fuel)%nat ->
  exists first last,
    (first <= found)%nat /\ (found <= last)%nat /\ (last < length sentences_list)%nat
    /\ extend_paragraph self sentences_list fuel [context] cur_sent_len found found
       = (segment sentences_list first found ++ [context]
          ++ segment sentences_list (S found) (S last))%list
    /\ extend_paragraph self sentences_list fuel [context] cur_sent_len found found
       = extend_paragraph self sentences_list (S (length sentences_list)) [context]
           cur_sent_len found found.
Proof.
  intros Hfound Hfuel.
  destruct (extend_paragraph_spec self sentences_list context found (length sentences_list)
              cur_sent_len found found) as (first & last & Hf & Hl & Hlen & Hrun); try lia.
  assert (Hinit : (segment sentences_list found found ++ [context]
                   ++ segment sentences_list (S found) (S found))%list = [context]).
  { unfold segment. now rewrite !Nat.sub_diag. }
  rewrite Hinit in Hrun.
  exists first, last. split; [lia|]. split; [lia|]. split; [lia|].
  pose proof (Hrun (fuel - length sentences_list)%nat) as H1.
  replace (length sentences_list + (fuel - length sentences_list))%nat with fuel in H1 by lia.
  pose proof (Hrun 1%nat) as H2.
  replace (length sentences_list + 1)%nat with (S (length sentences_list)) in H2 by lia.
  split; [exact H1|]. now rewrite H1, H2.
Qed.

Lemma paragraph_context_window_witness :
  exists first last,
    extend_paragraph sample_linker ["a b"; "c d"; "e f"] 3 ["x"] 2 1 1
    = (segment ["a b"; "c d"; "e f"] first 1 ++ ["x"]
       ++ segment ["a b"; "c d"; "e f"] 2 (S last))%list.
Proof.
  destruct (paragraph_context_window sample_linker ["a b"; "c d"; "e f"] "x" 2 1 3)
    as (first & last & _ & _ & _ & Hrun & _).
  - simpl. lia.
  - simpl. lia.
  - exists first, last. exact Hrun.
Defined.

(** ** [rank_by_description]: the context of a mention *)

Lemma find_sentence_first (es ee : Z) (num : nat) (l : list (string * (Z * Z)))
    (k : nat) (sent : string) (ss se : Z) :
  l !! k = Some (sent, (ss, se)) -> (ss <= es)%Z -> (ee <= se)%Z ->
  (forall k' s' a b, (k' < k)%nat -> l !! k' = Some (s', (a, b)) ->
                     ~ ((a <= es)%Z /\ (ee <= b)%Z)) ->
  find_sentence es ee num l = (sent, (num + k)%nat, (es - ss)%Z, (ee - ss)%Z).
Proof.
  revert num k. induction l as [|[s' [a b]] l IH]; intros num [|k] Hk Hs He Hfirst;
    simpl in *; try discriminate.
  - injection Hk as -> -> ->.
    destruct (ss <=? es)%Z eqn:E1; [|apply Z.leb_gt in E1; lia].
    destruct (ee <=? se)%Z eqn:E2; [|apply Z.leb_gt in E2; lia].
    simpl. now rewrite Nat.add_0_r.
  - destruct ((a <=? es)%Z && (ee <=? b)%Z) eqn:E.
    + apply andb_true_iff in E as [E1 E2]. apply Z.leb_le in E1, E2.
      exfalso. apply (Hfirst 0%nat s' a b); [lia | reflexivity | lia].
    + rewrite (IH (S num) k Hk Hs He).
      * f_equal. f_equal. f_equal. lia.
      * intros k' s'' a' b' Hk' Hl. apply (Hfirst (S k') s'' a' b'); [lia | exact Hl].
Qed.

Lemma find_sentence_none (es ee : Z) (num : nat) (l : list (string * (Z * Z))) :
  (forall k s a b, l !! k = Some (s, (a, b)) -> ~ ((a <= es)%Z /\ (ee <= b)%Z)) ->
  find_sentence es ee num l = (EmptyString, 0%nat, 0%Z, 0%Z).
Proof.
  revert num. induction l as [|[s' [a b]] l IH]; intros num Hnone; simpl; [reflexivity|].
  destruct ((a <=? es)%Z && (ee <=? b)%Z) eqn:E.
  - apply andb_true_iff in E as [E1 E2]. apply Z.leb_le in E1, E2.
    exfalso. apply (Hnone 0%nat s' a b); [reflexivity | lia].
  - apply IH. intros k s a' b' Hl. apply (Hnone (S k) s a' b'). exact Hl.
Qed.

Lemma slice_nat (a b : nat) (s : string) :
  (a <= b)%nat ->
  PyStr.slice (Z.of_nat a) (Z.of_nat b) s
  = PyStr.of_chars (take (b - a) (drop a (PyStr.chars s))).
Proof. intros Hab. unfold PyStr.slice. now rewrite slice_list_nat. Qed.

Lemma window_parts {A} (l : list A) (a rs re b : nat) :
  (a <= rs)%nat -> (rs <= re)%nat -> (re <= b)%nat ->
  l = (take a l ++ take (rs - a) (drop a l) ++ take (re - rs) (drop rs l)
       ++ take (b - re) (drop re l) ++ drop b l)%list.
Proof.
  intros H1 H2 H3.
  rewrite <- (take_drop a l) at 1. f_equal.
  rewrite <- (take_drop (rs - a) (drop a l)) at 1. f_equal.
  rewrite drop_drop. replace (a + (rs - a))%nat with rs by lia.
  rewrite <- (take_drop (re - rs) (drop rs l)) at 1. f_equal.
  rewrite drop_drop. replace (rs + (re - rs))%nat with re by lia.
  rewrite <- (take_drop (b - re) (drop re l)) at 1. f_equal.
  rewrite drop_drop. f_equal. lia.
Qed.

Lemma of_chars_app (l1 l2 : list string) :
  PyStr.of_chars (l1 ++ l2) = PyStr.of_chars l1 ++ PyStr.of_chars l2.
Proof.
  unfold PyStr.of_chars. induction l1 as [|x l1 IH]; [reflexivity|].
  change ((x :: l1) ++ l2)%list with (x :: (l1 ++ l2))%list.
  rewrite !concat_nil_cons, IH. now rewrite string_app_assoc.
Qed.

(** X14.  The context handed to the reranker for a mention.  A mention whose
    offsets lie in no sentence span gets the empty context.  Otherwise the
    context is built from the first sentence whose span holds the mention:
    the mention (characters [rs], ..., [re - 1] of the sentence) is replaced
    by the marker, or wrapped in two markers when [include_mention] is set;
    a sentence longer than [max_text_len] keeps only [max_text_len // 2]
    characters on each side of the mention; in [full_paragraph] mode
    neighbouring sentences are added around it, joined by spaces. *)
Theorem make_context_marks_the_mention (self : EntityLinkerSep)
    (sentences_list : list string) (sentences_offsets_list : list (Z * Z))
    (entity_start_offset entity_end_offset : Z) :
  ((forall k s a b,
       combine sentences_list sentences_offsets_list !! k = Some (s, (a, b)) ->
       ~ ((a <= entity_start_offset)%Z /\ (entity_end_offset <= b)%Z)) ->
   make_context self sentences_list sentences_offsets_list
     (entity_start_offset, entity_end_offset) = EmptyString)
  /\ forall (k : nat) (sentence : string) (sent_start sent_end : Z) (rs re : nat),
       combine sentences_list sentences_offsets_list !! k
       = Some (sentence, (sent_start, sent_end)) ->
       (forall k' s a b, (k' < k)%nat ->
          combine sentences_list sentences_offsets_list !! k' = Some (s, (a, b)) ->
          ~ ((a <= entity_start_offset)%Z /\ (entity_end_offset <= b)%Z)) ->
       entity_start_offset = (sent_start + Z.of_nat rs)%Z ->
       entity_end_offset = (sent_start + Z.of_nat re)%Z ->
       (entity_end_offset <= sent_end)%Z ->
       sentence ≠ EmptyString ->
       (rs <= re)%nat -> (re <= PyStr.len sentence)%nat ->
       (0 <= max_text_len self)%Z ->
       let len := PyStr.len sentence in
       let h := Z.to_nat (max_text_len self / 2) in
       let long := (max_text_len self <? Z.of_nat len)%Z in
       let a := if long then (rs - h)%nat else 0%nat in
       let b := if long then Nat.min (re + h) len else len in
       let cs := PyStr.chars sentence in
       cs = (take a cs ++ take (rs - a) (drop a cs) ++ take (re - rs) (drop rs cs)
             ++ take (b - re) (drop re cs) ++ drop b cs)%list
       /\ exists first last,
            (first <= k)%nat /\ (k <= last)%nat /\ (last < length sentences_list)%nat
            /\ make_context self sentences_list sentences_offsets_list
                 (entity_start_offset, entity_end_offset)
               = if full_paragraph self
                 then PyStr.join " "
                        (segment sentences_list first k
                         ++ [marked_sentence self sentence a rs re b]
                         ++ segment sentences_list (S k) (S last))%list
                 else marked_sentence self sentence a rs re b.
Proof.
  split.
  - intros Hnone. unfold make_context. now rewrite find_sentence_none.
  - intros k sentence ss se rs re Hk Hfirst Hes Hee Hend Hne Hrs Hre Hmax len h long a b cs.
    assert (Hh : (0 <= max_text_len self / 2)%Z) by (apply Z.div_pos; lia).
    assert (Ha : (a <= rs)%nat) by (unfold a; destruct long; lia).
    assert (Hb : (re <= b)%nat) by (unfold b; destruct long; unfold len; lia).
    split; [now apply window_parts|].
    assert (Hklen : (k < length sentences_list)%nat).
    { apply lookup_lt_Some in Hk. rewrite length_combine in Hk. lia. }
    unfold make_context.
    assert (Hstart : (ss <= entity_start_offset)%Z) by lia.
    rewrite (find_sentence_first _ _ 0 _ k sentence ss se Hk Hstart Hend Hfirst).
    rewrite bool_decide_eq_false_2 by exact Hne.
    fold len. fold long.
    replace (entity_start_offset - ss)%Z with (Z.of_nat rs) by lia.
    replace (entity_end_offset - ss)%Z with (Z.of_nat re) by lia.
    assert (Hbounds :
              (if long
               then (Z.max (Z.of_nat rs - max_text_len self / 2) 0,
                     Z.min (Z.of_nat re + max_text_len self / 2) (Z.of_nat len))
               else (0%Z, Z.of_nat len))
              = (Z.of_nat a, Z.of_nat b)).
    { unfold a, b, h. destruct long; [|reflexivity]. f_equal; lia. }
    rewrite Hbounds.
    rewrite !slice_nat by assumption.
    assert (Hmarked :
              (if include_mention self
               then PyStr.of_chars (take (rs - a) (drop a (PyStr.chars sentence))) ++ "[ENT]"
                    ++ PyStr.of_chars (take (re - rs) (drop rs (PyStr.chars sentence)))
                    ++ "[ENT]"
                    ++ PyStr.of_chars (take (b - re) (drop re (PyStr.chars sentence)))
               else PyStr.of_chars (take (rs - a) (drop a (PyStr.chars sentence))) ++ "[ENT]"
                    ++ PyStr.of_chars (take (b - re) (drop re (PyStr.chars sentence))))
              = marked_sentence self sentence a rs re b).
    { unfold marked_sentence. destruct (include_mention self); [|reflexivity].
      now rewrite !string_app_assoc. }
    rewrite Hmarked.
    destruct (full_paragraph self).
    + destruct (extend_paragraph_spec self sentences_list
                  (marked_sentence self sentence a rs re b) k (length sentences_list)
                  (Z.of_nat (length (re_tokenizer self
                                       (marked_sentence self sentence a rs re b))))
                  k k) as (first & last & Hf & Hl & Hlen & Hrun); try lia.
      assert (Hinit : (segment sentences_list k k
                       ++ [marked_sentence self sentence a rs re b]
                       ++ segment sentences_list (S k) (S k))%list
                      = [marked_sentence self sentence a rs re b]).
      { unfold segment. now rewrite !Nat.sub_diag. }
      rewrite Hinit in Hrun. specialize (Hrun 1%nat).
      replace (length sentences_list + 1)%nat with (S (length sentences_list)) in Hrun
        by lia.
      exists first, last. split; [lia|]. split; [lia|]. split; [lia|].
      simpl Nat.add. now rewrite Hrun.
    + exists k, k. split; [lia|]. split; [lia|]. split; [lia | reflexivity].
Qed.

Lemma make_context_marks_the_mention_witness :
  make_context sample_linker ["moscow is big"] [(0, 13)%Z] (0, 6)%Z = "[ENT] is big".
Proof.
  destruct (proj2 (make_context_marks_the_mention sample_linker ["moscow is big"]
                     [(0, 13)%Z] 0 6)
              0%nat "moscow is big" 0%Z 13%Z 0%nat 6%nat)
    as (_ & first & last & _ & _ & _ & Hctx).
  - reflexivity.
  - intros k' s a b Hk'. lia.
  - reflexivity.
  - reflexivity.
  - lia.
  - discriminate.
  - lia.
  - vm_compute. lia.
  - simpl. lia.
  - exact Hctx.
Defined.

(** ** The assembler *)

Lemma extend_obj_twice {A} (r : nat) (more1 more2 : list A) (objs : list (list A)) :
  (r < length objs)%nat ->
  extend_obj r more2 (extend_obj r more1 objs) = extend_obj r (more1 ++ more2) objs.
Proof.
  intros Hr. unfold extend_obj.
  rewrite list_lookup_insert_eq by exact Hr. simpl.
  rewrite list_insert_insert_eq. now rewrite app_assoc.
Qed.

Lemma extend_obj_nil {A} (r : nat) (objs : list (list A)) :
  (r < length objs)%nat -> extend_obj r [] objs = objs.
Proof.
  intros Hr. unfold extend_obj. destruct (lookup_lt_is_Some_2 objs r Hr) as (x & Hx).
  rewrite Hx. simpl. rewrite app_nil_r. now apply list_insert_id.
Qed.

Lemma extend_obj_other {A} (r q : nat) (more : list A) (objs : list (list A)) :
  q ≠ r -> extend_obj r more objs !! q = objs !! q.
Proof. intros Hq. unfold extend_obj. apply list_lookup_insert_ne. congruence. Qed.

Lemma length_extend_obj {A} (r : nat) (more : list A) (objs : list (list A)) :
  length (extend_obj r more objs) = length objs.
Proof. unfold extend_obj. apply length_insert. Qed.

Lemma shifted_spans_ext (store store' : list (list (Z * Z))) (d : Z)
    (chunks : list ChunkItem) :
  (forall chunk, In chunk chunks ->
                 store' !! chunk_sentences_offsets chunk
                 = store !! chunk_sentences_offsets chunk) ->
  shifted_spans store' d chunks = shifted_spans store d chunks.
Proof.
  revert d. induction chunks as [|c cs IH]; intros d Hext; simpl; [reflexivity|].
  rewrite (Hext c) by now left. f_equal. apply IH. intros c' Hc'. apply Hext. now right.
Qed.

Lemma all_sentences_ext (store store' : list (list SentenceEntry))
    (chunks : list ChunkItem) :
  (forall chunk, In chunk chunks ->
                 store' !! chunk_sentences chunk = store !! chunk_sentences chunk) ->
  all_sentences store' chunks = all_sentences store chunks.
Proof.
  intros Hext. unfold all_sentences. f_equal. apply map_ext_in.
  intros c Hc. now rewrite (Hext c Hc).
Qed.

(** The chunks of one document, after the first: lines 152-159. *)
Lemma same_doc_run (chunks : list ChunkItem) (st : Assembled) :
  (forall chunk, In chunk chunks ->
     chunk_doc_num chunk = cur_doc_num st
     /\ chunk_sentences_offsets chunk ≠ doc_sentences_offsets st
     /\ chunk_sentences chunk ≠ doc_sentences st) ->
  (doc_sentences_offsets st < length (spans_store st))%nat ->
  (doc_sentences st < length (sents_store st))%nat ->
  fold_left assemble_chunk chunks st
  = {| doc_entity_substr_batch := doc_entity_substr_batch st;
       doc_tags_batch := doc_tags_batch st;
       doc_entity_offsets_batch := doc_entity_offsets_batch st;
       doc_sentences_offsets_batch := doc_sentences_offsets_batch st;
       doc_sentences_batch := doc_sentences_batch st;
       doc_entity_substr :=
         (doc_entity_substr st ++ concat (map chunk_entity_substr chunks))%list;
       doc_tags := (doc_tags st ++ concat (map chunk_tag chunks))%list;
       doc_entity_offsets :=
         (doc_entity_offsets st ++ shifted_offsets (text_len_sum st) chunks)%list;
       doc_sentences_offsets := doc_sentences_offsets st;
       doc_sentences := doc_sentences st;
       cur_doc_num := cur_doc_num st;
       text_len_sum := (text_len_sum st + total_text_len chunks)%Z;
       spans_store :=
         extend_obj (doc_sentences_offsets st)
           (shifted_spans (spans_store st) (text_len_sum st) chunks) (spans_store st);
       sents_store :=
         extend_obj (doc_sentences st) (all_sentences (sents_store st) chunks)
           (sents_store st) |}.
Proof.
  revert st. induction chunks as [|c cs IH]; intros st Hall Ho Hs.
  - simpl. unfold all_sentences. simpl.
    rewrite !app_nil_r, Z.add_0_r, !extend_obj_nil by assumption. now destruct st.
  - cbn [fold_left]. destruct (Hall c ltac:(now left)) as (Hnum & Hro & Hrs).
    unfold assemble_chunk at 2. rewrite Hnum, Nat.eqb_refl.
    rewrite IH; cbn [doc_entity_substr_batch doc_tags_batch doc_entity_offsets_batch
                       doc_sentences_offsets_batch doc_sentences_batch doc_entity_substr
                       doc_tags doc_entity_offsets doc_sentences_offsets doc_sentences
                       cur_doc_num text_len_sum spans_store sents_store].
    + rewrite (shifted_spans_ext (spans_store st)).
      2:{ intros c' Hc'. apply extend_obj_other.
          now destruct (Hall c' ltac:(now right)) as (_ & ? & _). }
      rewrite (all_sentences_ext (sents_store st)).
      2:{ intros c' Hc'. apply extend_obj_other.
          now destruct (Hall c' ltac:(now right)) as (_ & _ & ?). }
      rewrite !extend_obj_twice by assumption.
      cbn [map concat shifted_offsets shifted_spans total_text_len fold_right].
      unfold all_sentences. cbn [map concat].
      rewrite <- !app_assoc. f_equal. unfold total_text_len. lia.
    + intros c' Hc'. now apply (Hall c' ltac:(now right)).
    + now rewrite length_extend_obj.
    + now rewrite length_extend_obj.
Qed.

Lemma assemble_chunk_counts (st : Assembled) (c : ChunkItem) :
  let k := if (chunk_doc_num c =? cur_doc_num st)%nat then 0%nat else 1%nat in
  cur_doc_num (assemble_chunk st c) = chunk_doc_num c
  /\ length (doc_entity_substr_batch (assemble_chunk st c))
     = (length (doc_entity_substr_batch st) + k)%nat
  /\ length (doc_entity_offsets_batch (assemble_chunk st c))
     = (length (doc_entity_offsets_batch st) + k)%nat
  /\ length (doc_tags_batch (assemble_chunk st c)) = (length (doc_tags_batch st) + k)%nat
  /\ length (doc_sentences_offsets_batch (assemble_chunk st c))
     = (length (doc_sentences_offsets_batch st) + k)%nat
  /\ length (doc_sentences_batch (assemble_chunk st c))
     = (length (doc_sentences_batch st) + k)%nat.
Proof.
  unfold assemble_chunk. destruct (chunk_doc_num c =? cur_doc_num st)%nat eqn:E; simpl.
  - apply Nat.eqb_eq in E. rewrite !Nat.add_0_r. repeat split; congruence.
  - rewrite !length_app. simpl. repeat split; reflexivity.
Qed.

Lemma assemble_counts (chunks : list ChunkItem) (st : Assembled) :
  let st' := fold_left assemble_chunk chunks st in
  let more := doc_changes (cur_doc_num st) (map chunk_doc_num chunks) in
  length (doc_entity_substr_batch st') = (length (doc_entity_substr_batch st) + more)%nat
  /\ length (doc_entity_offsets_batch st') = (length (doc_entity_offsets_batch st) + more)%nat
  /\ length (doc_tags_batch st') = (length (doc_tags_batch st) + more)%nat
  /\ length (doc_sentences_offsets_batch st')
     = (length (doc_sentences_offsets_batch st) + more)%nat
  /\ length (doc_sentences_batch st') = (length (doc_sentences_batch st) + more)%nat.
Proof.
  revert st. induction chunks as [|c cs IH]; intros st; cbn [fold_left map doc_changes].
  - cbv zeta. rewrite !Nat.add_0_r. auto.
  - specialize (IH (assemble_chunk st c)). cbv zeta in *.
    destruct (assemble_chunk_counts st c) as (Hcur & H1 & H2 & H3 & H4 & H5).
    rewrite Hcur, H1, H2, H3, H4, H5 in IH. destruct IH as (I1 & I2 & I3 & I4 & I5).
    destruct (chunk_doc_num c =? cur_doc_num st)%nat eqn:E.
    + apply Nat.eqb_eq in E. rewrite <- E. repeat split; lia.
    + repeat split; lia.
Qed.

(** X15.  The assembler returns five lists of one length: one document more
    than the number of times the document number changes along the chunks,
    counted from 0.  So it returns one (empty) document when there is no
    chunk, and an empty first document when the first chunk does not belong
    to document 0. *)
Theorem assembler_document_count (chunks : list ChunkItem)
    (spans_store0 : list (list (Z * Z))) (sents_store0 : list (list SentenceEntry)) :
  let out := assemble chunks spans_store0 sents_store0 in
  let n := S (doc_changes 0 (map chunk_doc_num chunks)) in
  length (out_doc_entity_substr_batch out) = n
  /\ length (out_doc_entity_offsets_batch out) = n
  /\ length (out_doc_tags_batch out) = n
  /\ length (out_doc_sentences_offsets_batch out) = n
  /\ length (out_doc_sentences_batch out) = n.
Proof.
  cbv zeta. unfold assemble.
  match goal with
  | |- context [fold_left assemble_chunk chunks ?s0] =>
      destruct (assemble_counts chunks s0) as (H1 & H2 & H3 & H4 & H5)
  end.
  cbn [out_doc_entity_substr_batch out_doc_entity_offsets_batch out_doc_tags_batch
         out_doc_sentences_offsets_batch out_doc_sentences_batch].
  rewrite !length_app, H1, H2, H3, H4, H5. simpl. repeat split; lia.
Qed.

Lemma extend_obj_last {A} (objs : list (list A)) (old more : list A) :
  extend_obj (length objs) more (objs ++ [old]) = (objs ++ [old ++ more])%list.
Proof.
  unfold extend_obj. rewrite lookup_app_r by lia. rewrite Nat.sub_diag. simpl.
  rewrite insert_app_r_alt by lia. now rewrite Nat.sub_diag.
Qed.

(** X16.  When every chunk belongs to document 0, the assembler returns one
    document: its mentions and tags are those of the chunks, in order; the
    offsets of the mentions and the spans of the sentences of a chunk are
    moved by the lengths of the texts of the chunks before it, each counted
    with one more character; its sentences are those of the chunks.  The
    spans and the sentences are put in two new lists, and the lists of the
    caller are left as they were. *)
Theorem assembler_single_document (chunks : list ChunkItem)
    (spans_store0 : list (list (Z * Z))) (sents_store0 : list (list SentenceEntry)) :
  (forall chunk, In chunk chunks ->
     chunk_doc_num chunk = 0%nat
     /\ (chunk_sentences_offsets chunk < length spans_store0)%nat
     /\ (chunk_sentences chunk < length sents_store0)%nat) ->
  assemble chunks spans_store0 sents_store0
  = {| out_doc_entity_substr_batch := [concat (map chunk_entity_substr chunks)];
       out_doc_entity_offsets_batch := [shifted_offsets 0 chunks];
       out_doc_tags_batch := [concat (map chunk_tag chunks)];
       out_doc_sentences_offsets_batch := [length spans_store0];
       out_doc_sentences_batch := [length sents_store0];
       out_spans_store := (spans_store0 ++ [shifted_spans spans_store0 0 chunks])%list;
       out_sents_store := (sents_store0 ++ [all_sentences sents_store0 chunks])%list |}.
Proof.
  intros Hall. unfold assemble. rewrite same_doc_run.
  - cbn [doc_entity_substr_batch doc_tags_batch doc_entity_offsets_batch
           doc_sentences_offsets_batch doc_sentences_batch doc_entity_substr
           doc_tags doc_entity_offsets doc_sentences_offsets doc_sentences
           cur_doc_num text_len_sum spans_store sents_store].
    rewrite !extend_obj_last.
    rewrite (shifted_spans_ext spans_store0).
    2:{ intros c Hc. apply lookup_app_l. now destruct (Hall c Hc) as (_ & ? & _). }
    rewrite (all_sentences_ext sents_store0).
    2:{ intros c Hc. apply lookup_app_l. now destruct (Hall c Hc) as (_ & _ & ?). }
    reflexivity.
  - intros c Hc. destruct (Hall c Hc) as (Hnum & Ho & Hs). simpl.
    split; [exact Hnum|]. split; lia.
  - simpl. rewrite length_app. simpl. lia.
  - simpl. rewrite length_app. simpl. lia.
Qed.

(** The first chunk of another document and the chunks of that document
    after it: lines 160-172, then lines 152-159. *)
Lemma new_doc_run (chunk1 : ChunkItem) (chunks1 : list ChunkItem) (st : Assembled) :
  chunk_doc_num chunk1 ≠ cur_doc_num st ->
  (forall chunk, In chunk chunks1 ->
     chunk_doc_num chunk = chunk_doc_num chunk1
     /\ chunk_sentences_offsets chunk ≠ chunk_sentences_offsets chunk1
     /\ chunk_sentences chunk ≠ chunk_sentences chunk1) ->
  (chunk_sentences_offsets chunk1 < length (spans_store st))%nat ->
  (chunk_sentences chunk1 < length (sents_store st))%nat ->
  fold_left assemble_chunk (chunk1 :: chunks1) st
  = {| doc_entity_substr_batch :=
         (doc_entity_substr_batch st ++ [doc_entity_substr st])%list;
       doc_tags_batch := (doc_tags_batch st ++ [doc_tags st])%list;
       doc_entity_offsets_batch :=
         (doc_entity_offsets_batch st ++ [doc_entity_offsets st])%list;
       doc_sentences_offsets_batch :=
         (doc_sentences_offsets_batch st ++ [doc_sentences_offsets st])%list;
       doc_sentences_batch := (doc_sentences_batch st ++ [doc_sentences st])%list;
       doc_entity_substr :=
         (chunk_entity_substr chunk1 ++ concat (map chunk_entity_substr chunks1))%list;
       doc_tags := (chunk_tag chunk1 ++ concat (map chunk_tag chunks1))%list;
       doc_entity_offsets :=
         (chunk_entity_offsets chunk1 ++ shifted_offsets 0 chunks1)%list;
       doc_sentences_offsets := chunk_sentences_offsets chunk1;
       doc_sentences := chunk_sentences chunk1;
       cur_doc_num := chunk_doc_num chunk1;
       text_len_sum := (0 + total_text_len chunks1)%Z;
       spans_store :=
         extend_obj (chunk_sentences_offsets chunk1)
           (shifted_spans (spans_store st) 0 chunks1) (spans_store st);
       sents_store :=
         extend_obj (chunk_sentences chunk1) (all_sentences (sents_store st) chunks1)
           (sents_store st) |}.
Proof.
  intros Hnum H1 Ho1 Hs1. cbn [fold_left].
  assert (Hstep : assemble_chunk st chunk1
    = {| doc_entity_substr_batch :=
           (doc_entity_substr_batch st ++ [doc_entity_substr st])%list;
         doc_tags_batch := (doc_tags_batch st ++ [doc_tags st])%list;
         doc_entity_offsets_batch :=
           (doc_entity_offsets_batch st ++ [doc_entity_offsets st])%list;
         doc_sentences_offsets_batch :=
           (doc_sentences_offsets_batch st ++ [doc_sentences_offsets st])%list;
         doc_sentences_batch := (doc_sentences_batch st ++ [doc_sentences st])%list;
         doc_entity_substr := chunk_entity_substr chunk1;
         doc_tags := chunk_tag chunk1;
         doc_entity_offsets := chunk_entity_offsets chunk1;
         doc_sentences_offsets := chunk_sentences_offsets chunk1;
         doc_sentences := chunk_sentences chunk1;
         cur_doc_num := chunk_doc_num chunk1;
         text_len_sum := 0;
         spans_store := spans_store st;
         sents_store := sents_store st |}).
  { unfold assemble_chunk. now rewrite (proj2 (Nat.eqb_neq _ _) Hnum). }
  rewrite Hstep. rewrite same_doc_run; [reflexivity|exact H1|exact Ho1|exact Hs1].
Qed.

(** X17.  Chunks of document 0 followed by the chunks of another document.
    The second document is built on the lists of its first chunk: its
    spans and its sentences are the list objects of the caller for that
    chunk, extended in place with those of the chunks that follow.  The
    offsets of the first chunk are kept as they are, and the length of its
    text is not counted: the offsets of the second chunk are not moved, and
    those of a later chunk are moved by the lengths of the chunks from the
    second one on. *)
Theorem assembler_second_document (chunks0 : list ChunkItem) (chunk1 : ChunkItem)
    (chunks1 : list ChunkItem)
    (spans_store0 : list (list (Z * Z))) (sents_store0 : list (list SentenceEntry)) :
  (forall chunk, In chunk chunks0 ->
     chunk_doc_num chunk = 0%nat
     /\ (chunk_sentences_offsets chunk < length spans_store0)%nat
     /\ (chunk_sentences chunk < length sents_store0)%nat) ->
  chunk_doc_num chunk1 ≠ 0%nat ->
  (chunk_sentences_offsets chunk1 < length spans_store0)%nat ->
  (chunk_sentences chunk1 < length sents_store0)%nat ->
  (forall chunk, In chunk chunks1 ->
     chunk_doc_num chunk = chunk_doc_num chunk1
     /\ chunk_sentences_offsets chunk ≠ chunk_sentences_offsets chunk1
     /\ chunk_sentences chunk ≠ chunk_sentences chunk1
     /\ (chunk_sentences_offsets chunk < length spans_store0)%nat
     /\ (chunk_sentences chunk < length sents_store0)%nat) ->
  assemble (chunks0 ++ chunk1 :: chunks1) spans_store0 sents_store0
  = {| out_doc_entity_substr_batch :=
         [concat (map chunk_entity_substr chunks0);
          (chunk_entity_substr chunk1 ++ concat (map chunk_entity_substr chunks1))%list];
       out_doc_entity_offsets_batch :=
         [shifted_offsets 0 chunks0;
          (chunk_entity_offsets chunk1 ++ shifted_offsets 0 chunks1)%list];
       out_doc_tags_batch :=
         [concat (map chunk_tag chunks0);
          (chunk_tag chunk1 ++ concat (map chunk_tag chunks1))%list];
       out_doc_sentences_offsets_batch :=
         [length spans_store0; chunk_sentences_offsets chunk1];
       out_doc_sentences_batch := [length sents_store0; chunk_sentences chunk1];
       out_spans_store :=
         extend_obj (chunk_sentences_offsets chunk1) (shifted_spans spans_store0 0 chunks1)
           (spans_store0 ++ [shifted_spans spans_store0 0 chunks0])%list;
       out_sents_store :=
         extend_obj (chunk_sentences chunk1) (all_sentences sents_store0 chunks1)
           (sents_store0 ++ [all_sentences sents_store0 chunks0])%list |}.
Proof.
  intros H0 Hnum Ho1 Hs1 H1. unfold assemble.
  rewrite fold_left_app. rewrite (same_doc_run chunks0).
  2:{ intros c Hc. destruct (H0 c Hc) as (Hn & Ho & Hs). simpl.
      split; [exact Hn|]. split; lia. }
  2:{ simpl. rewrite length_app. simpl. lia. }
  2:{ simpl. rewrite length_app. simpl. lia. }
  rewrite new_doc_run.
  2:{ exact Hnum. }
  2:{ intros c Hc. destruct (H1 c Hc) as (Hn & Ho & Hs & _). auto. }
  2:{ simpl. rewrite length_extend_obj, length_app. simpl. lia. }
  2:{ simpl. rewrite length_extend_obj, length_app. simpl. lia. }
  cbn [doc_entity_substr_batch doc_tags_batch doc_entity_offsets_batch
         doc_sentences_offsets_batch doc_sentences_batch doc_entity_substr
         doc_tags doc_entity_offsets doc_sentences_offsets doc_sentences
         cur_doc_num text_len_sum spans_store sents_store].
  rewrite !extend_obj_last.
  rewrite (shifted_spans_ext spans_store0 (spans_store0 ++ [[]]) 0 chunks0).
  2:{ intros c Hc. apply lookup_app_l. now destruct (H0 c Hc) as (_ & ? & _). }
  rewrite (all_sentences_ext sents_store0 (sents_store0 ++ [[]]) chunks0).
  2:{ intros c Hc. apply lookup_app_l. now destruct (H0 c Hc) as (_ & _ & ?). }
  rewrite (shifted_spans_ext spans_store0 (spans_store0 ++ _) 0 chunks1).
  2:{ intros c Hc. apply lookup_app_l. now destruct (H1 c Hc) as (_ & _ & _ & ? & _). }
  rewrite (all_sentences_ext sents_store0 (sents_store0 ++ _) chunks1).
  2:{ intros c Hc. apply lookup_app_l. now destruct (H1 c Hc) as (_ & _ & _ & _ & ?). }
  reflexivity.
Qed.

Lemma assembler_single_document_witness :
  out_doc_entity_offsets_batch (assemble sample_chunks sample_spans_store sample_sents_store)
  = [[(0, 6)%Z; (38, 43)%Z]].
Proof.
  rewrite (assembler_single_document sample_chunks sample_spans_store sample_sents_store).
  - reflexivity.
  - intros c [<- | [<- | []]]; simpl; repeat split; lia.
Defined.

Lemma assembler_second_document_witness :
  out_doc_entity_offsets_batch
    (assemble (sample_chunks ++ sample_first_later_chunk :: sample_later_chunks)
       sample_spans_store sample_sents_store)
  = [[(0, 6)%Z; (38, 43)%Z]; [(0, 5)%Z; (9, 13)%Z]].
Proof.
  rewrite (assembler_second_document sample_chunks sample_first_later_chunk
             sample_later_chunks sample_spans_store sample_sents_store).
  - reflexivity.
  - intros c [<- | [<- | []]]; simpl; repeat split; lia.
  - discriminate.
  - simpl. lia.
  - simpl. lia.
  - intros c [<- | []]; simpl; repeat split; lia.
Defined.

(** ** [NerChunkModel.__call__]: parallel results *)

Lemma chunk_entities_parallel (pos_tags : list (string * list Z * string))
    (ner_tokens_offsets_list : list (Z * Z))
    (entity_substr_list : list string) (entity_offsets_list : list (Z * Z))
    (tags_list : list string) :
  chunk_entities pos_tags ner_tokens_offsets_list
  = Ok (entity_substr_list, entity_offsets_list, tags_list) ->
  length tags_list = length entity_substr_list
  /\ length entity_offsets_list = length entity_substr_list.
Proof.
  unfold chunk_entities. destruct (is_empty pos_tags).
  - intros [= <- <- <-]. auto.
  - intros Hr. apply bind_ok in Hr as (offs & Hoffs & [= <- <- <-]).
    apply map_res_length in Hoffs. rewrite !length_map. auto.
Qed.

Lemma detect_batch_parallel {P U} `{PyRuntime} (self : NerChunkModel P U)
    (text_batch : list string)
    (entity_substr_batch tags_batch : list (list string))
    (entity_offsets_batch : list (list (Z * Z))) (text_len_batch : list Z) :
  detect_batch self text_batch
  = Ok (entity_substr_batch, tags_batch, entity_offsets_batch, text_len_batch) ->
  Forall2 (fun ms ts => length ts = length ms) entity_substr_batch tags_batch
  /\ Forall2 (fun (ms : list string) (os : list (Z * Z)) => length os = length ms)
       entity_substr_batch entity_offsets_batch.
Proof.
  unfold detect_batch.
  destruct (ner self text_batch) as [[ner_tokens_batch ner_tokens_offsets_batch] probas].
  destruct (ner_parser self ner_tokens_batch probas) as [[substr_dicts u] positions].
  intros Hr. apply bind_ok in Hr as (pos_tags_batch & _ & Hr).
  apply bind_ok in Hr as (chunks & Hchunks & [= <- <- <- <-]).
  assert (Hall : List.Forall (fun c : list string * list (Z * Z) * list string =>
                                length c.2 = length c.1.1
                                /\ length c.1.2 = length c.1.1) chunks).
  { apply List.Forall_forall. intros [[a b] c] Hin.
    destruct (map_res_In _ _ _ _ Hchunks Hin) as ([pt offs] & _ & Hc).
    simpl. now apply (chunk_entities_parallel pt offs). }
  clear Hchunks. induction Hall as [|c chunks [Hc1 Hc2] _ [IH1 IH2]]; simpl.
  - split; constructor.
  - split; constructor; assumption.
Qed.

Lemma assemble_chunk_parallel (st : Assembled) (chunk : ChunkItem) :
  assembled_parallel st -> chunk_parallel chunk ->
  assembled_parallel (assemble_chunk st chunk).
Proof.
  intros (H1 & H2 & H3 & H4 & H5 & H6) (C1 & C2). unfold assemble_chunk, assembled_parallel.
  destruct (chunk_doc_num chunk =? cur_doc_num st)%nat; simpl.
  - unfold shift. rewrite !length_app, length_map. repeat split; try assumption; lia.
  - rewrite !length_app. simpl. repeat split; try assumption; try lia.
    + apply Forall2_app; [assumption|]. constructor; [assumption|constructor].
    + apply Forall2_app; [assumption|]. constructor; [assumption|constructor].
Qed.

Lemma assemble_parallel (chunks : list ChunkItem)
    (spans_store0 : list (list (Z * Z))) (sents_store0 : list (list SentenceEntry)) :
  List.Forall chunk_parallel chunks ->
  let out := assemble chunks spans_store0 sents_store0 in
  Forall2 (fun ms ts => length ts = length ms)
    (out_doc_entity_substr_batch out) (out_doc_tags_batch out)
  /\ Forall2 (fun (ms : list string) (os : list (Z * Z)) => length os = length ms)
       (out_doc_entity_substr_batch out) (out_doc_entity_offsets_batch out)
  /\ length (out_doc_sentences_offsets_batch out) = length (out_doc_entity_substr_batch out)
  /\ length (out_doc_sentences_batch out) = length (out_doc_entity_substr_batch out).
Proof.
  intros Hall. cbv zeta. unfold assemble.
  match goal with
  | |- context [fold_left assemble_chunk chunks ?s0] =>
      assert (Hinv : assembled_parallel (fold_left assemble_chunk chunks s0))
  end.
  { match goal with
    | |- assembled_parallel (fold_left _ _ ?s0) =>
        assert (H0 : assembled_parallel s0) by (repeat split; constructor);
        generalize dependent s0
    end.
    induction Hall as [|c cs Hc _ IH]; intros s0 H0; simpl; [exact H0|].
    apply IH. now apply assemble_chunk_parallel. }
  destruct Hinv as (H1 & H2 & H3 & H4 & H5 & H6). simpl.
  rewrite !length_app. simpl. repeat split; try lia.
  - apply Forall2_app; [assumption|]. constructor; [assumption|constructor].
  - apply Forall2_app; [assumption|]. constructor; [assumption|constructor].
Qed.

Lemma batch_items_parallel
    (entity_substr_batch tags_batch : list (list string))
    (entity_offsets_batch : list (list (Z * Z)))
    (sentences_offsets_batch sentences_batch : list nat) (text_len_batch : list Z)
    (nums_batch : list nat) :
  Forall2 (fun ms ts => length ts = length ms) entity_substr_batch tags_batch ->
  Forall2 (fun (ms : list string) (os : list (Z * Z)) => length os = length ms)
    entity_substr_batch entity_offsets_batch ->
  List.Forall chunk_parallel
    (batch_items (entity_substr_batch, tags_batch, entity_offsets_batch,
                  sentences_offsets_batch, sentences_batch, text_len_batch, nums_batch)).
Proof.
  intros Ht Ho. unfold batch_items. apply List.Forall_forall. intros chunk Hin.
  apply in_map_iff in Hin as ([[[[[[ms ts] os] so] se] tl] dn] & <- & Hin).
  apply list_elem_of_In, list_elem_of_lookup_1 in Hin as (i & Hi).
  apply lookup_combine in Hi as (Hi & _). apply lookup_combine in Hi as (Hi & _).
  apply lookup_combine in Hi as (Hi & _). apply lookup_combine in Hi as (Hi & _).
  apply lookup_combine in Hi as (Hi & Hos). apply lookup_combine in Hi as (Hms & Hts).
  simpl in *. split; simpl.
  - exact (Forall2_lookup_lr _ _ _ _ _ _ Ht Hms Hts).
  - exact (Forall2_lookup_lr _ _ _ _ _ _ Ho Hms Hos).
Qed.

(** X18.  Whenever [NerChunkModel.__call__] returns, its five results have one
    entry per assembled document, and every document has as many tags and
    as many offsets as mentions, whatever the models return and however the
    chunks are numbered: its results can be zipped as [link_entities] zips
    them. *)
Theorem assembled_documents_parallel {P U} `{PyRuntime} (self : NerChunkModel P U)
    (text_batch_list : list (list string)) (nums_batch_list : list (list nat))
    (sentences_offsets_batch_list sentences_batch_list : list (list nat))
    (spans_store0 : list (list (Z * Z))) (sents_store0 : list (list SentenceEntry))
    (out : AssemblerOutput) :
  NerChunkModel_call self text_batch_list nums_batch_list sentences_offsets_batch_list
    sentences_batch_list spans_store0 sents_store0 = Ok out ->
  Forall2 (fun ms ts => length ts = length ms)
    (out_doc_entity_substr_batch out) (out_doc_tags_batch out)
  /\ Forall2 (fun (ms : list string) (os : list (Z * Z)) => length os = length ms)
       (out_doc_entity_substr_batch out) (out_doc_entity_offsets_batch out)
  /\ length (out_doc_sentences_offsets_batch out) = length (out_doc_entity_substr_batch out)
  /\ length (out_doc_sentences_batch out) = length (out_doc_entity_substr_batch out).
Proof.
  unfold NerChunkModel_call. intros Hr.
  apply bind_ok in Hr as (detected & Hdet & [= <-]).
  apply assemble_parallel.
  apply List.Forall_forall. intros chunk Hin.
  apply in_concat in Hin as (items & Hitems & Hin).
  apply in_map_iff in Hitems as ([[[[[[msb tsb] osb] sob] seb] tlb] dnb] & <- & Hb).
  apply list_elem_of_In, list_elem_of_lookup_1 in Hb as (i & Hi).
  apply lookup_combine in Hi as (Hi & _). apply lookup_combine in Hi as (Hi & _).
  apply lookup_combine in Hi as (Hi & _). apply lookup_combine in Hi as (Hi & _).
  apply lookup_combine in Hi as (Hi & Hos). apply lookup_combine in Hi as (Hms & Hts).
  simpl in Hms, Hts, Hos.
  rewrite list_lookup_fmap in Hms. rewrite list_lookup_fmap in Hts.
  rewrite list_lookup_fmap in Hos.
  destruct (detected !! i) as [[[[a b] c] d]|] eqn:Hd; simpl in *; [|discriminate].
  injection Hms as <-. injection Hts as <-. injection Hos as <-.
  apply list_elem_of_lookup_2, list_elem_of_In in Hd.
  destruct (map_res_In _ _ _ _ Hdet Hd) as ([[text_batch so] se] & _ & Hdb).
  destruct (detect_batch_parallel self text_batch a b c d Hdb) as (Ht & Ho).
  revert chunk Hin. apply List.Forall_forall. now apply batch_items_parallel.
Qed.

Lemma assembled_documents_parallel_witness :
  exists out,
    NerChunkModel_call (H := sample_runtime) sample_ner_model
      [["москва - столица россии."; "она стоит на реке."]; ["москва - столица."]]
      [[0; 0]%nat; [1]%nat] [[0; 1]%nat; [2]%nat] [[0; 1]%nat; [2]%nat]
      sample_spans_store sample_sents_store = Ok out
    /\ out_doc_entity_substr_batch out = [["москва"; "москва"]; ["москва"]]
    /\ Forall2 (fun ms ts => length ts = length ms)
         (out_doc_entity_substr_batch out) (out_doc_tags_batch out).
Proof.
  eexists. split; [reflexivity|]. split; [vm_compute; reflexivity|].
  apply (assembled_documents_parallel (H := sample_runtime) sample_ner_model
           [["москва - столица россии."; "она стоит на реке."]; ["москва - столица."]]
           [[0; 0]%nat; [1]%nat] [[0; 1]%nat; [2]%nat] [[0; 1]%nat; [2]%nat]
           sample_spans_store sample_sents_store).
  reflexivity.
Defined.

(** ** The lookup policy: what the scan records *)

Lemma normal_of_ok (self : EntityLinkerSep) (word : string) :
  morph_total self -> morph_parse self word = Ok (normal_of self word).
Proof. intros Hm. unfold normal_of. destruct (Hm word) as (w & ->). reflexivity. Qed.

Lemma absent_forms_app (self : EntityLinkerSep) (l1 l2 : list string) :
  absent_forms self (l1 ++ l2) = (absent_forms self l1 ++ absent_forms self l2)%list.
Proof. apply List.filter_app. Qed.

(** The scan of the words of a mention (lines 451-473) sends the forms that
    the index does not have to the search, in reading order, keeps the
    others, and records one item for every form. *)
Lemma scan_words_explicit (self : EntityLinkerSep) (doc_num i : nat) (tag : string)
    (words : list string) (nf : list (string * nat)) (wc : nat) (d : WordScan) :
  morph_total self -> aligned d ->
  exists d',
    for_each (scan_word self doc_num i tag) words (nf, wc, d)
    = Ok ((nf ++ map (fun w => (w, doc_num))
                   (absent_forms self (mention_forms self words)))%list,
          (wc + length words)%nat, d')
    /\ aligned d'
    /\ scan_items d' = (scan_items d ++ word_items self i tag wc words)%list
    /\ fnd_words d'
       = (fnd_words d ++ List.filter (in_index self) (mention_forms self words))%list.
Proof.
  intros Hm. revert nf wc d. induction words as [|word words IH]; intros nf wc d Hal.
  - exists d. simpl. rewrite !app_nil_r, Nat.add_0_r. auto.
  - cbn [for_each]. rewrite scan_word_forms, (normal_of_ok self word Hm).
    cbn [mbind res_bind].
    destruct (fold_push_form_spec self doc_num i wc tag
                (lookup_forms word (normal_of self word)) nf d Hal)
      as (d1 & -> & Hal1 & Hit1 & Hf1).
    cbn [mbind res_bind].
    destruct (IH (nf ++ map (fun w => (w, doc_num))
                          (List.filter (fun w => negb (in_index self w))
                             (lookup_forms word (normal_of self word))))%list
                (S wc) d1 Hal1) as (d' & -> & Hal' & Hit' & Hf').
    exists d'. split.
    + f_equal. apply (f_equal2 pair); [apply (f_equal2 pair)|reflexivity].
      * unfold mention_forms. cbn [map concat]. rewrite absent_forms_app, map_app.
        now rewrite <- app_assoc.
      * simpl. lia.
    + split; [exact Hal'|]. split.
      * rewrite Hit', Hit1. cbn [word_items]. now rewrite <- app_assoc.
      * rewrite Hf', Hf1. unfold mention_forms. cbn [map concat].
        now rewrite List.filter_app, <- app_assoc.
Qed.

Lemma scan_mentions_explicit (self : EntityLinkerSep) (doc_num : nat)
    (doc : list (list string * string)) (i : nat)
    (nf : list (string * nat)) (wc : nat) (d : WordScan) :
  morph_total self -> aligned d ->
  exists d',
    for_each
      (fun st '(i, (entity_substr, tag)) =>
         for_each (scan_word self doc_num i tag) entity_substr st)
      (enumerate_from i doc) (nf, wc, d)
    = Ok ((nf ++ map (fun w => (w, doc_num))
                   (absent_forms self (doc_forms self (map fst doc))))%list,
          (wc + length (concat (map fst doc)))%nat, d')
    /\ aligned d'
    /\ scan_items d' = (scan_items d ++ mention_items self i wc doc)%list
    /\ fnd_words d'
       = (fnd_words d ++ List.filter (in_index self) (doc_forms self (map fst doc)))%list.
Proof.
  intros Hm. revert i nf wc d. induction doc as [|[words tag] doc IH]; intros i nf wc d Hal.
  - exists d. simpl. rewrite !app_nil_r, Nat.add_0_r. auto.
  - cbn [enumerate_from for_each].
    destruct (scan_words_explicit self doc_num i tag words nf wc d Hm Hal)
      as (d1 & -> & Hal1 & Hit1 & Hf1).
    cbn [mbind res_bind].
    destruct (IH (S i) (nf ++ map (fun w => (w, doc_num))
                                (absent_forms self (mention_forms self words)))%list
                (wc + length words)%nat d1 Hal1) as (d' & -> & Hal' & Hit' & Hf').
    exists d'. split.
    + f_equal. apply (f_equal2 pair); [apply (f_equal2 pair)|reflexivity].
      * unfold doc_forms. cbn [map concat fst]. rewrite absent_forms_app, map_app.
        now rewrite <- app_assoc.
      * cbn [map concat fst]. rewrite length_app. lia.
    + split; [exact Hal'|]. split.
      * rewrite Hit', Hit1. cbn [mention_items]. now rewrite <- app_assoc.
      * rewrite Hf', Hf1. unfold doc_forms. cbn [map concat fst].
        now rewrite List.filter_app, <- app_assoc.
Qed.

Lemma aligned_empty : aligned empty_scan.
Proof. repeat split. Qed.

(** The scan of a document records the items of [mention_items]. *)
Lemma scan_doc_explicit (self : EntityLinkerSep) (doc_num : nat)
    (words_list : list (list string)) (tags_list : list string)
    (nf : list (string * nat)) (wc : nat) (scans : list WordScan) :
  morph_total self ->
  let doc := combine words_list tags_list in
  exists d,
    scan_doc self (nf, wc, scans) (doc_num, (words_list, tags_list))
    = Ok ((nf ++ map (fun w => (w, doc_num))
                   (absent_forms self (doc_forms self (map fst doc))))%list,
          (wc + length (concat (map fst doc)))%nat, (scans ++ [d])%list)
    /\ scan_of self wc doc d.
Proof.
  intros Hm doc. unfold scan_doc.
  destruct (scan_mentions_explicit self doc_num doc 0 nf wc empty_scan Hm aligned_empty)
    as (d & Hrun & Hal & Hit & Hf).
  fold doc. rewrite Hrun. cbn [mbind res_bind]. exists d. split; [reflexivity|].
  split; [exact Hal|]. split; [exact Hit | exact Hf].
Qed.

(** ** The lookup policy: candidate generation *)

Lemma with_before_cons {A} (forms : A -> list string) (before : list string) (x : A)
    (l : list A) :
  with_before forms before (x :: l) = (before, x) :: with_before forms (before ++ forms x) l.
Proof. reflexivity. Qed.

Lemma set_set {K V} `{EqDecision K} (d : list (K * V)) (k : K) (v v' : V) :
  PyDict.set (PyDict.set d k v) k v' = PyDict.set d k v'.
Proof.
  induction d as [|[k0 v0] d IH]; simpl.
  - destruct (decide (k = k)); [reflexivity|congruence].
  - destruct (decide (k = k0)) as [->|Hne]; simpl.
    + destruct (decide (k0 = k0)); [reflexivity|congruence].
    + destruct (decide (k = k0)); [congruence|]. now rewrite IH.
Qed.

Lemma mem_set {K V} `{EqDecision K} (d : list (K * V)) (k : K) (v : V) :
  PyDict.mem (PyDict.set d k v) k = true.
Proof. unfold PyDict.mem. now rewrite get_set_eq. Qed.

Lemma get_flush (d : list (nat * list (string * Z * Q))) (k : nat)
    (a : list (string * Z * Q)) :
  PyDict.get (flush d k a) k = Some (default [] (PyDict.get d k) ++ a)%list.
Proof.
  unfold flush. destruct (PyDict.mem d k) eqn:E; rewrite get_set_eq; [reflexivity|].
  rewrite get_set_eq. unfold PyDict.mem in E.
  destruct (PyDict.get d k); [discriminate|reflexivity].
Qed.

Lemma flush_flush (d : list (nat * list (string * Z * Q))) (k : nat)
    (a b : list (string * Z * Q)) :
  flush (flush d k a) k b = flush d k (a ++ b).
Proof.
  unfold flush at 1. cbv zeta.
  assert (Hmem : PyDict.mem (flush d k a) k = true)
    by (unfold PyDict.mem; now rewrite get_flush).
  rewrite Hmem, get_flush. simpl. unfold flush. rewrite set_set. rewrite <- app_assoc.
  destruct (PyDict.mem d k) eqn:E; [reflexivity|].
  rewrite get_set_eq. unfold PyDict.mem in E.
  destruct (PyDict.get d k); [discriminate|reflexivity].
Qed.

Lemma flush_nil_twice (k : nat) (c : list (string * Z * Q)) :
  flush (flush [] k []) k c = flush [] k c.
Proof. rewrite flush_flush. reflexivity. Qed.

Lemma filter_lookup_next {A} (p : A -> bool) (l1 l2 : list A) (x : A) :
  p x = true ->
  List.filter p (l1 ++ x :: l2) !! length (List.filter p l1) = Some x.
Proof.
  intros Hp. rewrite List.filter_app. rewrite lookup_app_r by lia.
  rewrite Nat.sub_diag. simpl. now rewrite Hp.
Qed.

Lemma filter_snoc_length {A} (p : A -> bool) (l : list A) (x : A) :
  length (List.filter p (l ++ [x]))
  = (length (List.filter p l) + if p x then 1 else 0)%nat.
Proof. rewrite List.filter_app, length_app. simpl. destruct (p x); reflexivity. Qed.

Lemma set_absent {K V} `{EqDecision K} (d : list (K * V)) (k : K) (v : V) :
  ~ In k (PyDict.keys d) -> PyDict.set d k v = (d ++ [(k, v)])%list.
Proof.
  induction d as [|[k0 v0] d IH]; simpl; intros Hk; [reflexivity|].
  destruct (decide (k = k0)) as [->|Hne]; [exfalso; apply Hk; now left|].
  rewrite IH; [reflexivity|]. intros Hin. apply Hk. now right.
Qed.

Lemma flush_new (d : list (nat * list (string * Z * Q))) (i : nat)
    (C : list (string * Z * Q)) :
  PyDict.keys d = seq 0 i -> flush d i C = (d ++ [(i, C)])%list.
Proof.
  intros Hkeys.
  assert (Hnot : ~ In i (PyDict.keys d)).
  { rewrite Hkeys. intros Hin. apply in_seq in Hin. destruct Hin as [_ Hin].
    simpl in Hin. exact (Nat.lt_irrefl _ Hin). }
  assert (Hmem : PyDict.mem d i = false).
  { destruct (PyDict.mem d i) eqn:E; [|reflexivity]. apply mem_keys in E. contradiction. }
  unfold flush. rewrite Hmem, get_set_eq, set_set. simpl. now apply set_absent.
Qed.

(** Appending the candidates of the mentions [i], [i + 1], ... to a
    dictionary without these keys adds them as new keys, in order. *)
Lemma flush_all_seq (Cs : list (list (string * Z * Q))) (i : nat)
    (d : list (nat * list (string * Z * Q))) :
  PyDict.keys d = seq 0 i ->
  flush_all d (combine (seq i (length Cs)) Cs) = (d ++ combine (seq i (length Cs)) Cs)%list.
Proof.
  revert i d. induction Cs as [|C Cs IH]; intros i d Hkeys; simpl.
  - now rewrite app_nil_r.
  - unfold flush_all in *. simpl. rewrite (flush_new d i C Hkeys).
    rewrite IH.
    + now rewrite <- app_assoc.
    + unfold PyDict.keys in *. rewrite map_app, Hkeys. cbn [map fst].
      change [i] with (seq i 1). rewrite <- seq_app. now rewrite Nat.add_1_r.
Qed.

Lemma length_with_before {A} (forms : A -> list string) (before : list string) (l : list A) :
  length (with_before forms before l) = length l.
Proof. revert before. induction l as [|x l IH]; intros before; simpl; [|rewrite IH]; reflexivity. Qed.

(** The loop of lines 527-577 over the items of a document.  [D] and [I']
    are the rows of the document, [pre] the forms read before it and [all]
    the forms of the document. *)
Section Collect.
Context `{PyRuntime} (self : EntityLinkerSep).
Variables (D_all : list (list Q)) (I_all : list (list Z)).
Variables (D : list (list Q)) (I' : list (list Z)).
Variables (pre all : list string).
Hypothesis HD : forall r x, D !! r = Some x ->
                            D_all !! (length (absent_forms self pre) + r)%nat = Some x.
Hypothesis HI : forall r x, I' !! r = Some x ->
                            I_all !! (length (absent_forms self pre) + r)%nat = Some x.

(** Lines 535-544 on the item of a form give the neighbours of the
    policy. *)
Lemma neighbours_policy (before after : list string) (form : string)
    (st : ItemState) (ind_list : list (string + Z)) (scores_list : list Q) (wi ii : nat) :
  all = (before ++ form :: after)%list ->
  counters_at self before st ->
  neighbours self D I' (List.filter (in_index self) all) (in_index self form) (words_i st) (ind_i st)
  = Ok (ind_list, scores_list, wi, ii) ->
  combine ind_list scores_list
  = policy_neighbours self D_all I_all (pre ++ before) form
  /\ wi = length (List.filter (in_index self) (before ++ [form]))
  /\ ii = length (absent_forms self (before ++ [form])).
Proof.
  intros Hall (Hw & Hi) Hn. unfold neighbours in Hn. unfold policy_neighbours.
  unfold absent_forms in *. rewrite !filter_snoc_length.
  destruct (in_index self form) eqn:Hin; simpl.
  - apply bind_ok in Hn as (word & Hword & [= <- <- <- <-]).
    apply getitem_nat_inv in Hword. rewrite Hw in Hword.
    rewrite Hall in Hword.
    rewrite filter_lookup_next in Hword by exact Hin. injection Hword as <-.
    split; [reflexivity|]. split; lia.
  - apply bind_ok in Hn as (scores & Hscores & Hn).
    apply bind_ok in Hn as (inds & Hinds & [= <- <- <- <-]).
    apply getitem_nat_inv in Hscores, Hinds.
    apply HD in Hscores. apply HI in Hinds. rewrite Hi in Hscores, Hinds.
    rewrite List.filter_app, length_app.
    rewrite (nth_lookup_Some _ _ _ _ Hscores), (nth_lookup_Some _ _ _ _ Hinds).
    split; [reflexivity|]. split; lia.
Qed.

Lemma item_policy (before after : list string) (form : string) (i wc : nat) (tag : string)
    (st st' : ItemState) :
  all = (before ++ form :: after)%list ->
  counters_at self before st ->
  item_step self D I' (List.filter (in_index self) all) st (i, wc, tag, in_index self form) = Ok st' ->
  prev_index st' = i /\ prev_word_count st' = wc /\ index st' = Some i
  /\ counters_at self (before ++ [form]) st'
  /\ candidate_entities_dict st'
     = (if bool_decide (wc ≠ prev_word_count st)
        then flush (candidate_entities_dict st) (prev_index st) (candidate_entities st)
        else candidate_entities_dict st)
  /\ for_each (add_neighbour self tag)
       (policy_neighbours self D_all I_all (pre ++ before) form)
       (if bool_decide (wc ≠ prev_word_count st) then [] else candidate_entities st)
     = Ok (candidate_entities st').
Proof.
  intros Hall Hc Hstep.
  destruct (item_step_inv self D I' (List.filter (in_index self) all) st st' _ Hstep)
    as (Hpi & Hpw & Hidx & ind_list & scores_list & Hn & Hd & Hcands).
  unfold item_index, item_wc, item_tag, item_flag in *. simpl in *.
  destruct (neighbours_policy before after form st ind_list scores_list _ _ Hall Hc Hn)
    as (Hcomb & Hw & Hi).
  rewrite Hcomb in Hcands.
  repeat split; assumption.
Qed.

Lemma forms_neighbours_cons (before : list string) (form : string) (forms : list string) :
  forms_neighbours self D_all I_all before (form :: forms)
  = (policy_neighbours self D_all I_all before form
     ++ forms_neighbours self D_all I_all (before ++ [form]) forms)%list.
Proof. reflexivity. Qed.

Lemma forms_tail (forms before after : list string) (i wc : nat) (tag : string)
    (st st' : ItemState) :
  all = (before ++ forms ++ after)%list ->
  counters_at self before st ->
  prev_word_count st = wc -> prev_index st = i -> index st = Some i ->
  for_each (item_step self D I' (List.filter (in_index self) all))
    (map (fun form => (i, wc, tag, in_index self form)) forms) st = Ok st' ->
  prev_index st' = i /\ prev_word_count st' = wc /\ index st' = Some i
  /\ counters_at self (before ++ forms) st'
  /\ candidate_entities_dict st' = candidate_entities_dict st
  /\ for_each (add_neighbour self tag)
       (forms_neighbours self D_all I_all (pre ++ before) forms) (candidate_entities st)
     = Ok (candidate_entities st').
Proof.
  revert before st. induction forms as [|form forms IH]; intros before st Hall Hc Hw Hi Hx Hrun.
  - simpl in Hrun. injection Hrun as <-. rewrite app_nil_r. repeat split; try assumption;
      apply Hc.
  - cbn [map for_each] in Hrun. apply bind_ok in Hrun as (st1 & Hstep & Hrun).
    destruct (item_policy before (forms ++ after) form i wc tag st st1)
      as (Hpi & Hpw & Hidx & Hc1 & Hd1 & Hcands1); [exact Hall | exact Hc | exact Hstep |].
    rewrite bool_decide_eq_false_2 in Hd1, Hcands1 by (intros Hne; apply Hne; symmetry; exact Hw).
    destruct (IH (before ++ [form])%list st1) as (Hpi' & Hpw' & Hidx' & Hc' & Hd' & Hcands');
      try assumption.
    { rewrite Hall, <- app_assoc. reflexivity. }
    rewrite <- app_assoc in Hc'. simpl in Hc'.
    rewrite forms_neighbours_cons, for_each_app, Hcands1. cbn [mbind res_bind].
    rewrite <- app_assoc. simpl.
    repeat split; try assumption; try apply Hc'. congruence.
Qed.

Lemma forms_of_nonempty (word : string) :
  exists form forms, forms_of self word = form :: forms.
Proof.
  unfold forms_of, lookup_forms. destruct (bool_decide (word ≠ normal_of self word)); eauto.
Qed.

(** The items of a word leave its candidates as the current candidates,
    once the candidates of the word before are appended to those of its
    mention. *)
Lemma word_policy (word : string) (before after : list string) (i wc : nat) (tag : string)
    (st st' : ItemState) :
  all = (before ++ forms_of self word ++ after)%list ->
  counters_at self before st ->
  loop_start i wc st ->
  for_each (item_step self D I' (List.filter (in_index self) all))
    (map (fun form => (i, wc, tag, in_index self form)) (forms_of self word)) st = Ok st' ->
  exists cw,
    word_candidates self D_all I_all tag (pre ++ before) word = Ok cw
    /\ flushed st' = flush (flushed st) i cw
    /\ prev_index st' = i /\ prev_word_count st' = wc /\ index st' = Some i
    /\ counters_at self (before ++ forms_of self word) st'.
Proof.
  intros Hall Hc Hstart Hrun. unfold word_candidates.
  destruct (forms_of_nonempty word) as (form & forms & Hforms). rewrite Hforms in *.
  cbn [map for_each] in Hrun. apply bind_ok in Hrun as (st1 & Hstep & Hrun).
  destruct (item_policy before (forms ++ after) form i wc tag st st1)
    as (Hpi & Hpw & Hidx & Hc1 & Hd1 & Hcands1); [exact Hall | exact Hc | exact Hstep |].
  destruct (forms_tail forms (before ++ [form])%list after i wc tag st1 st')
    as (Hpi' & Hpw' & Hidx' & Hc' & Hd' & Hcands'); try assumption.
  { rewrite Hall, <- app_assoc. reflexivity. }
  rewrite <- app_assoc in Hc'. simpl in Hc'.
  exists (candidate_entities st').
  assert (Hstart' : (if bool_decide (wc ≠ prev_word_count st) then []
                     else candidate_entities st) = []).
  { destruct Hstart as [Hlt | (_ & _ & Hnil & _)].
    - rewrite bool_decide_eq_true_2 by lia. reflexivity.
    - rewrite Hnil. now destruct (bool_decide _). }
  rewrite Hstart' in Hcands1.
  split.
  { rewrite forms_neighbours_cons, for_each_app, Hcands1. cbn [mbind res_bind].
    rewrite <- app_assoc. exact Hcands'. }
  split.
  { unfold flushed. rewrite Hpi', Hd', Hd1.
    destruct Hstart as [Hlt | (Heq & Hd0 & Hc0 & Hp0 & Hi0)].
    - rewrite bool_decide_eq_true_2 by lia. reflexivity.
    - rewrite bool_decide_eq_false_2 by (intros Hne; apply Hne; symmetry; exact Heq).
      rewrite Hd0, Hc0, Hp0, Hi0. now rewrite flush_flush. }
  repeat split; try assumption; apply Hc'.
Qed.

Lemma words_policy (words : list string) (word : string) (before after : list string)
    (i wc : nat) (tag : string) (st st' : ItemState) :
  all = (before ++ mention_forms self (word :: words) ++ after)%list ->
  counters_at self before st ->
  loop_start i wc st ->
  for_each (item_step self D I' (List.filter (in_index self) all)) (word_items self i tag wc (word :: words)) st = Ok st' ->
  exists cws,
    map_res (fun '(b, w) => word_candidates self D_all I_all tag b w)
      (with_before (forms_of self) (pre ++ before) (word :: words)) = Ok cws
    /\ flushed st' = flush (flushed st) i (concat cws)
    /\ prev_index st' = i /\ prev_word_count st' = (wc + length words)%nat
    /\ index st' = Some i
    /\ counters_at self (before ++ mention_forms self (word :: words)) st'.
Proof.
  revert word before wc st. induction words as [|word2 words IH];
    intros word before wc st Hall Hc Hstart Hrun.
  - cbn [word_items] in Hrun. rewrite app_nil_r in Hrun.
    unfold mention_forms in Hall. cbn [map concat] in Hall. rewrite app_nil_r in Hall.
    destruct (word_policy word before after i wc tag st st' Hall Hc Hstart Hrun)
      as (cw & Hcw & Hfl & Hpi & Hpw & Hidx & Hc').
    exists [cw]. cbn [with_before map_res]. rewrite Hcw. cbn [mbind res_bind concat].
    rewrite app_nil_r, Nat.add_0_r. unfold mention_forms. cbn [map concat].
    rewrite app_nil_r. repeat split; try assumption; apply Hc'.
  - cbn [word_items] in Hrun. rewrite for_each_app in Hrun.
    apply bind_ok in Hrun as (st1 & Hrun1 & Hrun).
    assert (Hall1 : all = (before ++ forms_of self word
                           ++ (mention_forms self (word2 :: words) ++ after))%list).
    { rewrite Hall. unfold mention_forms. cbn [map concat]. now rewrite <- !app_assoc. }
    destruct (word_policy word before _ i wc tag st st1 Hall1 Hc Hstart Hrun1)
      as (cw & Hcw & Hfl & Hpi & Hpw & Hidx & Hc1).
    destruct (IH word2 (before ++ forms_of self word)%list (S wc) st1)
      as (cws & Hcws & Hfl' & Hpi' & Hpw' & Hidx' & Hc'); try assumption.
    { rewrite Hall1, <- app_assoc. reflexivity. }
    { left. lia. }
    exists (cw :: cws). rewrite with_before_cons. cbn [map_res]. rewrite Hcw.
    cbn [mbind res_bind]. rewrite <- app_assoc, Hcws. cbn [mbind res_bind concat].
    split; [reflexivity|]. split.
    { rewrite Hfl', Hfl. apply flush_flush. }
    split; [exact Hpi'|]. split; [rewrite Hpw'; simpl; lia|]. split; [exact Hidx'|].
    unfold mention_forms in *. cbn [map concat] in *. rewrite <- app_assoc in Hc'.
    exact Hc'.
Qed.

Lemma mentions_policy (doc : list (list string * string)) (before after : list string)
    (i wc : nat) (st st' : ItemState) :
  List.Forall (fun m => m.1 ≠ []) doc ->
  all = (before ++ doc_forms self (map fst doc) ++ after)%list ->
  counters_at self before st ->
  loop_start i wc st ->
  for_each (item_step self D I' (List.filter (in_index self) all)) (mention_items self i wc doc) st = Ok st' ->
  exists Cs,
    map_res (fun '(b, m) => mention_candidates self D_all I_all m.2 b m.1)
      (with_before (fun m : list string * string => mention_forms self m.1)
         (pre ++ before) doc) = Ok Cs
    /\ flushed st' = flush_all (flushed st) (combine (seq i (length doc)) Cs)
    /\ counters_at self (before ++ doc_forms self (map fst doc)) st'
    /\ (doc ≠ [] ->
        prev_index st' = (i + length doc - 1)%nat
        /\ index st' = Some (i + length doc - 1)%nat
        /\ (prev_word_count st' < wc + length (concat (map fst doc)))%nat).
Proof.
  intros Hne. revert before i wc st.
  induction Hne as [|[words tag] doc Hwords _ IH]; intros before i wc st Hall Hc Hstart Hrun.
  - simpl in Hrun. injection Hrun as <-. exists []. simpl. rewrite app_nil_r.
    split; [reflexivity|]. split; [reflexivity|]. split; [exact Hc|]. congruence.
  - simpl in Hwords. destruct words as [|word words]; [congruence|].
    cbn [mention_items] in Hrun. rewrite for_each_app in Hrun.
    apply bind_ok in Hrun as (st1 & Hrun1 & Hrun).
    assert (Hall1 : all = (before ++ mention_forms self (word :: words)
                           ++ (doc_forms self (map fst doc) ++ after))%list).
    { rewrite Hall. unfold doc_forms. cbn [map concat fst]. now rewrite <- !app_assoc. }
    destruct (words_policy words word before _ i wc tag st st1 Hall1 Hc Hstart Hrun1)
      as (cws & Hcws & Hfl & Hpi & Hpw & Hidx & Hc1).
    destruct (IH (before ++ mention_forms self (word :: words))%list (S i)
                (wc + length (word :: words))%nat st1)
      as (Cs & HCs & Hfl' & Hc' & Hlast); try assumption.
    { rewrite Hall1, <- app_assoc. reflexivity. }
    { left. rewrite Hpw. simpl. lia. }
    exists (concat cws :: Cs). rewrite with_before_cons. cbn [map_res].
    assert (Hmc : mention_candidates self D_all I_all tag (pre ++ before) (word :: words)
                  = Ok (concat cws))
      by (unfold mention_candidates; rewrite Hcws; reflexivity).
    cbn [fst snd]. rewrite Hmc. cbn [mbind res_bind].
    rewrite <- app_assoc, HCs. cbn [mbind res_bind].
    split; [reflexivity|]. split.
    { rewrite Hfl', Hfl. reflexivity. }
    split.
    { unfold doc_forms in *. cbn [map concat fst] in *. rewrite <- app_assoc in Hc'.
      exact Hc'. }
    intros _. destruct doc as [|m doc].
    + simpl in Hrun. injection Hrun as <-. rewrite Hpi, Hidx, Hpw. simpl.
      replace (i + 1 - 1)%nat with i by lia. split; [reflexivity|]. split; [reflexivity|].
      rewrite app_nil_r. lia.
    + destruct Hlast as (Hl1 & Hl2 & Hl3); [discriminate|].
      rewrite Hl1, Hl2. cbn [length map concat fst] in *.
      rewrite ?length_app in *. cbn [length] in *.
      split; [lia|]. split; [f_equal; lia|]. lia.
Qed.

(** The dictionary of candidates of a document holds, under the number
    of each mention, the candidates that the policy gives to its words. *)
Lemma collect_policy (doc : list (list string * string)) (wc : nat) (scan : WordScan)
    (index0 : option nat) (index : nat) (dict : list (nat * list (string * Z * Q))) :
  all = doc_forms self (map fst doc) ->
  doc ≠ [] -> List.Forall (fun m => m.1 ≠ []) doc ->
  scan_of self wc doc scan ->
  collect_candidates self index0 scan D I' = Ok (index, dict) ->
  exists Cs,
    map_res (fun '(b, m) => mention_candidates self D_all I_all m.2 b m.1)
      (with_before (fun m : list string * string => mention_forms self m.1) pre doc)
    = Ok Cs
    /\ length Cs = length doc
    /\ dict = combine (seq 0 (length doc)) Cs.
Proof.
  intros Hall Hdoc Hne (Hal & Hitems & Hfnd) Hrun. unfold collect_candidates in Hrun.
  change (combine (combine (combine (indices scan) (word_counts scan)) (word_tags scan))
            (word_fnd_flags scan)) with (scan_items scan) in Hrun.
  rewrite Hitems, Hfnd, <- Hall in Hrun.
  apply bind_ok in Hrun as (st & Hloop & Hrun).
  apply bind_ok in Hrun as (idx & Hidx & [= <- <-]).
  match type of Hloop with
  | for_each _ _ ?s0 = _ =>
      destruct (mentions_policy doc [] [] 0 wc s0 st Hne) as (Cs & HCs & Hfl & _ & Hlast);
        [ rewrite app_nil_r; exact Hall | split; reflexivity | | exact Hloop | ]
  end.
  { destruct wc as [|wc]; [right; repeat split; reflexivity | left; simpl; lia]. }
  rewrite app_nil_r in HCs. exists Cs. split; [exact HCs|].
  assert (Hlen : length Cs = length doc).
  { apply map_res_length in HCs. now rewrite length_with_before in HCs. }
  split; [exact Hlen|].
  destruct (Hlast Hdoc) as (Hpi & Hix & _).
  assert (Hidx' : idx = prev_index st).
  { rewrite Hix in Hidx. cbn [of_option] in Hidx. rewrite Hpi. congruence. }
  rewrite Hidx'. fold (flushed st). rewrite Hfl.
  unfold flushed. simpl. destruct Cs as [|C Cs]; [destruct doc; [congruence|discriminate]|].
  destruct doc as [|m doc]; [congruence|]. simpl in Hlen. injection Hlen as Hlen.
  cbn [length seq combine]. unfold flush_all. cbn [fold_left fst snd].
  change (flush (flush [] 0 []) 0 C) with [(0%nat, C)].
  rewrite <- Hlen. fold (flush_all [(0%nat, C)] (combine (seq 1 (length Cs)) Cs)).
  rewrite (flush_all_seq Cs 1 [(0%nat, C)]) by reflexivity. reflexivity.
Qed.
End Collect.

(** ** The lookup policy: one document *)

Lemma map_fst_combine {A B} (l1 : list A) (l2 : list B) :
  length l1 = length l2 -> map fst (combine l1 l2) = l1.
Proof.
  revert l2. induction l1 as [|a l1 IH]; intros [|b l2] Hlen; simpl in *;
    try discriminate; [reflexivity|].
  f_equal. apply IH. lia.
Qed.

Section LinkDoc.
Context `{PyRuntime} (self : EntityLinkerSep).
Variables (D_all : list (list Q)) (I_all : list (list Z)).

Lemma pre_rank_fused (doc : list (list string * string)) (before : list string)
    (Cs : list (list (string * Z * Q))) (totals : list (list (string * Q)))
    (ranked : list (list string * shaped string * shaped conf * list (string * (Q * Z)))) :
  map_res (fun '(b, m) => mention_candidates self D_all I_all m.2 b m.1)
    (with_before (fun m : list string * string => mention_forms self m.1) before doc)
  = Ok Cs ->
  map_res (fun '(candidate_entities, substr_len) =>
             sum_scores candidate_entities (Z.of_nat substr_len))
    (combine Cs (map (fun m : list string * string => length m.1) doc)) = Ok totals ->
  map_res (fun '(entity_substr, candidate_entities) => pre_rank self candidate_entities)
    (combine (map fst doc) totals) = Ok ranked ->
  map_res (fun '(b, mention) => mention_pre_rank self D_all I_all b mention)
    (with_before (fun m : list string * string => mention_forms self m.1) before doc)
  = Ok ranked.
Proof.
  revert before Cs totals ranked.
  induction doc as [|m doc IH]; intros before Cs totals ranked HCs Htot Hrank.
  - simpl in HCs. injection HCs as <-. simpl in Htot. injection Htot as <-.
    simpl in Hrank. injection Hrank as <-. reflexivity.
  - rewrite with_before_cons in *. cbn [map_res] in HCs.
    apply bind_ok in HCs as (C & HC & HCs). apply bind_ok in HCs as (Cs' & HCs' & [= <-]).
    cbn [map combine map_res] in Htot.
    apply bind_ok in Htot as (t & Ht & Htot). apply bind_ok in Htot as (ts & Hts & [= <-]).
    cbn [map combine map_res] in Hrank.
    apply bind_ok in Hrank as (r & Hr & Hrank).
    apply bind_ok in Hrank as (rs & Hrs & [= <-]).
    assert (Hm : mention_pre_rank self D_all I_all before m = Ok r).
    { unfold mention_pre_rank. rewrite HC. cbn [mbind res_bind]. rewrite Ht.
      cbn [mbind res_bind]. exact Hr. }
    cbn [map_res]. rewrite Hm. cbn [mbind res_bind].
    rewrite (IH _ Cs' ts rs HCs' Hts Hrs). reflexivity.
Qed.

Variables (D : list (list Q)) (I' : list (list Z)) (pre : list string).
Hypothesis HD : forall r x, D !! r = Some x ->
                            D_all !! (length (absent_forms self pre) + r)%nat = Some x.
Hypothesis HI : forall r x, I' !! r = Some x ->
                            I_all !! (length (absent_forms self pre) + r)%nat = Some x.

(** The results of lines 518-618 on a document are those of the policy. *)
Lemma link_doc_policy (index0 : option nat)
    (entity_substr_list : list (list string)) (entity_offsets_list : list (Z * Z))
    (sentences_list : list string) (sentences_offsets_list : list (Z * Z))
    (scan : WordScan) (tags : list string) (wc : nat)
    (index : option nat) (ids : list (shaped string)) (confs : list (shaped conf)) :
  length tags = length entity_substr_list ->
  List.Forall (fun words => words ≠ []) entity_substr_list ->
  scan_of self wc (combine entity_substr_list tags) scan ->
  link_doc self index0 entity_substr_list entity_offsets_list sentences_list
    sentences_offsets_list scan tags D I' = Ok (index, ids, confs) ->
  doc_by_policy self D_all I_all pre entity_substr_list tags entity_offsets_list
    sentences_list sentences_offsets_list = Ok (ids, confs).
Proof.
  intros Hlen Hne Hscan Hrun. unfold link_doc in Hrun. unfold doc_by_policy, doc_pre_ranked.
  destruct entity_substr_list as [|words0 rest] eqn:Hlist.
  - simpl in Hrun. injection Hrun as <- <- <-. simpl.
    destruct (use_descriptions self); [|reflexivity].
    unfold rank_by_description. simpl. reflexivity.
  - rewrite <- Hlist in *. assert (Hempty : is_empty entity_substr_list = false)
      by (rewrite Hlist; reflexivity).
    rewrite Hempty in Hrun.
    apply bind_ok in Hrun as ([idx dict] & Hcollect & Hrun).
    apply bind_ok in Hrun as (totals & Htot & Hrun).
    apply bind_ok in Hrun as (ranked & Hrank & Hrun).
    set (doc := combine entity_substr_list tags) in *.
    assert (Hfst : map fst doc = entity_substr_list)
      by (apply map_fst_combine; symmetry; exact Hlen).
    destruct (collect_policy self D_all I_all D I' pre (doc_forms self (map fst doc))
                HD HI doc wc scan index0 idx dict)
      as (Cs & HCs & HlenCs & Hdict); try assumption; try reflexivity.
    { unfold doc. rewrite Hlist in Hlen |- *. destruct tags; [discriminate Hlen | discriminate]. }
    { unfold doc. apply List.Forall_forall. intros [w t] Hin. simpl.
      apply in_combine_l in Hin. rewrite List.Forall_forall in Hne. now apply Hne. }
    assert (Hvalues : PyDict.values dict = Cs).
    { rewrite Hdict. unfold PyDict.values. apply map_snd_combine.
      now rewrite length_seq. }
    rewrite Hvalues in Htot.
    assert (Hlens : map (fun entity_substr : list string => length entity_substr)
                      entity_substr_list
                    = map (fun m : list string * string => length m.1) doc).
    { rewrite <- Hfst at 1. now rewrite map_map. }
    rewrite Hlens in Htot. rewrite <- Hfst in Hrank at 1.
    rewrite (pre_rank_fused doc pre Cs totals ranked HCs Htot Hrank).
    cbn [mbind res_bind].
    destruct (use_descriptions self).
    + apply bind_ok in Hrun as ([ids' confs'] & Hrbd & [= <- <- <-]). exact Hrbd.
    + injection Hrun as <- <- <-. reflexivity.
Qed.
End LinkDoc.

(** ** The lookup policy: the words sent to the search *)

(** The scan of a batch sends the forms that the index does not have, with
    the numbers of their documents, and records the items of every
    document. *)
Lemma scan_batch_explicit (self : EntityLinkerSep)
    (zipped : list (list (list string) * list string)) (j : nat)
    (nf : list (string * nat)) (wc : nat) (scans : list WordScan) :
  morph_total self ->
  exists wc' scans',
    for_each (scan_doc self) (enumerate_from j zipped) (nf, wc, scans)
    = Ok ((nf ++ batch_nf self j (map (fun x => map fst (combine x.1 x.2)) zipped))%list,
          wc', (scans ++ scans')%list)
    /\ Forall2 (fun x d => exists wck, scan_of self wck (combine x.1 x.2) d) zipped scans'.
Proof.
  intros Hm. revert j nf wc scans.
  induction zipped as [|[words_list tags_list] zipped IH]; intros j nf wc scans.
  - exists wc, []. simpl. rewrite !app_nil_r. split; [reflexivity|constructor].
  - cbn [enumerate_from for_each].
    destruct (scan_doc_explicit self j words_list tags_list nf wc scans Hm)
      as (d & Hdoc & Hscan).
    rewrite Hdoc. cbn [mbind res_bind].
    destruct (IH (S j)
                (nf ++ map (fun w => (w, j))
                         (absent_forms self
                            (doc_forms self (map fst (combine words_list tags_list)))))%list
                (wc + length (concat (map fst (combine words_list tags_list))))%nat
                (scans ++ [d])%list) as (wc' & scans' & Hrun & Hall).
    exists wc', (d :: scans'). rewrite Hrun. split.
    + cbn [map batch_nf fst snd]. rewrite <- !app_assoc. reflexivity.
    + constructor; [exists wc; exact Hscan | exact Hall].
Qed.

Lemma map_fst_batch_nf (self : EntityLinkerSep) (j : nat) (docs : list (list (list string))) :
  map fst (batch_nf self j docs) = absent_forms self (batch_forms self docs).
Proof.
  revert j. induction docs as [|doc docs IH]; intros j; [reflexivity|].
  cbn [batch_nf]. rewrite map_app, map_map, IH. cbn [fst]. rewrite map_id.
  unfold batch_forms. cbn [map concat]. now rewrite absent_forms_app.
Qed.

Lemma batch_nf_ge (self : EntityLinkerSep) (j : nat) (docs : list (list (list string))) :
  List.Forall (fun x => (j <= x.2)%nat) (batch_nf self j docs).
Proof.
  revert j. induction docs as [|doc docs IH]; intros j; [constructor|].
  cbn [batch_nf]. apply List.Forall_app. split.
  - apply List.Forall_map. apply List.Forall_forall. intros w _. simpl. lia.
  - eapply List.Forall_impl; [|apply IH]. simpl. intros x Hx. lia.
Qed.

Lemma combine_app_eq {A B} (l1 l1' : list A) (l2 l2' : list B) :
  length l1 = length l2 ->
  combine (l1 ++ l1') (l2 ++ l2') = (combine l1 l2 ++ combine l1' l2')%list.
Proof.
  revert l2. induction l1 as [|a l1 IH]; intros [|b l2] Hlen; simpl in *;
    try discriminate; [reflexivity|].
  f_equal. apply IH. lia.
Qed.

Lemma rows_of_all {A} (j : nat) (rows : list A) (nums : list nat) :
  length rows = length nums -> List.Forall (fun n => n = j) nums ->
  rows_of j (combine rows nums) = rows.
Proof.
  revert nums. induction rows as [|r rows IH]; intros [|n nums] Hlen Hall; simpl in *;
    try discriminate; [reflexivity|].
  inversion Hall as [|? ? Hn Hrest]; subst. unfold rows_of in *. simpl.
  rewrite Nat.eqb_refl. simpl. f_equal. apply IH; [lia | assumption].
Qed.

(** The rows that lines 493-514 give to document [j] are the rows of the
    forms of this document: they start after the rows of the documents
    before it. *)
Lemma rows_of_batch_nf {A} (self : EntityLinkerSep) (docs : list (list (list string)))
    (j0 : nat) (rows : list A) (k : nat) (doc : list (list string)) :
  length rows = length (batch_nf self j0 docs) ->
  docs !! k = Some doc ->
  rows_of (j0 + k) (combine rows (map snd (batch_nf self j0 docs)))
  = take (length (absent_forms self (doc_forms self doc)))
      (drop (length (absent_forms self (batch_forms self (take k docs)))) rows).
Proof.
  revert j0 rows k. induction docs as [|doc0 docs IH]; intros j0 rows k Hlen Hk;
    [discriminate|].
  cbn [batch_nf] in *. rewrite length_app, length_map in Hlen.
  set (n0 := length (absent_forms self (doc_forms self doc0))) in *.
  rewrite map_app.
  rewrite <- (take_drop n0 rows) at 1.
  rewrite combine_app_eq by (rewrite length_take, !length_map; fold n0; lia).
  rewrite rows_of_app.
  destruct k as [|k].
  - injection Hk as <-. rewrite Nat.add_0_r. simpl.
    rewrite rows_of_all.
    + rewrite rows_of_none; [now rewrite app_nil_r|].
      apply List.Forall_forall. intros [r n] Hin. apply in_combine_r in Hin.
      apply in_map_iff in Hin as (x & <- & Hin).
      pose proof (batch_nf_ge self (S j0) docs) as Hge.
      rewrite List.Forall_forall in Hge. specialize (Hge x Hin). simpl. lia.
    + rewrite length_take, !length_map. fold n0. lia.
    + apply List.Forall_map. apply List.Forall_map. apply List.Forall_forall.
      intros w _. reflexivity.
  - simpl in Hk. rewrite rows_of_none.
    + simpl. replace (j0 + S k)%nat with (S j0 + k)%nat by lia.
      rewrite (IH (S j0) (drop n0 rows) k); [| rewrite length_drop; lia | exact Hk].
      rewrite drop_drop. unfold batch_forms. cbn [take map concat].
      rewrite absent_forms_app, length_app. fold n0. reflexivity.
    + apply List.Forall_forall. intros [r n] Hin. apply in_combine_r in Hin.
      rewrite map_map in Hin. apply in_map_iff in Hin as (x & <- & Hin). simpl. lia.
Qed.

Lemma map_fst_take_drop_combine {A B} (l1 : list A) (l2 : list B) (n m : nat) :
  length l1 = length l2 ->
  map fst (take n (drop m (combine l1 l2))) = take n (drop m l1).
Proof.
  intros Hlen. rewrite <- (map_fst_combine l1 l2 Hlen) at 2.
  now rewrite <- fmap_drop, <- fmap_take.
Qed.

Lemma map_snd_take_drop_combine {A B} (l1 : list A) (l2 : list B) (n m : nat) :
  length l1 = length l2 ->
  map snd (take n (drop m (combine l1 l2))) = take n (drop m l2).
Proof.
  intros Hlen. rewrite <- (map_snd_combine l1 l2 Hlen) at 2.
  now rewrite <- fmap_drop, <- fmap_take.
Qed.

Lemma lookup_take_drop {A} (l : list A) (n m r : nat) (x : A) :
  take n (drop m l) !! r = Some x -> l !! (m + r)%nat = Some x.
Proof.
  intros Hr. apply lookup_take_Some in Hr as (Hr & _). now rewrite lookup_drop in Hr.
Qed.

Lemma words_of_zipped (words_batch : list (list (list string)))
    (tags_batch : list (list string)) :
  Forall2 (fun (ms : list (list string)) (ts : list string) => length ts = length ms)
    words_batch tags_batch ->
  map (fun x : list (list string) * list string => map fst (combine x.1 x.2))
    (combine words_batch tags_batch) = words_batch.
Proof.
  induction 1 as [|ms ts words_batch tags_batch Hlen _ IH]; simpl; [reflexivity|].
  rewrite IH. f_equal. apply map_fst_combine. now symmetry.
Qed.

(** ** [link_entities] follows the lookup policy *)

(** On a well-formed batch [link_entities] returns, and the results of
    every document are those of the policy on the rows of the one search,
    whose words are the forms of the batch that the index does not have. *)
Lemma link_entities_policy `{PyRuntime} (self : EntityLinkerSep)
    (entity_substr_batch : list (list string)) (tags_batch : list (list string))
    (entity_offsets_batch : list (list (Z * Z))) (sentences_batch : list (list string))
    (sentences_offsets_batch : list (list (Z * Z))) :
  morph_total self -> search_ok self -> ranker_ok self -> tags_known self tags_batch ->
  length sentences_batch = length entity_substr_batch ->
  length sentences_offsets_batch = length entity_substr_batch ->
  Forall2 (fun ms ts => length ts = length ms) entity_substr_batch tags_batch ->
  Forall2 (fun ms os => length os = length ms) entity_substr_batch entity_offsets_batch ->
  List.Forall (List.Forall (fun m => split_words self m ≠ [])) entity_substr_batch ->
  let words_batch := map (map (split_words self)) entity_substr_batch in
  let queried := absent_forms self (batch_forms self words_batch) in
  let found := if negb (is_empty queried) then search self queried else ([], []) in
  exists ids confs,
    link_entities self entity_substr_batch tags_batch entity_offsets_batch
      sentences_batch sentences_offsets_batch = Ok (ids, confs)
    /\ Forall2 (fun (ms : list string) (r : list (shaped string)) => length r = length ms)
         entity_substr_batch ids
    /\ Forall2 (fun (ms : list string) (r : list (shaped conf)) => length r = length ms)
         entity_substr_batch confs
    /\ (num_entities_to_return self ≠ 1%nat -> List.Forall (List.Forall is_several) ids)
    /\ forall j ms ts os ss so,
         entity_substr_batch !! j = Some ms -> tags_batch !! j = Some ts ->
         entity_offsets_batch !! j = Some os ->
         sentences_batch !! j = Some ss -> sentences_offsets_batch !! j = Some so ->
         exists ids_j confs_j,
           ids !! j = Some ids_j /\ confs !! j = Some confs_j
           /\ doc_by_policy self found.1 found.2 (batch_forms self (take j words_batch))
                (map (split_words self) ms) ts os ss so
              = Ok (ids_j, confs_j).
Proof.
  intros Hm Hsearch Hranker Hknown Hsent Hsoff Htags Hoffs Hwords words_batch queried found.
  destruct (link_entities_ok self entity_substr_batch tags_batch entity_offsets_batch
              sentences_batch sentences_offsets_batch)
    as (ids & confs & Hok & Hl1 & Hl2 & Hsev); try assumption.
  exists ids, confs. split; [exact Hok|]. split; [exact Hl1|]. split; [exact Hl2|].
  split; [exact Hsev|].
  set (N := length entity_substr_batch).
  assert (HtagsN : length tags_batch = N) by (symmetry; eapply Forall2_length; exact Htags).
  assert (HoffsN : length entity_offsets_batch = N)
    by (symmetry; eapply Forall2_length; exact Hoffs).
  assert (HwordsN : length words_batch = N) by (unfold words_batch; now rewrite length_map).
  assert (Hwt : Forall2 (fun (ms : list (list string)) (ts : list string) =>
                           length ts = length ms) words_batch tags_batch).
  { unfold words_batch. apply Forall2_fmap_l. eapply Forall2_impl; [exact Htags|].
    simpl. intros ms ts Hlen. now rewrite length_map. }
  unfold link_entities in Hok. fold words_batch in Hok.
  destruct (scan_batch self words_batch tags_batch Hm)
    as ([[nf0 wc0] scans0] & Hscan0 & Hlen0 & Hlt & Hsorted & _).
  destruct (scan_batch_explicit self (combine words_batch tags_batch) 0 [] 0 [] Hm)
    as (wc' & scans & Hscan & Hscans).
  rewrite (words_of_zipped words_batch tags_batch Hwt) in Hscan.
  rewrite Hscan in Hscan0. simpl in Hscan0. injection Hscan0 as <- <- <-.
  rewrite Hscan in Hok. cbn [mbind res_bind] in Hok.
  rewrite length_combine, HwordsN, HtagsN, Nat.min_id in Hlt.
  cbv beta iota zeta in Hok. cbn [app] in Hok.
  set (nf := batch_nf self 0 words_batch) in *.
  assert (Hq : map fst nf = queried) by apply map_fst_batch_nf.
  rewrite Hq in Hok. fold found in Hok.
  assert (Hfound : length found.1 = length nf /\ length found.2 = length nf).
  { unfold found. rewrite <- Hq. destruct nf as [|x nf']; simpl; [auto|].
    destruct (Hsearch (map fst (x :: nf'))) as (H1 & H2 & _).
    rewrite length_map in H1, H2. auto. }
  destruct found as [D_all I_all]. simpl in Hfound. destruct Hfound as (HDlen & HIlen).
  cbn [fst snd].
  rewrite HwordsN in Hok.
  rewrite regroup_spec in Hok.
  2:{ apply docs_sorted_combine. exact Hsorted. }
  2:{ apply (Forall_combine_snd (fun d => (d < N)%nat)). apply List.Forall_map. exact Hlt. }
  set (rows := combine (combine D_all I_all) (map snd nf)) in *.
  apply bind_ok in Hok as ([[idx ids'] confs'] & Hloop & [= -> ->]).
  assert (HscansN : length scans = N).
  { apply Forall2_length in Hscans. rewrite length_combine in Hscans. lia. }
  (* the rows of a document *)
  assert (Hrows : forall k doc, words_batch !! k = Some doc ->
            rows_of k rows
            = take (length (absent_forms self (doc_forms self doc)))
                (drop (length (absent_forms self (batch_forms self (take k words_batch))))
                   (combine D_all I_all))).
  { intros k doc Hk. unfold rows, nf.
    apply (rows_of_batch_nf self words_batch 0 (combine D_all I_all) k doc);
      [|exact Hk].
    rewrite length_combine. fold nf. lia. }
  set (P := fun (k : nat)
                (st : option nat * list (list (shaped string)) * list (list (shaped conf))) =>
              length st.1.2 = k /\ length st.2 = k
              /\ forall j ms ts os ss so,
                   (j < k)%nat ->
                   entity_substr_batch !! j = Some ms -> tags_batch !! j = Some ts ->
                   entity_offsets_batch !! j = Some os ->
                   sentences_batch !! j = Some ss -> sentences_offsets_batch !! j = Some so ->
                   exists ids_j confs_j,
                     st.1.2 !! j = Some ids_j /\ st.2 !! j = Some confs_j
                     /\ doc_by_policy self D_all I_all
                          (batch_forms self (take j words_batch))
                          (map (split_words self) ms) ts os ss so
                        = Ok (ids_j, confs_j)).
  match type of Hloop with
  | for_each ?b ?l ?s = Ok ?r =>
      pose proof (for_each_invariant b P l s r) as Hinv
  end.
  match type of Hinv with
  | ?A -> ?B -> ?C -> _ => assert (Hstep : A); [| assert (Hinit : B) ]
  end.
  - intros k [[[[[[[esl offs] sents] soffs] scan] tags] D] I'] [[idx1 ids1] confs1]
      [[idx2 ids2] confs2] Hk (Hn1 & Hn2 & HP) Hbody.
    simpl in Hn1, Hn2, HP.
    apply lookup_combine in Hk as [Hk HI']. apply lookup_combine in Hk as [Hk HD'].
    apply lookup_combine in Hk as [Hk Htg]. apply lookup_combine in Hk as [Hk Hsc].
    apply lookup_combine in Hk as [Hk Hso]. apply lookup_combine in Hk as [Hk Hse].
    apply lookup_combine in Hk as [Hesl Hof]. simpl in *.
    pose proof Hesl as Hwl.
    unfold words_batch in Hesl. rewrite list_lookup_fmap in Hesl.
    destruct (entity_substr_batch !! k) as [ms|] eqn:Hms; [|discriminate].
    injection Hesl as <-.
    assert (Hlt_tags : length tags = length ms).
    { eapply Forall2_lookup_lr in Htags; eauto. }
    assert (Hnonempty : Forall (fun words : list string => words ≠ [])
                          (map (split_words self) ms)).
    { apply List.Forall_map. rewrite List.Forall_forall in Hwords. apply Hwords.
      apply list_elem_of_In. eapply list_elem_of_lookup_2. exact Hms. }
    rewrite list_lookup_fmap in HD'. rewrite list_lookup_fmap in HI'.
    destruct (seq 0 N !! k) as [k'|] eqn:Hseq; [|discriminate].
    apply lookup_seq in Hseq as [-> HkN]. simpl in HD', HI'.
    injection HD' as <-. injection HI' as <-.
    assert (Hscan_of : exists wck, scan_of self wck (combine (map (split_words self) ms) tags)
                                     scan).
    { eapply (Forall2_lookup_lr _ _ _ k (map (split_words self) ms, tags) scan) in Hscans;
        [exact Hscans | | exact Hsc].
      apply lookup_combine_Some; assumption. }
    destruct Hscan_of as (wck & Hscan_of).
    apply bind_ok in Hbody as ([[idx' ids_l] conf_l] & Hdoc & [= <- <- <-]).
    rewrite (Hrows k _ Hwl) in Hdoc.
    rewrite map_fst_take_drop_combine, map_snd_take_drop_combine in Hdoc by lia.
    set (c := length (absent_forms self (doc_forms self (map (split_words self) ms))))
      in *.
    set (off := length (absent_forms self (batch_forms self (take k words_batch)))) in *.
    pose proof (link_doc_policy self D_all I_all (take c (drop off D_all))
                  (take c (drop off I_all))
                  (batch_forms self (take k words_batch))
                  (fun r x => lookup_take_drop D_all c off r x)
                  (fun r x => lookup_take_drop I_all c off r x)
                  idx1 (map (split_words self) ms) offs sents soffs scan tags wck
                  idx' ids_l conf_l) as Hpol.
    rewrite length_map in Hpol. specialize (Hpol Hlt_tags Hnonempty Hscan_of Hdoc).
    unfold P. simpl. rewrite !length_app. simpl. split; [lia|]. split; [lia|].
    intros j ms' ts os ss so Hj Hms' Hts Hos Hss Hso'.
    destruct (decide (j < k)%nat) as [Hlt'|Hge].
    + destruct (HP j ms' ts os ss so Hlt' Hms' Hts Hos Hss Hso')
        as (ids_j & confs_j & Hi & Hc & Hd).
      exists ids_j, confs_j. rewrite !lookup_app_l by (eapply lookup_lt_Some; eassumption).
      auto.
    + assert (j = k) by lia. subst j.
      rewrite Hms in Hms'. injection Hms' as <-.
      rewrite Htg in Hts. injection Hts as <-. rewrite Hof in Hos. injection Hos as <-.
      rewrite Hse in Hss. injection Hss as <-. rewrite Hso in Hso'. injection Hso' as <-.
      exists ids_l, conf_l.
      rewrite !lookup_app_r by lia. rewrite Hn1, Hn2, Nat.sub_diag. simpl. auto.
  - unfold P. simpl. split; [reflexivity|]. split; [reflexivity|]. intros; lia.
  - specialize (Hinv Hstep Hinit Hloop). destruct Hinv as (Hn1 & Hn2 & HP).
    simpl in Hn1, Hn2, HP.
    intros j ms ts os ss so Hms Hts Hos Hss Hso.
    apply (HP j ms ts os ss so); try assumption.
    rewrite !length_combine, !length_map, length_seq.
    apply lookup_lt_Some in Hms. fold N in Hms.
    rewrite HwordsN, HoffsN, Hsent, Hsoff, HscansN, HtagsN. fold N. lia.
Qed.

(** ** The results of a document, mention by mention *)

Lemma map_res_lookup {A B} (f : A -> res B) (l : list A) (r : list B) (k : nat) (x : A) :
  map_res f l = Ok r -> l !! k = Some x -> exists y, r !! k = Some y /\ f x = Ok y.
Proof.
  revert r k. induction l as [|a l IH]; intros r k Hr Hk; [discriminate|].
  simpl in Hr. apply bind_ok in Hr as (y & Hy & Hr).
  apply bind_ok in Hr as (ys & Hys & [= <-]).
  destruct k as [|k]; simpl in *.
  - injection Hk as <-. eauto.
  - eapply IH; eassumption.
Qed.

Lemma with_before_lookup {A} (forms : A -> list string) (before : list string)
    (l : list A) (k : nat) (x : A) :
  l !! k = Some x ->
  with_before forms before l !! k
  = Some ((before ++ concat (map forms (take k l)))%list, x).
Proof.
  revert before k. induction l as [|a l IH]; intros before k Hk; [discriminate|].
  destruct k as [|k]; simpl in *.
  - injection Hk as <-. now rewrite app_nil_r.
  - rewrite (IH _ _ Hk). now rewrite <- app_assoc.
Qed.

Lemma map_fst_take_combine {A B} (l1 : list A) (l2 : list B) (k : nat) :
  length l1 = length l2 -> map fst (take k (combine l1 l2)) = take k l1.
Proof.
  intros Hlen. rewrite <- (map_fst_combine l1 l2 Hlen) at 2. now rewrite <- fmap_take.
Qed.

Section PointwiseFacts.
Context `{PyRuntime} (self : EntityLinkerSep).

(** The result of [rank_by_description] for the mention number [k] is the
    reranking of its own candidates with its own scores. *)
Lemma rank_by_description_lookup
    (entity_substr_list : list (list string)) (entity_offsets_list : list (Z * Z))
    (candidate_entities_list : list (list string)) (tags : list string)
    (entities_scores_list : list (list (string * (Q * Z))))
    (sentences_list : list string) (sentences_offsets_list : list (Z * Z))
    (substr_lens : list nat) (ids : list (shaped string)) (confs : list (shaped conf))
    (k : nat) (entity_substr : list string) (candidate_entities : list string)
    (tag : string) (substr_len : nat) (entities_scores : list (string * (Q * Z)))
    (scores : list (string * Q)) :
  rank_by_description self entity_substr_list entity_offsets_list candidate_entities_list
    tags entities_scores_list sentences_list sentences_offsets_list substr_lens
  = Ok (ids, confs) ->
  entity_substr_list !! k = Some entity_substr ->
  candidate_entities_list !! k = Some candidate_entities ->
  tags !! k = Some tag -> substr_lens !! k = Some substr_len ->
  entities_scores_list !! k = Some entities_scores ->
  description_scores self entity_substr_list entity_offsets_list candidate_entities_list
    sentences_list sentences_offsets_list !! k = Some scores ->
  exists id conf,
    rerank_mention self substr_len entities_scores scores = Ok (id, conf)
    /\ ids !! k = Some id /\ confs !! k = Some conf.
Proof.
  intros Hrun Hw Hc Ht Hl He Hs. unfold rank_by_description in Hrun.
  fold (description_scores self entity_substr_list entity_offsets_list
          candidate_entities_list sentences_list sentences_offsets_list) in Hrun.
  apply bind_ok in Hrun as (results & Hres & [= <- <-]).
  destruct (map_res_lookup _ _ _ k
              (entity_substr, candidate_entities, tag, substr_len, entities_scores, scores)
              Hres) as ([id conf] & Hy & Hf).
  { repeat (apply lookup_combine_Some; [|assumption]). assumption. }
  simpl in Hf. exists id, conf. split; [exact Hf|].
  rewrite !list_lookup_fmap, Hy. split; reflexivity.
Qed.

Lemma doc_by_policy_pointwise (D_all : list (list Q)) (I_all : list (list Z))
    (before : list string) (entity_substr_list : list (list string)) (tags : list string)
    (entity_offsets_list : list (Z * Z)) (sentences_list : list string)
    (sentences_offsets_list : list (Z * Z))
    (ids : list (shaped string)) (confs : list (shaped conf)) :
  ranker_ok self ->
  length tags = length entity_substr_list ->
  doc_by_policy self D_all I_all before entity_substr_list tags entity_offsets_list
    sentences_list sentences_offsets_list = Ok (ids, confs) ->
  exists ranked,
    doc_pre_ranked self D_all I_all before entity_substr_list tags = Ok ranked
    /\ length ranked = length entity_substr_list
    /\ forall k entity_substr tag,
         entity_substr_list !! k = Some entity_substr -> tags !! k = Some tag ->
         exists r id conf,
           ranked !! k = Some r
           /\ mention_pre_rank self D_all I_all
                (before ++ doc_forms self (take k entity_substr_list))
                (entity_substr, tag) = Ok r
           /\ ids !! k = Some id /\ confs !! k = Some conf
           /\ (use_descriptions self = false -> id = r.1.1.2 /\ conf = r.1.2)
           /\ (use_descriptions self = true ->
               exists scores,
                 description_scores self entity_substr_list entity_offsets_list
                   (map (fun r => r.1.1.1) ranked) sentences_list sentences_offsets_list
                 !! k = Some scores
                 /\ rerank_mention self (length entity_substr) r.2 scores = Ok (id, conf)).
Proof.
  intros Hranker Hlen Hrun. unfold doc_by_policy in Hrun.
  apply bind_ok in Hrun as (ranked & Hranked & Hrun).
  exists ranked. split; [exact Hranked|].
  assert (Hn : length ranked = length entity_substr_list).
  { unfold doc_pre_ranked in Hranked. apply map_res_length in Hranked.
    rewrite length_with_before, length_combine in Hranked. lia. }
  split; [exact Hn|].
  intros k entity_substr tag Hw Ht.
  unfold doc_pre_ranked in Hranked.
  destruct (map_res_lookup _ _ _ k _ Hranked
              (with_before_lookup _ before _ k (entity_substr, tag)
                 (lookup_combine_Some _ _ _ _ _ Hw Ht)))
    as (r & Hr & Hpre).
  cbn beta iota in Hpre.
  assert (Hforms : concat (map (fun m : list string * string => mention_forms self m.1)
                             (take k (combine entity_substr_list tags)))
                   = doc_forms self (take k entity_substr_list)).
  { unfold doc_forms. rewrite <- (map_fst_take_combine entity_substr_list tags k)
      by (symmetry; exact Hlen).
    now rewrite map_map. }
  rewrite Hforms in Hpre.
  destruct (use_descriptions self) eqn:Hdescr.
  - assert (Hscores : exists scores,
               description_scores self entity_substr_list entity_offsets_list
                 (map (fun r => r.1.1.1) ranked) sentences_list sentences_offsets_list
               !! k = Some scores).
    { apply lookup_lt_is_Some_2. unfold description_scores.
      rewrite Hranker, length_map, Hn. eapply lookup_lt_Some. exact Hw. }
    destruct Hscores as (scores & Hscores).
    destruct (rank_by_description_lookup _ _ _ _ _ _ _ _ ids confs k entity_substr
                r.1.1.1 tag (length entity_substr) r.2 scores Hrun Hw)
      as (id & conf & Hre & Hid & Hconf); try assumption.
    + now rewrite list_lookup_fmap, Hr.
    + now rewrite list_lookup_fmap, Hw.
    + now rewrite list_lookup_fmap, Hr.
    + exists r, id, conf. repeat split; try assumption; [discriminate | discriminate |].
      intros _. exists scores. split; assumption.
  - injection Hrun as <- <-. exists r, r.1.1.2, r.1.2.
    rewrite !list_lookup_fmap, Hr. repeat split; try assumption; try reflexivity.
    discriminate.
Qed.
End PointwiseFacts.

(** ** [__call__]: the results in the returned order *)

(** The results of the mentions without a deny-listed token are those of
    the policy on these mentions alone. *)
Lemma link_batch_policy `{PyRuntime} (self : EntityLinkerSep)
    (entity_substr_batch : list (list string))
    (entity_offsets_batch : list (list (Z * Z))) (tags_batch : list (list string))
    (sentences_offsets_batch : list (list (Z * Z))) (sentences_batch : list (list string)) :
  morph_total self -> search_ok self -> ranker_ok self -> tags_known self tags_batch ->
  length sentences_batch = length entity_substr_batch ->
  length sentences_offsets_batch = length entity_substr_batch ->
  Forall2 (fun ms ts => length ts = length ms) entity_substr_batch tags_batch ->
  Forall2 (fun ms os => length os = length ms) entity_substr_batch entity_offsets_batch ->
  List.Forall (List.Forall (fun m => is_not_found self m = false -> split_words self m ≠ []))
    entity_substr_batch ->
  let docs := batch_mentions entity_substr_batch tags_batch entity_offsets_batch in
  let linked :=
    map (fun doc => map (fun m => split_words self m.1.1) (fnd_mentions self doc)) docs in
  let queried := absent_forms self (batch_forms self linked) in
  let found := if negb (is_empty queried) then search self queried else ([], []) in
  exists fnd_ids fnd_confs,
    link_entities self
      (map (fun doc => map (fun m => m.1.1) (fnd_mentions self doc)) docs)
      (map (fun doc => map (fun m => m.1.2) (fnd_mentions self doc)) docs)
      (map (fun doc => map (fun m => m.2) (fnd_mentions self doc)) docs)
      sentences_batch sentences_offsets_batch
    = Ok (fnd_ids, fnd_confs)
    /\ forall j doc ss so,
         docs !! j = Some doc ->
         sentences_batch !! j = Some ss -> sentences_offsets_batch !! j = Some so ->
         exists ids_j confs_j,
           fnd_ids !! j = Some ids_j /\ fnd_confs !! j = Some confs_j
           /\ doc_by_policy self found.1 found.2 (batch_forms self (take j linked))
                (map (fun m => split_words self m.1.1) (fnd_mentions self doc))
                (map (fun m => m.1.2) (fnd_mentions self doc))
                (map (fun m => m.2) (fnd_mentions self doc)) ss so
              = Ok (ids_j, confs_j).
Proof.
  intros Hm Hsearch Hranker [Hknown Hamb] Hsent Hsoff Htags Hoffs Hwords docs linked
    queried found.
  assert (HtagsN : length tags_batch = length entity_substr_batch)
    by (symmetry; eapply Forall2_length; exact Htags).
  assert (HoffsN : length entity_offsets_batch = length entity_substr_batch)
    by (symmetry; eapply Forall2_length; exact Hoffs).
  assert (Hdocs : length docs = length entity_substr_batch).
  { unfold docs, batch_mentions. rewrite length_map, !length_combine. lia. }
  assert (Hdoc_in : forall doc m, In doc docs -> In m doc ->
            exists s t, In s entity_substr_batch /\ In t tags_batch
                        /\ In m.1.1 s /\ In m.1.2 t).
  { intros doc m Hdoc Hin. apply list_elem_of_In in Hdoc.
    apply list_elem_of_lookup_1 in Hdoc as (j & Hj).
    apply lookup_batch_mentions in Hj as (s & t & o & Hs & Ht & _ & ->).
    apply mentions_In in Hin as [? ?]. exists s, t.
    repeat split; try assumption; apply list_elem_of_In; eapply list_elem_of_lookup_2;
      eassumption. }
  destruct (link_entities_policy self
              (map (fun doc => map (fun m => m.1.1) (fnd_mentions self doc)) docs)
              (map (fun doc => map (fun m => m.1.2) (fnd_mentions self doc)) docs)
              (map (fun doc => map (fun m => m.2) (fnd_mentions self doc)) docs)
              sentences_batch sentences_offsets_batch)
    as (fnd_ids & fnd_confs & Hlink & _ & _ & _ & Hpol); try assumption.
  - split; [|assumption]. apply List.Forall_map. apply List.Forall_forall. intros doc Hdoc.
    apply List.Forall_map. apply List.Forall_forall. intros m Hin.
    apply filter_In in Hin as [Hin _].
    destruct (Hdoc_in doc m Hdoc Hin) as (s & t & _ & Ht & _ & Hmt).
    rewrite List.Forall_forall in Hknown. specialize (Hknown t Ht).
    rewrite List.Forall_forall in Hknown. now apply Hknown.
  - now rewrite length_map, Hdocs.
  - now rewrite length_map, Hdocs.
  - apply Forall2_map_same. intros doc. now rewrite !length_map.
  - apply Forall2_map_same. intros doc. now rewrite !length_map.
  - apply List.Forall_map. apply List.Forall_forall. intros doc Hdoc.
    apply List.Forall_map. apply List.Forall_forall. intros m Hin.
    apply filter_In in Hin as [Hin Hnf]. apply negb_true_iff in Hnf.
    destruct (Hdoc_in doc m Hdoc Hin) as (s & t & Hs & _ & Hms & _).
    rewrite List.Forall_forall in Hwords. specialize (Hwords s Hs).
    rewrite List.Forall_forall in Hwords. now apply Hwords.
  - exists fnd_ids, fnd_confs. split; [exact Hlink|].
    assert (Hlinked : map (map (split_words self))
                        (map (fun doc => map (fun m : string * string * (Z * Z) => m.1.1)
                                           (fnd_mentions self doc)) docs) = linked).
    { unfold linked. rewrite map_map. apply map_ext. intros doc. now rewrite map_map. }
    rewrite Hlinked in Hpol. fold queried in Hpol. fold found in Hpol.
    intros j doc ss so Hdoc Hss Hso.
    destruct (Hpol j (map (fun m => m.1.1) (fnd_mentions self doc))
                (map (fun m => m.1.2) (fnd_mentions self doc))
                (map (fun m => m.2) (fnd_mentions self doc)) ss so)
      as (ids_j & confs_j & Hi & Hc & Hd);
      try (rewrite list_lookup_fmap, Hdoc; reflexivity); try assumption.
    exists ids_j, confs_j. rewrite map_map in Hd. auto.
Qed.

(** C1.  In list mode, on a well-formed batch (parallel lists, one
    list of sentences and of sentence spans per document, known tags, an
    analyser, a search and a reranker that answer in the expected shape) in
    which every mention without a deny-listed token keeps a word once the
    stopwords are removed, the call returns.  For each document it returns
    the deny-listed mentions followed by the other mentions, each group in
    input order, with their tags and offsets, and exactly one result and one
    label for every mention.  The results follow this returned order: the
    results of the deny-listed mentions are the not-found sentinel, and the
    result at the position of the [k]-th other mention is the ranking
    result of that very mention: the ranking of the candidates of its own
    words (lines 578-605) or, with descriptions, the reranking of these
    candidates with the scores that the reranker returns for it. *)
Theorem call_one_result_per_mention `{PyRuntime} (self : EntityLinkerSep)
    (entity_substr_batch : list (list string))
    (entity_offsets_batch : list (list (Z * Z))) (tags_batch : list (list string))
    (sentences_offsets_batch : list (list (Z * Z))) (sentences_batch : list (list string)) :
  num_entities_to_return self ≠ 1%nat ->
  morph_total self -> search_ok self -> ranker_ok self -> tags_known self tags_batch ->
  length sentences_batch = length entity_substr_batch ->
  length sentences_offsets_batch = length entity_substr_batch ->
  Forall2 (fun ms ts => length ts = length ms) entity_substr_batch tags_batch ->
  Forall2 (fun ms os => length os = length ms) entity_substr_batch entity_offsets_batch ->
  List.Forall (List.Forall (fun m => is_not_found self m = false -> split_words self m ≠ []))
    entity_substr_batch ->
  let docs := batch_mentions entity_substr_batch tags_batch entity_offsets_batch in
  let linked :=
    map (fun doc => map (fun m => split_words self m.1.1) (fnd_mentions self doc)) docs in
  let queried := absent_forms self (batch_forms self linked) in
  let found := if negb (is_empty queried) then search self queried else ([], []) in
  exists out,
    EntityLinkerSep_call self entity_substr_batch entity_offsets_batch tags_batch
      sentences_offsets_batch sentences_batch = Ok out
    /\ length (out_entity_ids out) = length entity_substr_batch
    /\ forall j entity_substr_list tags_list entity_offsets_list sentences_list
              sentences_offsets_list,
         entity_substr_batch !! j = Some entity_substr_list ->
         tags_batch !! j = Some tags_list ->
         entity_offsets_batch !! j = Some entity_offsets_list ->
         sentences_batch !! j = Some sentences_list ->
         sentences_offsets_batch !! j = Some sentences_offsets_list ->
         let doc := mentions entity_substr_list tags_list entity_offsets_list in
         let nf := nf_mentions self doc in
         let fnd := fnd_mentions self doc in
         let fnd_words := map (fun m => split_words self m.1.1) fnd in
         out_entity_substr out !! j = Some (map (fun m => m.1.1) (nf ++ fnd))
         /\ out_tags out !! j = Some (map (fun m => m.1.2) (nf ++ fnd))
         /\ out_entity_offsets out !! j = Some (map (fun m => m.2) (nf ++ fnd))
         /\ exists ids labels ranked,
              out_entity_ids out !! j = Some ids
              /\ out_entity_labels out !! j = Some labels
              /\ length ids = length entity_substr_list
              /\ length labels = length entity_substr_list
              /\ take (length nf) ids = map (fun _ => Several [not_found_str self]) nf
              /\ doc_pre_ranked self found.1 found.2 (batch_forms self (take j linked))
                   fnd_words (map (fun m => m.1.2) fnd) = Ok ranked
              /\ forall k m,
                   fnd !! k = Some m ->
                   exists r id,
                     ranked !! k = Some r
                     /\ mention_pre_rank self found.1 found.2
                          (batch_forms self (take j linked)
                           ++ doc_forms self (take k fnd_words))
                          (split_words self m.1.1, m.1.2) = Ok r
                     /\ ids !! (length nf + k)%nat = Some id
                     /\ (use_descriptions self = false -> id = r.1.1.2)
                     /\ (use_descriptions self = true ->
                         exists scores conf,
                           description_scores self fnd_words (map (fun m => m.2) fnd)
                             (map (fun r => r.1.1.1) ranked) sentences_list
                             sentences_offsets_list !! k = Some scores
                           /\ rerank_mention self (length (split_words self m.1.1)) r.2
                                scores = Ok (id, conf)).
Proof.
  intros Hn Hm Hsearch Hranker Hknown Hsent Hsoff Htags Hoffs Hwords docs linked queried
    found.
  destruct (link_batch_ok self entity_substr_batch entity_offsets_batch tags_batch
              sentences_offsets_batch sentences_batch)
    as (fi & fc & Hlink & Hfi & Hfc & Hsev & Hbatch); try assumption.
  destruct (link_batch_policy self entity_substr_batch entity_offsets_batch tags_batch
              sentences_offsets_batch sentences_batch)
    as (fi' & fc' & Hlink' & Hpol); try assumption.
  fold docs in Hlink, Hfi, Hfc, Hbatch, Hlink', Hpol. fold linked in Hpol.
  fold queried in Hpol. fold found in Hpol.
  rewrite Hlink in Hlink'. injection Hlink' as <- <-.
  specialize (Hsev Hn). simpl in Hbatch.
  assert (HtagsN : length tags_batch = length entity_substr_batch)
    by (symmetry; eapply Forall2_length; exact Htags).
  assert (HoffsN : length entity_offsets_batch = length entity_substr_batch)
    by (symmetry; eapply Forall2_length; exact Hoffs).
  assert (HdocsN : length docs = length entity_substr_batch).
  { unfold docs, batch_mentions. rewrite length_map, !length_combine. lia. }
  set (merged :=
         map (fun '(doc, ids, confs) =>
                (map (fun m : string * string * (Z * Z) => m.1.1)
                   (nf_mentions self doc ++ fnd_mentions self doc),
                 map (fun m : string * string * (Z * Z) => m.1.2)
                   (nf_mentions self doc ++ fnd_mentions self doc),
                 map (fun m : string * string * (Z * Z) => m.2)
                   (nf_mentions self doc ++ fnd_mentions self doc),
                 (map (fun _ : string * string * (Z * Z) => (not_found_answer self).1)
                    (nf_mentions self doc) ++ ids)%list,
                 (map (fun _ : string * string * (Z * Z) => (not_found_answer self).2)
                    (nf_mentions self doc) ++ confs)%list))
             (combine (combine docs fi) fc)) in *.
  destruct (find_labels_several self (map (fun r => r.1.2) merged))
    as (labels & Hlabels & Hll).
  { unfold merged. rewrite map_map. apply List.Forall_map. apply List.Forall_forall.
    intros [[doc a] b] Hin. simpl. apply List.Forall_app. split.
    - apply List.Forall_map. apply List.Forall_forall. intros m _.
      now rewrite (not_found_answer_several self Hn).
    - rewrite List.Forall_forall in Hsev. apply Hsev.
      apply in_combine_l, in_combine_r in Hin. exact Hin. }
  eexists. split.
  { unfold EntityLinkerSep_call. rewrite Hbatch. cbn [mbind res_bind].
    rewrite Hlabels. reflexivity. }
  cbn [out_entity_substr out_tags out_entity_offsets out_entity_ids out_entity_labels].
  split.
  { unfold merged. rewrite !length_map, !length_combine.
    apply Forall2_length in Hfi, Hfc. lia. }
  intros j ms ts os ss so Hms Hts Hos Hss Hso.
  set (doc := mentions ms ts os) in *.
  set (nf := nf_mentions self doc) in *. set (fnd := fnd_mentions self doc) in *.
  set (fnd_words := map (fun m : string * string * (Z * Z) => split_words self m.1.1) fnd)
    in *.
  assert (Hdoc : docs !! j = Some doc).
  { unfold docs, batch_mentions. rewrite list_lookup_fmap.
    rewrite (lookup_combine_Some _ _ j (ms, ts) os); [reflexivity | | exact Hos].
    now apply lookup_combine_Some. }
  destruct (Hpol j doc ss so Hdoc Hss Hso) as (a & b & Ha & Hb & Hd).
  fold fnd in Hd. fold fnd_words in Hd.
  assert (Hmerged : merged !! j
                    = Some (map (fun m => m.1.1) (nf ++ fnd), map (fun m => m.1.2) (nf ++ fnd),
                            map (fun m => m.2) (nf ++ fnd),
                            (map (fun _ => (not_found_answer self).1) nf ++ a)%list,
                            (map (fun _ => (not_found_answer self).2) nf ++ b)%list)).
  { unfold merged. rewrite list_lookup_fmap.
    rewrite (lookup_combine_Some _ _ j (doc, a) b);
      [reflexivity | now apply lookup_combine_Some | exact Hb]. }
  rewrite !list_lookup_fmap, Hmerged. cbn [fmap option_fmap option_map fst snd].
  split; [reflexivity|]. split; [reflexivity|]. split; [reflexivity|].
  assert (Hla : length a = length fnd).
  { eapply (Forall2_lookup_lr _ _ _ j doc a) in Hfi; eassumption. }
  destruct (doc_by_policy_pointwise self found.1 found.2 (batch_forms self (take j linked))
              fnd_words (map (fun m => m.1.2) fnd) (map (fun m => m.2) fnd) ss so a b)
    as (ranked & Hranked & Hrn & Hpoint); try assumption.
  { unfold fnd_words. now rewrite !length_map. }
  assert (Hlab : exists lab, labels !! j = Some lab
                   /\ length lab
                      = length (map (fun _ : string * string * (Z * Z) =>
                                       (not_found_answer self).1) nf ++ a)%list).
  { eapply (Forall2_lookup_l _ _ _ j) in Hll; [exact Hll|].
    now rewrite list_lookup_fmap, Hmerged. }
  destruct Hlab as (lab & Hlab & Hlablen).
  assert (Hdoclen : length doc = length ms).
  { apply length_mentions.
    - eapply (Forall2_lookup_lr _ _ _ j ms ts Htags); eassumption.
    - eapply (Forall2_lookup_lr _ _ _ j ms os Hoffs); eassumption. }
  pose proof (length_nf_fnd self doc) as Hsum. fold nf in Hsum. fold fnd in Hsum.
  exists (map (fun _ => (not_found_answer self).1) nf ++ a)%list, lab, ranked.
  split; [reflexivity|]. split; [exact Hlab|].
  assert (Hids : length (map (fun _ : string * string * (Z * Z) => (not_found_answer self).1)
                           nf ++ a)%list = length ms).
  { rewrite length_app, length_map. lia. }
  split; [exact Hids|]. split; [lia|]. split.
  { rewrite take_app_length' by now rewrite length_map.
    now rewrite (not_found_answer_several self Hn). }
  split; [exact Hranked|].
  intros k m Hk.
  destruct (Hpoint k (split_words self m.1.1) m.1.2)
    as (r & id & conf & Hr & Hpre & Hid & _ & Hplain & Hdescr).
  { unfold fnd_words. now rewrite list_lookup_fmap, Hk. }
  { now rewrite list_lookup_fmap, Hk. }
  exists r, id. split; [exact Hr|]. split; [exact Hpre|]. split.
  { rewrite lookup_app_r by (rewrite length_map; lia).
    rewrite length_map. replace (length nf + k - length nf)%nat with k by lia. exact Hid. }
  split.
  { intros Hoff. now destruct (Hplain Hoff). }
  intros Hon. destruct (Hdescr Hon) as (scores & Hs & Hre). exists scores, conf. auto.
Qed.

Lemma call_one_result_per_mention_witness :
  exists out,
    EntityLinkerSep_call (H := sample_runtime) sample_linker
      [["moscow"; "ооо ромашка"]] [[(0, 6)%Z; (10, 21)%Z]] [["LOC"; "ORG"]]
      [[(0, 30)%Z]] [["moscow and ooo romashka"]] = Ok out
    /\ length (out_entity_ids out) = 1%nat.
Proof.
  destruct (call_one_result_per_mention (H := sample_runtime) sample_linker
              [["moscow"; "ооо ромашка"]] [[(0, 6)%Z; (10, 21)%Z]] [["LOC"; "ORG"]]
              [[(0, 30)%Z]] [["moscow and ooo romashka"]])
    as (out & Hout & Hlen & _).
  - discriminate.
  - exact sample_morph_total.
  - exact sample_search_ok.
  - exact sample_ranker_ok.
  - exact sample_tags_known.
  - reflexivity.
  - reflexivity.
  - repeat constructor.
  - repeat constructor.
  - repeat constructor; vm_compute; discriminate.
  - exists out. split; assumption.
Defined.

(** ** [EntityLinker.link_entities]: the words sent to the search *)

Lemma EntityLinker_scan_word_inv (self : EntityLinker.t) (doc_num i : nat) (tag : string)
    (nf : list (string * nat)) (wc : nat) (d : EntityLinker.Scan) (word : string)
    (nf' : list (string * nat)) (wc' : nat) (d' : EntityLinker.Scan) :
  EntityLinker.scan_word self doc_num i tag (nf, wc, d) word = Ok (nf', wc', d') ->
  map fst nf' = (map fst nf ++ EntityLinker.forms_of self word)%list.
Proof.
  unfold EntityLinker.scan_word, EntityLinker.push_word, EntityLinker.forms_of, lookup_forms.
  intros Hrun. apply bind_ok in Hrun as (w & Hw & Hrun). rewrite Hw.
  destruct (bool_decide (word ≠ w)); injection Hrun as <- _ _;
    rewrite !map_app; simpl; now rewrite <- ?app_assoc.
Qed.

Lemma EntityLinker_scan_words_inv (self : EntityLinker.t) (doc_num i : nat) (tag : string)
    (words : list string) (nf : list (string * nat)) (wc : nat) (d : EntityLinker.Scan)
    (nf' : list (string * nat)) (wc' : nat) (d' : EntityLinker.Scan) :
  for_each (EntityLinker.scan_word self doc_num i tag) words (nf, wc, d) = Ok (nf', wc', d') ->
  map fst nf' = (map fst nf ++ concat (map (EntityLinker.forms_of self) words))%list.
Proof.
  revert nf wc d. induction words as [|word words IH]; intros nf wc d Hrun.
  - simpl in Hrun. injection Hrun as <- _ _. simpl. now rewrite app_nil_r.
  - cbn [for_each] in Hrun. apply bind_ok in Hrun as ([[nf1 wc1] d1] & Hword & Hrun).
    apply IH in Hrun. apply EntityLinker_scan_word_inv in Hword.
    rewrite Hrun, Hword. simpl. now rewrite <- app_assoc.
Qed.

Lemma EntityLinker_scan_mentions_inv (self : EntityLinker.t) (doc_num : nat)
    (doc : list (list string * string)) (i : nat)
    (nf : list (string * nat)) (wc : nat) (d : EntityLinker.Scan)
    (nf' : list (string * nat)) (wc' : nat) (d' : EntityLinker.Scan) :
  for_each
    (fun st '(i, (entity_substr, tag)) =>
       for_each (EntityLinker.scan_word self doc_num i tag) entity_substr st)
    (enumerate_from i doc) (nf, wc, d) = Ok (nf', wc', d') ->
  map fst nf'
  = (map fst nf
     ++ concat (map (fun m : list string * string =>
                       concat (map (EntityLinker.forms_of self) m.1)) doc))%list.
Proof.
  revert i nf wc d. induction doc as [|[words tag] doc IH]; intros i nf wc d Hrun.
  - simpl in Hrun. injection Hrun as <- _ _. simpl. now rewrite app_nil_r.
  - cbn [enumerate_from for_each] in Hrun.
    apply bind_ok in Hrun as ([[nf1 wc1] d1] & Hwords & Hrun).
    apply IH in Hrun. apply EntityLinker_scan_words_inv in Hwords.
    rewrite Hrun, Hwords. simpl. now rewrite <- app_assoc.
Qed.

Lemma EntityLinker_scan_batch_inv (self : EntityLinker.t)
    (zipped : list (list (list string) * list string)) (j : nat)
    (nf : list (string * nat)) (wc : nat) (scans : list EntityLinker.Scan)
    (nf' : list (string * nat)) (wc' : nat) (scans' : list EntityLinker.Scan) :
  for_each (EntityLinker.scan_doc self) (enumerate_from j zipped) (nf, wc, scans)
  = Ok (nf', wc', scans') ->
  map fst nf'
  = (map fst nf
     ++ EntityLinker.batch_forms self
          (map (fun x : list (list string) * list string => map fst (combine x.1 x.2))
             zipped))%list.
Proof.
  revert j nf wc scans. induction zipped as [|[words_list tags_list] zipped IH];
    intros j nf wc scans Hrun.
  - simpl in Hrun. injection Hrun as <- _ _. unfold EntityLinker.batch_forms. simpl.
    now rewrite app_nil_r.
  - cbn [enumerate_from for_each] in Hrun.
    apply bind_ok in Hrun as ([[nf1 wc1] scans1] & Hdoc & Hrun).
    apply IH in Hrun. unfold EntityLinker.scan_doc in Hdoc.
    apply bind_ok in Hdoc as ([[nf2 wc2] d2] & Hmentions & [= <- <- <-]).
    apply EntityLinker_scan_mentions_inv in Hmentions.
    rewrite Hrun, Hmentions. unfold EntityLinker.batch_forms. cbn [map concat fst snd].
    rewrite <- app_assoc. f_equal. f_equal. now rewrite map_map.
Qed.

(** The words of the search are all the forms of all the words. *)
Lemma EntityLinker_searches_every_form (self : EntityLinker.t)
    (entity_substr_batch tags_batch : list (list string))
    (words : list string) (doc_nums : list nat) (rows : list (list Q) * list (list Z))
    (scans : list EntityLinker.Scan) :
  Forall2 (fun ms ts => length ts = length ms) entity_substr_batch tags_batch ->
  EntityLinker.search_words self entity_substr_batch tags_batch
  = Ok (words, doc_nums, rows, scans) ->
  words = EntityLinker.batch_forms self
            (map (map (EntityLinker.split_words self)) entity_substr_batch)
  /\ rows = EntityLinker.search self words.
Proof.
  intros Htags Hrun. unfold EntityLinker.search_words in Hrun.
  apply bind_ok in Hrun as ([[nf wc] scans0] & Hscan & Hrun).
  destruct (is_empty nf); [discriminate|]. injection Hrun as <- _ <- _.
  split; [|reflexivity].
  apply EntityLinker_scan_batch_inv in Hscan. simpl in Hscan. rewrite Hscan.
  rewrite words_of_zipped; [reflexivity|].
  apply Forall2_fmap_l. eapply Forall2_impl; [exact Htags|].
  simpl. intros ms ts Hlen. now rewrite length_map.
Qed.

(** When the analyser gives a normal form for every word and the batch has
    a word, lines 492-528 reach the search. *)
Lemma EntityLinker_search_words_ok (self : EntityLinker.t)
    (entity_substr_batch tags_batch : list (list string)) :
  (forall word, exists w, EntityLinker.morph_parse self word = Ok w) ->
  Forall2 (fun ms ts => length ts = length ms) entity_substr_batch tags_batch ->
  EntityLinker.batch_forms self
    (map (map (EntityLinker.split_words self)) entity_substr_batch) <> [] ->
  exists doc_nums scans,
    EntityLinker.search_words self entity_substr_batch tags_batch
    = Ok (EntityLinker.batch_forms self
            (map (map (EntityLinker.split_words self)) entity_substr_batch),
          doc_nums,
          EntityLinker.search self
            (EntityLinker.batch_forms self
               (map (map (EntityLinker.split_words self)) entity_substr_batch)),
          scans).
Proof.
  intros Hm Htags Hne.
  assert (Hword : forall doc_num i tag st word,
             exists st', EntityLinker.scan_word self doc_num i tag st word = Ok st').
  { intros doc_num i tag [[nf wc] d] word. unfold EntityLinker.scan_word,
      EntityLinker.push_word.
    destruct (Hm word) as (w & ->). simpl.
    destruct (bool_decide (word ≠ w)); eexists; reflexivity. }
  assert (Hdoc : forall st doc, exists st', EntityLinker.scan_doc self st doc = Ok st').
  { intros [[nf wc] scans] [doc_num [ms ts]]. unfold EntityLinker.scan_doc.
    destruct (for_each_ok
                (fun st '(i, (entity_substr, tag)) =>
                   for_each (EntityLinker.scan_word self doc_num i tag) entity_substr st)
                (enumerate_from 0 (combine ms ts))
                (nf, wc, {| EntityLinker.indices := []; EntityLinker.word_counts := [];
                            EntityLinker.word_tags := [] |}))
      as ([[nf' wc'] d'] & ->).
    - intros s1 [i [entity_substr tag]]. apply for_each_ok. intros s2 word. apply Hword.
    - simpl. eexists. reflexivity. }
  unfold EntityLinker.search_words.
  destruct (for_each_ok (EntityLinker.scan_doc self)
              (enumerate_from 0
                 (combine (map (map (EntityLinker.split_words self)) entity_substr_batch)
                    tags_batch))
              ([], 0%nat, []) Hdoc) as ([[nf wc] scans] & Hscan).
  rewrite Hscan. cbn [mbind res_bind].
  apply EntityLinker_scan_batch_inv in Hscan. simpl in Hscan.
  rewrite words_of_zipped in Hscan.
  2:{ apply Forall2_fmap_l. eapply Forall2_impl; [exact Htags|].
      simpl. intros ms ts Hlen. now rewrite length_map. }
  rewrite <- Hscan in Hne |- *.
  destruct nf as [|x nf]; [now contradiction Hne|].
  simpl. eexists _, _. reflexivity.
Qed.

(** C9.  [EntityLinkerSep.link_entities] looks up every form of
    every word of every mention (the word and, when it differs, its normal
    form) in the inverted index.  The forms that the index does not have,
    all of them and only them, in reading order, are the words of the one
    call of the search; a form of the index is its own and only neighbour,
    with similarity 1.0, and a form that was searched gets the row of the
    search results at its own position among the words searched, a returned
    [d] counting as [1 - d] when the index has more than one cell and as [d]
    otherwise: on a well-formed batch the results of [link_entities] are
    those computed from these neighbours.  The policy is per form and not
    per word, and [EntityLinker.link_entities] has no exact lookup: the
    words that it sends to the search are all the forms of all the words,
    whether the index has them or not, and it reaches the search whenever
    its analyser gives a normal form for every word and the batch has a
    word. *)
Theorem lookup_policy_per_form `{PyRuntime} (self : EntityLinkerSep)
    (entity_substr_batch : list (list string)) (tags_batch : list (list string))
    (entity_offsets_batch : list (list (Z * Z))) (sentences_batch : list (list string))
    (sentences_offsets_batch : list (list (Z * Z))) :
  morph_total self -> search_ok self -> ranker_ok self -> tags_known self tags_batch ->
  length sentences_batch = length entity_substr_batch ->
  length sentences_offsets_batch = length entity_substr_batch ->
  Forall2 (fun ms ts => length ts = length ms) entity_substr_batch tags_batch ->
  Forall2 (fun ms os => length os = length ms) entity_substr_batch entity_offsets_batch ->
  List.Forall (List.Forall (fun m => split_words self m ≠ [])) entity_substr_batch ->
  let words_batch := map (map (split_words self)) entity_substr_batch in
  let queried := absent_forms self (batch_forms self words_batch) in
  let found := if negb (is_empty queried) then search self queried else ([], []) in
  (exists ids confs,
      link_entities self entity_substr_batch tags_batch entity_offsets_batch
        sentences_batch sentences_offsets_batch = Ok (ids, confs)
      /\ length ids = length entity_substr_batch
      /\ forall j entity_substr_list tags entity_offsets_list sentences_list
                sentences_offsets_list,
           entity_substr_batch !! j = Some entity_substr_list ->
           tags_batch !! j = Some tags ->
           entity_offsets_batch !! j = Some entity_offsets_list ->
           sentences_batch !! j = Some sentences_list ->
           sentences_offsets_batch !! j = Some sentences_offsets_list ->
           exists entity_ids_list conf_list,
             ids !! j = Some entity_ids_list /\ confs !! j = Some conf_list
             /\ doc_by_policy self found.1 found.2 (batch_forms self (take j words_batch))
                  (map (split_words self) entity_substr_list) tags entity_offsets_list
                  sentences_list sentences_offsets_list
                = Ok (entity_ids_list, conf_list))
  /\ (forall (linker : EntityLinker.t) words doc_nums rows scans,
         EntityLinker.search_words linker entity_substr_batch tags_batch
         = Ok (words, doc_nums, rows, scans) ->
         words = EntityLinker.batch_forms linker
                   (map (map (EntityLinker.split_words linker)) entity_substr_batch)
         /\ rows = EntityLinker.search linker words)
  /\ (forall (linker : EntityLinker.t),
         (forall word, exists w, EntityLinker.morph_parse linker word = Ok w) ->
         let words :=
           EntityLinker.batch_forms linker
             (map (map (EntityLinker.split_words linker)) entity_substr_batch) in
         words <> [] ->
         exists doc_nums scans,
           EntityLinker.search_words linker entity_substr_batch tags_batch
           = Ok (words, doc_nums, EntityLinker.search linker words, scans)).
Proof.
  intros Hm Hsearch Hranker Hknown Hsent Hsoff Htags Hoffs Hwords words_batch queried found.
  split; [|split].
  - destruct (link_entities_policy self entity_substr_batch tags_batch entity_offsets_batch
                sentences_batch sentences_offsets_batch)
      as (ids & confs & Hok & Hl1 & _ & _ & Hpol); try assumption.
    exists ids, confs. split; [exact Hok|]. split.
    + symmetry. eapply Forall2_length. exact Hl1.
    + exact Hpol.
  - intros linker words doc_nums rows scans Hrun.
    exact (EntityLinker_searches_every_form linker entity_substr_batch tags_batch
             words doc_nums rows scans Htags Hrun).
  - intros linker Hlm words Hne.
    exact (EntityLinker_search_words_ok linker entity_substr_batch tags_batch Hlm Htags Hne).
Qed.

(** The sample linker satisfies the assumptions. *)
Lemma sample_forms_morph_total : morph_total sample_linker_forms.
Proof.
  intros word. unfold morph_parse. simpl.
  destruct (bool_decide (word = "москвы")); simpl; eexists; reflexivity.
Qed.

Lemma sample_forms_search_ok : search_ok sample_linker_forms.
Proof.
  intros words. simpl. rewrite !length_map. split; [reflexivity|]. split; [reflexivity|].
  apply List.Forall_map. apply List.Forall_forall. intros w _.
  repeat constructor; vm_compute; intuition discriminate.
Qed.

Lemma lookup_policy_per_form_witness :
  exists ids confs,
    link_entities (H := sample_runtime) sample_linker_forms [["москвы"]] [["LOC"]]
      [[(0, 6)%Z]] [["москвы нет"]] [[(0, 10)%Z]] = Ok (ids, confs)
    /\ length ids = 1%nat.
Proof.
  destruct (lookup_policy_per_form (H := sample_runtime) sample_linker_forms [["москвы"]]
              [["LOC"]] [[(0, 6)%Z]] [["москвы нет"]] [[(0, 10)%Z]])
    as ((ids & confs & Hok & Hlen & _) & _).
  - exact sample_forms_morph_total.
  - exact sample_forms_search_ok.
  - intros contexts cands. simpl. now rewrite length_map.
  - split; repeat constructor; eexists; reflexivity.
  - reflexivity.
  - reflexivity.
  - repeat constructor.
  - repeat constructor.
  - repeat constructor; vm_compute; discriminate.
  - exists ids, confs. split; assumption.
Defined.

(** The word "москвы" is in the inverted index, and yet the search is
    queried for it: with its normal form "москва", which the index does not
    have, and the entity Q211870 of the result comes from the neighbour that
    the search returns.  [EntityLinker] sends the word "moscow" itself to the
    search although its index has it. *)
Lemma word_of_index_still_searched :
  in_index sample_linker_forms "москвы" = true
  /\ (exists scans,
        for_each (scan_doc sample_linker_forms)
          (enumerate_from 0 (combine [[["москвы"]]] [["LOC"]])) ([], 0%nat, [])
        = Ok ([("москва", 0%nat)], 1%nat, scans))
  /\ link_entities (H := sample_runtime) sample_linker_forms [["москвы"]] [["LOC"]]
       [[(0, 6)%Z]] [["москвы нет"]] [[(0, 10)%Z]]
     = Ok ([[Several ["Q649"; "Q211870"]]], [[Several [IdTail "649"; IdTail "211870"]]])
  /\ PyDict.mem (EntityLinker.word_to_idlist sample_entity_linker) "moscow" = true
  /\ (exists scans,
        EntityLinker.search_words sample_entity_linker [["moscow"]] [["LOC"]]
        = Ok (["moscow"], [0%nat], ([[0.25%Q]], [[0%Z]]), scans)).
Proof.
  split; [reflexivity|]. split; [eexists; vm_compute; reflexivity|].
  split; [vm_compute; reflexivity|]. split; [reflexivity|].
  eexists. vm_compute. reflexivity.
Qed.
